(* ===== verification/_CoqProject ===== *)
-Q . S2P
Prelude.v
Fl.v
Tensor.v
Normalize.v
Autograd.v
GradFns.v
Resnet.v
Dream.v
Display.v
Activations.v
Optim.v
Transfer.v
Data.v
Visualize.v
Finetune.v
Notebook.v
