(* ===== verification/Prelude.v ===== *)
(** * A verification development of the PyTorchAWSDay1 notebooks

    The repository holds three teaching notebooks: the visual-understanding
    notebook (lines 694-1558 of [src/optimization_tutorial.ipynb]), the
    [torch.optim] tutorial (lines 1-692 of the same file) and the
    transfer-learning notebook [src/unnamed/part_000].  Their algorithmic
    code is the feature-visualisation loop [dream] (lines 1264-1333) with
    its gradient functions ([default_grad_fn], [my_grad_fn],
    [my_grad_fn2]) and [CustomResNet.forward] (885-910); the training loop
    and the function [train] of the tutorial (309-324, 412-424) with the
    four optimizers built on cloned parameters (371-384); and
    [train_model] (part_000 261-323) and [visualize_model] (353-377).  The
    rest is a sequence of cells calling PyTorch, torchvision, PIL and
    matplotlib.

    ** How the parts interact

    [dream] reads an image produced by [img_transform], repeatedly runs
    the frozen network on a randomly cropped view of it, lets [grad_fn]
    call [backward] on one stage of the network output, reads the gradient
    accumulated in [data.grad], takes a normalised ascent step, clamps to
    the image range, and finally un-normalises and clamps to [0, 1].  The
    tutorial's [train] shares its parameter tensors with the optimizer it
    is given: [zero_grad], [backward] and [step] act on the same tensors.
    [train_model] alternates a training and a validation phase per epoch,
    steps the optimizer and the scheduler per training batch, and keeps the
    weights of the best validation epoch; it is run on [model_ft], whose
    whole network is trained, and on [model_conv], whose pretrained
    layers are frozen and whose optimizer only holds the new classifier.
    All cells read global names bound by earlier cells, resolved when
    they run.

    ** Files of the development, in dependency order

    - [Prelude] (this file): the Python/PyTorch exceptions ([exn]), the
      error monad [result] with its [let*] notation in [result_scope],
      [mapM], Python's [l[i] = v] as [replace_nth], list helpers ([map2])
      and their lemmas, the hint database [dev] and the tactics [inv_ok]
      and [inv_okp] that decompose a successful monadic computation.
    - [Fl]: scalar values of a float tensor: an exact rational [Fin q],
      [PInf], [NInf] or [NaN], with IEEE 754 arithmetic on the special
      values and [torch.max]/[torch.min]/[Tensor.clamp] (NaN propagates);
      [feq] identifies equal rationals, with [Proper] instances.
    - [Tensor]: 3-D tensors as nested lists, shapes, elementwise maps,
      broadcasting of a (C,1,1) constant, the mean, slicing [l[a:-b]] and
      its backward, [permute(1,2,0)].
    - [Normalize]: [mean], [std], [normalize], [unnormalize] and the clamp
      bounds of [dream] (torchvision 0.3 and later broadcasting); the
      one-channel [Normalize] of the tutorial's MNIST cell.
    - [Autograd]: the typeclass [ForwardNet] that a network promises
      ([forward] and a vector-Jacobian product with its shape law), the
      leaf-tensor state ([value], [requires_grad], [grad]) and [backward],
      which accumulates into [grad].
    - [GradFns]: the three gradient functions as the backward call each
      makes (stage and seed), with [matmul], [argmax] and the one-hot seed.
    - [Resnet]: [CustomResNet.forward] as the composition of its stages
      (the torchvision layers are record fields), its [ForwardNet]
      instance, and the model-loading cell (985-993): [eval] and
      [requires_grad_(False)] on the parameters, which AccumulateGrad then
      skips.
    - [Dream]: [random_shift] over an explicit random tape, one iteration
      of the loop as a function on the loop state, the loop, and [dream].
    - [Display]: the transfer notebook's [imshow] (numpy transpose,
      broadcasting and [np.clip]) and the min-max scaling of [upsample].
    - [Activations]: the activation cells (1116-1121, 1147): the channel
      norm [output.norm(2, dim=0)] of each output of [forward], the maps
      the loop shows, and [blend(image, activations[2])] up to the
      scaling of [upsample].
    - [Optim]: the tutorial's tensors in a store indexed by allocation
      order (so that clones and shared tensors are explicit), AccumulateGrad,
      [zero_grad], the step rules of [SGD] (with momentum), [RMSprop] and
      [Adam], the loop cell, [train] and the comparison cells.
    - [Transfer]: [StepLR], the batch, phase and epoch loops of
      [train_model] as functions on a training state, a reference run
      without the best-model bookkeeping, and [StepLR] in the closed
      form [lr * gamma ** (k // step_size)] (PyTorch's in-place
      chainable update gives the same value in exact arithmetic; in
      float32 the repeated products and the power may differ in the
      last bits, and this is not modelled).  The model's forward pass
      in training mode may update state ([track]: the BatchNorm running
      statistics).
    - [Finetune]: the fine-tuning and fixed-feature-extractor cells of
      the transfer notebook (407-419, 502-520) on a store of parameter
      tensors with their [requires_grad] flags, the body's BatchNorm
      buffers and their update in training mode, and the training step of
      [train_model] (284-296) with [zero_grad], [backward] into the
      parameters that require a gradient and [optimizer.step()], plugged
      into [Transfer]'s [train_model].
    - [Data]: the [DataLoader] the transfer notebook builds (library
      code, modelled from its documented behaviour so that the notebook's
      loops can be run on it): a shuffling sampler given by its
      permutation contract (the typeclass [Sampler]), [BatchSampler]'s
      loop, [ImageFolder.__getitem__] through a transform, and
      [default_collate]'s stack; the notebook's own [data_transforms]
      by the shape they produce.
    - [Visualize]: [visualize_model] of the transfer notebook in full:
      the forward pass in evaluation mode per validation batch,
      [torch.max]'s predictions, [images_so_far], matplotlib's subplot
      index check, the title [class_names[preds[j]]], [imshow]'s array
      ([Display.imshow_array]), the early return and the restores of
      the training mode; the figure is the list of its panels.  Also
      [imshow] with its title and the cell showing the first training
      batch (204-224).
    - [Notebook]: the cells of the three notebooks as the global names
      they read, call and bind, run in order with Python's late
      binding.

    ** What the theorems show

    [Dream]: the output range, shape and the NaN produced by a zero
    gradient; with [learning_rate = 0] and a non-zero gradient the result
    is the one of [n_iter = 0] (the specification's first property, in
    the form the float program computes exactly); the loop
    invariants (fresh leaf, clamp range) by induction on the iteration
    count; the effect of one iteration; determinism without random
    shifts; the result for [n_iter <= 0].  [Normalize]: a normalised
    [ToTensor] image lies within [dream]'s clamp bounds, and [normalize]
    raises on images without three channels.  [GradFns] and [Resnet]: which
    seeds the backward pass accepts, the argmax against its specification,
    the five outputs of [forward], the frozen model (a backward pass leaves
    its parameters untouched).  [Optim]: one SGD
    step uses only the current sample's gradient; [train] with tensors that
    are not the optimizer's trains nothing.  [Transfer]: [train_model]
    refines a reference run that selects the best epoch; the scheduler
    steps once per batch; validation changes nothing; an invariant of the
    optimizer steps holds of the returned weights, and [train_model]
    returns when no step raises.
    [Finetune]: training [model_conv] returns the parameters of its
    pretrained body unchanged and still frozen, while every training
    batch moves the body's BatchNorm running statistics; the cell and
    its training never raise, and the first step of [model_ft] moves
    every pretrained parameter.
    [Data]: [BatchSampler]'s loop equals a reference chunking
    defined by well-founded recursion (Equations), whose chunks hold
    every sampled index once whatever the shuffle; the loader never
    raises when the transformed images share a shape; fed to
    [train_model] it gives an accuracy in [0, 1]; [CenterCrop(224)]
    after [Resize(256)] never pads, and the validation loader never
    raises.  [Visualize]: for an even [num_images] the loop with its
    per-batch forward pass, running counter and early return draws the
    panels of the first [num_images] images of the flattened validation
    set (a refinement of a reference without batches), an odd
    [num_images] raises [ValueError] and leaves the model in evaluation
    mode, and on the loader it draws [min(6, N)] titled panels.
    [Display]: [upsample] scales into [0, 1], and a
    constant map to NaN.  [Activations]: the loop shows the four stage
    maps, and the blend reads the third output's norm map without an
    [IndexError] and scales it into [0, 1] when it is finite and not
    constant.  [Notebook]: the tutorial stops with a
    [NameError] on [optim]; the two other notebooks run to the end.

    ** Abstractions and bounds

    Numbers are exact rationals plus the IEEE special values in [Fl], and
    plain rationals in [Optim] and [Transfer]: float32 rounding and the
    float32 conversion of the decimal constants are not modelled.  The
    theorems are therefore stated as the formula a computation evaluates
    (one update, one normalisation, a clamp, a range, a count), which
    the float program computes too; identities between two different
    float computations, true of rationals only (such as
    [unnormalize (normalize x) = x], or numpy's float64 [imshow] against
    torch's float32 un-normalisation), are not stated.  Networks,
    losses, square roots, data loaders and the
    optimizer of [train_model] are parameters (a typeclass instance or
    section variables), so the theorems hold for all of them.  The random
    source is an explicit tape.  No fuel is used: every loop is structural
    in its count ([range(n)] as [Z.to_nat n] or a [nat]), so the theorems
    cover every iteration and epoch count.

    ** Not modelled

    PIL decoding, the pixel values computed by the torchvision transforms
    [Resize], [CenterCrop], [RandomResizedCrop], [RandomHorizontalFlip]
    and [ToTensor] (library code: the input of [dream] is a tensor with
    values in [0, 1], and the loader sees the transforms through the
    shape of their result), the PIL
    resize and colour map of [blend], plotting, downloads and file
    reading, the numerics inside the networks, the random draws of the
    shuffling sampler (only their permutation property is used), and the
    MNIST section of the tutorial apart from its [Normalize] (the
    download, [ToTensor] and the printing of [data.shape] and
    [label.item()] are library code and I/O; the cells' names are
    modelled),
    and [load_state_dict]'s copy of the best weights in [train_model]
    (the weights are a value, the whole store with the BatchNorm
    buffers, so the copy is the value itself).  [optimizer.zero_grad()]
    in the validation phase (line 284) is not modelled: it clears
    gradients that the next training step clears again before any
    computation reads them.  The Jupyter kernel's execution of cells
    is modelled only as the names each cell binds and reads. *)

From Stdlib Require Export List Lia ZArith QArith Qabs Lqa Bool Setoid Morphisms.
From Stdlib Require String.
From Stdlib Require Import Wellfounded Wf_nat.
Export ListNotations.
(** QArith opens [Q_scope]; arithmetic on counts and indices stays in [nat]. *)
Open Scope nat_scope.

(** ** Exceptions raised by the modelled code *)

Inductive exn :=
| IndexError            (** [output[layer]] or [grad_[i]] out of range *)
| ShapeMismatch         (** [backward], [view] or [matmul] on wrong shapes *)
| BroadcastError        (** operands whose shapes do not broadcast *)
| EmptyReduction        (** [argmax] of an empty dimension *)
| ValueError            (** torchvision [Normalize] with a zero std *)
| NoGrad                (** [backward] into a tensor that does not require grad *)
| NetworkError          (** an error raised inside the frozen network *)
| ZeroDivisionError     (** Python division by zero *)
| StopIteration         (** [next] on an exhausted iterator *)
| NameError (name : String.string).

(** ** The error monad *)

Inductive result (A : Type) :=
| Ok (a : A)
| Err (e : exn).
Arguments Ok {A} a.
Arguments Err {A} e.

Definition bind {A B} (c : result A) (k : A -> result B) : result B :=
  match c with Ok a => k a | Err e => Err e end.

Declare Scope result_scope.
Delimit Scope result_scope with result.
Notation "'let*' x ':=' c 'in' k" := (bind c (fun x => k))
  (at level 10, x name, c at level 100, k at level 200) : result_scope.
Notation "'let*' ' p ':=' c 'in' k" := (bind c (fun x => match x with p => k end))
  (at level 10, p pattern, c at level 100, k at level 200) : result_scope.
Open Scope result_scope.

Lemma bind_Ok_inv {A B} (c : result A) (k : A -> result B) (b : B) :
  bind c k = Ok b -> exists a, c = Ok a /\ k a = Ok b.
Proof. destruct c as [a|e]; simpl; [eauto | discriminate]. Qed.

Lemma Ok_inj {A} (a b : A) : Ok a = Ok b -> a = b.
Proof. congruence. Qed.

Lemma bind_Ok {A B} (a : A) (k : A -> result B) : bind (Ok a) k = k a.
Proof. reflexivity. Qed.

Lemma bind_Err {A B} (e : exn) (k : A -> result B) : bind (Err e) k = Err e.
Proof. reflexivity. Qed.

(** The functor map of [result]. *)
Definition rmap {A B} (f : A -> B) (c : result A) : result B :=
  match c with Ok a => Ok (f a) | Err e => Err e end.

Lemma rmap_bind {A B C} (f : B -> C) (c : result A) (k : A -> result B) :
  rmap f (bind c k) = bind c (fun a => rmap f (k a)).
Proof. destruct c; reflexivity. Qed.

(** [inv_ok] splits every hypothesis [bind c k = Ok b] into [c = Ok a]
    and [k a = Ok b], and injects [Ok a = Ok b]. *)
Ltac inv_ok :=
  repeat match goal with
  | H : bind _ _ = Ok _ |- _ =>
      let a := fresh "a" in let Ha := fresh "Ha" in
      apply bind_Ok_inv in H as [a [Ha H]]
  | H : Ok _ = Ok _ |- _ => injection H as H; subst
  | H : Err _ = Ok _ |- _ => discriminate H
  end.

(** [inv_ok] that also splits the pairs a successful computation binds. *)
Ltac inv_okp :=
  repeat (inv_ok;
    match goal with
    | H : context [match ?p with (_, _) => _ end] |- _ => is_var p; destruct p
    end);
  inv_ok.

(** ** Lists *)

Fixpoint map2 {A B C} (f : A -> B -> C) (l1 : list A) (l2 : list B) : list C :=
  match l1, l2 with
  | x :: l1', y :: l2' => f x y :: map2 f l1' l2'
  | _, _ => []
  end.

Create HintDb dev.
Create Rewrite HintDb dev_rw.

Lemma length_map2 {A B C} (f : A -> B -> C) l1 l2 :
  length (map2 f l1 l2) = Nat.min (length l1) (length l2).
Proof.
  revert l2; induction l1 as [|x l1 IH]; intros [|y l2]; simpl; auto.
Qed.

Lemma Forall_map2 {A B C} (P : C -> Prop) (f : A -> B -> C) l1 l2 :
  (forall x y, In x l1 -> In y l2 -> P (f x y)) -> Forall P (map2 f l1 l2).
Proof.
  revert l2; induction l1 as [|x l1 IH]; intros [|y l2] H; simpl; constructor.
  - apply H; simpl; auto.
  - apply IH. intros; apply H; simpl; auto.
Qed.

Lemma Forall_repeat {A} (P : A -> Prop) (x : A) n :
  P x -> Forall P (repeat x n).
Proof. intros Hx. induction n; simpl; constructor; auto. Qed.

Lemma Forall_firstn {A} (P : A -> Prop) n l : Forall P l -> Forall P (firstn n l).
Proof. intros H. revert n. induction H; intros [|n]; simpl; auto. Qed.

Lemma Forall_skipn {A} (P : A -> Prop) n l : Forall P l -> Forall P (skipn n l).
Proof. intros H. revert n. induction H; intros [|n]; simpl; auto. Qed.

(** The list [l] with its [i]-th element replaced by [v], as Python's
    [l[i] = v] leaves it. *)
Lemma Forall_replace {A} (P : A -> Prop) i v l :
  Forall P l -> P v -> Forall P (firstn i l ++ v :: skipn (S i) l).
Proof.
  intros H Hv. apply Forall_app. split; [apply Forall_firstn; exact H|].
  constructor; [exact Hv|apply Forall_skipn; exact H].
Qed.

(** Reading a list from index [j] on: its [j]-th element, then the rest. *)
Lemma skipn_nth_error {A} (l : list A) (j : nat) (a : A) :
  nth_error l j = Some a -> skipn j l = a :: skipn (S j) l.
Proof.
  revert j. induction l as [|x l IH]; intros [|j] H; try discriminate; [injection H as ->; reflexivity|].
  apply IH. exact H.
Qed.

Lemma combine_skipn {A B} (j : nat) (l1 : list A) (l2 : list B) :
  skipn j (combine l1 l2) = combine (skipn j l1) (skipn j l2).
Proof.
  revert l1 l2. induction j as [|j IH]; intros [|x l1] [|y l2]; cbn; try reflexivity.
  - symmetry. apply combine_nil.
  - apply IH.
Qed.

#[export] Hint Resolve Forall_repeat Forall_firstn Forall_skipn Forall_replace : dev.
#[export] Hint Rewrite @length_map2 @length_map @repeat_length @length_app : dev_rw.

(** ** Pointwise relations on lists *)

Lemma Forall2_map2 {A B C A' B' C'} (Ra : A -> A' -> Prop) (Rb : B -> B' -> Prop)
  (Rc : C -> C' -> Prop) (f : A -> B -> C) (g : A' -> B' -> C') a1 a2 b1 b2 :
  Forall2 Ra a1 a2 -> Forall2 Rb b1 b2 ->
  (forall x1 x2 y1 y2, Ra x1 x2 -> Rb y1 y2 -> Rc (f x1 y1) (g x2 y2)) ->
  Forall2 Rc (map2 f a1 b1) (map2 g a2 b2).
Proof.
  intros Ha. revert b1 b2. induction Ha; intros b1 b2 Hb Hf; simpl; [constructor|].
  destruct Hb; simpl; constructor; auto.
Qed.

Lemma Forall2_map_both {A B A' B'} (R : A -> A' -> Prop) (R' : B -> B' -> Prop)
  (f : A -> B) (g : A' -> B') l1 l2 :
  Forall2 R l1 l2 -> (forall x y, R x y -> R' (f x) (g y)) ->
  Forall2 R' (map f l1) (map g l2).
Proof. induction 1; simpl; constructor; auto. Qed.

Lemma Forall2_refl_on {A} (R : A -> A -> Prop) (l : list A) :
  (forall x, In x l -> R x x) -> Forall2 R l l.
Proof. induction l; simpl; constructor; auto. Qed.

#[export] Instance Forall2_Equivalence {A} (R : A -> A -> Prop) :
  Equivalence R -> Equivalence (Forall2 R).
Proof.
  intros [Hr Hs Ht]. split.
  - intros l. apply Forall2_refl_on. auto.
  - intros l1 l2 H. induction H; constructor; auto.
  - intros l1 l2 l3 H12. revert l3. induction H12; intros l3 H23; inversion H23; subst;
      constructor; eauto.
Qed.

(** [map] in the error monad: the first error aborts. *)
Fixpoint mapM {A B} (f : A -> result B) (l : list A) : result (list B) :=
  match l with
  | [] => Ok []
  | x :: l' => let* y := f x in let* ys := mapM f l' in Ok (y :: ys)
  end.

Lemma mapM_length {A B} (f : A -> result B) l ys :
  mapM f l = Ok ys -> length ys = length l.
Proof.
  revert ys; induction l as [|x l IH]; simpl; intros ys H; inv_ok; simpl; auto.
Qed.

Lemma mapM_nth_error {A B} (f : A -> result B) l ys i x :
  mapM f l = Ok ys -> nth_error l i = Some x -> exists y, f x = Ok y /\ nth_error ys i = Some y.
Proof.
  revert ys i; induction l as [|a l IH]; intros ys [|i] E Hi; simpl in *; try discriminate;
    inv_ok; [injection Hi as <-; eauto|eauto].
Qed.

Lemma mapM_Forall2 {A B} (f : A -> result B) l ys :
  mapM f l = Ok ys -> Forall2 (fun x y => f x = Ok y) l ys.
Proof.
  revert ys; induction l as [|x l IH]; simpl; intros ys H; inv_ok; constructor; auto.
Qed.

Lemma mapM_ok {A B} (f : A -> result B) l :
  (forall x, In x l -> exists y, f x = Ok y) -> exists ys, mapM f l = Ok ys.
Proof.
  induction l as [|x l IH]; intros H; [exists []; reflexivity|]. cbn [mapM].
  destruct (H x (or_introl eq_refl)) as [y ->]. cbn [bind].
  destruct IH as [ys ->]; [intros z Hz; exact (H z (or_intror Hz))|]. eexists; reflexivity.
Qed.

Lemma Forall2_In_r {A B} (R : A -> B -> Prop) l l' y :
  Forall2 R l l' -> In y l' -> exists x, In x l /\ R x y.
Proof.
  induction 1 as [|a b l l' Hab _ IH]; [intros []|]. intros [<-|Hy]; [eauto with datatypes|].
  destruct (IH Hy) as (x & Hx & Hr). eauto with datatypes.
Qed.

(** ** Python's [l[i] = v] *)

(** The list [l] with its [i]-th element replaced by [v]. *)
Definition replace_nth {A} (l : list A) (i : nat) (v : A) : list A :=
  firstn i l ++ v :: skipn (S i) l.

Lemma length_replace_nth {A} (l : list A) i v :
  i < length l -> length (replace_nth l i v) = length l.
Proof.
  intros H. unfold replace_nth. rewrite length_app, length_firstn, length_cons, length_skipn.
  lia.
Qed.

Lemma nth_error_replace_nth {A} (l : list A) i v j :
  i < length l -> nth_error (replace_nth l i v) j = if Nat.eqb j i then Some v else nth_error l j.
Proof.
  intros H. unfold replace_nth. destruct (Nat.lt_total j i) as [Hj|[->|Hj]].
  - rewrite nth_error_app1 by (rewrite length_firstn; lia). rewrite nth_error_firstn.
    replace (j <? i) with true by (symmetry; apply Nat.ltb_lt; exact Hj).
    replace (j =? i) with false by (symmetry; apply Nat.eqb_neq; lia). reflexivity.
  - rewrite nth_error_app2 by (rewrite length_firstn; lia).
    rewrite length_firstn, Nat.min_l, Nat.sub_diag, Nat.eqb_refl by lia. reflexivity.
  - rewrite nth_error_app2 by (rewrite length_firstn; lia). rewrite length_firstn, Nat.min_l by lia.
    replace (j - i) with (S (j - S i)) by lia. cbn [nth_error]. rewrite nth_error_skipn.
    replace (j =? i) with false by (symmetry; apply Nat.eqb_neq; lia). f_equal. lia.
Qed.

Lemma replace_nth_twice {A} (l : list A) i v v' :
  i < length l -> replace_nth (replace_nth l i v) i v' = replace_nth l i v'.
Proof.
  intros H. apply nth_error_ext. intros j.
  rewrite !nth_error_replace_nth by (rewrite ?length_replace_nth; lia).
  destruct (j =? i); reflexivity.
Qed.

Lemma replace_nth_same {A} (l : list A) i d :
  i < length l -> replace_nth l i (nth i l d) = l.
Proof.
  intros H. apply nth_error_ext. intros j. rewrite nth_error_replace_nth by exact H.
  destruct (Nat.eqb_spec j i) as [->|]; [|reflexivity]. symmetry. apply nth_error_nth'. exact H.
Qed.

Lemma nth_replace_nth {A} (l : list A) i v j d :
  i < length l -> nth j (replace_nth l i v) d = if Nat.eqb j i then v else nth j l d.
Proof.
  intros H. rewrite <- !nth_default_eq. unfold nth_default. rewrite nth_error_replace_nth by exact H.
  destruct (j =? i); reflexivity.
Qed.

Lemma nth_error_map_some {A B} (f : A -> B) (l : list A) (i : nat) (b : B) :
  nth_error (map f l) i = Some b -> exists a, nth_error l i = Some a /\ b = f a.
Proof. rewrite nth_error_map. destruct (nth_error l i); simpl; intros H; [|discriminate]. injection H; eauto. Qed.

#[export] Hint Rewrite @length_replace_nth using lia : dev_rw.

