(* ===== verification/Fl.v ===== *)
(** * Scalar values of a float tensor

    [Fl.fl] models one element of a [torch.float32] tensor: an exact
    rational ([Fin q]; rounding is not modelled), the two infinities, or
    NaN.  The operations follow IEEE 754 on the special values (signed
    zeros identified), and the comparisons follow PyTorch: [torch.max],
    [torch.min] and [Tensor.clamp] propagate NaN.  [feq] identifies
    rationals that are [Qeq]; every operation is a morphism for it. *)

From S2P Require Import Prelude.

Module Fl.
Local Open Scope Q_scope.

Inductive fl := Fin (q : Q) | PInf | NInf | NaN.

(** Sign of a value; [Eq] for zero and for NaN. *)
Definition sgn (x : fl) : comparison :=
  match x with Fin q => Qcompare q 0 | PInf => Gt | NInf => Lt | NaN => Eq end.

(** The infinity of a sign; the zero "sign" gives NaN ([0 * inf], [0/0]). *)
Definition inf_of (c : comparison) : fl :=
  match c with Gt => PInf | Lt => NInf | Eq => NaN end.

Definition sign_mul (a b : comparison) : comparison :=
  match a, b with
  | Eq, _ | _, Eq => Eq
  | Gt, Gt | Lt, Lt => Gt
  | _, _ => Lt
  end.

Definition add (x y : fl) : fl :=
  match x, y with
  | NaN, _ | _, NaN => NaN
  | PInf, NInf | NInf, PInf => NaN
  | PInf, _ | _, PInf => PInf
  | NInf, _ | _, NInf => NInf
  | Fin a, Fin b => Fin (a + b)
  end.

Definition neg (x : fl) : fl :=
  match x with Fin a => Fin (- a) | PInf => NInf | NInf => PInf | NaN => NaN end.

Definition sub (x y : fl) : fl := add x (neg y).

Definition mul (x y : fl) : fl :=
  match x, y with
  | NaN, _ | _, NaN => NaN
  | Fin a, Fin b => Fin (a * b)
  | _, _ => inf_of (sign_mul (sgn x) (sgn y))
  end.

Definition div (x y : fl) : fl :=
  match x, y with
  | NaN, _ | _, NaN => NaN
  | Fin a, Fin b => if Qeq_bool b 0 then inf_of (sgn x) else Fin (a / b)
  | Fin _, _ => Fin 0
  | _, Fin b => if Qeq_bool b 0 then x else inf_of (sign_mul (sgn x) (sgn y))
  | _, _ => NaN
  end.

Definition abs (x : fl) : fl :=
  match x with Fin a => Fin (Qabs a) | PInf | NInf => PInf | NaN => NaN end.

(** The order on non-NaN values; any comparison with NaN is false. *)
Definition leb (x y : fl) : bool :=
  match x, y with
  | NaN, _ | _, NaN => false
  | NInf, _ | _, PInf => true
  | PInf, _ | _, NInf => false
  | Fin a, Fin b => Qle_bool a b
  end.

(** [torch.max(a, b)] and [torch.min(a, b)], elementwise. *)
Definition maximum (x y : fl) : fl :=
  match x, y with
  | NaN, _ | _, NaN => NaN
  | _, _ => if leb x y then y else x
  end.

Definition minimum (x y : fl) : fl :=
  match x, y with
  | NaN, _ | _, NaN => NaN
  | _, _ => if leb x y then x else y
  end.

(** [Tensor.clamp(min, max)] is [min(max(x, min), max)]. *)
Definition clamp (x lo hi : fl) : fl := minimum (maximum x lo) hi.

Definition is_nan (x : fl) : bool := match x with NaN => true | _ => false end.
Definition finite (x : fl) : bool := match x with Fin _ => true | _ => false end.

Definition in_range (lo hi : Q) (x : fl) : Prop :=
  match x with Fin q => lo <= q <= hi | _ => False end.

(** The property the clamps guarantee: in range, or NaN. *)
Definition nan_or_in (lo hi : Q) (x : fl) : Prop := x = NaN \/ in_range lo hi x.

Definition feq (x y : fl) : Prop :=
  match x, y with
  | Fin a, Fin b => a == b
  | PInf, PInf | NInf, NInf | NaN, NaN => True
  | _, _ => False
  end.

Declare Scope fl_scope.
Delimit Scope fl_scope with fl.
Infix "=f=" := feq (at level 70) : fl_scope.
Open Scope fl_scope.

(** ** The equivalence and the morphisms *)

#[export] Instance feq_equiv : Equivalence feq.
Proof.
  split.
  - intros [a| | |]; simpl; auto. reflexivity.
  - intros [a| | |] [b| | |]; simpl; auto. intros; symmetry; auto.
  - intros [a| | |] [b| | |] [c| | |]; simpl; try tauto.
    intros H1 H2; rewrite H1; exact H2.
Qed.

Lemma Qle_bool_false (a b : Q) : Qle_bool a b = false -> b < a.
Proof.
  intros E. apply Qnot_le_lt. intros H. apply Qle_bool_iff in H. congruence.
Qed.

(** Destruct two related pairs of values, turn the tests of the
    definitions into rational facts and rewrite the rational equations
    into the goal. *)
Ltac fl_solve :=
  simpl in *; try contradiction; try tauto;
  repeat (simpl in *; match goal with |- context [if ?c then _ else _] => destruct c eqn:? end);
  repeat match goal with
  | E : Qeq_bool _ _ = true |- _ => apply Qeq_bool_iff in E
  | E : Qeq_bool _ _ = false |- _ => apply Qeq_bool_neq in E
  | E : Qle_bool _ _ = true |- _ => apply Qle_bool_iff in E
  | E : Qle_bool _ _ = false |- _ => apply Qle_bool_false in E
  end;
  simpl; try reflexivity; try tauto; try (exfalso; lra);
  repeat match goal with H : Qeq ?a ?b |- context [?a] => rewrite H; clear H end;
  try reflexivity.

Ltac fl_proper :=
  repeat (let x := fresh "x" in intro x; try destruct x as [?| | |]);
  fl_solve.

#[export] Instance sgn_proper : Proper (feq ==> eq) sgn.
Proof. fl_proper. Qed.

#[export] Instance add_proper : Proper (feq ==> feq ==> feq) add.
Proof. fl_proper. Qed.

#[export] Instance neg_proper : Proper (feq ==> feq) neg.
Proof. fl_proper. Qed.

#[export] Instance mul_proper : Proper (feq ==> feq ==> feq) mul.
Proof. fl_proper. Qed.

#[export] Instance div_proper : Proper (feq ==> feq ==> feq) div.
Proof. fl_proper. Qed.

#[export] Instance abs_proper : Proper (feq ==> feq) abs.
Proof. fl_proper. Qed.

#[export] Instance leb_proper : Proper (feq ==> feq ==> eq) leb.
Proof. fl_proper. Qed.

#[export] Instance maximum_proper : Proper (feq ==> feq ==> feq) maximum.
Proof. fl_proper. Qed.

#[export] Instance minimum_proper : Proper (feq ==> feq ==> feq) minimum.
Proof. fl_proper. Qed.

#[export] Instance clamp_proper : Proper (feq ==> feq ==> feq ==> feq) clamp.
Proof.
  intros x x' Hx lo lo' Hlo hi hi' Hhi. unfold clamp. rewrite Hx, Hlo, Hhi.
  reflexivity.
Qed.

#[export] Instance in_range_proper : Proper (Qeq ==> Qeq ==> feq ==> iff) in_range.
Proof. intros lo lo' Hlo hi hi' Hhi. fl_proper. Qed.

(** ** Clamping *)

Lemma clamp_NaN (lo hi : fl) : clamp NaN lo hi = NaN.
Proof. reflexivity. Qed.

(** A clamp to finite bounds yields a value in range, or NaN. *)
Lemma clamp_nan_or_in (x : fl) (lo hi : Q) :
  lo <= hi -> nan_or_in lo hi (clamp x (Fin lo) (Fin hi)).
Proof.
  intros Hle. unfold nan_or_in, clamp.
  destruct x as [q| | |]; [| | | left; reflexivity]; right; fl_solve; lra.
Qed.

Lemma clamp_in_range (x : fl) (lo hi : Q) :
  lo <= hi -> x <> NaN -> in_range lo hi (clamp x (Fin lo) (Fin hi)).
Proof.
  intros Hle Hx. destruct x as [q| | |]; try congruence; unfold clamp; fl_solve; lra.
Qed.

(** A clamp leaves a value already in range unchanged. *)
Lemma clamp_id (x : fl) (lo hi : Q) :
  in_range lo hi x -> clamp x (Fin lo) (Fin hi) =f= x.
Proof. intros H. destruct x as [q| | |]; unfold clamp; fl_solve; lra. Qed.

Lemma nan_or_in_NaN (lo hi : Q) : nan_or_in lo hi NaN.
Proof. left; reflexivity. Qed.

(** ** Arithmetic facts used by the loop *)

Lemma abs_Fin_nonneg (x : fl) (q : Q) : abs x = Fin q -> 0 <= q.
Proof.
  destruct x; simpl; intros H; try discriminate. injection H as <-.
  apply Qabs_nonneg.
Qed.

(** [0 / 0] is NaN: the zero-gradient step of the loop. *)
Lemma div_zero_zero : div (Fin 0) (Fin 0) = NaN.
Proof. reflexivity. Qed.

Lemma add_NaN_r (x : fl) : add x NaN = NaN.
Proof. destruct x; reflexivity. Qed.

Lemma add_zero_r (x : fl) : add x (Fin 0) =f= x.
Proof. destruct x; fl_solve; ring. Qed.

(** ** The order of [leb] on non-NaN values *)

Lemma leb_refl (x : fl) : x <> NaN -> leb x x = true.
Proof. destruct x; simpl; try congruence. intros _. apply Qle_bool_iff, Qle_refl. Qed.

Lemma leb_trans (x y z : fl) : leb x y = true -> leb y z = true -> leb x z = true.
Proof.
  destruct x, y, z; simpl; try congruence; rewrite ?Qle_bool_iff; intros; auto; lra.
Qed.

Lemma leb_total (x y : fl) : x <> NaN -> y <> NaN -> leb x y = false -> leb y x = true.
Proof.
  destruct x, y; simpl; try congruence. intros _ _ E.
  apply Qle_bool_false in E. apply Qle_bool_iff. lra.
Qed.

Lemma feq_NaN (x : fl) : x =f= NaN -> x = NaN.
Proof. destruct x; simpl; tauto. Qed.

Lemma mul_zero_l (x : fl) (q : Q) : x =f= Fin 0 -> mul x (Fin q) =f= Fin 0.
Proof. destruct x; simpl; try tauto. intros H. rewrite H. ring. Qed.

Lemma maximum_NaN_l (y : fl) : maximum NaN y = NaN.
Proof. reflexivity. Qed.

Lemma minimum_NaN_l (y : fl) : minimum NaN y = NaN.
Proof. reflexivity. Qed.

#[export] Hint Resolve clamp_nan_or_in clamp_in_range nan_or_in_NaN : dev.

End Fl.
