(* ===== verification/Tensor.v ===== *)
(** * Three-dimensional float tensors

    A tensor of shape (C, H, W) is a list of C channels, each a list of H
    rows of W values ([tensor3]).  This file holds the tensor operations
    that [dream] performs through PyTorch: elementwise maps and sums,
    the broadcasting of a per-channel constant [v[:, None, None]], the
    mean, Python slicing [l[a:-b]] and its backward (a zero-filled
    embedding), and [permute(1, 2, 0)]; with the shape and elementwise
    lemmas the loop's theorems use. *)

From S2P Require Import Prelude Fl.
Import Fl.

Module Tensor.

Definition tensor3 := list (list (list fl)).

(** The shape of a tensor, as the lengths of all its rows (so that a
    ragged nested list has a shape too). *)
Definition shape3 (t : tensor3) : list (list nat) := map (map (@length fl)) t.

Definition same_shape (a b : tensor3) : Prop := shape3 a = shape3 b.

Definition same_shapeb (a b : tensor3) : bool :=
  if list_eq_dec (list_eq_dec Nat.eq_dec) (shape3 a) (shape3 b) then true else false.

Definition has_shape (c h w : nat) (t : tensor3) : Prop :=
  shape3 t = repeat (repeat w h) c.

Definition map3 (f : fl -> fl) (t : tensor3) : tensor3 := map (map (map f)) t.

Definition zip3 (f : fl -> fl -> fl) (a b : tensor3) : tensor3 :=
  map2 (map2 (map2 f)) a b.

Definition zeros_like (t : tensor3) : tensor3 := map3 (fun _ => Fin 0) t.

(** Every element satisfies [P]. *)
Definition all3 (P : fl -> Prop) (t : tensor3) : Prop := Forall (Forall (Forall P)) t.

(** Elementwise equivalence. *)
Definition teq (a b : tensor3) : Prop := Forall2 (Forall2 (Forall2 feq)) a b.

(** ** Reductions *)

Definition flatten (t : tensor3) : list fl := concat (concat t).

Definition numel (t : tensor3) : nat := length (flatten t).

Definition sum_list (l : list fl) : fl := fold_left add l (Fin 0).

(** [Tensor.mean()]; the mean of an empty tensor is NaN. *)
Definition mean (t : tensor3) : fl :=
  match numel t with
  | O => NaN
  | n => div (sum_list (flatten t)) (Fin (inject_Z (Z.of_nat n)))
  end.

(** ** Broadcasting a constant of shape (len v, 1, 1) *)

Definition chan_op (f : fl -> fl -> fl) (ch : list (list fl)) (c : fl) :=
  map (map (fun x => f x c)) ch.

(** [f(t, v[:, None, None])]: the channel counts must be equal or one of
    them must be 1, as in PyTorch's broadcasting. *)
Definition bcast_ch (f : fl -> fl -> fl) (t : tensor3) (v : list fl) : result tensor3 :=
  if Nat.eqb (length t) (length v) then Ok (map2 (chan_op f) t v)
  else if Nat.eqb (length t) 1 then Ok (map (chan_op f (hd [] t)) v)
  else if Nat.eqb (length v) 1 then Ok (map (fun ch => chan_op f ch (hd NaN v)) t)
  else Err BroadcastError.

(** An in-place operation [t.op_(v[:, None, None])]: the result must keep
    the shape of [t], so [v] has one value per channel of [t] or a single
    value. *)
Definition bcast_inplace (f : fl -> fl -> fl) (t : tensor3) (v : list fl) : result tensor3 :=
  if Nat.eqb (length v) (length t) || Nat.eqb (length v) 1 then bcast_ch f t v
  else Err BroadcastError.

Lemma chan_op_chan_op (f g : fl -> fl -> fl) ch a b :
  chan_op g (chan_op f ch a) b = map (map (fun x => g (f x a) b)) ch.
Proof.
  unfold chan_op. rewrite map_map. apply map_ext. intros r. rewrite map_map. reflexivity.
Qed.

(** ** Slicing *)

(** Python's [l[start:-neg_stop]] for [neg_stop >= 1]. *)
Definition py_slice {A} (start neg_stop : nat) (l : list A) : list A :=
  skipn start (firstn (length l - neg_stop) l).

(** The backward of slicing a list of length [n] from [start]: the
    gradient [g] of the slice, embedded with zeros [z]. *)
Definition unslice {A} (n start : nat) (z : A) (g : list A) : list A :=
  repeat z (Nat.min start n) ++ g ++ repeat z (n - Nat.min start n - length g).

(** [t[:, a:-b, c:-d]] *)
Definition crop (a b c d : nat) (t : tensor3) : tensor3 :=
  map (fun ch => map (py_slice c d) (py_slice a b ch)) t.

(** The gradient of a tensor of height [h] and width [w] through
    [t[:, a:-b, c:-d]], given the gradient [g] of the crop. *)
Definition uncrop (h w a c : nat) (g : tensor3) : tensor3 :=
  map (fun gch => unslice h a (repeat (Fin 0) w) (map (unslice w c (Fin 0)) gch)) g.

(** ** permute(1, 2, 0) *)

Fixpoint transpose {A} (w : nat) (m : list (list A)) : list (list A) :=
  match m with
  | [] => repeat [] w
  | row :: m' => map2 cons row (transpose w m')
  end.

(** C x H x W to H x W x C. *)
Definition permute120 (t : tensor3) : tensor3 :=
  let h := length (hd [] t) in
  let w := length (hd [] (hd [] t)) in
  map (transpose w) (transpose h t).

(** ** Shapes *)

Lemma map_map2 {A B C D} (g : C -> D) (f : A -> B -> C) l1 l2 :
  map g (map2 f l1 l2) = map2 (fun x y => g (f x y)) l1 l2.
Proof. revert l2; induction l1; intros [|y l2]; simpl; f_equal; auto. Qed.

Lemma map_map2_l {A B C D} (k : A -> D) (kc : C -> D) (f : A -> B -> C)
  (la : list A) (lb : list B) :
  length la = length lb -> (forall x y, kc (f x y) = k x) ->
  map kc (map2 f la lb) = map k la.
Proof.
  revert lb; induction la as [|x la IH]; intros [|y lb] E Hf; simpl in *;
    try discriminate; auto.
  f_equal; auto.
Qed.

Lemma shape3_map3 (f : fl -> fl) (t : tensor3) : shape3 (map3 f t) = shape3 t.
Proof.
  unfold shape3, map3. rewrite !map_map. apply map_ext. intros ch.
  rewrite map_map. apply map_ext. intros row. apply length_map.
Qed.

(** Zipping two lists whose images under [k] and [k'] agree keeps the
    image of the first. *)
Lemma map_map2_same {A B C D} (k : A -> D) (k' : B -> D) (kc : C -> D)
  (f : A -> B -> C) (la : list A) (lb : list B) :
  map k la = map k' lb -> (forall x y, k x = k' y -> kc (f x y) = k x) ->
  map kc (map2 f la lb) = map k la.
Proof.
  revert lb; induction la as [|x la IH]; intros [|y lb] E Hf; simpl in *;
    try discriminate; auto.
  injection E as E1 E2. f_equal; auto.
Qed.

Lemma shape3_zip3 (f : fl -> fl -> fl) (a b : tensor3) :
  same_shape a b -> shape3 (zip3 f a b) = shape3 a.
Proof.
  unfold same_shape, shape3, zip3. intros E.
  apply map_map2_same with (k' := map (@length fl)); auto.
  intros ch ch' Ech. apply map_map2_same with (k' := @length fl); auto.
  intros r r' Er. rewrite length_map2, Er. apply Nat.min_id.
Qed.

Lemma shape3_chan_op (f : fl -> fl -> fl) ch c :
  map (@length fl) (chan_op f ch c) = map (@length fl) ch.
Proof. unfold chan_op. rewrite map_map. apply map_ext. intros; apply length_map. Qed.

(** Broadcasting a constant with one value per channel keeps the shape. *)
Lemma bcast_ch_same (f : fl -> fl -> fl) (t : tensor3) (v : list fl) :
  length t = length v ->
  bcast_ch f t v = Ok (map2 (chan_op f) t v) /\ shape3 (map2 (chan_op f) t v) = shape3 t.
Proof.
  intros E. unfold bcast_ch. rewrite E, Nat.eqb_refl. split; auto.
  unfold shape3. apply map_map2_l; auto. intros; apply shape3_chan_op.
Qed.

(** ** Elementwise properties *)

Lemma all3_map3 (P Q : fl -> Prop) (f : fl -> fl) (t : tensor3) :
  all3 P t -> (forall x, P x -> Q (f x)) -> all3 Q (map3 f t).
Proof.
  unfold all3, map3. intros Ht Hf. apply Forall_map.
  eapply Forall_impl; [|exact Ht]. intros ch Hch. apply Forall_map.
  eapply Forall_impl; [|exact Hch]. intros r Hr. apply Forall_map.
  eapply Forall_impl; [|exact Hr]. exact Hf.
Qed.

Lemma all3_zip3 (P1 P2 Q : fl -> Prop) (f : fl -> fl -> fl) (a b : tensor3) :
  all3 P1 a -> all3 P2 b -> (forall x y, P1 x -> P2 y -> Q (f x y)) ->
  all3 Q (zip3 f a b).
Proof.
  unfold all3, zip3. rewrite !Forall_forall. intros Ha Hb Hf.
  apply Forall_forall, Forall_map2. intros ch ch' Hch Hch'.
  specialize (Ha _ Hch); specialize (Hb _ Hch'). rewrite Forall_forall in Ha, Hb.
  apply Forall_map2. intros r r' Hr Hr'.
  specialize (Ha _ Hr); specialize (Hb _ Hr'). rewrite Forall_forall in Ha, Hb.
  apply Forall_map2. auto.
Qed.

Lemma all3_chan_op (P Q : fl -> Prop) (f : fl -> fl -> fl) ch c :
  Forall (Forall P) ch -> (forall x, P x -> Q (f x c)) -> Forall (Forall Q) (chan_op f ch c).
Proof.
  intros H Hf. unfold chan_op. apply Forall_map. eapply Forall_impl; [|exact H].
  intros r Hr. apply Forall_map. eapply Forall_impl; [|exact Hr]. exact Hf.
Qed.

(** Every element of a broadcast result is [f x c] for an element [x] of
    the tensor and a value [c] of the constant. *)
Lemma all3_bcast_ch (P PV Q : fl -> Prop) (f : fl -> fl -> fl) t v r :
  bcast_ch f t v = Ok r -> all3 P t -> Forall PV v ->
  (forall x c, P x -> PV c -> Q (f x c)) -> all3 Q r.
Proof.
  unfold bcast_ch, all3. intros E Ht Hv Hf.
  destruct (Nat.eqb_spec (length t) (length v)).
  { injection E as <-. apply Forall_map2. intros ch c Hch Hc.
    rewrite Forall_forall in Ht, Hv. eapply all3_chan_op; eauto. }
  destruct (Nat.eqb_spec (length t) 1).
  { injection E as <-. apply Forall_map. rewrite Forall_forall in Hv |- *.
    intros c Hc. destruct t as [|ch [|]]; simpl in *; try lia.
    inversion Ht; subst. eapply all3_chan_op; eauto. }
  destruct (Nat.eqb_spec (length v) 1); [|discriminate].
  injection E as <-. apply Forall_map. eapply Forall_impl; [|exact Ht].
  intros ch Hch. destruct v as [|c [|]]; simpl in *; try lia.
  inversion Hv; subst. eapply all3_chan_op; eauto.
Qed.

Lemma Forall_transpose {A} (P : A -> Prop) w (m : list (list A)) :
  Forall (Forall P) m -> Forall (Forall P) (transpose w m).
Proof.
  induction 1 as [|row m Hrow Hm IH]; simpl.
  - apply Forall_repeat. constructor.
  - apply Forall_map2. intros x r Hx Hr. rewrite Forall_forall in Hrow, IH.
    constructor; auto.
Qed.

Lemma all3_permute120 (P : fl -> Prop) (t : tensor3) :
  all3 P t -> all3 P (permute120 t).
Proof.
  unfold all3, permute120. intros H. apply Forall_map.
  apply Forall_transpose with (P := Forall P) (w := length (hd [] t)) in H.
  eapply Forall_impl; [|exact H]. intros m Hm. apply Forall_transpose; auto.
Qed.

Lemma all3_True (t : tensor3) : all3 (fun _ => True) t.
Proof.
  unfold all3. apply Forall_forall. intros. apply Forall_forall. intros.
  apply Forall_forall. auto.
Qed.

(** ** Elementwise equivalence *)

#[export] Instance teq_equiv : Equivalence teq.
Proof. unfold teq. do 3 apply Forall2_Equivalence. exact feq_equiv. Qed.

#[export] Instance map3_proper (f : fl -> fl) :
  Proper (feq ==> feq) f -> Proper (teq ==> teq) (map3 f).
Proof.
  intros Hf a b H. unfold teq, map3 in *.
  eapply Forall2_map_both; [exact H|]. intros ch ch' Hc.
  eapply Forall2_map_both; [exact Hc|]. intros r r' Hr.
  eapply Forall2_map_both; [exact Hr|]. exact Hf.
Qed.

#[export] Instance zip3_proper (f : fl -> fl -> fl) :
  Proper (feq ==> feq ==> feq) f -> Proper (teq ==> teq ==> teq) (zip3 f).
Proof.
  intros Hf a a' Ha b b' Hb. unfold teq, zip3 in *.
  eapply Forall2_map2; [exact Ha|exact Hb|]. intros ? ? ? ? H1 H2.
  eapply Forall2_map2; [exact H1|exact H2|]. intros ? ? ? ? H3 H4.
  eapply Forall2_map2; [exact H3|exact H4|]. intros; apply Hf; auto.
Qed.

Lemma Forall2_transpose {A B} (R : A -> B -> Prop) w m1 m2 :
  Forall2 (Forall2 R) m1 m2 -> Forall2 (Forall2 R) (transpose w m1) (transpose w m2).
Proof.
  induction 1; simpl.
  - induction w; simpl; constructor; auto.
  - eapply Forall2_map2; eauto.
Qed.

#[export] Instance permute120_proper : Proper (teq ==> teq) permute120.
Proof.
  intros a b H. unfold permute120, teq in *.
  assert (Eh : length (hd [] a) = length (hd [] b)).
  { destruct H; simpl; eauto using Forall2_length. }
  assert (Ew : length (hd [] (hd [] a)) = length (hd [] (hd [] b))).
  { destruct H as [|ch1 ch2 a' b' Hc _]; simpl; auto.
    destruct Hc; simpl; eauto using Forall2_length. }
  rewrite Eh, Ew. eapply Forall2_map_both.
  - apply Forall2_transpose with (R := Forall2 feq). exact H.
  - intros. apply Forall2_transpose. auto.
Qed.

(** ** Slicing and its backward *)

Lemma length_py_slice {A} a b (l : list A) : length (py_slice a b l) = length l - b - a.
Proof. unfold py_slice. rewrite length_skipn, length_firstn. lia. Qed.

Lemma In_py_slice {A} a b (l : list A) x : In x (py_slice a b l) -> In x l.
Proof.
  unfold py_slice. intros H.
  assert (Hs : forall (k : nat) (m : list A), In x (skipn k m) -> In x m).
  { intros k m Hk. rewrite <- (firstn_skipn k m). apply in_or_app. auto. }
  assert (Hf : forall (k : nat) (m : list A), In x (firstn k m) -> In x m).
  { intros k m Hk. rewrite <- (firstn_skipn k m). apply in_or_app. auto. }
  eauto.
Qed.

Lemma Forall_py_slice {A} (P : A -> Prop) a b l :
  Forall P l -> Forall P (py_slice a b l).
Proof. rewrite !Forall_forall. eauto using In_py_slice. Qed.

Lemma length_unslice {A} n a (z : A) g :
  length g <= n - Nat.min a n -> length (unslice n a z g) = n.
Proof. intros. unfold unslice. rewrite !length_app, !repeat_length. lia. Qed.

(** Slicing the backward of a slice gives back the slice's gradient. *)
Lemma py_slice_unslice {A} n a b (z : A) g :
  length g = n - b - a -> py_slice a b (unslice n a z g) = g.
Proof.
  intros Hg. destruct (Nat.eq_dec (length g) 0) as [E|Hne].
  { apply length_zero_iff_nil in E as ->. apply length_zero_iff_nil.
    rewrite length_py_slice, length_unslice; simpl in *; lia. }
  unfold py_slice. rewrite length_unslice by lia. unfold unslice.
  replace (Nat.min a n) with a by lia.
  rewrite firstn_app, repeat_length, firstn_all2 by (rewrite repeat_length; lia).
  rewrite firstn_app, firstn_all2 by lia.
  replace (n - b - a - length g) with 0 by lia. rewrite firstn_O, app_nil_r.
  rewrite skipn_app, skipn_all2 by (rewrite repeat_length; lia).
  rewrite repeat_length, Nat.sub_diag. reflexivity.
Qed.

(** [has_shape] as per-channel and per-row lengths. *)
Lemma map_eq_repeat_Forall {A B} (f : A -> B) (l : list A) x n :
  map f l = repeat x n <-> length l = n /\ Forall (fun y => f y = x) l.
Proof.
  revert n; induction l as [|y l IH]; intros [|n]; simpl; split; intros H;
    try discriminate; try (destruct H; discriminate); auto.
  - injection H as E1 E2. apply IH in E2 as [E2 E3]. auto.
  - destruct H as [E1 E2]. inversion E2; subst. f_equal. apply IH. auto.
Qed.

Lemma has_shape_iff (c h w : nat) (t : tensor3) :
  has_shape c h w t <->
  length t = c /\ Forall (fun ch => length ch = h /\ Forall (fun r => length r = w) ch) t.
Proof.
  unfold has_shape, shape3. rewrite map_eq_repeat_Forall.
  split; intros [E H]; split; auto; eapply Forall_impl; try exact H;
    simpl; intros ch; rewrite map_eq_repeat_Forall; auto.
Qed.

Lemma has_shape_crop (c h w a b cc d : nat) (t : tensor3) :
  has_shape c h w t -> has_shape c (h - b - a) (w - d - cc) (crop a b cc d t).
Proof.
  rewrite !has_shape_iff. intros [E H]. unfold crop. rewrite length_map. split; auto.
  apply Forall_map. eapply Forall_impl; [|exact H]. simpl. intros ch [Eh Hr].
  rewrite length_map, length_py_slice, Eh. split; auto.
  apply Forall_map. eapply Forall_impl; [|apply Forall_py_slice, Hr].
  simpl. intros r Er. rewrite length_py_slice, Er. reflexivity.
Qed.

Lemma has_shape_uncrop (c h w a b cc d : nat) (g : tensor3) :
  has_shape c (h - b - a) (w - d - cc) g -> has_shape c h w (uncrop h w a cc g).
Proof.
  rewrite !has_shape_iff. intros [E H]. unfold uncrop. rewrite length_map. split; auto.
  apply Forall_map. eapply Forall_impl; [|exact H]. simpl. intros ch [Eh Hr].
  rewrite length_unslice by (rewrite length_map; lia). split; auto.
  unfold unslice. rewrite !Forall_app. repeat split; try (apply Forall_repeat, repeat_length).
  apply Forall_map. eapply Forall_impl; [|exact Hr]. simpl. intros r Er.
  apply length_unslice. lia.
Qed.

Lemma Forall_unslice {A} (P : A -> Prop) n a (z : A) g :
  P z -> Forall P g -> Forall P (unslice n a z g).
Proof. intros Hz Hg. unfold unslice. rewrite !Forall_app. auto using Forall_repeat. Qed.

(** The backward of a crop holds the crop's gradient and zeros. *)
Lemma all3_uncrop (P : fl -> Prop) (h w a cc : nat) (g : tensor3) :
  P (Fin 0) -> all3 P g -> all3 P (uncrop h w a cc g).
Proof.
  intros Hz H. unfold all3, uncrop in *. apply Forall_map. eapply Forall_impl; [|exact H].
  intros ch Hch. apply Forall_unslice; [apply Forall_repeat; exact Hz|].
  apply Forall_map. eapply Forall_impl; [|exact Hch]. intros r Hr.
  apply Forall_unslice; auto.
Qed.

(** Cropping the backward of a crop gives back the crop's gradient. *)
Lemma crop_uncrop (c h w a b cc d : nat) (g : tensor3) :
  has_shape c (h - b - a) (w - d - cc) g -> crop a b cc d (uncrop h w a cc g) = g.
Proof.
  rewrite has_shape_iff. intros [_ H]. unfold crop, uncrop. rewrite map_map.
  rewrite <- (map_id g) at 2. apply map_ext_in. intros ch Hch.
  rewrite Forall_forall in H. destruct (H ch Hch) as [Eh Hr].
  rewrite py_slice_unslice by (rewrite length_map; lia).
  rewrite map_map. transitivity (map id ch); [|apply map_id].
  apply map_ext_in. intros r Hrin.
  rewrite Forall_forall in Hr. apply py_slice_unslice. exact (Hr r Hrin).
Qed.

(** ** The shape of [permute(1, 2, 0)] *)

Lemma length_transpose {A} w (m : list (list A)) :
  Forall (fun r => length r = w) m -> length (transpose w m) = w.
Proof.
  induction 1; simpl; [apply repeat_length|]. rewrite length_map2. lia.
Qed.

Lemma Forall_transpose_length {A} w (m : list (list A)) :
  Forall (fun r => length r = w) m ->
  Forall (fun col => length col = length m) (transpose w m).
Proof.
  induction 1 as [|row m Hrow Hm IH]; simpl.
  - apply Forall_repeat. reflexivity.
  - apply Forall_map2. intros x col _ Hcol. rewrite Forall_forall in IH.
    simpl. rewrite (IH col Hcol). reflexivity.
Qed.

(** [permute(1, 2, 0)] turns a C x H x W tensor into H x W x C. *)
Lemma has_shape_permute120 (c h w : nat) (t : tensor3) :
  c <> 0 -> has_shape c h w t -> has_shape h w c (permute120 t).
Proof.
  rewrite !has_shape_iff. intros Hc [Hl Ht]. unfold permute120.
  destruct t as [|ch0 t']; simpl in Hl; [lia|].
  inversion Ht as [|? ? [Eh0 Hr0] _]; subst.
  assert (Hchans : Forall (fun ch => length ch = length ch0) (ch0 :: t'))
    by (eapply Forall_impl; [|exact Ht]; simpl; intros ? []; auto).
  assert (Hrows : Forall (Forall (fun r => length r = w)) (ch0 :: t'))
    by (eapply Forall_impl; [|exact Ht]; simpl; intros ? []; auto).
  set (cols := transpose (length (hd [] (ch0 :: t'))) (ch0 :: t')).
  assert (Hlc : length cols = length ch0) by (apply length_transpose; exact Hchans).
  assert (Hcl : Forall (fun col => length col = length (ch0 :: t')) cols)
    by (apply Forall_transpose_length; exact Hchans).
  assert (Hcr : Forall (Forall (fun r => length r = w)) cols)
    by (apply Forall_transpose; exact Hrows).
  split; [rewrite length_map; exact Hlc|].
  apply Forall_map. apply Forall_forall. intros col Hin.
  rewrite Forall_forall in Hcl, Hcr. specialize (Hcl col Hin). specialize (Hcr col Hin).
  destruct ch0 as [|r0 ch0'].
  { unfold cols in Hin. simpl in Hin. contradiction. }
  inversion Hr0 as [|? ? Er0 _]. simpl hd. rewrite Er0.
  split; [apply length_transpose; exact Hcr|].
  apply Forall_transpose_length in Hcr. rewrite Hcl in Hcr.
  eapply Forall_impl; [|exact Hcr]. simpl. intros. lia.
Qed.

(** ** The mean of the absolute gradient *)

Lemma length_concat_rect (h w : nat) (ch : list (list fl)) :
  length ch = h -> Forall (fun r => length r = w) ch -> length (concat ch) = h * w.
Proof.
  intros <-. induction 1; simpl; auto. rewrite length_app. lia.
Qed.

Lemma numel_has_shape (c h w : nat) (t : tensor3) : has_shape c h w t -> numel t = c * (h * w).
Proof.
  rewrite has_shape_iff. intros [<- H]. unfold numel, flatten.
  induction H as [|ch t [Eh Hr] _ IH]; [reflexivity|].
  cbn [concat length]. rewrite concat_app, length_app, IH.
  rewrite (length_concat_rect h w ch Eh Hr). lia.
Qed.

Definition fin_nonneg (x : fl) : Prop := exists q, x = Fin q /\ (0 <= q)%Q.
Definition fin_pos (x : fl) : Prop := exists q, x = Fin q /\ (0 < q)%Q.

Lemma inject_Z_S_pos (n : nat) : (0 < inject_Z (Z.of_nat (S n)))%Q.
Proof. unfold Qlt; simpl. lia. Qed.

Lemma fold_add_nonneg (l : list fl) (s : Q) :
  Forall fin_nonneg l ->
  exists s', fold_left add l (Fin s) = Fin s' /\ (s <= s')%Q /\
             (Exists fin_pos l -> (s < s')%Q).
Proof.
  revert s; induction l as [|x l IH]; intros s H; simpl.
  - exists s. split; [reflexivity|]. split; [apply Qle_refl|]. intros E; inversion E.
  - inversion H as [|? ? [q [-> Hq]] Hl]; subst.
    destruct (IH (s + q)%Q Hl) as [s' [E [Hle Hlt]]]. exists s'. simpl. split; auto.
    split; [lra|]. intros Ex. inversion Ex as [? ? [q' [Eq' Hq']]|? ? Hex]; subst.
    + injection Eq' as ->. lra.
    + specialize (Hlt Hex). lra.
Qed.

Lemma all3_flatten (P : fl -> Prop) (t : tensor3) : all3 P t -> Forall P (flatten t).
Proof. unfold all3, flatten. intros H. rewrite !Forall_concat. exact H. Qed.

(** The mean of non-negative finite values, one of them positive, is a
    positive rational. *)
Lemma mean_pos (t : tensor3) :
  all3 fin_nonneg t -> Exists fin_pos (flatten t) ->
  exists m, mean t = Fin m /\ (0 < m)%Q.
Proof.
  intros H Ex. apply all3_flatten in H.
  destruct (fold_add_nonneg _ 0 H) as [s [E [_ Hlt]]]. specialize (Hlt Ex).
  unfold mean, numel, sum_list. rewrite E.
  destruct (length (flatten t)) as [|n] eqn:En.
  { apply length_zero_iff_nil in En. rewrite En in Ex. inversion Ex. }
  pose proof (inject_Z_S_pos n) as Hn.
  remember (inject_Z (Z.of_nat (S n))) as c eqn:Ec. simpl.
  destruct (Qeq_bool c 0) eqn:Eb.
  { apply Qeq_bool_iff in Eb. lra. }
  eexists; split; [reflexivity|]. apply Qlt_shift_div_l; lra.
Qed.

Lemma fold_add_zeros (l : list fl) (s : Q) :
  Forall (fun x => x =f= Fin 0) l -> fold_left add l (Fin s) =f= Fin s.
Proof.
  revert s; induction l as [|x l IH]; intros s H; simpl; [reflexivity|].
  inversion H as [|? ? Hx Hl]; subst. destruct x as [q| | |]; try contradiction.
  simpl in Hx |- *. rewrite IH by exact Hl. simpl. rewrite Hx. ring.
Qed.

(** The mean of a non-empty all-zero tensor is zero. *)
Lemma mean_zeros (t : tensor3) :
  all3 (fun x => x =f= Fin 0) t -> numel t <> 0 -> mean t =f= Fin 0.
Proof.
  intros H Hn. apply all3_flatten in H. unfold mean, sum_list.
  destruct (numel t) as [|n]; [congruence|].
  pose proof (inject_Z_S_pos n) as Hn'.
  remember (inject_Z (Z.of_nat (S n))) as c eqn:Ec.
  rewrite (fold_add_zeros _ 0 H). simpl. destruct (Qeq_bool c 0) eqn:Eb.
  - apply Qeq_bool_iff in Eb. lra.
  - simpl. unfold Qdiv. ring.
Qed.

(** ** [permute(1, 2, 0)] of a channelwise map *)

Lemma map2_map_both {A B C D E} (h : C -> D -> E) (f1 : A -> C) (f2 : B -> D) l1 l2 :
  map2 h (map f1 l1) (map f2 l2) = map2 (fun a b => h (f1 a) (f2 b)) l1 l2.
Proof. revert l2; induction l1; intros [|y l2]; simpl; f_equal; auto. Qed.

Lemma map2_map_r {A B C D} (h : A -> C -> D) (k : B -> C) l1 l2 :
  map2 h l1 (map k l2) = map2 (fun a b => h a (k b)) l1 l2.
Proof. revert l2; induction l1; intros [|y l2]; simpl; f_equal; auto. Qed.

(** Transposing rows mapped one function per row maps every column with
    those functions, position by position. *)
Lemma transpose_map2 {A B} (w : nat) (m : list (list A)) (fs : list (A -> B)) :
  Forall (fun r => length r = w) m -> length m = length fs ->
  transpose w (map2 (fun r f => map f r) m fs) =
  map (fun col => map2 (fun x f => f x) col fs) (transpose w m).
Proof.
  intros H. revert fs. induction H as [|r m Hr Hm IH]; intros [|f fs] E; simpl in E; try discriminate.
  - simpl. rewrite map_repeat. reflexivity.
  - simpl. rewrite IH by lia. rewrite map2_map_both, map_map2. reflexivity.
Qed.

(** A channelwise map, one function per channel, becomes a map of every
    pixel after [permute(1, 2, 0)]. *)
Lemma permute120_channelwise (t : tensor3) (gs : list (fl -> fl)) (c h w : nat) :
  has_shape c h w t -> length gs = c ->
  permute120 (map2 (fun ch g => map (map g) ch) t gs) =
  map (map (fun px => map2 (fun x g => g x) px gs)) (permute120 t).
Proof.
  rewrite has_shape_iff. intros [Hl Ht] Hg. unfold permute120.
  destruct t as [|ch0 t']; [destruct gs; [reflexivity|cbn in *; lia]|].
  destruct gs as [|g0 gs']; [cbn in *; lia|].
  assert (Eh : length (hd [] (map2 (fun ch g => map (map g) ch) (ch0 :: t') (g0 :: gs'))) = length ch0)
    by (cbn; apply length_map).
  assert (Ew : length (hd [] (hd [] (map2 (fun ch g => map (map g) ch) (ch0 :: t') (g0 :: gs'))))
               = length (hd [] ch0)) by (destruct ch0; cbn; [reflexivity|apply length_map]).
  rewrite Eh, Ew. cbn [hd].
  set (w' := length (hd [] ch0)). set (t := ch0 :: t') in *. set (gs := g0 :: gs') in *.
  assert (Hch : Forall (fun ch => length ch = length ch0) t)
    by (inversion Ht as [|? ? [Eh0 _] _]; eapply Forall_impl; [|exact Ht]; cbn; intros ? []; lia).
  assert (Hrows : Forall (Forall (fun r => length r = w')) t).
  { destruct ch0 as [|r0 ch0'].
    - eapply Forall_impl; [|exact Hch]. intros ch Hc. destruct ch; [constructor|discriminate].
    - inversion Ht as [|? ? [_ Hr0] _]. inversion Hr0 as [|? ? Er0 _].
      unfold w'. cbn [hd]. rewrite Er0.
      eapply Forall_impl; [|exact Ht]. cbn. intros ? []; assumption. }
  replace (map2 (fun ch g => map (map g) ch) t gs) with (map2 (fun r f => map f r) t (map (fun g => map g) gs))
    by (rewrite map2_map_r; reflexivity).
  rewrite transpose_map2 by (exact Hch || (rewrite length_map; cbn in *; lia)).
  rewrite !map_map. apply map_ext_in. intros col Hcol.
  replace (map2 (fun x f => f x) col (map (fun g => map g) gs)) with (map2 (fun r f => map f r) col gs)
    by (rewrite map2_map_r; reflexivity).
  apply transpose_map2.
  - apply (Forall_transpose _ (length ch0)) in Hrows. rewrite Forall_forall in Hrows. exact (Hrows col Hcol).
  - apply Forall_transpose_length in Hch. rewrite Forall_forall in Hch. rewrite (Hch col Hcol).
    cbn in *. lia.
Qed.
(** ** Adding zeros; the elements of a crop's backward *)

Lemma teq_add_zero_row (r z : list fl) :
  length r = length z -> Forall (fun e => e =f= Fin 0) z -> Forall2 feq (map2 add r z) r.
Proof.
  revert z. induction r as [|x r IH]; intros [|y z] Hl Hz; cbn in *; try discriminate; constructor.
  - inversion Hz as [|? ? Hy _]; subst. rewrite Hy. apply add_zero_r.
  - inversion Hz; subst. apply IH; [lia|assumption].
Qed.

Lemma teq_add_zero_ch (ch cz : list (list fl)) :
  map (@length fl) ch = map (@length fl) cz -> Forall (Forall (fun e => e =f= Fin 0)) cz ->
  Forall2 (Forall2 feq) (map2 (map2 add) ch cz) ch.
Proof.
  revert cz. induction ch as [|r ch IH]; intros [|z cz] Hl Hz; cbn in *; try discriminate; constructor;
    injection Hl as Hr Hl; inversion Hz; subst; auto using teq_add_zero_row.
Qed.

(** Adding a tensor of zeros of the same shape changes nothing. *)
Lemma teq_zip3_add_zero (a u : tensor3) :
  same_shape a u -> all3 (fun e => e =f= Fin 0) u -> teq (zip3 add a u) a.
Proof.
  unfold same_shape, shape3, all3, teq, zip3. revert u.
  induction a as [|ch a IH]; intros [|cu u] Hs Hu; cbn in *; try discriminate; constructor;
    injection Hs as Hc Hs; inversion Hu; subst; auto using teq_add_zero_ch.
Qed.

Lemma flatten_map3 (f : fl -> fl) (t : tensor3) : flatten (map3 f t) = map f (flatten t).
Proof.
  unfold flatten, map3. rewrite !concat_map. reflexivity.
Qed.

Lemma In_unslice {A} n a (z : A) g x : In x g -> In x (unslice n a z g).
Proof. intros H. unfold unslice. apply in_app_iff. right. apply in_app_iff. left. exact H. Qed.

(** The backward of a crop holds every element of the crop's gradient. *)
Lemma Exists_flatten_uncrop (P : fl -> Prop) (h w a cc : nat) (g : tensor3) :
  Exists P (flatten g) -> Exists P (flatten (uncrop h w a cc g)).
Proof.
  unfold flatten, uncrop. rewrite !Exists_exists. intros (x & Hx & Px). exists x. split; [|exact Px].
  apply in_concat in Hx as (r & Hr & Hx). apply in_concat in Hr as (ch & Hch & Hr).
  apply in_concat. exists (unslice w cc (Fin 0) r). split; [|apply In_unslice; exact Hx].
  apply in_concat. exists (unslice h a (repeat (Fin 0) w) (map (unslice w cc (Fin 0)) ch)).
  split; [exact (in_map (fun gch => unslice h a (repeat (Fin 0) w) (map (unslice w cc (Fin 0)) gch)) _ _ Hch)|].
  apply In_unslice, in_map. exact Hr.
Qed.

(** ** Witnesses *)

Lemma crop_uncrop_witness :
  crop 1 1 0 1 (uncrop 3 3 1 0 [[[Fin 5; Fin 6]]]) = [[[Fin 5; Fin 6]]].
Proof. apply (crop_uncrop 1 3 3 1 1 0 1). reflexivity. Defined.

End Tensor.
