(* ===== verification/Normalize.v ===== *)
(** * Normalisation constants and torchvision's [Normalize]

    The visual-understanding notebook fixes the ImageNet statistics
    [mean] and [std] (lines 928-929), builds [normalize] and
    [unnormalize] from them with [transforms.Normalize] (931-932), and
    [dream] derives from the same constants the range [clamp_min],
    [clamp_max] of a normalised image (1299-1300).  [normalize_with]
    models [transforms.Normalize.__call__]: a [ValueError] for a zero
    standard deviation, then [sub_(mean).div_(std)] broadcast over the
    channels, as torchvision 0.3 and later do (a one-element [mean]
    broadcasts to every channel, three elements against one or four
    channels raise; torchvision 0.2 zipped the channels instead).

    The float32 constants are taken as the exact decimals the code
    writes and the arithmetic as exact rational arithmetic.  The
    theorems of the development therefore state the formula the code
    evaluates (one pass of [normalize] or [unnormalize], a clamp, a
    range), never an identity between two different float computations:
    [unnormalize (normalize x) = x] holds on rationals but not in
    float32, so it is not stated. *)

From S2P Require Import Prelude Fl Tensor.
Import Fl Tensor.

Module Normalize.
Local Open Scope Q_scope.

Definition mean_q : list Q := [485#1000; 456#1000; 406#1000].
Definition std_q : list Q := [229#1000; 224#1000; 225#1000].

(** [mean = torch.tensor([0.485, 0.456, 0.406])], [std = torch.tensor(...)] *)
Definition mean : list fl := map Fin mean_q.
Definition std : list fl := map Fin std_q.

Definition is_zero (x : fl) : bool :=
  match x with Fin q => Qeq_bool q 0 | _ => false end.

(** [transforms.Normalize(m, s)(t)] *)
Definition normalize_with (m s : list fl) (t : tensor3) : result tensor3 :=
  if existsb is_zero s then Err ValueError
  else let* t1 := bcast_inplace sub t m in bcast_inplace div t1 s.

(** The value of one element of channel with statistics [m], [s]. *)
Definition norm_ch (m s x : fl) : fl := div (sub x m) s.

(** [normalize = transforms.Normalize(mean.tolist(), std.tolist())] *)
Definition normalize (t : tensor3) : result tensor3 := normalize_with mean std t.

(** [unnormalize = transforms.Normalize((-mean / std).tolist(), (1.0 / std).tolist())] *)
Definition unnorm_mean : list fl := map2 (fun m s => div (neg m) s) mean std.
Definition unnorm_std : list fl := map (fun s => div (Fin 1) s) std.

Definition unnormalize (t : tensor3) : result tensor3 :=
  normalize_with unnorm_mean unnorm_std t.

(** The MNIST cell of the [torch.optim] tutorial (lines 581-586):
    [transforms.Normalize((0.1307,), (0.3081,))] on one-channel images. *)
Definition mnist_mean : list fl := [Fin (1307 # 10000)].
Definition mnist_std : list fl := [Fin (3081 # 10000)].
Definition mnist_normalize (t : tensor3) : result tensor3 := normalize_with mnist_mean mnist_std t.

(** [clamp_min = -mean[:, None, None] / std[:, None, None]] and
    [clamp_max = (1 - mean[:, None, None]) / std[:, None, None]] *)
Definition clamp_min : list fl := map2 (fun m s => div (neg m) s) mean std.
Definition clamp_max : list fl := map2 (fun m s => div (sub (Fin 1) m) s) mean std.

(** The rational clamp bounds of each channel. *)
Definition cmin_q : list Q := map2 (fun m s => - m / s) mean_q std_q.
Definition cmax_q : list Q := map2 (fun m s => (1 - m) / s) mean_q std_q.

(** A normalised image: three channels, each element in its channel's
    clamp range or NaN. *)
Definition in_image_range (t : tensor3) : Prop :=
  length t = 3%nat /\
  Forall2 (fun ch b => Forall (Forall (nan_or_in (fst b) (snd b))) ch) t (combine cmin_q cmax_q).

(** A normalised image with no NaN: three channels, each element in its
    channel's clamp range. *)
Definition in_clamp_range (t : tensor3) : Prop :=
  length t = 3%nat /\
  Forall2 (fun ch b => Forall (Forall (in_range (fst b) (snd b))) ch) t (combine cmin_q cmax_q).

(** ** Closed forms *)

(** The result of a channelwise map with the statistics [m] and [s]. *)
Definition per_channel (f : fl -> fl -> fl -> fl) (m s : list fl) (t : tensor3) : tensor3 :=
  map2 (fun ch ms => map (map (f (fst ms) (snd ms))) ch) t (combine m s).

Lemma normalize_with_ok (m s : list fl) (t : tensor3) :
  length m = length t -> length s = length t -> existsb is_zero s = false ->
  normalize_with m s t = Ok (per_channel norm_ch m s t).
Proof.
  intros Hm Hs Hz. unfold normalize_with, bcast_inplace. rewrite Hz.
  rewrite Hm, Nat.eqb_refl. cbn [orb].
  rewrite (proj1 (bcast_ch_same sub t m (eq_sym Hm))). cbn [bind].
  assert (El : length (map2 (chan_op sub) t m) = length t)
    by (rewrite length_map2; lia).
  rewrite El, Hs, Nat.eqb_refl. cbn [orb].
  rewrite (proj1 (bcast_ch_same div _ s (eq_trans El (eq_sym Hs)))). f_equal.
  unfold per_channel. clear Hz El. revert m s Hm Hs.
  induction t as [|ch t IH]; intros [|a m] [|b s] Hm Hs; simpl in *; try discriminate; auto.
  rewrite chan_op_chan_op. f_equal. apply IH; lia.
Qed.

(** The clamp bounds are the rationals [cmin_q] and [cmax_q]. *)
Lemma clamp_min_q : clamp_min = map Fin cmin_q.
Proof. reflexivity. Qed.

Lemma clamp_max_q : clamp_max = map Fin cmax_q.
Proof. reflexivity. Qed.

(** ** One element *)

Lemma pos_facts (s : Q) : 0 < s -> Qeq_bool s 0 = false /\ (s ?= 0) = Gt.
Proof.
  intros Hs. split.
  - apply not_true_iff_false. intros E. apply Qeq_bool_iff in E. lra.
  - apply Qgt_alt. exact Hs.
Qed.

(** An element of [0, 1] normalises into its channel's clamp range. *)
Lemma norm_range_ch (m s : Q) (x : fl) :
  0 < s -> in_range 0 1 x -> in_range (- m / s) ((1 - m) / s) (norm_ch (Fin m) (Fin s) x).
Proof.
  intros Hs Hx. destruct (pos_facts s Hs) as [E1 _].
  destruct x as [q| | |]; try contradiction. cbn in Hx. unfold norm_ch, sub. cbn. rewrite E1. cbn.
  destruct Hx as [H0 H1]. unfold Qdiv. split; apply Qmult_le_compat_r; try lra;
    apply Qinv_le_0_compat; lra.
Qed.

(** ** Whole tensors *)

Lemma chan_map_all (P Q : fl -> Prop) (h : fl -> fl) (ch : list (list fl)) :
  Forall (Forall P) ch -> (forall x, P x -> Q (h x)) -> Forall (Forall Q) (map (map h) ch).
Proof.
  intros H Hh. apply Forall_map. eapply Forall_impl; [|exact H].
  intros r Hr. apply Forall_map. eapply Forall_impl; [|exact Hr]. exact Hh.
Qed.

Lemma existsb_is_zero_std : existsb is_zero std = false.
Proof. reflexivity. Qed.

Lemma normalize_ok (t : tensor3) :
  length t = 3%nat -> normalize t = Ok (per_channel norm_ch mean std t).
Proof. intros H. apply normalize_with_ok; auto. Qed.

Lemma unnormalize_ok (t : tensor3) :
  length t = 3%nat -> unnormalize t = Ok (per_channel norm_ch unnorm_mean unnorm_std t).
Proof. intros H. apply normalize_with_ok; auto. Qed.

Lemma length_per_channel f m s t :
  length m = length t -> length s = length t -> length (per_channel f m s t) = length t.
Proof.
  intros Hm Hs. unfold per_channel. rewrite length_map2, length_combine. lia.
Qed.

Lemma shape3_per_channel f m s t :
  length m = length t -> length s = length t -> shape3 (per_channel f m s t) = shape3 t.
Proof.
  intros Hm Hs. unfold per_channel, shape3. apply map_map2_l.
  - rewrite length_combine. lia.
  - intros ch ms. rewrite map_map. apply map_ext. intros. apply length_map.
Qed.

Lemma all3_per_channel (P Q : fl -> Prop) f m s t :
  (forall a b x, P x -> Q (f a b x)) -> all3 P t -> all3 Q (per_channel f m s t).
Proof.
  intros Hf H. unfold all3, per_channel in *. apply Forall_map2. intros ch ms Hch _.
  rewrite Forall_forall in H. eapply chan_map_all; eauto.
Qed.

(** C29: [transforms.Normalize] with the three ImageNet statistics raises
    unless the image has exactly three channels: a grayscale or an RGBA
    image makes [img_transform], hence [dream], fail. *)
Lemma normalize_channels (t : tensor3) :
  length t <> 3%nat -> normalize t = Err BroadcastError.
Proof.
  intros H. unfold normalize, normalize_with. rewrite existsb_is_zero_std.
  unfold bcast_inplace. simpl length.
  destruct (Nat.eqb_spec 3 (length t)); [lia|]. reflexivity.
Qed.

(** A [ToTensor] image normalises into the clamp ranges. *)
Lemma normalize_in_clamp_range (t : tensor3) :
  length t = 3%nat -> all3 (in_range 0 1) t -> in_clamp_range (per_channel norm_ch mean std t).
Proof.
  intros Hl H. split; [rewrite length_per_channel; [exact Hl|rewrite Hl; reflexivity..]|].
  destruct t as [|c0 [|c1 [|c2 [|]]]]; cbn in Hl; try discriminate.
  unfold all3 in H. inversion H as [|? ? H0 H']; subst. inversion H' as [|? ? H1 H'']; subst.
  inversion H'' as [|? ? H2 _]; subst.
  unfold per_channel, mean, std, mean_q, std_q, cmin_q, cmax_q. cbn [map map2 combine fst snd].
  repeat constructor; (eapply chan_map_all; [eassumption|]); intros x Hx; apply norm_range_ch;
    (reflexivity || exact Hx).
Qed.

Lemma in_clamp_range_teq (a b : tensor3) : teq a b -> in_clamp_range b -> in_clamp_range a.
Proof.
  intros H [Hl Hb]. split; [rewrite (Forall2_length H); exact Hl|].
  clear Hl. revert a H. induction Hb as [|ch bnd t bs Hc _ IH]; intros a H.
  { inversion H; subst. constructor. }
  inversion H as [|ca ? a' ? Hca Ha]; subst. constructor; [|exact (IH _ Ha)].
  clear - Hc Hca. revert Hc. induction Hca as [|r r' ch0 ch' Hr _ IHc]; intros Hc; [constructor|].
  inversion Hc as [|? ? Hr' Hc']; subst. constructor; [|exact (IHc Hc')].
  clear - Hr Hr'. revert Hr'. induction Hr as [|x y r0 r1 Hxy _ IHr]; intros Hr'; [constructor|].
  inversion Hr' as [|? ? Hy Hr'']; subst. constructor; [|exact (IHr Hr'')].
  rewrite Hxy. exact Hy.
Qed.

(** MNIST's [Normalize] accepts exactly the one-channel images, keeps
    their shape, and maps [0, 1] onto
    [[-0.1307 / 0.3081, (1 - 0.1307) / 0.3081]]. *)
Lemma mnist_normalize_range (t : tensor3) (h w : nat) :
  has_shape 1 h w t -> all3 (in_range 0 1) t ->
  exists n, mnist_normalize t = Ok n /\ has_shape 1 h w n /\
    all3 (in_range (- (1307 # 10000) / (3081 # 10000)) ((1 - (1307 # 10000)) / (3081 # 10000))) n.
Proof.
  intros Hs Hr. assert (Hl : length t = 1%nat) by (apply has_shape_iff in Hs; apply Hs).
  exists (per_channel norm_ch mnist_mean mnist_std t). split.
  { apply normalize_with_ok; [rewrite Hl; reflexivity..|reflexivity]. }
  split.
  - unfold has_shape. rewrite shape3_per_channel by (rewrite Hl; reflexivity). exact Hs.
  - destruct t as [|c0 [|]]; cbn in Hl; try discriminate. inversion Hr as [|? ? H0 _]; subst.
    unfold per_channel, mnist_mean, mnist_std. cbn [map2 combine fst snd]. repeat constructor.
    eapply chan_map_all; [exact H0|]. intros x Hx. apply norm_range_ch; [reflexivity|exact Hx].
Qed.

(** The channelwise maps respect [teq]. *)
Lemma per_channel_teq (f : fl -> fl -> fl -> fl) (m s : list fl) (a b : tensor3) :
  (forall u v, Proper (feq ==> feq) (f u v)) -> teq a b -> teq (per_channel f m s a) (per_channel f m s b).
Proof.
  intros Hf H. unfold per_channel, teq in *. generalize (combine m s) as ms. intros ms.
  revert ms. induction H as [|ca cb a b Hc _ IH]; intros [|[u v] ms]; cbn; constructor; [|apply IH].
  eapply Forall2_map_both; [exact Hc|]. intros r r' Hr. eapply Forall2_map_both; [exact Hr|].
  apply Hf.
Qed.

(** ** Witnesses *)

Lemma normalize_channels_witness : normalize [[[Fin 0]]] = Err BroadcastError.
Proof. apply normalize_channels. discriminate. Defined.

End Normalize.
