(* ===== verification/Autograd.v ===== *)
(** * The frozen network and the autograd state of the image

    [ForwardNet] is what [dream] needs from [CustomResNet] (lines
    880-910) in evaluation mode with frozen parameters (985-993): a
    forward pass returning the list of stage outputs, and the backward
    pass [output[k].backward(seed)] as a vector-Jacobian product [vjp]
    whose result has the shape of the input.  The network's numerics are
    not modelled: any instance will do, and the theorems of [Dream] hold
    for every instance.

    The image [data] is a leaf tensor: its [value], the flag set by
    [requires_grad_()], and the gradient [grad] that [backward]
    accumulates into (PyTorch's AccumulateGrad: the first backward stores
    the gradient, later ones add to it).  A tensor produced by an
    operation under [torch.no_grad()] is a fresh leaf with no gradient. *)

From S2P Require Import Prelude Fl Tensor.
Import Fl Tensor.

Module Autograd.

Class ForwardNet := {
  forward : tensor3 -> result (list tensor3);
  vjp : tensor3 -> nat -> tensor3 -> result tensor3;
  vjp_shape : forall x k seed g, vjp x k seed = Ok g -> same_shape g x
}.

(** [output[k].backward(seed)] for [output = model(x)]: the seed must
    have the shape of [output[k]]; the result is the gradient for [x]. *)
Definition backward {N : ForwardNet} (x : tensor3) (output : list tensor3)
  (k : nat) (seed : tensor3) : result tensor3 :=
  match nth_error output k with
  | None => Err IndexError
  | Some o => if same_shapeb seed o then vjp x k seed else Err ShapeMismatch
  end.

Record leaf := mk_leaf { value : tensor3; requires_grad : bool; grad : option tensor3 }.

(** A tensor created by an operation under [no_grad]. *)
Definition fresh_leaf (v : tensor3) : leaf := mk_leaf v false None.

(** [t.requires_grad_()] *)
Definition requires_grad_ (l : leaf) : leaf := mk_leaf (value l) true (grad l).

(** AccumulateGrad for a leaf that receives the gradient [g]. *)
Definition accumulate (l : leaf) (g : tensor3) : result leaf :=
  if requires_grad l then
    Ok (mk_leaf (value l) true
          (Some (match grad l with None => g | Some g0 => zip3 add g0 g end)))
  else Err NoGrad.

(** [t += u] under [no_grad]: the value changes in place, the gradient
    stays.  The operand of the loop always has the shape of the image
    (it is computed from the gradient), so only that case is modelled
    and any other shape is reported as a broadcasting error. *)
Definition iadd (l : leaf) (u : tensor3) : result leaf :=
  if same_shapeb (value l) u then Ok (mk_leaf (zip3 add (value l) u) (requires_grad l) (grad l))
  else Err BroadcastError.

Lemma same_shapeb_iff (a b : tensor3) : same_shapeb a b = true <-> same_shape a b.
Proof.
  unfold same_shapeb, same_shape.
  destruct (list_eq_dec (list_eq_dec Nat.eq_dec) (shape3 a) (shape3 b)); split; congruence.
Qed.

Lemma backward_shape {N : ForwardNet} x output k seed g :
  backward x output k seed = Ok g -> same_shape g x.
Proof.
  unfold backward. destruct (nth_error output k); [|discriminate].
  destruct (same_shapeb seed t); [|discriminate]. apply vjp_shape.
Qed.

Lemma backward_vjp {N : ForwardNet} x output k seed g :
  backward x output k seed = Ok g -> vjp x k seed = Ok g.
Proof.
  unfold backward. destruct (nth_error output k); [|discriminate].
  destruct (same_shapeb seed t); [auto|discriminate].
Qed.

(** The first gradient a fresh leaf receives is stored as it is. *)
Lemma accumulate_fresh (l : leaf) (g : tensor3) :
  requires_grad l = true -> grad l = None ->
  accumulate l g = Ok (mk_leaf (value l) true (Some g)).
Proof. intros H1 H2. unfold accumulate. rewrite H1, H2. reflexivity. Qed.

Lemma iadd_same (l : leaf) (u : tensor3) :
  same_shape (value l) u ->
  iadd l u = Ok (mk_leaf (zip3 add (value l) u) (requires_grad l) (grad l)).
Proof. intros H. unfold iadd. apply same_shapeb_iff in H. rewrite H. reflexivity. Qed.

Lemma accumulate_inv (l l' : leaf) (g : tensor3) :
  accumulate l g = Ok l' ->
  value l' = value l /\ requires_grad l = true /\
  grad l' = Some (match grad l with None => g | Some g0 => zip3 add g0 g end).
Proof.
  unfold accumulate. destruct (requires_grad l); intros E; [|discriminate].
  injection E as <-. auto.
Qed.

Lemma iadd_inv (l l' : leaf) (u : tensor3) :
  iadd l u = Ok l' ->
  value l' = zip3 add (value l) u /\ same_shape (value l) u /\ grad l' = grad l.
Proof.
  unfold iadd. destruct (same_shapeb (value l) u) eqn:E; intros H; [|discriminate].
  injection H as <-. apply same_shapeb_iff in E. auto.
Qed.

(** ** Networks used to exercise the loop *)

(** These are plain definitions, not instances, so that a theorem about an
    arbitrary network never resolves to one of them. *)

Definition id_vjp (x : tensor3) (k : nat) (seed : tensor3) : result tensor3 :=
  if same_shapeb seed x then Ok seed else Err ShapeMismatch.

Lemma id_vjp_shape x k seed g : id_vjp x k seed = Ok g -> same_shape g x.
Proof.
  unfold id_vjp. destruct (same_shapeb seed x) eqn:E; [|discriminate].
  intros H. injection H as <-. apply same_shapeb_iff. exact E.
Qed.

(** Every stage is the input itself; the backward returns the seed. *)
Definition IdNet : ForwardNet := {|
  forward x := Ok [x; x; x; x; x];
  vjp := id_vjp;
  vjp_shape := id_vjp_shape
|}.

Lemma const_vjp_shape (f : fl -> fl) x (k : nat) (seed g : tensor3) :
  Ok (map3 f x) = Ok g -> same_shape g x.
Proof. intros H. injection H as <-. apply shape3_map3. Qed.

(** A network whose output does not depend on the input: every gradient
    is zero. *)
Definition ZeroNet : ForwardNet := {|
  forward x := Ok [x; x; x; x; x];
  vjp x k seed := Ok (map3 (fun _ => Fin 0) x);
  vjp_shape x k seed g := const_vjp_shape (fun _ => Fin 0) x k seed g
|}.

(** A network whose gradient is one everywhere. *)
Definition OnesNet : ForwardNet := {|
  forward x := Ok [x; x; x; x; x];
  vjp x k seed := Ok (map3 (fun _ => Fin 1) x);
  vjp_shape x k seed g := const_vjp_shape (fun _ => Fin 1) x k seed g
|}.

End Autograd.
