(* ===== verification/GradFns.v ===== *)
(** * The gradient functions of the visual-understanding notebook

    A gradient function receives the list of stage outputs of the
    network and calls [output[k].backward(seed)] once.  It is modelled as
    the call it makes: the stage [k] and the [seed], or the exception it
    raises before.  [default_grad_fn] (lines 1274-1276) seeds stage
    [layer = 2] with its own activation; [my_grad_fn] (1430-1446) seeds it
    with, at every spatial location, the guide's feature vector of
    largest dot product ([torch.matmul], [argmax], advanced indexing,
    [view]); [my_grad_fn2] (1500-1507) seeds the classification stage 4
    with a one-hot vector on the classes 153 and 281. *)

From S2P Require Import Prelude Fl Tensor Autograd.
Import Fl Tensor Autograd.

Module GradFns.

(** [layer = 2] *)
Definition layer : nat := 2.

(** [output[layer].backward(output[layer])] *)
Definition default_grad_fn (output : list tensor3) : result (nat * tensor3) :=
  match nth_error output layer with
  | Some o => Ok (layer, o)
  | None => Err IndexError
  end.

(** ** [my_grad_fn] *)

(** [t.view(t.shape[0], -1)] *)
Definition view2 (t : tensor3) : list (list fl) := map (@concat fl) t.

(** [n] rows of [w] values *)
Fixpoint chunks (w n : nat) (l : list fl) : list (list fl) :=
  match n with
  | O => []
  | S n' => firstn w l :: chunks w n' (skipn w l)
  end.

(** [m.view(shape)] for [shape = (c, h, w)] *)
Definition view3 (h w : nat) (m : list (list fl)) : tensor3 := map (chunks w h) m.

Definition dot (u v : list fl) : fl := sum_list (map2 mul u v).

(** [x] replaces [best] as the running maximum of [argmax]: it is NaN,
    or larger; the first NaN is kept. *)
Definition beats (x best : fl) : bool :=
  match best, x with
  | NaN, _ => false
  | _, NaN => true
  | _, _ => negb (leb x best)
  end.

Fixpoint argmax_from (l : list fl) (i : nat) (best : fl) (bi : nat) : nat :=
  match l with
  | [] => bi
  | x :: l' => if beats x best then argmax_from l' (S i) x i
               else argmax_from l' (S i) best bi
  end.

(** [argmax] of a row: the index of the first maximal value; an empty
    row raises. *)
Definition argmax (l : list fl) : result nat :=
  match l with
  | [] => Err EmptyReduction
  | x :: l' => Ok (argmax_from l' 1 x 0)
  end.

(** The body of [my_grad_fn] for the stage output [o] and the guide [g]:
    [o.view(C, -1)], [g.view(C', -1)], [r = torch.matmul(o.t(), g)]
    (inner dimensions must agree), [r = g[:, r.argmax(1)]],
    [r.view(shape)]. *)
Definition guided_seed (o g : tensor3) : result tensor3 :=
  let om := view2 o in
  let gm := view2 g in
  if negb (Nat.eqb (length om) (length gm)) then Err ShapeMismatch else
  let r := map (fun oi => map (dot oi) (transpose (length (hd [] gm)) gm))
               (transpose (length (hd [] om)) om) in
  let* idx := mapM argmax r in
  let sel := map (fun grow => map (fun j => nth j grow NaN) idx) gm in
  Ok (view3 (length (hd [] o)) (length (hd [] (hd [] o))) sel).

(** [my_grad_fn] with the guide [guide = model(data)] it closes over. *)
Definition my_grad_fn (guide output : list tensor3) : result (nat * tensor3) :=
  match nth_error output 2 with
  | None => Err IndexError
  | Some o =>
      match nth_error guide 2 with
      | None => Err IndexError
      | Some g => let* r := guided_seed o g in Ok (2, r)
      end
  end.

(** ** [my_grad_fn2] *)

(** [l[i] = v]; an index out of range raises. *)
Definition setitem {A} (l : list A) (i : nat) (v : A) : result (list A) :=
  if Nat.ltb i (length l) then Ok (firstn i l ++ v :: skipn (S i) l) else Err IndexError.

(** [grad_ = torch.zeros(1000, 1, 1)]; [grad_[153] = 1]; [grad_[281] = 1];
    [output[4].backward(grad_)] *)
Definition my_grad_fn2 (output : list tensor3) : result (nat * tensor3) :=
  let grad_ := repeat [[Fin 0]] 1000 in
  let* grad_ := setitem grad_ 153 [[Fin 1]] in
  let* grad_ := setitem grad_ 281 [[Fin 1]] in
  match nth_error output 4 with
  | None => Err IndexError
  | Some _ => Ok (4, grad_)
  end.

(** ** [argmax] refines "the first index of a maximum" *)

Definition not_nan (x : fl) : Prop := x <> NaN.

(** The reference: [i] is the first index of a maximal value of [l]. *)
Definition is_first_max (l : list fl) (i : nat) : Prop :=
  i < length l /\
  (forall j, j < length l -> leb (nth j l NaN) (nth i l NaN) = true) /\
  (forall j, j < i -> leb (nth i l NaN) (nth j l NaN) = false).

Lemma beats_num (x best : fl) :
  x <> NaN -> best <> NaN -> beats x best = negb (leb x best).
Proof. destruct x, best; simpl; congruence. Qed.

Lemma nth_snoc_lt (pre : list fl) x j : j < length pre -> nth j (pre ++ [x]) NaN = nth j pre NaN.
Proof. apply app_nth1. Qed.

Lemma nth_snoc_eq (pre : list fl) x : nth (length pre) (pre ++ [x]) NaN = x.
Proof. rewrite app_nth2, Nat.sub_diag by lia. reflexivity. Qed.

Lemma lt_snoc (pre : list fl) x j : j < length (pre ++ [x]) -> j < length pre \/ j = length pre.
Proof. rewrite length_app; simpl. lia. Qed.

(** A new element no larger than the maximum keeps its index. *)
Lemma first_max_keep (pre : list fl) x bi :
  is_first_max pre bi -> leb x (nth bi pre NaN) = true -> is_first_max (pre ++ [x]) bi.
Proof.
  intros [Hlt [Hge Hfirst]] Hx. repeat split.
  - rewrite length_app; simpl; lia.
  - intros j Hj. rewrite (nth_snoc_lt pre x bi) by lia.
    destruct (lt_snoc pre x j Hj) as [Hj1 | ->]; [rewrite nth_snoc_lt; auto|].
    rewrite nth_snoc_eq; auto.
  - intros j Hj. rewrite !nth_snoc_lt by lia. auto.
Qed.

(** A new element larger than the maximum is the new first maximum. *)
Lemma first_max_new (pre : list fl) x bi :
  Forall not_nan (pre ++ [x]) ->
  is_first_max pre bi -> leb x (nth bi pre NaN) = false ->
  is_first_max (pre ++ [x]) (length pre).
Proof.
  intros Hn [Hlt [Hge Hfirst]] Hx. rewrite Forall_forall in Hn.
  assert (Hxn : x <> NaN) by (apply Hn, in_or_app; simpl; auto).
  assert (Hbn : nth bi pre NaN <> NaN) by (apply Hn, in_or_app; left; apply nth_In; auto).
  pose proof (leb_total _ _ Hxn Hbn Hx) as Hbx.
  unfold is_first_max. rewrite nth_snoc_eq. repeat split.
  - rewrite length_app; simpl; lia.
  - intros j Hj. destruct (lt_snoc pre x j Hj) as [Hj1 | ->].
    + rewrite nth_snoc_lt by lia. eapply leb_trans; eauto.
    + rewrite nth_snoc_eq. apply leb_refl; auto.
  - intros j Hj. rewrite nth_snoc_lt by lia.
    destruct (leb x (nth j pre NaN)) eqn:E; auto.
    rewrite (leb_trans _ _ _ E (Hge j Hj)) in Hx. discriminate.
Qed.

Lemma argmax_from_spec (l pre : list fl) (bi : nat) :
  Forall not_nan (pre ++ l) -> is_first_max pre bi ->
  is_first_max (pre ++ l) (argmax_from l (length pre) (nth bi pre NaN) bi).
Proof.
  revert pre bi. induction l as [|x l IH]; intros pre bi Hn Hp.
  { simpl. rewrite app_nil_r. exact Hp. }
  replace (pre ++ x :: l) with ((pre ++ [x]) ++ l) in *
    by (rewrite <- app_assoc; reflexivity).
  cbn [argmax_from].
  assert (Hall := Hn). apply Forall_app in Hall as [Hpx _].
  assert (Hxn : x <> NaN).
  { rewrite Forall_forall in Hpx. apply Hpx, in_or_app. simpl; auto. }
  assert (Hbn : nth bi pre NaN <> NaN).
  { rewrite Forall_forall in Hpx. apply Hpx, in_or_app. left. apply nth_In, Hp. }
  rewrite beats_num by auto. destruct (leb x (nth bi pre NaN)) eqn:E; simpl.
  - replace (S (length pre)) with (length (pre ++ [x])) by (rewrite length_app; simpl; lia).
    rewrite <- (nth_snoc_lt pre x bi) by apply Hp.
    apply IH; auto. apply first_max_keep; auto.
  - replace (S (length pre)) with (length (pre ++ [x])) by (rewrite length_app; simpl; lia).
    pose proof (IH (pre ++ [x]) (length pre) Hn (first_max_new pre x bi Hpx Hp E)) as H.
    rewrite nth_snoc_eq in H. exact H.
Qed.

Lemma first_max_unique (l : list fl) i j : is_first_max l i -> is_first_max l j -> i = j.
Proof.
  intros [Hi [Hgi Hfi]] [Hj [Hgj Hfj]].
  destruct (Nat.lt_total i j) as [H|[H|H]]; auto.
  - specialize (Hfj i H). rewrite Hgi in Hfj by auto. discriminate.
  - specialize (Hfi j H). rewrite Hgj in Hfi by auto. discriminate.
Qed.

Lemma first_max_single (x : fl) : x <> NaN -> is_first_max [x] 0.
Proof.
  intros Hx. split; [simpl; lia|split].
  - intros [|j] Hj; simpl in *; [apply leb_refl; auto|lia].
  - intros j Hj; lia.
Qed.

(** For a row without NaN, [argmax] returns exactly the first index of a
    maximal value: the implementation refines the reference
    [is_first_max], which has at most one solution. *)
Theorem argmax_first_max (l : list fl) (i : nat) :
  l <> [] -> Forall not_nan l -> (argmax l = Ok i <-> is_first_max l i).
Proof.
  intros Hne Hn. destruct l as [|x l']; [congruence|].
  assert (Hx : x <> NaN) by (inversion Hn; auto).
  pose proof (argmax_from_spec l' [x] 0 Hn (first_max_single x Hx)) as H. simpl in H.
  split.
  - intros E. injection E as <-. exact H.
  - intros Hi. simpl. f_equal. eapply first_max_unique; eauto.
Qed.

(** ** The one-hot seed of [my_grad_fn2] *)

Lemma setitem_spec {A} (l : list A) (i : nat) (v : A) :
  i < length l ->
  exists l', setitem l i v = Ok l' /\ length l' = length l /\
    forall j d, nth j l' d = if Nat.eqb j i then v else nth j l d.
Proof.
  intros Hi. unfold setitem. apply Nat.ltb_lt in Hi as Hb. rewrite Hb.
  eexists; split; [reflexivity|]. apply Nat.ltb_lt in Hb.
  assert (Hf : length (firstn i l) = i) by (rewrite length_firstn; lia).
  split.
  { rewrite length_app, Hf. cbn [length]. rewrite length_skipn. lia. }
  intros j d. destruct (Nat.lt_total j i) as [Hj|[->|Hj]].
  - rewrite app_nth1 by lia. rewrite nth_firstn.
    replace (j <? i) with true by (symmetry; apply Nat.ltb_lt; lia).
    replace (j =? i) with false by (symmetry; apply Nat.eqb_neq; lia). reflexivity.
  - rewrite app_nth2 by lia. rewrite Hf, Nat.sub_diag, Nat.eqb_refl. reflexivity.
  - rewrite app_nth2 by lia. rewrite Hf.
    replace (j - i) with (S (j - S i)) by lia. cbn [nth]. rewrite nth_skipn.
    replace (j =? i) with false by (symmetry; apply Nat.eqb_neq; lia).
    f_equal. lia.
Qed.

(** [my_grad_fn2] seeds the classification stage with ones exactly at
    the classes 153 and 281 and zeros at the 998 others. *)
Theorem my_grad_fn2_seed (output : list tensor3) :
  5 <= length output ->
  exists seed, my_grad_fn2 output = Ok (4, seed) /\ length seed = 1000 /\
    forall i, i < 1000 ->
      nth i seed [] = if (i =? 153) || (i =? 281) then [[Fin 1]] else [[Fin 0]].
Proof.
  intros H. unfold my_grad_fn2.
  destruct (setitem_spec (repeat [[Fin 0]] 1000) 153 [[Fin 1]]) as [l1 [E1 [L1 N1]]].
  { rewrite repeat_length. lia. }
  rewrite E1. cbn [bind].
  destruct (setitem_spec l1 281 [[Fin 1]]) as [l2 [E2 [L2 N2]]].
  { rewrite L1, repeat_length. lia. }
  rewrite E2. cbn [bind].
  destruct (nth_error output 4) eqn:E4; [|apply nth_error_None in E4; lia].
  exists l2. split; [reflexivity|]. split; [rewrite L2, L1; apply repeat_length|].
  intros i Hi. rewrite N2, N1, nth_repeat_lt by exact Hi.
  destruct (i =? 153), (i =? 281); reflexivity.
Qed.

(** ** The guided seed *)

Lemma chunks_shape (h w : nat) (l : list fl) :
  length l = h * w -> map (@length fl) (chunks w h l) = repeat w h.
Proof.
  revert l; induction h as [|h IH]; intros l Hl; simpl; f_equal.
  - rewrite length_firstn. lia.
  - apply IH. rewrite length_skipn. lia.
Qed.

(** The seed of [my_grad_fn] has the shape of the stage output, so that
    [output[layer].backward(r)] accepts it. *)
Theorem guided_seed_shape (o g s : tensor3) (c h w : nat) :
  has_shape c h w o -> guided_seed o g = Ok s -> has_shape c h w s.
Proof.
  rewrite has_shape_iff. intros [Ho Hch] E. unfold guided_seed in E.
  destruct (negb (length (view2 o) =? length (view2 g))) eqn:Ec; [discriminate|].
  apply negb_false_iff, Nat.eqb_eq in Ec. inv_ok.
  set (sel := map (fun grow => map (fun j => nth j grow NaN) a) (view2 g)).
  assert (Hrows : Forall (fun r => length r = h * w) (view2 o)).
  { unfold view2. apply Forall_map. eapply Forall_impl; [|exact Hch].
    intros ch [Eh Hr]. apply length_concat_rect; auto. }
  assert (Hidx : o <> [] -> length a = h * w).
  { intros Hne. apply mapM_length in Ha. rewrite Ha, length_map.
    destruct o as [|ch o']; [congruence|].
    assert (E0 : length (hd [] (view2 (ch :: o'))) = h * w)
      by (inversion Hrows; assumption).
    rewrite E0. apply length_transpose. exact Hrows. }
  assert (Hsel : Forall (fun row => map (@length fl)
                   (chunks (length (hd [] (hd [] o))) (length (hd [] o)) row) = repeat w h) sel).
  { unfold sel. apply Forall_forall. intros row Hrow.
    destruct o as [|ch o'].
    { unfold view2 in Ec. simpl in Ec. destruct g; simpl in Ec; [|discriminate].
      contradiction. }
    assert (Hne : ch :: o' <> []) by discriminate.
    inversion Hch as [|? ? [Eh Hr] _].
    destruct ch as [|r0 ch'].
    - simpl in Eh. subst h. reflexivity.
    - inversion Hr as [|? ? Er0 _].
      change (length (hd [] (hd [] ((r0 :: ch') :: o')))) with (length r0).
      change (length (hd [] ((r0 :: ch') :: o'))) with (length (r0 :: ch')).
      rewrite Er0, Eh. apply chunks_shape. apply in_map_iff in Hrow as [grow [<- _]].
      rewrite length_map. apply Hidx, Hne. }
  apply has_shape_iff. unfold view3. rewrite length_map. split.
  - unfold sel, view2 in *. rewrite !length_map in *. lia.
  - apply Forall_map. eapply Forall_impl; [|exact Hsel]. simpl. intros row Er.
    rewrite <- (length_map (@length fl)), Er, repeat_length. split; auto.
    apply map_eq_repeat_Forall in Er as [_ Er]. exact Er.
Qed.

Lemma setitem_Forall {A} (P : A -> Prop) (l l' : list A) (i : nat) (v : A) :
  setitem l i v = Ok l' -> Forall P l -> P v -> Forall P l' /\ length l' = length l.
Proof.
  unfold setitem. destruct (Nat.ltb_spec i (length l)) as [Hi|]; intros E; [|discriminate].
  injection E as <-. intros H Hv.
  change (match l with [] => [] | _ :: l0 => skipn i l0 end) with (skipn (S i) l).
  split; [auto with dev|]. rewrite length_app, length_firstn, length_cons, length_skipn. lia.
Qed.

(** The seed of [my_grad_fn2] is a 1000 x 1 x 1 tensor for stage 4. *)
Lemma my_grad_fn2_shape (output : list tensor3) (k : nat) (s : tensor3) :
  my_grad_fn2 output = Ok (k, s) ->
  k = 4 /\ has_shape 1000 1 1 s /\ exists o, nth_error output 4 = Some o.
Proof.
  unfold my_grad_fn2. intros E. inv_ok.
  destruct (nth_error output 4) as [o|] eqn:E4; [|discriminate]. injection E as <- <-.
  set (P := fun ch : list (list fl) => length ch = 1 /\ Forall (fun r => length r = 1) ch).
  assert (HP1 : P [[Fin 1]]) by (split; auto).
  assert (H0 : Forall P (repeat [[Fin 0]] 1000)) by (apply Forall_repeat; split; auto).
  destruct (setitem_Forall P _ _ _ _ Ha H0 HP1) as [H1 L1].
  destruct (setitem_Forall P _ _ _ _ Ha0 H1 HP1) as [H2 L2].
  split; [reflexivity|]. split; [|eauto]. apply has_shape_iff. split; [|exact H2].
  rewrite L2, L1. apply repeat_length.
Qed.

(** ** Witnesses *)

Lemma argmax_first_max_witness : is_first_max [Fin 1; Fin 3; Fin 3; Fin 2] 1.
Proof.
  apply (proj1 (argmax_first_max [Fin 1; Fin 3; Fin 3; Fin 2] 1 ltac:(discriminate)
    ltac:(repeat constructor; discriminate))).
  reflexivity.
Defined.

Lemma my_grad_fn2_seed_witness :
  exists seed, my_grad_fn2 [[]; []; []; []; []] = Ok (4, seed) /\ length seed = 1000 /\
    forall i, i < 1000 ->
      nth i seed [] = if (i =? 153) || (i =? 281) then [[Fin 1]] else [[Fin 0]].
Proof. apply my_grad_fn2_seed. simpl. lia. Defined.

(** A stage output with two channels on a 2 x 2 grid. *)
Definition feat_2x2 : tensor3 :=
  [[[Fin 1; Fin 0]; [Fin 2; Fin 1]]; [[Fin 0; Fin 3]; [Fin 1; Fin 1]]].

Lemma guided_seed_shape_witness :
  match guided_seed feat_2x2 feat_2x2 with
  | Ok s => has_shape 2 2 2 s
  | Err _ => False
  end.
Proof.
  destruct (guided_seed feat_2x2 feat_2x2) as [s|e] eqn:E.
  - exact (guided_seed_shape feat_2x2 feat_2x2 s 2 2 2 eq_refl E).
  - vm_compute in E. discriminate.
Defined.

End GradFns.
