(* ===== verification/Resnet.v ===== *)
(** * [CustomResNet] and the frozen model

    [CustomResNet.forward] (lines 880-910 of the visual-understanding
    notebook) runs the stem of a torchvision ResNet ([conv1], [bn1],
    [relu], [maxpool]), the four residual stages, global average pooling
    and the classifier [fc], and returns the five stage outputs without
    their batch dimension.  The layers themselves are library code and
    stay abstract ([stages]); the composition, the batch dimension added
    for a 3-D input, the pooling, the two [view]s and the final
    [r[0] for r in result] are modelled.  [resnet_net] turns a
    [CustomResNet] into the [ForwardNet] interface of [Autograd], so the
    gradient functions of [GradFns] can be checked against it.

    Lines 985-993 put the model in evaluation mode and switch off
    [requires_grad] of every parameter: [module] holds the training flag
    and the parameter leaves. *)

From S2P Require Import Prelude Fl Tensor Autograd GradFns.
Import Fl Tensor Autograd GradFns.

Module Resnet.

(** A batch of images, N x C x H x W. *)
Definition tensor4 := list tensor3.

(** The argument of [forward]: an image ([x.dim() == 3]) or a batch. *)
Inductive input := Img (x : tensor3) | Batch (x : tensor4).

(** The sub-modules of the torchvision ResNet that [forward] calls. *)
Record stages := mk_stages {
  conv1 : tensor4 -> result tensor4;
  bn1 : tensor4 -> result tensor4;
  relu : tensor4 -> result tensor4;
  maxpool : tensor4 -> result tensor4;
  layer1 : tensor4 -> result tensor4;
  layer2 : tensor4 -> result tensor4;
  layer3 : tensor4 -> result tensor4;
  layer4 : tensor4 -> result tensor4;
  fc : list (list fl) -> result (list (list fl))
}.

(** [if x.dim() == 3: x = x[None]] *)
Definition add_batch (x : input) : tensor4 :=
  match x with Img t => [t] | Batch b => b end.

(** [nn.functional.adaptive_avg_pool2d(x, (1, 1))]: the mean of every
    channel, kept as a 1 x 1 map. *)
Definition avg_pool (x : tensor4) : tensor4 :=
  map (map (fun ch => [[Tensor.mean [ch]]])) x.

(** [x.view(x.size(0), -1)] *)
Definition view_flat (x : tensor4) : list (list fl) := map flatten x.

(** [self.fc(x).view(x.size(0), -1, 1, 1)] *)
Definition view_11 (y : list (list fl)) : tensor4 := map (map (fun v => [[v]])) y.

(** [for layer in layers: x = layer(x); result.append(x)] *)
Fixpoint run_layers (ls : list (tensor4 -> result tensor4)) (x : tensor4)
  : result (tensor4 * list tensor4) :=
  match ls with
  | [] => Ok (x, [])
  | l :: ls' =>
      let* y := l x in
      let* '(z, rs) := run_layers ls' y in
      Ok (z, y :: rs)
  end.

(** [r[0]]: the first sample of a batch. *)
Definition first (r : tensor4) : result tensor3 :=
  match r with t :: _ => Ok t | [] => Err IndexError end.

(** [CustomResNet.forward] *)
Definition forward (m : stages) (x : input) : result (list tensor3) :=
  let x := add_batch x in
  let* x := conv1 m x in
  let* x := bn1 m x in
  let* x := relu m x in
  let* x := maxpool m x in
  let* '(x, result) := run_layers [layer1 m; layer2 m; layer3 m; layer4 m] x in
  let x := view_flat (avg_pool x) in
  let* y := fc m x in
  mapM first (result ++ [view_11 y]).

(** The model as [dream] uses it: [model(x)] on a 3-D image, with the
    backward pass of autograd through it. *)
Definition resnet_net (m : stages) (vjp : tensor3 -> nat -> tensor3 -> result tensor3)
  (law : forall x k seed g, vjp x k seed = Ok g -> same_shape g x) : ForwardNet := {|
  Autograd.forward x := forward m (Img x);
  Autograd.vjp := vjp;
  Autograd.vjp_shape := law
|}.

(** ** The frozen model (lines 985-993) *)

Record module := mk_module { training : bool; params : list leaf }.

(** [model.eval()] *)
Definition eval (m : module) : module := mk_module false (params m).

(** [parameter.requires_grad_(False)] *)
Definition no_requires_grad (p : leaf) : leaf := mk_leaf (value p) false (grad p).

(** [for parameter in model.parameters(): parameter.requires_grad_(False)] *)
Definition freeze (m : module) : module :=
  mk_module (training m) (map no_requires_grad (params m)).

(** Lines 985-991: [model.eval()] and the loop over the parameters. *)
Definition prepare (m : module) : module := freeze (eval m).

(** AccumulateGrad for parameter [i] of the model in a backward pass
    that reaches it with the gradient [g]: a parameter whose
    [requires_grad] is off is not a leaf of the graph, receives nothing
    and keeps its gradient. *)
Definition accumulate_param (m : module) (i : nat) (g : tensor3) : result module :=
  match nth_error (params m) i with
  | None => Err IndexError
  | Some p =>
      if requires_grad p then
        let* p' := accumulate p g in
        Ok (mk_module (training m) (firstn i (params m) ++ p' :: skipn (S i) (params m)))
      else Ok m
  end.

(** ** The stage outputs *)

Lemma run_layers_length (ls : list (tensor4 -> result tensor4)) (x z : tensor4) (rs : list tensor4) :
  run_layers ls x = Ok (z, rs) -> length rs = length ls.
Proof.
  revert x z rs. induction ls as [|l ls IH]; simpl; intros x z rs E; inv_okp; simpl; eauto.
Qed.

(** The shape of the last output when [fc] returns [K] scores per sample. *)
Lemma forward_last_shape (m : stages) (K : nat) (x : input) (outs : list tensor3) :
  (forall v y, fc m v = Ok y -> Forall (fun r => length r = K) y) ->
  forward m x = Ok outs -> exists o, nth_error outs 4 = Some o /\ has_shape K 1 1 o.
Proof.
  intros Hfc E. unfold forward in E. inv_okp.
  apply run_layers_length in Ha3. simpl in Ha3.
  assert (Hn : nth_error (l ++ [view_11 a3]) 4 = Some (view_11 a3))
    by (rewrite nth_error_app2 by lia; rewrite Ha3; reflexivity).
  destruct (mapM_nth_error _ _ _ _ _ E Hn) as (o & Eo & Ho). exists o. split; [exact Ho|].
  apply Hfc in Ha4. destruct a3 as [|y0 ys]; [discriminate|]. injection Eo as <-.
  inversion Ha4 as [|? ? Hy0 _]; subst. apply has_shape_iff. split; [apply length_map|].
  apply Forall_map, Forall_forall. intros v _. split; [reflexivity|]. repeat constructor.
Qed.

Lemma has_shape_same_shapeb (a b : tensor3) (c c' h w : nat) :
  has_shape c h w a -> has_shape c' h w b -> same_shapeb a b = Nat.eqb c c'.
Proof.
  unfold has_shape. intros Ha Hb. destruct (Nat.eqb_spec c c') as [->|Hne].
  - apply same_shapeb_iff. unfold same_shape. congruence.
  - destruct (same_shapeb a b) eqn:E; [|reflexivity]. apply same_shapeb_iff in E.
    unfold same_shape in E. rewrite Ha, Hb in E. apply (f_equal (@length (list nat))) in E.
    rewrite !repeat_length in E. contradiction.
Qed.

(** [CustomResNet.forward] returns exactly five outputs: the four
    residual stages and the class scores. *)
Theorem forward_stage_count (m : stages) (x : input) (outs : list tensor3) :
  forward m x = Ok outs -> length outs = 5.
Proof.
  unfold forward. intros E. inv_okp. apply mapM_length in E. rewrite E, length_app.
  rewrite (run_layers_length _ _ _ _ Ha3). reflexivity.
Qed.

(** C11: With a [CustomResNet], [default_grad_fn] never raises: it selects
    stage [layer = 2] and seeds it with itself, which [backward] accepts,
    so the gradient is the network's vector-Jacobian product. *)
Theorem default_grad_fn_resnet (m : stages) vjp law (x : tensor3) (outs : list tensor3) :
  forward m (Img x) = Ok outs ->
  exists o, default_grad_fn outs = Ok (layer, o) /\
    @backward (resnet_net m vjp law) x outs layer o = vjp x layer o.
Proof.
  intros E. apply forward_stage_count in E.
  destruct (nth_error outs layer) as [o|] eqn:Eo;
    [|apply nth_error_None in Eo; unfold layer in Eo; lia].
  exists o. unfold default_grad_fn, backward. rewrite Eo. split; [reflexivity|].
  replace (same_shapeb o o) with true by (symmetry; apply same_shapeb_iff; reflexivity).
  reflexivity.
Qed.

(** C10: The seed of [my_grad_fn2] is accepted by [output[4].backward] exactly
    when the classifier returns 1000 scores per image (the ImageNet
    [resnet50] of line 986); with any other number of classes the
    backward pass raises. *)
Theorem my_grad_fn2_backward (m : stages) vjp law (K : nat) (x : tensor3)
  (outs : list tensor3) (k : nat) (seed : tensor3) :
  (forall v y, fc m v = Ok y -> Forall (fun r => length r = K) y) ->
  forward m (Img x) = Ok outs -> my_grad_fn2 outs = Ok (k, seed) ->
  @backward (resnet_net m vjp law) x outs k seed =
  if Nat.eqb 1000 K then vjp x k seed else Err ShapeMismatch.
Proof.
  intros Hfc E Eg. destruct (my_grad_fn2_shape _ _ _ Eg) as (-> & Hs & _).
  destruct (forward_last_shape m K _ _ Hfc E) as (o & Eo & Ho).
  unfold backward. rewrite Eo, (has_shape_same_shapeb _ _ _ _ _ _ Hs Ho).
  destruct (Nat.eqb 1000 K); reflexivity.
Qed.

(** ** The frozen model *)

(** C12: After lines 985-991 the model is in evaluation mode, its weights
    and gradients are those it was loaded with, and no parameter
    requires a gradient: a backward pass through the model leaves every
    parameter as it was (so [dream] updates the image alone). *)
Theorem prepare_frozen (m : module) :
  training (prepare m) = false /\
  map value (params (prepare m)) = map value (params m) /\
  map grad (params (prepare m)) = map grad (params m) /\
  forall i g, accumulate_param (prepare m) i g =
    if Nat.ltb i (length (params m)) then Ok (prepare m) else Err IndexError.
Proof.
  split; [reflexivity|]. cbn [prepare freeze eval params]. rewrite !map_map.
  split; [reflexivity|]. split; [reflexivity|].
  intros i g. unfold accumulate_param. cbn [prepare freeze eval params].
  destruct (Nat.ltb_spec i (length (params m))) as [Hi|Hi].
  - destruct (nth_error (map no_requires_grad (params m)) i) as [p|] eqn:E.
    + apply nth_error_map_some in E as (p0 & _ & ->). reflexivity.
    + apply nth_error_None in E. rewrite length_map in E. lia.
  - replace (nth_error (map no_requires_grad (params m)) i) with (@None leaf); [reflexivity|].
    symmetry. apply nth_error_None. rewrite length_map. exact Hi.
Qed.

(** ** Witnesses *)

(** A ResNet whose stages are the identity and whose classifier returns
    1000 zero scores per image. *)
Definition id_stages : stages :=
  mk_stages Ok Ok Ok Ok Ok Ok Ok Ok (fun v => Ok (map (fun _ => repeat (Fin 0) 1000) v)).

Lemma id_stages_fc v y : fc id_stages v = Ok y -> Forall (fun r => length r = 1000) y.
Proof.
  intros H. injection H as <-. apply Forall_map, Forall_forall. intros _ _.
  reflexivity.
Qed.

Definition pixel : tensor3 := [[[Fin 1]]].

Lemma forward_stage_count_witness :
  exists outs, forward id_stages (Img pixel) = Ok outs /\ length outs = 5.
Proof.
  destruct (forward id_stages (Img pixel)) as [outs|e] eqn:E; [|vm_compute in E; discriminate].
  exists outs. split; [reflexivity|]. exact (forward_stage_count _ _ _ E).
Defined.

Lemma default_grad_fn_resnet_witness :
  exists outs o, forward id_stages (Img pixel) = Ok outs /\ default_grad_fn outs = Ok (layer, o) /\
    @backward (resnet_net id_stages id_vjp id_vjp_shape) pixel outs layer o = id_vjp pixel layer o.
Proof.
  destruct (forward id_stages (Img pixel)) as [outs|e] eqn:E; [|vm_compute in E; discriminate].
  destruct (default_grad_fn_resnet id_stages id_vjp id_vjp_shape pixel outs E) as (o & H1 & H2).
  exists outs, o. auto.
Defined.

Definition outs_px : list tensor3 :=
  match forward id_stages (Img pixel) with Ok o => o | Err _ => [] end.

Definition seed_px : tensor3 :=
  match my_grad_fn2 outs_px with Ok (_, s) => s | Err _ => [] end.

Lemma my_grad_fn2_backward_witness :
  forward id_stages (Img pixel) = Ok outs_px /\ my_grad_fn2 outs_px = Ok (4, seed_px) /\
  @backward (resnet_net id_stages id_vjp id_vjp_shape) pixel outs_px 4 seed_px =
  id_vjp pixel 4 seed_px.
Proof.
  assert (E : forward id_stages (Img pixel) = Ok outs_px) by (vm_compute; reflexivity).
  assert (E2 : my_grad_fn2 outs_px = Ok (4, seed_px)) by (vm_compute; reflexivity).
  split; [exact E|]. split; [exact E2|].
  exact (my_grad_fn2_backward id_stages id_vjp id_vjp_shape 1000 pixel outs_px 4 seed_px
           id_stages_fc E E2).
Defined.

End Resnet.
