(* ===== verification/Dream.v ===== *)
(** * The feature-visualisation loop [dream]

    Lines 1264-1333 of the visual-understanding notebook.  The loop state
    is the image leaf [data] (value, [requires_grad] flag, accumulated
    [grad]) and the position on the random tape that [random.randint]
    reads.  One iteration ([dream_step]) is the body of
    [for i in range(n_iter)]: [data.requires_grad_()], the optional random
    crop, [model(x)], the gradient function's [backward] (through the
    crop, into [data.grad]), the normalised ascent step
    [data += data.grad * learning_rate / grad_mean] under [no_grad], and
    the two clamps, whose results rebind [data] to a fresh tensor.
    [dream] normalises the [ToTensor] image, runs [Z.to_nat n_iter]
    iterations, un-normalises, clamps to [0, 1] and permutes to
    H x W x C. *)

From S2P Require Import Prelude Fl Tensor Normalize Autograd GradFns.
Import Fl Tensor Normalize Autograd GradFns.

Module Dream.

(** ** The random source *)

(** Python's [random] module as a tape of raw draws and a read position. *)
Record rng := mk_rng { draw : nat -> nat; pos : nat }.

(** [random.randint(lo, hi)]: an empty range raises [ValueError]. *)
Definition randint (lo hi : nat) (r : rng) : result (nat * rng) :=
  if Nat.ltb hi lo then Err ValueError
  else Ok (lo + draw r (pos r) mod S (hi - lo), mk_rng (draw r) (S (pos r))).

(** The notebook globals [shift = 20] and [do_random_shifts = True]
    (lines 1265-1266), which [random_shift] and [dream] read. *)
Record config := mk_config { shift : nat; do_random_shifts : bool }.

Definition default_config : config := mk_config 20 true.

(** [data[:, randint(0, shift):-randint(1, shift),
          randint(0, shift):-randint(1, shift)]], with its offsets. *)
Definition random_shift (cfg : config) (data : tensor3) (r : rng)
  : result (tensor3 * (nat * nat * nat * nat) * rng) :=
  let* '(a, r1) := randint 0 (shift cfg) r in
  let* '(b, r2) := randint 1 (shift cfg) r1 in
  let* '(c, r3) := randint 0 (shift cfg) r2 in
  let* '(d, r4) := randint 1 (shift cfg) r3 in
  Ok (crop a b c d data, (a, b, c, d), r4).

(** [x = data; if do_random_shifts: x = random_shift(data)], with the
    crop offsets when there is a crop. *)
Definition input_view (cfg : config) (v : tensor3) (r : rng)
  : result (tensor3 * option (nat * nat * nat * nat) * rng) :=
  if do_random_shifts cfg then
    let* '(x, off, r') := random_shift cfg v r in Ok (x, Some off, r')
  else Ok (v, None, r).

(** ** One iteration *)

Record dstate := mk_dstate { data : leaf; tape : rng }.

(** The state with its random tape replaced. *)
Definition with_tape (r : rng) (st : dstate) : dstate := mk_dstate (data st) r.

Section Loop.

Context {N : ForwardNet}.
Variable cfg : config.
Variable grad_fn : list tensor3 -> result (nat * tensor3).
Variable learning_rate : Q.

(** The gradient that reaches [data] when the network saw [x]: the
    gradient of [x] itself, or its embedding when [x] is a crop. *)
Definition data_grad (v : tensor3) (off : option (nat * nat * nat * nat)) (gx : tensor3) : tensor3 :=
  match off with
  | Some (a, _, c, _) => uncrop (length (hd [] v)) (length (hd [] (hd [] v))) a c gx
  | None => gx
  end.

Definition dream_step (st : dstate) : result dstate :=
  let d := requires_grad_ (data st) in
  let* '(x, off, r) := input_view cfg (value d) (tape st) in
  let* output := forward x in
  let* '(k, seed) := grad_fn output in
  let* gx := backward x output k seed in
  let* d := accumulate d (data_grad (value d) off gx) in
  let* g := match grad d with Some g => Ok g | None => Err NoGrad end in
  let grad_mean := Tensor.mean (map3 abs g) in
  let* d := iadd d (map3 (fun e => div (mul e (Fin learning_rate)) grad_mean) g) in
  let* v := bcast_ch maximum (value d) clamp_min in
  let* v := bcast_ch minimum v clamp_max in
  Ok (mk_dstate (fresh_leaf v) r).

Fixpoint dream_loop (n : nat) (st : dstate) : result dstate :=
  match n with
  | O => Ok st
  | S n' => let* st' := dream_step st in dream_loop n' st'
  end.

End Loop.

(** [dream(img, n_iter, grad_fn, learning_rate)] on the [ToTensor] image
    [img]; the tape [r] is the state of Python's random module. *)
Definition dream {N : ForwardNet} (cfg : config) (img : tensor3) (n_iter : Z)
  (grad_fn : list tensor3 -> result (nat * tensor3)) (learning_rate : Q) (r : rng)
  : result tensor3 :=
  let* processed_image := normalize img in
  let* st := dream_loop cfg grad_fn learning_rate (Z.to_nat n_iter)
               (mk_dstate (fresh_leaf processed_image) r) in
  let* result := unnormalize (value (data st)) in
  Ok (permute120 (map3 (fun x => clamp x (Fin 0) (Fin 1)) result)).

(** [dream(img)] with its defaults [n_iter=100], [grad_fn=default_grad_fn],
    [learning_rate=0.02]. *)
Definition dream_default {N : ForwardNet} (img : tensor3) (r : rng) : result tensor3 :=
  dream default_config img 100 default_grad_fn (2 # 100) r.

(** ** The random crop *)

Lemma randint_spec lo hi r v r' :
  randint lo hi r = Ok (v, r') -> lo <= v <= hi /\ pos r' = S (pos r) /\ draw r' = draw r.
Proof.
  unfold randint. destruct (Nat.ltb_spec hi lo) as [H|H]; intros E; [discriminate|].
  injection E as <- <-. simpl. split; auto.
  pose proof (Nat.mod_upper_bound (draw r (pos r)) (S (hi - lo))). lia.
Qed.

(** The offsets of [random_shift] are within the documented ranges and it
    consumes four draws: [0 <= a, c <= shift], [1 <= b, d <= shift]. *)
Theorem random_shift_bounds (cfg : config) (t : tensor3) (r : rng) x a b c d r' :
  random_shift cfg t r = Ok (x, (a, b, c, d), r') ->
  a <= shift cfg /\ 1 <= b <= shift cfg /\ c <= shift cfg /\ 1 <= d <= shift cfg /\
  x = crop a b c d t /\ pos r' = 4 + pos r.
Proof.
  unfold random_shift. intros E.
  destruct (randint 0 (shift cfg) r) as [[a1 r1]|] eqn:E1; [|discriminate]. cbn [bind] in E.
  destruct (randint 1 (shift cfg) r1) as [[b1 r2]|] eqn:E2; [|discriminate]. cbn [bind] in E.
  destruct (randint 0 (shift cfg) r2) as [[c1 r3]|] eqn:E3; [|discriminate]. cbn [bind] in E.
  destruct (randint 1 (shift cfg) r3) as [[d1 r4]|] eqn:E4; [|discriminate]. cbn [bind] in E.
  injection E as <- <- <- <- <- <-.
  apply randint_spec in E1 as [? [? _]]. apply randint_spec in E2 as [? [? _]].
  apply randint_spec in E3 as [? [? _]]. apply randint_spec in E4 as [? [? _]].
  repeat split; auto; lia.
Qed.

(** The image is not empty, and when shifts are on, every crop keeps at
    least one row and one column: [2 * shift] is less than the height
    and the width. *)
Definition crops_fit (cfg : config) (h w : nat) : Prop :=
  0 < h /\ 0 < w /\ (do_random_shifts cfg = true -> 2 * shift cfg < h /\ 2 * shift cfg < w).

Lemma input_view_nonempty (cfg : config) (v : tensor3) (r : rng) (h w : nat) x off r' :
  has_shape 3 h w v -> crops_fit cfg h w -> input_view cfg v r = Ok (x, off, r') -> flatten x <> [].
Proof.
  intros Hs (Hh & Hw & Hf) E. unfold input_view in E.
  assert (Hne : forall h' w' t, has_shape 3 h' w' t -> 0 < h' -> 0 < w' -> flatten t <> []).
  { intros h' w' t Ht H1 H2 Hnil. apply (f_equal (@length fl)) in Hnil.
    change (numel t = 0) in Hnil. rewrite (numel_has_shape _ _ _ _ Ht) in Hnil. nia. }
  destruct (do_random_shifts cfg).
  - destruct (Hf eq_refl) as [Hh2 Hw2]. inv_okp. destruct p as [[[a b] c] d].
    destruct (random_shift_bounds _ _ _ _ _ _ _ _ _ Ha) as (Ha' & Hb & Hc & Hd & -> & _).
    apply (Hne _ _ _ (has_shape_crop _ _ _ _ _ _ _ _ Hs)); lia.
  - inv_ok. exact (Hne _ _ _ Hs Hh Hw).
Qed.

(** ** Invariants of one iteration *)

Lemma cmin_le_cmax (m s : Q) : (0 < s)%Q -> (- m / s <= (1 - m) / s)%Q.
Proof.
  intros Hs. unfold Qdiv. apply Qmult_le_compat_r; [lra|].
  apply Qinv_le_0_compat. lra.
Qed.

Lemma cmin_le_cmax_all : Forall2 (fun l h => (l <= h)%Q) cmin_q cmax_q.
Proof. repeat constructor; apply cmin_le_cmax; lra. Qed.

Lemma Forall_Forall_True (ch : list (list fl)) : Forall (Forall (fun _ => True)) ch.
Proof. apply Forall_forall. intros. apply Forall_forall. auto. Qed.

(** [torch.min(torch.max(u, lo), hi)] channel by channel is a clamp. *)
Lemma clamp_channels (u : tensor3) (lo hi : list Q) :
  Forall2 (fun l h => (l <= h)%Q) lo hi -> length u = length lo ->
  Forall2 (fun ch b => Forall (Forall (nan_or_in (fst b) (snd b))) ch)
    (map2 (chan_op minimum) (map2 (chan_op maximum) u (map Fin lo)) (map Fin hi))
    (combine lo hi).
Proof.
  intros Hb. revert u. induction Hb as [|l h lo hi Hlh _ IH]; intros [|ch u] Hl;
    simpl in *; try discriminate; constructor; auto.
  rewrite chan_op_chan_op. eapply chan_map_all; [apply Forall_Forall_True|].
  intros x _. apply clamp_nan_or_in. exact Hlh.
Qed.

(** The two clamps of the loop put every element of a three-channel
    tensor into its channel's range, or leave it NaN. *)
Lemma clamps_in_image_range (u v1 v2 : tensor3) :
  length u = 3 -> bcast_ch maximum u clamp_min = Ok v1 -> bcast_ch minimum v1 clamp_max = Ok v2 ->
  in_image_range v2.
Proof.
  intros Hl E1 E2. rewrite clamp_min_q in E1. rewrite clamp_max_q in E2.
  assert (Hm : length u = length (map Fin cmin_q)) by (rewrite Hl; reflexivity).
  rewrite (proj1 (bcast_ch_same _ _ _ Hm)) in E1. injection E1 as <-.
  assert (Hm2 : length (map2 (chan_op maximum) u (map Fin cmin_q)) = length (map Fin cmax_q))
    by (rewrite length_map2, Hl; reflexivity).
  rewrite (proj1 (bcast_ch_same _ _ _ Hm2)) in E2. injection E2 as <-.
  split.
  - rewrite !length_map2, Hl. reflexivity.
  - assert (Hlen : length u = length cmin_q) by (rewrite Hl; reflexivity).
    exact (clamp_channels u cmin_q cmax_q cmin_le_cmax_all Hlen).
Qed.

Lemma chan_map_id_on (P : fl -> Prop) (h : fl -> fl) (ch : list (list fl)) :
  Forall (Forall P) ch -> (forall x, P x -> h x =f= x) -> Forall2 (Forall2 feq) (map (map h) ch) ch.
Proof.
  intros H Hh. induction H as [|r ch Hr _ IH]; cbn; constructor; auto.
  induction Hr; cbn; constructor; auto.
Qed.

(** [torch.min(torch.max(u, lo), hi)] keeps the channels that lie in
    their ranges. *)
Lemma clamp_channels_id (u : tensor3) (lo hi : list Q) :
  Forall2 (fun ch b => Forall (Forall (in_range (fst b) (snd b))) ch) u (combine lo hi) ->
  teq (map2 (chan_op minimum) (map2 (chan_op maximum) u (map Fin lo)) (map Fin hi)) u.
Proof.
  unfold teq. revert lo hi. induction u as [|ch u IH]; intros [|l lo] [|h hi] H; cbn in *;
    inversion H as [|? ? ? ? Hc H']; subst; constructor.
  - rewrite chan_op_chan_op. apply (chan_map_id_on _ _ _ Hc). intros x Hx. apply clamp_id. exact Hx.
  - exact (IH _ _ H').
Qed.

(** The two clamps leave an image within the clamp ranges as it is. *)
Lemma clamps_id (u v1 v2 : tensor3) :
  in_clamp_range u -> bcast_ch maximum u clamp_min = Ok v1 -> bcast_ch minimum v1 clamp_max = Ok v2 ->
  teq v2 u.
Proof.
  intros [Hl H] E1 E2. rewrite clamp_min_q in E1. rewrite clamp_max_q in E2.
  assert (Hm : length u = length (map Fin cmin_q)) by (rewrite Hl; reflexivity).
  rewrite (proj1 (bcast_ch_same _ _ _ Hm)) in E1. injection E1 as <-.
  assert (Hm2 : length (map2 (chan_op maximum) u (map Fin cmin_q)) = length (map Fin cmax_q))
    by (rewrite length_map2, Hl; reflexivity).
  rewrite (proj1 (bcast_ch_same _ _ _ Hm2)) in E2. injection E2 as <-.
  exact (clamp_channels_id u cmin_q cmax_q H).
Qed.

Section StepFacts.

Context {N : ForwardNet}.
Variable cfg : config.
Variable grad_fn : list tensor3 -> result (nat * tensor3).
Variable learning_rate : Q.

(** The successive results of a successful iteration. *)
Lemma dream_step_inv (st st' : dstate) :
  dream_step cfg grad_fn learning_rate st = Ok st' ->
  exists x off output k seed gx d1 g d2 v1,
    input_view cfg (value (data st)) (tape st) = Ok (x, off, tape st') /\
    forward x = Ok output /\ grad_fn output = Ok (k, seed) /\
    backward x output k seed = Ok gx /\
    accumulate (requires_grad_ (data st)) (data_grad (value (data st)) off gx) = Ok d1 /\
    grad d1 = Some g /\
    iadd d1 (map3 (fun e => div (mul e (Fin learning_rate)) (Tensor.mean (map3 abs g))) g) = Ok d2 /\
    bcast_ch maximum (value d2) clamp_min = Ok v1 /\
    bcast_ch minimum v1 clamp_max = Ok (value (data st')) /\
    data st' = fresh_leaf (value (data st')).
Proof.
  unfold dream_step. intros E.
  destruct (input_view cfg _ _) as [[[x off] r]|] eqn:Ev; [|discriminate]. cbn [bind] in E.
  destruct (forward x) as [output|] eqn:Ef; [|discriminate]. cbn [bind] in E.
  destruct (grad_fn output) as [[k seed]|] eqn:Eg; [|discriminate]. cbn [bind] in E.
  destruct (backward x output k seed) as [gx|] eqn:Eb; [|discriminate]. cbn [bind] in E.
  destruct (accumulate _ _) as [d1|] eqn:Ea; [|discriminate]. cbn [bind] in E.
  destruct (grad d1) as [g|] eqn:Egr; [|discriminate]. cbn [bind] in E.
  destruct (iadd d1 _) as [d2|] eqn:Ei; [|discriminate]. cbn [bind] in E.
  destruct (bcast_ch maximum (value d2) clamp_min) as [v1|] eqn:E1; [|discriminate].
  cbn [bind] in E.
  destruct (bcast_ch minimum v1 clamp_max) as [v2|] eqn:E2; [|discriminate].
  cbn [bind] in E. injection E as <-.
  exists x, off, output, k, seed, gx, d1, g, d2, v1. simpl. repeat split; auto.
Qed.

(** An iteration leaves a fresh image: no gradient, not requiring grad. *)
Lemma dream_step_fresh (st st' : dstate) :
  dream_step cfg grad_fn learning_rate st = Ok st' ->
  grad (data st') = None /\ requires_grad (data st') = false.
Proof.
  intros E. destruct (dream_step_inv st st' E) as (? & ? & ? & ? & ? & ? & ? & ? & ? & ? & H).
  destruct H as (_ & _ & _ & _ & _ & _ & _ & _ & _ & ->). auto.
Qed.

(** An iteration keeps the shape of a three-channel image and leaves it
    within the clamp ranges. *)
Lemma dream_step_shape_range (st st' : dstate) (h w : nat) :
  has_shape 3 h w (value (data st)) ->
  dream_step cfg grad_fn learning_rate st = Ok st' ->
  has_shape 3 h w (value (data st')) /\ in_image_range (value (data st')).
Proof.
  intros Hs E.
  destruct (dream_step_inv st st' E) as (x & off & output & k & seed & gx & d1 & g & d2 & v1 & H).
  destruct H as (_ & _ & _ & _ & Ea & _ & Ei & E1 & E2 & _).
  apply accumulate_inv in Ea as [Ev1 _]. apply iadd_inv in Ei as [Ev2 [Hsh _]].
  rewrite Ev1 in Ev2, Hsh. simpl in Ev2, Hsh.
  assert (Hsh2 : shape3 (value d2) = shape3 (value (data st)))
    by (rewrite Ev2; apply shape3_zip3; exact Hsh).
  assert (Hl2 : length (value d2) = 3).
  { rewrite <- (length_map (map (@length fl))). unfold shape3 in Hsh2. rewrite Hsh2.
    unfold has_shape, shape3 in Hs. rewrite Hs. apply repeat_length. }
  split; [|eapply clamps_in_image_range; eauto].
  assert (Hc1 : length (value d2) = length clamp_min) by (rewrite Hl2; reflexivity).
  destruct (bcast_ch_same maximum _ _ Hc1) as [B1 S1]. rewrite B1 in E1. injection E1 as <-.
  assert (Hc2 : length (map2 (chan_op maximum) (value d2) clamp_min) = length clamp_max)
    by (rewrite length_map2, Hl2; reflexivity).
  destruct (bcast_ch_same minimum _ _ Hc2) as [B2 S2]. rewrite B2 in E2. injection E2 as E2.
  unfold has_shape. rewrite <- E2, S2, S1, Hsh2. exact Hs.
Qed.

(** C6: One iteration on a fresh image computes
    [clamp(data + g * lr / mean(|g|))] channel by channel, where [g] is
    the gradient of this iteration's backward pass alone (embedded back
    into the image when the network saw a crop). *)
Theorem dream_step_update (st st' : dstate) :
  grad (data st) = None ->
  dream_step cfg grad_fn learning_rate st = Ok st' ->
  exists x off output k seed gx v1,
    input_view cfg (value (data st)) (tape st) = Ok (x, off, tape st') /\
    forward x = Ok output /\ grad_fn output = Ok (k, seed) /\
    backward x output k seed = Ok gx /\
    let g := data_grad (value (data st)) off gx in
    bcast_ch maximum
      (zip3 add (value (data st))
         (map3 (fun e => div (mul e (Fin learning_rate)) (Tensor.mean (map3 abs g))) g))
      clamp_min = Ok v1 /\
    bcast_ch minimum v1 clamp_max = Ok (value (data st')).
Proof.
  intros Hg E.
  destruct (dream_step_inv st st' E) as (x & off & output & k & seed & gx & d1 & g & d2 & v1 & H).
  destruct H as (Ev & Ef & Eg & Eb & Ea & Egr & Ei & E1 & E2 & _).
  rewrite accumulate_fresh in Ea by auto. injection Ea as <-. simpl in Egr.
  injection Egr as <-. apply iadd_inv in Ei as [Ev2 _]. rewrite Ev2 in E1.
  exists x, off, output, k, seed, gx, v1. repeat split; auto.
Qed.

(** A network whose gradients are all zero. *)
Definition zero_gradients (N' : ForwardNet) : Prop :=
  forall x k seed g, @vjp N' x k seed = Ok g -> all3 (fun e => e =f= Fin 0) g.

Lemma data_grad_all3 (P : fl -> Prop) v off gx :
  P (Fin 0) -> all3 P gx -> all3 P (data_grad v off gx).
Proof. intros Hz H. destruct off as [[[[a b] c] d]|]; simpl; auto using all3_uncrop. Qed.

(** With an all-zero gradient the step divides [0] by a zero mean: every
    element of the image becomes NaN. *)
Lemma dream_step_zero_grad (st st' : dstate) (h w : nat) :
  zero_gradients N -> grad (data st) = None -> has_shape 3 h w (value (data st)) ->
  h <> 0 -> w <> 0 ->
  dream_step cfg grad_fn learning_rate st = Ok st' -> all3 (fun e => e = NaN) (value (data st')).
Proof.
  intros Hz Hg Hs Hh Hw E.
  destruct (dream_step_inv st st' E) as (x & off & output & k & seed & gx & d1 & g & d2 & v1 & H).
  destruct H as (_ & _ & _ & Eb & Ea & Egr & Ei & E1 & E2 & _).
  apply backward_vjp, Hz in Eb.
  rewrite accumulate_fresh in Ea by auto. injection Ea as <-. simpl in Egr.
  injection Egr as <-. apply iadd_inv in Ei as [Ev2 [Hsh _]]. simpl in Ev2, Hsh.
  set (g := data_grad (value (data st)) off gx) in *.
  assert (Hg0 : all3 (fun e => e =f= Fin 0) g) by (apply data_grad_all3; [reflexivity|exact Eb]).
  assert (Hn : numel (map3 abs g) <> 0).
  { unfold same_shape in Hsh. rewrite !shape3_map3 in Hsh.
    assert (Hgs : has_shape 3 h w (map3 abs g))
      by (unfold has_shape; rewrite shape3_map3, <- Hsh; exact Hs).
    rewrite (numel_has_shape _ _ _ _ Hgs). lia. }
  assert (Hm : Tensor.mean (map3 abs g) =f= Fin 0).
  { apply mean_zeros; [|exact Hn]. apply (all3_map3 _ _ _ _ Hg0).
    intros e He. rewrite He. reflexivity. }
  assert (Hu : all3 (fun e => e = NaN) (value d2)).
  { rewrite Ev2. apply (all3_zip3 (fun _ => True) (fun e => e = NaN)); [apply all3_True| |].
    - apply (all3_map3 _ _ _ _ Hg0). intros e He. apply feq_NaN.
      rewrite Hm, (mul_zero_l e learning_rate He). reflexivity.
    - intros a b _ ->. apply add_NaN_r. }
  assert (Hv1 : all3 (fun e => e = NaN) v1).
  { eapply (all3_bcast_ch _ (fun _ => True)); eauto.
    - apply Forall_forall; auto.
    - intros a c -> _. reflexivity. }
  eapply (all3_bcast_ch _ (fun _ => True)); eauto.
  - apply Forall_forall; auto.
  - intros a c -> _. reflexivity.
Qed.

(** A network whose gradients are finite, and not all zero on a
    non-empty input. *)
Definition nondegenerate_gradients (N' : ForwardNet) : Prop :=
  forall x k seed g, @vjp N' x k seed = Ok g ->
    all3 (fun e => finite e = true) g /\
    (flatten x <> [] -> Exists (fun e => exists q, e = Fin q /\ ~ (q == 0)%Q) (flatten g)).

(** With [learning_rate = 0] and a non-degenerate gradient, an iteration
    adds [g * 0 / mean(|g|) = 0] and the clamps keep an image that lies
    within their ranges. *)
Lemma dream_step_lr_zero (st st' : dstate) (h w : nat) :
  (learning_rate == 0)%Q -> nondegenerate_gradients N -> grad (data st) = None ->
  has_shape 3 h w (value (data st)) -> crops_fit cfg h w -> in_clamp_range (value (data st)) ->
  dream_step cfg grad_fn learning_rate st = Ok st' -> teq (value (data st')) (value (data st)).
Proof.
  intros Hlr Hnd Hg Hs Hc Hr E.
  destruct (dream_step_inv st st' E) as (x & off & output & k & seed & gx & d1 & g & d2 & v1 & H).
  destruct H as (Ev & _ & _ & Eb & Ea & Egr & Ei & E1 & E2 & _).
  apply backward_vjp, Hnd in Eb as [Hfin Hex]. specialize (Hex (input_view_nonempty _ _ _ _ _ _ _ _ Hs Hc Ev)).
  rewrite accumulate_fresh in Ea by auto. injection Ea as <-. simpl in Egr.
  injection Egr as <-. apply iadd_inv in Ei as [Ev2 [Hsh _]]. simpl in Ev2, Hsh.
  set (g := data_grad (value (data st)) off gx) in *.
  assert (Hgf : all3 (fun e => finite e = true) g) by (apply data_grad_all3; [reflexivity|exact Hfin]).
  assert (Hge : Exists (fun e => exists q, e = Fin q /\ ~ (q == 0)%Q) (flatten g)).
  { unfold g, data_grad. destruct off as [[[[a b] c] d]|]; [apply Exists_flatten_uncrop|]; exact Hex. }
  destruct (mean_pos (map3 abs g)) as (m & Em & Hm).
  { apply (all3_map3 _ _ _ _ Hgf). intros [q| | |] Hq; try discriminate.
    exists (Qabs q). split; [reflexivity|apply Qabs_nonneg]. }
  { rewrite flatten_map3. apply Exists_map. eapply Exists_impl; [|exact Hge].
    intros e (q & -> & Hq). exists (Qabs q). split; [reflexivity|].
    pose proof (Qabs_nonneg q) as Hnn. apply Qle_lteq in Hnn as [Hp|Hz]; [exact Hp|].
    exfalso. apply Hq. assert (Hle : (Qabs q <= 0)%Q) by lra. apply Qabs_Qle_condition in Hle. lra. }
  rewrite Em in Ev2, Hsh.
  assert (Hu : all3 (fun e => e =f= Fin 0) (map3 (fun e => div (mul e (Fin learning_rate)) (Fin m)) g)).
  { apply (all3_map3 _ _ _ _ Hgf). intros [q| | |] Hq; try discriminate. cbn.
    destruct (Qeq_bool m 0) eqn:Emz; [apply Qeq_bool_iff in Emz; lra|]. cbn. rewrite Hlr.
    unfold Qdiv. ring. }
  assert (Hd2 : teq (value d2) (value (data st))).
  { rewrite Ev2. apply teq_zip3_add_zero; [exact Hsh|exact Hu]. }
  etransitivity; [|exact Hd2]. exact (clamps_id _ _ _ (in_clamp_range_teq _ _ Hd2 Hr) E1 E2).
Qed.

End StepFacts.

Section LoopFacts.

Context {N : ForwardNet}.
Variable cfg : config.
Variable grad_fn : list tensor3 -> result (nat * tensor3).
Variable learning_rate : Q.

Lemma dream_loop_preserves (P : dstate -> Prop) :
  (forall st st', P st -> dream_step cfg grad_fn learning_rate st = Ok st' -> P st') ->
  forall n st st', P st -> dream_loop cfg grad_fn learning_rate n st = Ok st' -> P st'.
Proof.
  intros HP n. induction n as [|n IH]; simpl; intros st st' H E; inv_ok; eauto.
Qed.

(** A property that every iteration establishes holds after a loop of
    at least one iteration. *)
Lemma dream_loop_establishes (P Q : dstate -> Prop) :
  (forall st st', P st -> dream_step cfg grad_fn learning_rate st = Ok st' -> P st' /\ Q st') ->
  forall n st st', 1 <= n -> P st -> dream_loop cfg grad_fn learning_rate n st = Ok st' -> Q st'.
Proof.
  intros HP n. induction n as [|n IH]; intros st st' Hn H E; [lia|]. simpl in E. inv_ok.
  destruct (HP _ _ H Ha) as [H1 H2]. destruct n; [simpl in E; inv_ok; exact H2|].
  eapply IH; eauto. lia.
Qed.

(** C5: The image never carries a gradient from one iteration into the
    next: every state the loop reaches from a fresh image has no
    gradient, because the clamps rebind [data] to a fresh tensor. *)
Theorem dream_loop_grad_fresh (n : nat) (st st' : dstate) :
  grad (data st) = None -> dream_loop cfg grad_fn learning_rate n st = Ok st' ->
  grad (data st') = None.
Proof.
  apply (dream_loop_preserves (fun s => grad (data s) = None)).
  intros s s' _ E. apply (dream_step_fresh cfg grad_fn learning_rate s s' E).
Qed.

(** C7: After at least one iteration the image keeps its C x H x W shape and
    lies within the clamp ranges (or is NaN). *)
Theorem dream_loop_in_range (n : nat) (st st' : dstate) (h w : nat) :
  1 <= n -> has_shape 3 h w (value (data st)) ->
  dream_loop cfg grad_fn learning_rate n st = Ok st' ->
  has_shape 3 h w (value (data st')) /\ in_image_range (value (data st')).
Proof.
  intros Hn Hs. apply (dream_loop_establishes (fun s => has_shape 3 h w (value (data s)))
    (fun s => has_shape 3 h w (value (data s)) /\ in_image_range (value (data s)))); auto.
  intros s s' H E. destruct (dream_step_shape_range cfg grad_fn learning_rate s s' h w H E).
  auto.
Qed.

Lemma dream_loop_shape (n : nat) (st st' : dstate) (h w : nat) :
  has_shape 3 h w (value (data st)) ->
  dream_loop cfg grad_fn learning_rate n st = Ok st' -> has_shape 3 h w (value (data st')).
Proof.
  apply (dream_loop_preserves (fun s => has_shape 3 h w (value (data s)))). intros s s' H E.
  exact (proj1 (dream_step_shape_range cfg grad_fn learning_rate s s' h w H E)).
Qed.

(** Without random shifts an iteration never reads the tape: running it
    from another tape gives the same image. *)
Lemma dream_step_noshift (d : leaf) (r r0 : rng) :
  do_random_shifts cfg = false ->
  dream_step cfg grad_fn learning_rate (mk_dstate d r) =
  rmap (with_tape r) (dream_step cfg grad_fn learning_rate (mk_dstate d r0)).
Proof.
  intros H. unfold dream_step, input_view, bind. rewrite H. cbn [data tape].
  repeat match goal with |- context [match ?c with _ => _ end] => destruct c end;
    reflexivity.
Qed.

Lemma dream_loop_noshift (n : nat) (d : leaf) (r r0 : rng) :
  do_random_shifts cfg = false ->
  dream_loop cfg grad_fn learning_rate n (mk_dstate d r) =
  rmap (with_tape r) (dream_loop cfg grad_fn learning_rate n (mk_dstate d r0)).
Proof.
  intros H. revert d r r0. induction n as [|n IH]; intros d r r0; [reflexivity|].
  cbn [dream_loop]. rewrite (dream_step_noshift d r r0 H).
  destruct (dream_step cfg grad_fn learning_rate (mk_dstate d r0)) as [[d' r']|e];
    [apply IH|reflexivity].
Qed.

(** With [learning_rate = 0] the loop keeps an image of the clamp ranges,
    up to [teq]. *)
Lemma dream_loop_lr_zero (n : nat) (st st' : dstate) (p : tensor3) (h w : nat) :
  (learning_rate == 0)%Q -> nondegenerate_gradients N -> crops_fit cfg h w -> in_clamp_range p ->
  grad (data st) = None -> has_shape 3 h w (value (data st)) -> teq (value (data st)) p ->
  dream_loop cfg grad_fn learning_rate n st = Ok st' -> teq (value (data st')) p.
Proof.
  intros Hlr Hnd Hc Hp Hg Hs Ht E.
  refine (proj2 (proj2 (dream_loop_preserves
    (fun s => grad (data s) = None /\ has_shape 3 h w (value (data s)) /\ teq (value (data s)) p)
    _ n st st' (conj Hg (conj Hs Ht)) E))).
  intros s s' (Hg1 & Hs1 & Ht1) Es. split; [exact (proj1 (dream_step_fresh cfg grad_fn learning_rate s s' Es))|].
  split; [exact (proj1 (dream_step_shape_range cfg grad_fn learning_rate s s' h w Hs1 Es))|].
  etransitivity; [|exact Ht1].
  exact (dream_step_lr_zero cfg grad_fn learning_rate s s' h w Hlr Hnd Hg1 Hs1 Hc
           (in_clamp_range_teq _ _ Ht1 Hp) Es).
Qed.

End LoopFacts.

(** ** The result of [dream] *)

(** C1: Every element of the image [dream] returns lies in [0, 1], or is NaN. *)
Theorem dream_output_range {N : ForwardNet} (cfg : config) (img : tensor3) (n_iter : Z)
  (grad_fn : list tensor3 -> result (nat * tensor3)) (lr : Q) (r : rng) (res : tensor3) :
  dream cfg img n_iter grad_fn lr r = Ok res -> all3 (nan_or_in 0 1) res.
Proof.
  unfold dream. intros E. inv_ok. apply all3_permute120.
  apply (all3_map3 (fun _ => True)); [apply all3_True|].
  intros x _. apply clamp_nan_or_in. lra.
Qed.

(** An image given by [ToTensor] has its values in [0, 1]. *)
Definition to_tensor_image (img : tensor3) : Prop := length img = 3 /\ all3 (in_range 0 1) img.

(** C9: With [n_iter <= 0] ([range(n_iter)] is empty; a negative count is
    not rejected) [dream] never raises on a three-channel image and
    ignores the network, the gradient function, the learning rate and
    the random source: it returns [clamp(0, 1)] of the un-normalised
    normalised image, permuted to H x W x C, the two float passes the
    code evaluates. *)
Theorem dream_nonpositive_iterations {N : ForwardNet} (cfg : config) (img : tensor3)
  (n_iter : Z) (grad_fn : list tensor3 -> result (nat * tensor3)) (lr : Q) (r : rng) :
  length img = 3 -> (n_iter <= 0)%Z ->
  exists p u, normalize img = Ok p /\ unnormalize p = Ok u /\
    dream cfg img n_iter grad_fn lr r = Ok (permute120 (map3 (fun x => clamp x (Fin 0) (Fin 1)) u)).
Proof.
  intros Hl Hn. assert (Hp : length (per_channel norm_ch mean std img) = 3) by (rewrite length_per_channel; auto).
  do 2 eexists. split; [exact (normalize_ok img Hl)|]. split; [exact (unnormalize_ok _ Hp)|].
  unfold dream. rewrite (normalize_ok img Hl). cbn [bind]. replace (Z.to_nat n_iter) with 0 by lia.
  cbn [dream_loop bind value data fresh_leaf].
  rewrite unnormalize_ok by (rewrite length_per_channel; auto). reflexivity.
Qed.

(** C2: [dream] returns an H x W x C image for a C x H x W input with
    C = 3: the random crop is a view for the forward pass only, and the
    image itself never shrinks. *)
Theorem dream_shape {N : ForwardNet} (cfg : config) (img : tensor3) (n_iter : Z)
  (grad_fn : list tensor3 -> result (nat * tensor3)) (lr : Q) (r : rng) (res : tensor3) (h w : nat) :
  has_shape 3 h w img -> dream cfg img n_iter grad_fn lr r = Ok res -> has_shape h w 3 res.
Proof.
  intros Hs E. unfold dream in E. inv_ok.
  assert (Hl : length img = 3) by (apply has_shape_iff in Hs; apply Hs).
  rewrite normalize_ok in Ha by exact Hl. injection Ha as <-.
  assert (Hs1 : has_shape 3 h w (per_channel norm_ch mean std img)).
  { unfold has_shape. rewrite shape3_per_channel by (rewrite Hl; reflexivity). exact Hs. }
  eapply dream_loop_shape in Ha0; [|simpl; exact Hs1].
  assert (Hl2 : length (value (data a0)) = 3) by (apply has_shape_iff in Ha0; apply Ha0).
  rewrite unnormalize_ok in Ha1 by exact Hl2. injection Ha1 as <-.
  apply has_shape_permute120; [discriminate|].
  unfold has_shape. rewrite shape3_map3, shape3_per_channel by (rewrite Hl2; reflexivity).
  exact Ha0.
Qed.

(** C3: The specification asks for a defined, non-raising behaviour when the
    gradient is zero.  The code divides by [grad_mean = 0]: with a
    network whose gradients vanish, one iteration already turns every
    pixel of the result into NaN (the final [clamp(0, 1)] keeps NaN). *)
Theorem dream_zero_grad_nan {N : ForwardNet} (cfg : config) (img : tensor3) (n_iter : Z)
  (grad_fn : list tensor3 -> result (nat * tensor3)) (lr : Q) (r : rng) (res : tensor3) (h w : nat) :
  zero_gradients N -> has_shape 3 h w img -> h <> 0 -> w <> 0 -> (1 <= n_iter)%Z ->
  dream cfg img n_iter grad_fn lr r = Ok res -> all3 (fun e => e = NaN) res.
Proof.
  intros Hz Hs Hh Hw Hn E. unfold dream in E. inv_ok.
  assert (Hl : length img = 3) by (apply has_shape_iff in Hs; apply Hs).
  rewrite normalize_ok in Ha by exact Hl. injection Ha as <-.
  assert (Hs1 : has_shape 3 h w (per_channel norm_ch mean std img)).
  { unfold has_shape. rewrite shape3_per_channel by (rewrite Hl; reflexivity). exact Hs. }
  assert (Hnan : all3 (fun e => e = NaN) (value (data a0))).
  { refine (dream_loop_establishes cfg grad_fn lr
      (fun s => grad (data s) = None /\ has_shape 3 h w (value (data s)))
      (fun s => all3 (fun e => e = NaN) (value (data s))) _ (Z.to_nat n_iter) _ _ _ _ Ha0);
      [|lia|split; [reflexivity|exact Hs1]].
    intros s s' [Hg Hss] Es. split; [split|].
    - exact (proj1 (dream_step_fresh cfg grad_fn lr s s' Es)).
    - exact (proj1 (dream_step_shape_range cfg grad_fn lr s s' h w Hss Es)).
    - eapply dream_step_zero_grad; eauto. }
  assert (Hl2 : length (value (data a0)) = 3).
  { eapply dream_loop_shape in Ha0; [|simpl; exact Hs1].
    apply has_shape_iff in Ha0. apply Ha0. }
  rewrite unnormalize_ok in Ha1 by exact Hl2. injection Ha1 as <-.
  apply all3_permute120. apply (all3_map3 (fun e => e = NaN)).
  - apply (all3_per_channel (fun e => e = NaN)); [intros ? ? ? ->; reflexivity|exact Hnan].
  - intros ? ->. reflexivity.
Qed.

(** C8: With [do_random_shifts = False] [dream] does not read the random
    source: runs from any two states of Python's random module return
    the same result, error or image. *)
Theorem dream_noshift_deterministic {N : ForwardNet} (cfg : config) (img : tensor3)
  (n_iter : Z) (grad_fn : list tensor3 -> result (nat * tensor3)) (lr : Q) (r1 r2 : rng) :
  do_random_shifts cfg = false ->
  dream cfg img n_iter grad_fn lr r1 = dream cfg img n_iter grad_fn lr r2.
Proof.
  intros H. unfold dream. destruct (normalize img) as [p|e]; [|reflexivity]. cbn [bind].
  rewrite (dream_loop_noshift cfg grad_fn lr _ _ r1 r2 H).
  destruct (dream_loop cfg grad_fn lr _ _); reflexivity.
Qed.

Lemma norm_ch_proper (u v : fl) : Proper (feq ==> feq) (norm_ch u v).
Proof. intros a b H. unfold norm_ch, sub. rewrite H. reflexivity. Qed.

(** C4: The specification's first property, in the form the code
    computes exactly: with [learning_rate = 0], a network whose gradients
    are finite and not all zero, and a [ToTensor] image, [dream] returns
    what it returns for [n_iter = 0]: each iteration adds
    [g * 0 / mean(|g|) = 0] and the clamps keep the normalised image, so
    the loop leaves [data] as [normalize] made it.  (With a zero
    gradient the mean is 0 and the result is NaN instead:
    [dream_zero_grad_nan].) *)
Theorem dream_lr_zero {N : ForwardNet} (cfg : config) (img : tensor3) (n_iter : Z)
  (grad_fn : list tensor3 -> result (nat * tensor3)) (r : rng) (res : tensor3) (h w : nat) :
  nondegenerate_gradients N -> has_shape 3 h w img -> all3 (in_range 0 1) img -> crops_fit cfg h w ->
  dream cfg img n_iter grad_fn 0 r = Ok res ->
  exists res0, dream cfg img 0 grad_fn 0 r = Ok res0 /\ teq res res0.
Proof.
  intros Hnd Hs Hr Hc E. unfold dream in E. inv_ok.
  assert (Hl : length img = 3) by (apply has_shape_iff in Hs; apply Hs).
  rewrite normalize_ok in Ha by exact Hl. injection Ha as <-.
  assert (Hs1 : has_shape 3 h w (per_channel norm_ch mean std img)).
  { unfold has_shape. rewrite shape3_per_channel by (rewrite Hl; reflexivity). exact Hs. }
  pose proof (dream_loop_lr_zero cfg grad_fn 0 _ (mk_dstate (fresh_leaf (per_channel norm_ch mean std img)) r)
                a0 (per_channel norm_ch mean std img) h w (Qeq_refl 0) Hnd Hc
                (normalize_in_clamp_range img Hl Hr) eq_refl Hs1 (reflexivity _) Ha0) as Hloop.
  assert (Hl2 : length (value (data a0)) = 3) by (rewrite (Forall2_length Hloop), length_per_channel; auto).
  rewrite unnormalize_ok in Ha1 by exact Hl2. injection Ha1 as <-.
  unfold dream. rewrite (normalize_ok img Hl). cbn [bind Z.to_nat dream_loop value data fresh_leaf].
  rewrite unnormalize_ok by (rewrite length_per_channel; auto). eexists. split; [reflexivity|].
  apply permute120_proper. apply map3_proper; [intros a b Hab; rewrite Hab; reflexivity|].
  apply per_channel_teq; [apply norm_ch_proper|exact Hloop].
Qed.

(** ** Witnesses *)

(** A uniform grey 3 x 3 x 3 [ToTensor] image, the tape [0, 1, 2, ...],
    and the crop configuration [shift = 1]. *)
Definition img_grey : tensor3 := repeat (repeat (repeat (Fin (1 # 2)) 3) 3) 3.
Definition tape0 : rng := mk_rng (fun i => i) 0.
Definition cfg_shift1 : config := mk_config 1 true.
Definition cfg_noshift : config := mk_config 20 false.

Lemma img_grey_shape : has_shape 3 3 3 img_grey.
Proof. reflexivity. Qed.

Lemma random_shift_bounds_witness :
  match random_shift cfg_shift1 img_grey tape0 with
  | Ok (x, (a, b, c, d), r') =>
      a <= 1 /\ 1 <= b <= 1 /\ c <= 1 /\ 1 <= d <= 1 /\ x = crop a b c d img_grey /\ pos r' = 4
  | Err _ => False
  end.
Proof.
  destruct (random_shift cfg_shift1 img_grey tape0) as [[[x [[[a b] c] d]] r']|e] eqn:E.
  - exact (random_shift_bounds cfg_shift1 img_grey tape0 x a b c d r' E).
  - vm_compute in E. discriminate.
Defined.

Lemma dream_output_range_witness :
  match @dream IdNet cfg_shift1 img_grey 1 default_grad_fn (2 # 100) tape0 with
  | Ok res => all3 (nan_or_in 0 1) res
  | Err _ => False
  end.
Proof.
  destruct (@dream IdNet cfg_shift1 img_grey 1 default_grad_fn (2 # 100) tape0) as [res|e] eqn:E.
  - exact (@dream_output_range IdNet cfg_shift1 img_grey 1 default_grad_fn (2 # 100) tape0 res E).
  - vm_compute in E. discriminate.
Defined.

Lemma dream_shape_witness :
  match @dream IdNet cfg_shift1 img_grey 1 default_grad_fn (2 # 100) tape0 with
  | Ok res => has_shape 3 3 3 res
  | Err _ => False
  end.
Proof.
  destruct (@dream IdNet cfg_shift1 img_grey 1 default_grad_fn (2 # 100) tape0) as [res|e] eqn:E.
  - exact (@dream_shape IdNet cfg_shift1 img_grey 1 default_grad_fn (2 # 100) tape0 res 3 3
             img_grey_shape E).
  - vm_compute in E. discriminate.
Defined.

Lemma zero_gradients_ZeroNet : zero_gradients ZeroNet.
Proof.
  intros x k seed g E. injection E as <-. apply (all3_map3 (fun _ => True)); [apply all3_True|].
  intros. reflexivity.
Qed.

Lemma dream_zero_grad_nan_witness :
  match @dream ZeroNet cfg_shift1 img_grey 1 default_grad_fn (2 # 100) tape0 with
  | Ok res => all3 (fun e => e = NaN) res
  | Err _ => False
  end.
Proof.
  destruct (@dream ZeroNet cfg_shift1 img_grey 1 default_grad_fn (2 # 100) tape0) as [res|e] eqn:E.
  - exact (@dream_zero_grad_nan ZeroNet cfg_shift1 img_grey 1 default_grad_fn (2 # 100) tape0 res 3 3
             zero_gradients_ZeroNet img_grey_shape ltac:(discriminate) ltac:(discriminate)
             ltac:(lia) E).
  - vm_compute in E. discriminate.
Defined.

Definition st_grey : dstate := mk_dstate (fresh_leaf img_grey) tape0.

Lemma dream_loop_grad_fresh_witness :
  match @dream_loop IdNet cfg_shift1 default_grad_fn (2 # 100) 2 st_grey with
  | Ok st' => grad (data st') = None
  | Err _ => False
  end.
Proof.
  destruct (@dream_loop IdNet cfg_shift1 default_grad_fn (2 # 100) 2 st_grey) as [st'|e] eqn:E.
  - exact (@dream_loop_grad_fresh IdNet cfg_shift1 default_grad_fn (2 # 100) 2 st_grey st' eq_refl E).
  - vm_compute in E. discriminate.
Defined.

Lemma dream_loop_in_range_witness :
  match @dream_loop IdNet cfg_shift1 default_grad_fn (2 # 100) 1 st_grey with
  | Ok st' => has_shape 3 3 3 (value (data st')) /\ in_image_range (value (data st'))
  | Err _ => False
  end.
Proof.
  destruct (@dream_loop IdNet cfg_shift1 default_grad_fn (2 # 100) 1 st_grey) as [st'|e] eqn:E.
  - exact (@dream_loop_in_range IdNet cfg_shift1 default_grad_fn (2 # 100) 1 st_grey st' 3 3
             ltac:(lia) img_grey_shape E).
  - vm_compute in E. discriminate.
Defined.

Lemma dream_step_update_witness :
  match @dream_step IdNet cfg_shift1 default_grad_fn (2 # 100) st_grey with
  | Ok st' =>
      exists x off output k seed gx v1,
        input_view cfg_shift1 img_grey tape0 = Ok (x, off, tape st') /\
        @forward IdNet x = Ok output /\ default_grad_fn output = Ok (k, seed) /\
        @backward IdNet x output k seed = Ok gx /\
        let g := data_grad img_grey off gx in
        bcast_ch maximum
          (zip3 add img_grey
             (map3 (fun e => div (mul e (Fin (2 # 100))) (Tensor.mean (map3 abs g))) g))
          clamp_min = Ok v1 /\
        bcast_ch minimum v1 clamp_max = Ok (value (data st'))
  | Err _ => False
  end.
Proof.
  destruct (@dream_step IdNet cfg_shift1 default_grad_fn (2 # 100) st_grey) as [st'|e] eqn:E.
  - exact (@dream_step_update IdNet cfg_shift1 default_grad_fn (2 # 100) st_grey st' eq_refl E).
  - vm_compute in E. discriminate.
Defined.

Lemma img_grey_to_tensor : to_tensor_image img_grey.
Proof.
  split; [reflexivity|].
  repeat first [apply Forall_nil | apply Forall_cons | split; apply Qle_bool_imp_le; reflexivity].
Qed.

Lemma dream_nonpositive_iterations_witness :
  length img_grey = 3 /\ (-1 <= 0)%Z /\
  exists p u, normalize img_grey = Ok p /\ unnormalize p = Ok u /\
    @dream IdNet cfg_shift1 img_grey (-1) default_grad_fn (2 # 100) tape0 =
      Ok (permute120 (map3 (fun x => clamp x (Fin 0) (Fin 1)) u)).
Proof.
  split; [reflexivity|]. split; [lia|].
  apply dream_nonpositive_iterations; [reflexivity|lia].
Defined.

Definition tape7 : rng := mk_rng (fun _ => 7) 3.

Lemma dream_noshift_deterministic_witness :
  do_random_shifts cfg_noshift = false /\
  @dream IdNet cfg_noshift img_grey 1 default_grad_fn (2 # 100) tape0 =
  @dream IdNet cfg_noshift img_grey 1 default_grad_fn (2 # 100) tape7.
Proof. split; [reflexivity|]. apply (@dream_noshift_deterministic IdNet). reflexivity. Defined.

Lemma nondegenerate_OnesNet : nondegenerate_gradients OnesNet.
Proof.
  intros x k seed g E. injection E as <-. split.
  - apply (all3_map3 (fun _ => True)); [apply all3_True|]. reflexivity.
  - intros Hx. rewrite flatten_map3. destruct (flatten x) as [|e l]; [contradiction|].
    apply Exists_cons_hd. exists 1%Q. split; [reflexivity|discriminate].
Qed.

Lemma crops_fit_noshift : crops_fit cfg_noshift 3 3.
Proof. split; [lia|]. split; [lia|]. discriminate. Qed.

Lemma dream_lr_zero_witness :
  nondegenerate_gradients OnesNet /\ has_shape 3 3 3 img_grey /\ all3 (in_range 0 1) img_grey /\
  crops_fit cfg_noshift 3 3 /\
  match @dream OnesNet cfg_noshift img_grey 2 default_grad_fn 0 tape0 with
  | Ok res => exists res0, @dream OnesNet cfg_noshift img_grey 0 default_grad_fn 0 tape0 = Ok res0 /\ teq res res0
  | Err _ => False
  end.
Proof.
  split; [exact nondegenerate_OnesNet|]. split; [exact img_grey_shape|].
  split; [exact (proj2 img_grey_to_tensor)|]. split; [exact crops_fit_noshift|].
  destruct (@dream OnesNet cfg_noshift img_grey 2 default_grad_fn 0 tape0) as [res|e] eqn:E;
    [|vm_compute in E; discriminate].
  exact (dream_lr_zero cfg_noshift img_grey 2 default_grad_fn tape0 res 3 3 nondegenerate_OnesNet
           img_grey_shape (proj2 img_grey_to_tensor) crops_fit_noshift E).
Defined.

End Dream.
