(* ===== verification/Display.v ===== *)
(** * Showing images: [imshow] of the transfer notebook and [upsample]

    The transfer-learning notebook displays a normalised batch with its
    own [imshow] (lines 204-215 of [src/unnamed/part_000]): the tensor
    goes to numpy, is transposed to H x W x C, un-normalised by
    [std * inp + mean] with numpy broadcasting against the last axis, and
    clipped to [0, 1] with [np.clip].  The visual-understanding notebook
    un-normalises with [transforms.Normalize(-mean / std, 1 / std)] and
    clamps (lines 932 and 1331-1333 of [src/optimization_tutorial.ipynb]);
    the two are different computations (float64 numpy against float32
    torch) and are not identified here.

    [upsample] (lines 807-822 of the visual notebook) rescales an
    activation map to [0, 1] by [(image - image.min()) / (image.max() -
    image.min())] before the PIL resize; its range and its behaviour on a
    constant map are proved here (the resize and the colour map are
    library code). *)

From S2P Require Import Prelude Fl Tensor Normalize.
Import Fl Tensor Normalize.

Module Display.
Local Open Scope Q_scope.

(** ** The transfer notebook's [imshow] *)

(** [mean = np.array([0.485, 0.456, 0.406])],
    [std = np.array([0.229, 0.224, 0.225])] (lines 207-208). *)
Definition np_mean : list fl := map Fin [485#1000; 456#1000; 406#1000].
Definition np_std : list fl := map Fin [229#1000; 224#1000; 225#1000].

(** [v op a] for a vector [v] and an array [a] of shape (H, W, C):
    numpy broadcasts [v] against the last axis, which must have [len(v)]
    entries or one. *)
Definition np_bcast (f : fl -> fl -> fl) (v : list fl) (c : nat) (a : tensor3) : result tensor3 :=
  if Nat.eqb c (length v) then Ok (map (map (fun px => map2 f v px)) a)
  else if Nat.eqb c 1 then Ok (map (map (fun px => map (fun x => f x (hd NaN px)) v)) a)
  else Err BroadcastError.

(** [inp = inp.numpy().transpose((1, 2, 0))], [inp = std * inp + mean],
    [inp = np.clip(inp, 0, 1)]: the array [plt.imshow] receives. *)
Definition imshow_array (inp : tensor3) : result tensor3 :=
  let a := permute120 inp in
  let* a := np_bcast (fun s x => mul s x) np_std (length inp) a in
  let* a := np_bcast (fun m x => add x m) np_mean (length np_std) a in
  Ok (map3 (fun x => clamp x (Fin 0) (Fin 1)) a).

(** ** [upsample]: scaling an activation map to [0, 1] *)

(** [a.min()] and [a.max()] of a numpy array: NaN propagates, and an
    empty array raises [ValueError] (a reduction with no identity). *)
Definition np_min (l : list fl) : result fl :=
  match l with [] => Err ValueError | x :: l' => Ok (fold_left minimum l' x) end.

Definition np_max (l : list fl) : result fl :=
  match l with [] => Err ValueError | x :: l' => Ok (fold_left maximum l' x) end.

(** [image = (image - image.min()) / (image.max() - image.min())] on the
    2-D activation map (line 819). *)
Definition minmax (image : list (list fl)) : result (list (list fl)) :=
  let* lo := np_min (concat image) in
  let* hi := np_max (concat image) in
  Ok (map (map (fun x => div (sub x lo) (sub hi lo))) image).

(** The fold of [minimum] over finite values is their least element. *)
Lemma fold_minimum_fin (l : list Q) (a : Q) :
  exists lo, fold_left minimum (map Fin l) (Fin a) = Fin lo /\ lo <= a /\ Forall (fun q => lo <= q) l.
Proof.
  revert a. induction l as [|q l IH]; intros a; cbn [map fold_left].
  - exists a. split; [reflexivity|]. split; [lra|constructor].
  - unfold minimum at 2. cbn [leb]. destruct (Qle_bool a q) eqn:E.
    + apply Qle_bool_iff in E. destruct (IH a) as (lo & H1 & H2 & H3).
      exists lo. split; [exact H1|]. split; [exact H2|]. constructor; [lra|exact H3].
    + apply Qle_bool_false in E. destruct (IH q) as (lo & H1 & H2 & H3).
      exists lo. split; [exact H1|]. split; [lra|]. constructor; [exact H2|exact H3].
Qed.

Lemma fold_maximum_fin (l : list Q) (a : Q) :
  exists hi, fold_left maximum (map Fin l) (Fin a) = Fin hi /\ a <= hi /\ Forall (fun q => q <= hi) l.
Proof.
  revert a. induction l as [|q l IH]; intros a; cbn [map fold_left].
  - exists a. split; [reflexivity|]. split; [lra|constructor].
  - unfold maximum at 2. cbn [leb]. destruct (Qle_bool a q) eqn:E.
    + apply Qle_bool_iff in E. destruct (IH q) as (hi & H1 & H2 & H3).
      exists hi. split; [exact H1|]. split; [lra|]. constructor; [exact H2|exact H3].
    + apply Qle_bool_false in E. destruct (IH a) as (hi & H1 & H2 & H3).
      exists hi. split; [exact H1|]. split; [exact H2|]. constructor; [lra|exact H3].
Qed.

(** The bounds of a non-empty map of finite values. *)
Lemma np_min_max_fin (l : list Q) :
  l <> [] ->
  exists lo hi, np_min (map Fin l) = Ok (Fin lo) /\ np_max (map Fin l) = Ok (Fin hi) /\
    Forall (fun q => lo <= q <= hi) l.
Proof.
  destruct l as [|a l]; [congruence|]. intros _. cbn [map np_min np_max].
  destruct (fold_minimum_fin l a) as (lo & -> & Hlo & Hl). destruct (fold_maximum_fin l a) as (hi & -> & Hhi & Hh).
  exists lo, hi. split; [reflexivity|]. split; [reflexivity|]. constructor; [lra|].
  rewrite Forall_forall in *. intros q Hq. split; [apply Hl|apply Hh]; exact Hq.
Qed.

(** Folding an idempotent operation over copies of a value. *)
Lemma fold_const (op : fl -> fl -> fl) (c : Q) (l : list fl) :
  op (Fin c) (Fin c) = Fin c -> Forall (fun x => x = Fin c) l -> fold_left op l (Fin c) = Fin c.
Proof. intros Hop H. induction H as [|x l -> _ IH]; [reflexivity|]. cbn [fold_left]. rewrite Hop. exact IH. Qed.

(** The finite activation map [qs] as a float map. *)
Definition fin_map (qs : list (list Q)) : list (list fl) := map (map Fin) qs.

Lemma concat_fin_map (qs : list (list Q)) : concat (fin_map qs) = map Fin (concat qs).
Proof. unfold fin_map. symmetry. apply concat_map. Qed.

(** On a finite, non-constant activation map, [upsample]'s scaling
    maps the minimum to 0, the maximum to 1 and every value into
    [0, 1]. *)
Theorem minmax_range (qs : list (list Q)) (r : list (list fl)) :
  minmax (fin_map qs) = Ok r ->
  (exists q1 q2, In q1 (concat qs) /\ In q2 (concat qs) /\ ~ q1 == q2) ->
  Forall (Forall (in_range 0 1)) r.
Proof.
  intros E (q1 & q2 & H1 & H2 & Hne). unfold minmax in E. rewrite concat_fin_map in E.
  destruct (np_min_max_fin (concat qs)) as (lo & hi & Elo & Ehi & Hb); [intros Hn; rewrite Hn in H1; contradiction|].
  rewrite Elo, Ehi in E. cbn [bind] in E. apply Ok_inj in E. subst r.
  assert (Hlt : lo < hi).
  { rewrite Forall_forall in Hb. pose proof (Hb q1 H1). pose proof (Hb q2 H2).
    destruct (Qlt_le_dec lo hi) as [L|L]; [exact L|exfalso; apply Hne; lra]. }
  destruct (pos_facts (hi + - lo) ltac:(lra)) as [Ez _].
  unfold fin_map. rewrite Forall_forall in Hb. rewrite map_map. apply Forall_map, Forall_forall.
  intros row Hrow. rewrite map_map. apply Forall_map, Forall_forall. intros q Hq.
  assert (Hqb : lo <= q <= hi) by (apply Hb, in_concat; eauto).
  cbn. rewrite Ez. cbn. split.
  - apply Qle_shift_div_l; lra.
  - apply Qle_shift_div_r; lra.
Qed.

Lemma minmax_range_witness :
  minmax (fin_map [[0; 2]; [1; 4]]) = Ok [[Fin (0 # 4); Fin (2 # 4)]; [Fin (1 # 4); Fin (4 # 4)]] /\
  (exists q1 q2, In q1 (concat [[0; 2]; [1; 4]]) /\ In q2 (concat [[0; 2]; [1; 4]]) /\ ~ q1 == q2) /\
  Forall (Forall (in_range 0 1)) [[Fin (0 # 4); Fin (2 # 4)]; [Fin (1 # 4); Fin (4 # 4)]].
Proof.
  assert (E : minmax (fin_map [[0; 2]; [1; 4]]) = Ok [[Fin (0 # 4); Fin (2 # 4)]; [Fin (1 # 4); Fin (4 # 4)]])
    by (vm_compute; reflexivity).
  assert (D : exists q1 q2, In q1 (concat [[0; 2]; [1; 4]]) /\ In q2 (concat [[0; 2]; [1; 4]]) /\ ~ q1 == q2)
    by (exists 0, 4; cbn; split; [tauto|split; [tauto|discriminate]]).
  split; [exact E|]. split; [exact D|]. exact (minmax_range _ _ E D).
Defined.

(** C27: A constant activation map (for instance a feature map that ReLU
    set to zero everywhere) is scaled to NaN everywhere: [upsample]
    divides 0 by [max - min = 0], with no error. *)
Theorem minmax_constant_nan (c : Q) (image : list (list fl)) :
  concat image <> [] -> Forall (Forall (fun x => x = Fin c)) image ->
  exists r, minmax image = Ok r /\ Forall (Forall (fun x => x = NaN)) r.
Proof.
  intros Hn Hc. assert (Hl : Forall (fun x => x = Fin c) (concat image)) by (apply Forall_concat; exact Hc).
  unfold minmax. destruct (concat image) as [|x l]; [congruence|]. inversion Hl as [|? ? Hx Hl']; subst x.
  cbn [np_min np_max bind]. rewrite (fold_const minimum c l), (fold_const maximum c l) by
    (exact Hl' || (unfold minimum, maximum; cbn; destruct (Qle_bool c c); reflexivity)).
  eexists; split; [reflexivity|]. apply Forall_map. eapply Forall_impl; [|exact Hc].
  intros row Hrow. apply Forall_map. eapply Forall_impl; [|exact Hrow]. intros x ->.
  unfold sub, div. cbn [neg add]. assert (Hz : Qeq_bool (c + - c) 0 = true) by (apply Qeq_bool_iff; ring).
  rewrite Hz. cbn [sgn]. replace (Qcompare (c + - c) 0) with Eq; [reflexivity|].
  symmetry. apply Qeq_alt. ring.
Qed.

Lemma minmax_constant_nan_witness :
  concat [[Fin 0; Fin 0]] <> [] /\ Forall (Forall (fun x => x = Fin 0)) [[Fin 0; Fin 0]] /\
  exists r, minmax [[Fin 0; Fin 0]] = Ok r /\ Forall (Forall (fun x => x = NaN)) r.
Proof.
  assert (H1 : concat [[Fin 0; Fin 0]] <> []) by discriminate.
  assert (H2 : Forall (Forall (fun x => x = Fin 0)) [[Fin 0; Fin 0]]) by repeat constructor.
  split; [exact H1|]. split; [exact H2|]. exact (minmax_constant_nan 0 _ H1 H2).
Defined.

End Display.
