(* ===== verification/Activations.v ===== *)
(** * The activation maps of the visual-understanding notebook

    Lines 1116-1121 of [src/optimization_tutorial.ipynb] turn the five
    outputs of [CustomResNet.forward] into activation maps by the norm
    over the channel dimension ([output.norm(2, dim=0)]), show all but
    the last ([activations[:-1]]), and line 1147 blends the image with
    the map of the third stage ([blend(image, activations[2])]), which
    [upsample] (lines 807-822) scales to [0, 1] before the PIL resize.
    The square root is a parameter ([sq]); the resize and the colour map
    are library code. *)

From S2P Require Import Prelude Fl Tensor Normalize Resnet Display.
Import Fl Tensor Normalize Resnet Display.

Module Activations.

(** [torch.sqrt] on one element, through the rational square root [sq]. *)
Definition fl_sqrt (sq : Q -> Q) (x : fl) : fl :=
  match x with
  | Fin q => if Qle_bool 0 q then Fin (sq q) else NaN
  | PInf => PInf
  | _ => NaN
  end.

(** The squares of one channel. *)
Definition sq_ch (ch : list (list fl)) : list (list fl) := map (map (fun x => mul x x)) ch.

(** [output.norm(2, dim=0)]: at every position, the square root of the
    sum over the channels of the squares. *)
Definition norm_dim0 (sq : Q -> Q) (o : tensor3) : list (list fl) :=
  match o with
  | [] => []
  | ch :: chs =>
      map (map (fl_sqrt sq))
        (fold_left (fun acc c => map2 (map2 add) acc (sq_ch c)) chs (sq_ch ch))
  end.

(** [activations = [output.norm(2, dim=0) for output in outputs]] *)
Definition activations (sq : Q -> Q) (outputs : list tensor3) : list (list (list fl)) :=
  map (norm_dim0 sq) outputs.

(** [activations[:-1]], the maps the loop of line 1120 shows. *)
Definition shown (acts : list (list (list fl))) : list (list (list fl)) :=
  firstn (length acts - 1) acts.

(** [l[i]] *)
Definition py_index {A} (l : list A) (i : nat) : result A :=
  match nth_error l i with Some x => Ok x | None => Err IndexError end.

(** [blend(image, activations[2])] up to the scaling of [upsample]. *)
Definition blend_activation (sq : Q -> Q) (outputs : list tensor3) : result (list (list fl)) :=
  let* a := py_index (activations sq outputs) 2 in
  minmax a.

(** ** Lemmas *)

(** A finite, non-negative element. *)
Definition fin_nn (x : fl) : Prop := exists q, x = Fin q /\ (0 <= q)%Q.

Lemma sq_ch_nn (ch : list (list fl)) :
  Forall (Forall (fun x => finite x = true)) ch -> Forall (Forall fin_nn) (sq_ch ch).
Proof.
  intros H. eapply chan_map_all; [exact H|]. intros [q| | |] Hq; try discriminate.
  exists (q * q)%Q. split; [reflexivity|]. nra.
Qed.

Lemma add_nn (x y : fl) : fin_nn x -> fin_nn y -> fin_nn (add x y).
Proof. intros (a & -> & Ha) (b & -> & Hb). exists (a + b)%Q. split; [reflexivity|lra]. Qed.

Lemma fold_sq_nn (chs : list (list (list fl))) (acc : list (list fl)) :
  Forall (Forall fin_nn) acc -> all3 (fun x => finite x = true) chs ->
  Forall (Forall fin_nn) (fold_left (fun acc c => map2 (map2 add) acc (sq_ch c)) chs acc).
Proof.
  revert acc. induction chs as [|c chs IH]; intros acc Ha Hc; [exact Ha|].
  inversion Hc as [|? ? Hc0 Hcs]; subst. apply IH; [|exact Hcs].
  pose proof (sq_ch_nn c Hc0) as Hs. rewrite Forall_forall in Ha, Hs.
  apply Forall_map2. intros r1 r2 H1 H2. specialize (Ha r1 H1). specialize (Hs r2 H2).
  rewrite Forall_forall in Ha, Hs. apply Forall_map2. intros u v Hu Hv. apply add_nn; auto.
Qed.

Lemma fin_map_exists (l : list (list fl)) :
  Forall (Forall (fun x => exists q, x = Fin q)) l -> exists qs, l = fin_map qs.
Proof.
  induction 1 as [|r l Hr _ [qs ->]].
  - exists []. reflexivity.
  - induction Hr as [|x r [q ->] _ [qs' E]].
    + exists ([] :: qs). reflexivity.
    + destruct qs' as [|r' qs'']; [discriminate|]. injection E as -> ->.
      exists ((q :: r') :: qs''). reflexivity.
Qed.

(** The norm of a finite output is a finite map. *)
Lemma norm_dim0_fin (sq : Q -> Q) (o : tensor3) :
  all3 (fun x => finite x = true) o -> exists qs, norm_dim0 sq o = fin_map qs.
Proof.
  destruct o as [|ch chs]; intros H; [exists []; reflexivity|].
  inversion H as [|? ? Hch Hchs]; subst. cbn [norm_dim0]. apply fin_map_exists.
  eapply chan_map_all; [exact (fold_sq_nn chs _ (sq_ch_nn ch Hch) Hchs)|].
  intros x (q & -> & Hq). cbn. apply Qle_bool_iff in Hq. rewrite Hq. eauto.
Qed.

Lemma minmax_ok (qs : list (list Q)) : concat qs <> [] -> exists r, minmax (fin_map qs) = Ok r.
Proof.
  intros Hn. unfold minmax. rewrite concat_fin_map.
  destruct (concat qs) as [|q l]; [congruence|]. cbn. eauto.
Qed.

(** C28: The activation cells compose with [CustomResNet.forward]: of its
    five outputs the loop of line 1120 shows the four stage maps (not
    the classifier's), and [blend(image, activations[2])] never raises
    [IndexError]: it takes the norm map of the third output, a finite
    map when that output is finite, which [upsample] scales into [0, 1]
    when it is not constant. *)
Theorem blend_layer3 (m : stages) (x : tensor3) (outs : list tensor3) (sq : Q -> Q) :
  forward m (Img x) = Ok outs ->
  length (shown (activations sq outs)) = 4 /\
  exists o, nth_error outs 2 = Some o /\
    (all3 (fun e => finite e = true) o ->
     exists qs, norm_dim0 sq o = fin_map qs /\
       ((exists q1 q2, In q1 (concat qs) /\ In q2 (concat qs) /\ ~ (q1 == q2)%Q) ->
        exists r, blend_activation sq outs = Ok r /\ Forall (Forall (in_range 0 1)) r)).
Proof.
  intros E. apply forward_stage_count in E.
  split; [unfold shown, activations; rewrite length_firstn, !length_map, E; reflexivity|].
  destruct (nth_error outs 2) as [o|] eqn:Eo; [|apply nth_error_None in Eo; lia].
  exists o. split; [reflexivity|]. intros Hf. destruct (norm_dim0_fin sq o Hf) as [qs Eq].
  exists qs. split; [exact Eq|]. intros Hne.
  assert (Eb : blend_activation sq outs = minmax (fin_map qs)).
  { unfold blend_activation, py_index, activations. rewrite nth_error_map, Eo. cbn. rewrite Eq. reflexivity. }
  destruct Hne as (q1 & q2 & H1 & H2 & H12).
  destruct (minmax_ok qs) as [r Er]; [intros Hn; rewrite Hn in H1; destruct H1|].
  exists r. split; [rewrite Eb; exact Er|].
  exact (minmax_range qs r Er (ex_intro _ q1 (ex_intro _ q2 (conj H1 (conj H2 H12))))).
Qed.

(** ** Witnesses *)

Lemma blend_layer3_witness :
  exists outs, forward id_stages (Img pixel) = Ok outs /\
    length (shown (activations (fun q => q) outs)) = 4 /\
    exists o, nth_error outs 2 = Some o /\
      (all3 (fun e => finite e = true) o ->
       exists qs, norm_dim0 (fun q => q) o = fin_map qs /\
         ((exists q1 q2, In q1 (concat qs) /\ In q2 (concat qs) /\ ~ (q1 == q2)%Q) ->
          exists r, blend_activation (fun q => q) outs = Ok r /\ Forall (Forall (in_range 0 1)) r)).
Proof.
  destruct (forward id_stages (Img pixel)) as [outs|e] eqn:E; [|vm_compute in E; discriminate].
  exists outs. split; [reflexivity|]. exact (blend_layer3 id_stages pixel outs (fun q => q) E).
Defined.

End Activations.
