(* ===== verification/Optim.v ===== *)
(** * The [torch.optim] tutorial: logistic regression on two moons

    Lines 1-692 of [src/optimization_tutorial.ipynb].  The model is
    [y = sigmoid(W . x + b)] with [weight] (2 values) and [bias] (1 value),
    trained one sample at a time with [F.binary_cross_entropy_with_logits]
    (lines 207-324), then retrained from cloned parameters with four
    optimizers through the function [train] (lines 371-496).

    Values are exact rationals ([Q]): this part of the development is
    about the order of the training operations and the sharing of the
    parameter tensors, not about special float values.  The loss and its
    derivative with respect to the logit ([sigmoid z - y] in PyTorch) and
    the square root used by RMSprop and Adam are parameters of the
    section [Tutorial].

    Parameter tensors live in a [store], as the Python objects do: an
    optimizer keeps the indices of its parameters, and [train] receives
    the indices of [weight] and [bias].  A step of the optimizer updates
    the store, so [train] sees the update exactly when the tensors it is
    given are the optimizer's own. *)

From S2P Require Import Prelude.

Module Optim.
Local Open Scope Q_scope.

(** A 1-D parameter tensor with its accumulated gradient. *)
Record param := mk_param { data : list Q; grad : option (list Q) }.

(** Every tensor of the notebook, by allocation order. *)
Definition store := list param.

(** [t.data.clone().requires_grad_()]: a new tensor with the same data
    and no gradient. *)
Definition clone (s : store) (i : nat) : result (store * nat) :=
  match nth_error s i with
  | None => Err IndexError
  | Some p => Ok (s ++ [mk_param (data p) None], length s)
  end.

(** Python's [l[i] = f(l[i])] on the store. *)
Definition update (s : store) (i : nat) (f : param -> param) : result store :=
  match nth_error s i with
  | None => Err IndexError
  | Some p => Ok (replace_nth s i (f p))
  end.

(** [p.grad.detach_(); p.grad.zero_()] when [p.grad] is not [None]. *)
Definition zero_grad_p (p : param) : param :=
  mk_param (data p) (option_map (map (fun _ => 0)) (grad p)).

(** AccumulateGrad: the first gradient is stored, later ones are added. *)
Definition acc (g : list Q) (p : param) : param :=
  mk_param (data p) (Some (match grad p with None => g | Some g0 => map2 Qplus g0 g end)).

(** ** The optimizers of [torch.optim] *)

(** The update rules are those of [torch.optim.SGD], [RMSprop] and [Adam]
    (no weight decay, no dampening, no Nesterov, no amsgrad); each keeps
    a per-parameter state, created lazily at the first step. *)

Record sgd := mk_sgd {
  sgd_params : list nat; sgd_lr : Q; sgd_momentum : Q;
  sgd_buf : list (option (list Q)) }.

Record rmsprop := mk_rmsprop {
  rms_params : list nat; rms_lr : Q; rms_alpha : Q; rms_eps : Q;
  rms_square_avg : list (option (list Q)) }.

Record adam := mk_adam {
  adam_params : list nat; adam_lr : Q; adam_beta1 : Q; adam_beta2 : Q; adam_eps : Q;
  adam_state : list (option (nat * list Q * list Q)) }.

Inductive optimizer := SGD (o : sgd) | RMSprop (o : rmsprop) | Adam (o : adam).

(** [optim.SGD(params, lr=lr, momentum=momentum)] *)
Definition optim_SGD (params : list nat) (lr momentum : Q) : optimizer :=
  SGD (mk_sgd params lr momentum (repeat None (length params))).

(** [optim.RMSprop(params, lr=lr)], with [alpha = 0.99], [eps = 1e-8] *)
Definition optim_RMSprop (params : list nat) (lr : Q) : optimizer :=
  RMSprop (mk_rmsprop params lr (99 # 100) (1 # 100000000) (repeat None (length params))).

(** [optim.Adam(params, lr=lr, betas=(b1, b2))], with [eps = 1e-8] *)
Definition optim_Adam (params : list nat) (lr b1 b2 : Q) : optimizer :=
  Adam (mk_adam params lr b1 b2 (1 # 100000000) (repeat None (length params))).

Definition opt_params (o : optimizer) : list nat :=
  match o with
  | SGD o => sgd_params o
  | RMSprop o => rms_params o
  | Adam o => adam_params o
  end.

(** [optimizer.zero_grad()]: zero the gradients of the optimizer's own
    parameters. *)
Fixpoint zero_grad_all (idx : list nat) (s : store) : result store :=
  match idx with
  | [] => Ok s
  | i :: idx' => let* s := update s i zero_grad_p in zero_grad_all idx' s
  end.

Definition zero_grad (o : optimizer) (s : store) : result store :=
  zero_grad_all (opt_params o) s.

(** One parameter of a step: skipped when its gradient is [None],
    otherwise [f state grad data] gives the new state and data. *)
Fixpoint step_each {S} (f : S -> list Q -> list Q -> S * list Q)
  (idx : list nat) (st : list S) (s : store) : result (list S * store) :=
  match idx, st with
  | i :: idx', x :: st' =>
      match nth_error s i with
      | None => Err IndexError
      | Some p =>
          match grad p with
          | None => let* '(st'', s) := step_each f idx' st' s in Ok (x :: st'', s)
          | Some g =>
              let '(x', d) := f x g (data p) in
              let* s := update s i (fun p => mk_param d (grad p)) in
              let* '(st'', s) := step_each f idx' st' s in Ok (x' :: st'', s)
          end
      end
  | _, _ => Ok (st, s)
  end.

(** [SGD.step]: [buf = momentum * buf + g] (the first buffer is [g]) when
    [momentum != 0], and [p.data.add_(-lr, d_p)]. *)
Definition sgd_update (lr momentum : Q) (buf : option (list Q)) (g d : list Q)
  : option (list Q) * list Q :=
  if Qeq_bool momentum 0 then (buf, map2 (fun di gi => di - lr * gi) d g)
  else
    let b := match buf with
             | None => g
             | Some b => map2 (fun bi gi => momentum * bi + gi) b g
             end in
    (Some b, map2 (fun di bi => di - lr * bi) d b).

Section Roots.

(** The square root of [Tensor.sqrt] and [math.sqrt]. *)
Variable sqrt : Q -> Q.

(** [RMSprop.step]: [square_avg = alpha * square_avg + (1 - alpha) g^2],
    [p.data.addcdiv_(-lr, g, sqrt(square_avg) + eps)]. *)
Definition rms_update (lr alpha eps : Q) (sq : option (list Q)) (g d : list Q)
  : option (list Q) * list Q :=
  let sq0 := match sq with None => map (fun _ => 0) d | Some s => s end in
  let sq' := map2 (fun si gi => alpha * si + (1 - alpha) * gi * gi) sq0 g in
  let avg := map (fun si => sqrt si + eps) sq' in
  (Some sq', map2 (fun di ga => di - lr * (fst ga / snd ga)) d (combine g avg)).

(** [Adam.step]: the moving averages [exp_avg], [exp_avg_sq], the bias
    corrections [1 - beta^step], and
    [p.data.addcdiv_(-lr * sqrt(bc2) / bc1, exp_avg, sqrt(exp_avg_sq) + eps)]. *)
Definition adam_update (lr b1 b2 eps : Q) (st : option (nat * list Q * list Q)) (g d : list Q)
  : option (nat * list Q * list Q) * list Q :=
  let '(t, m, v) := match st with
                    | None => (O, map (fun _ => 0) d, map (fun _ => 0) d)
                    | Some x => x
                    end in
  let t := S t in
  let m' := map2 (fun mi gi => b1 * mi + (1 - b1) * gi) m g in
  let v' := map2 (fun vi gi => b2 * vi + (1 - b2) * gi * gi) v g in
  let denom := map (fun vi => sqrt vi + eps) v' in
  let bc1 := 1 - b1 ^ Z.of_nat t in
  let bc2 := 1 - b2 ^ Z.of_nat t in
  let step_size := lr * sqrt bc2 / bc1 in
  (Some (t, m', v'), map2 (fun di md => di - step_size * (fst md / snd md)) d (combine m' denom)).

(** [optimizer.step()] *)
Definition step (o : optimizer) (s : store) : result (optimizer * store) :=
  match o with
  | SGD o =>
      let* '(b, s) := step_each (sgd_update (sgd_lr o) (sgd_momentum o)) (sgd_params o) (sgd_buf o) s in
      Ok (SGD (mk_sgd (sgd_params o) (sgd_lr o) (sgd_momentum o) b), s)
  | RMSprop o =>
      let* '(sq, s) := step_each (rms_update (rms_lr o) (rms_alpha o) (rms_eps o))
                         (rms_params o) (rms_square_avg o) s in
      Ok (RMSprop (mk_rmsprop (rms_params o) (rms_lr o) (rms_alpha o) (rms_eps o) sq), s)
  | Adam o =>
      let* '(st, s) := step_each (adam_update (adam_lr o) (adam_beta1 o) (adam_beta2 o) (adam_eps o))
                         (adam_params o) (adam_state o) s in
      Ok (Adam (mk_adam (adam_params o) (adam_lr o) (adam_beta1 o) (adam_beta2 o) (adam_eps o) st), s)
  end.

End Roots.

(** ** The training loop *)

(** [l[i]], raising [IndexError] out of range. *)
Definition get {A} (l : list A) (i : nat) : result A :=
  match nth_error l i with Some a => Ok a | None => Err IndexError end.

(** [l[i] += v] on a Python list. *)
Definition iadd_at (l : list Q) (i : nat) (v : Q) : result (list Q) :=
  match nth_error l i with
  | Some a => Ok (replace_nth l i (a + v))
  | None => Err IndexError
  end.

(** [torch.dot(u, v)]: two 1-D tensors of the same length. *)
Definition dot (u v : list Q) : result Q :=
  if Nat.eqb (length u) (length v) then Ok (fold_right Qplus 0 (map2 Qmult u v))
  else Err ShapeMismatch.

(** [torch.dot(X[i], weight) + bias]: a scalar plus a 1-D tensor. *)
Definition predict (x w b : list Q) : result (list Q) :=
  let* z := dot x w in Ok (map (fun bi => z + bi) b).

(** The gradient of [y_predicted[0]] with respect to [bias]. *)
Definition onehot0 (n : nat) (v : Q) : list Q :=
  match n with O => [] | S n' => v :: repeat 0 n' end.

Section Tutorial.

(** [loss_fn = F.binary_cross_entropy_with_logits] and its derivative
    with respect to the logit, [sigmoid z - y]. *)
Variable loss_fn : Q -> Q -> Q.
Variable dloss : Q -> Q -> Q.
Variable sqrt : Q -> Q.
(** The data set [X, y = make_moons(100, ...)] as float32 tensors. *)
Variable X : list (list Q).
Variable Y : list Q.

(** The body of [for i in range(100)]: [optimizer.zero_grad()], the
    prediction, the loss, [loss.backward()] (accumulating into the
    gradients of [weight] and [bias]) and [optimizer.step()]; the value
    is [loss.item()]. *)
Definition train_step (o : optimizer) (s : store) (w b i : nat) : result (optimizer * store * Q) :=
  let* s := zero_grad o s in
  let* x := get X i in
  let* yi := get Y i in
  let* wp := get s w in
  let* bp := get s b in
  let* y_predicted := predict x (data wp) (data bp) in
  let* z := get y_predicted 0 in
  let dz := dloss z yi in
  let* s := update s w (acc (map (fun xi => dz * xi) x)) in
  let* s := update s b (acc (onehot0 (length (data bp)) dz)) in
  let* '(o, s) := step sqrt o s in
  Ok (o, s, loss_fn z yi).

(** [for i in range(k)] from sample [i], adding every loss to
    [loss_epoch[epoch]]. *)
Fixpoint inner (k i epoch : nat) (o : optimizer) (s : store) (w b : nat) (le : list Q)
  : result (optimizer * store * list Q) :=
  match k with
  | O => Ok (o, s, le)
  | S k' =>
      let* '(o, s, loss) := train_step o s w b i in
      let* le := iadd_at le epoch loss in
      inner k' (S i) epoch o s w b le
  end.

(** [for epoch in range(k)] from epoch [epoch]. *)
Fixpoint outer (k epoch : nat) (o : optimizer) (s : store) (w b : nat) (le : list Q)
  : result (optimizer * store * list Q) :=
  match k with
  | O => Ok (o, s, le)
  | S k' =>
      let* '(o, s, le) := inner 100 0 epoch o s w b le in
      outer k' (S epoch) o s w b le
  end.

(** [train(optimizer, weight, bias)] with the global [n_epochs]. *)
Definition train (n_epochs : nat) (o : optimizer) (s : store) (w b : nat)
  : result (optimizer * store * list Q) :=
  outer n_epochs 0 o s w b (repeat 0 n_epochs).

End Tutorial.

(** ** The cells of the tutorial *)

(** Lines 207-211: [weight = torch.randn(2, requires_grad=True)],
    [bias = torch.randn(1, requires_grad=True)]; the random values are
    the arguments [w0] and [b0]. *)
Definition init_cell (w0 b0 : list Q) (s : store) : store * nat * nat :=
  (s ++ [mk_param w0 None; mk_param b0 None], length s, S (length s)).

(** Line 239: [optimizer = optim.SGD([weight, bias], lr=0.001)]. *)
Definition optimizer_cell (w b : nat) : optimizer := optim_SGD [w; b] (1 # 1000) 0.

(** Lines 309-324: the same loop as [train], inline, with [n_epochs = 100]. *)
Definition loop_cell (loss_fn dloss : Q -> Q -> Q) (sqrt : Q -> Q) (X : list (list Q)) (Y : list Q)
  (o : optimizer) (s : store) (w b : nat) : result (optimizer * store * list Q) :=
  train loss_fn dloss sqrt X Y 100 o s w b.

(** Lines 371-384: fresh [weight] and [bias], four clones of them and
    the four optimizers [sgd], [sgdmom], [rms] and [adam], each with the
    tensors it optimizes. *)
Definition compare_cell (w0 b0 : list Q) (s : store)
  : result (store * list (optimizer * nat * nat)) :=
  let '(s, w, b) := init_cell w0 b0 s in
  let* '(s, w1) := clone s w in
  let* '(s, b1) := clone s b in
  let sgd := optim_SGD [w1; b1] (1 # 100) 0 in
  let* '(s, w2) := clone s w in
  let* '(s, b2) := clone s b in
  let sgdmom := optim_SGD [w2; b2] (1 # 100) (1 # 2) in
  let* '(s, w3) := clone s w in
  let* '(s, b3) := clone s b in
  let rms := optim_RMSprop [w3; b3] (1 # 100) in
  let* '(s, w4) := clone s w in
  let* '(s, b4) := clone s b in
  let adam := optim_Adam [w4; b4] (1 # 1000) (9 # 10) (999 # 1000) in
  Ok (s, [(sgd, w1, b1); (sgdmom, w2, b2); (rms, w3, b3); (adam, w4, b4)]).

(** Lines 442-496: [loss_sgd = train(sgd, params_sgd[0], params_sgd[1])]
    and the three other calls, in order, on the shared tensors. *)
Fixpoint run_cells (loss_fn dloss : Q -> Q -> Q) (sqrt : Q -> Q) (X : list (list Q)) (Y : list Q)
  (n_epochs : nat) (s : store) (runs : list (optimizer * nat * nat))
  : result (store * list (list Q)) :=
  match runs with
  | [] => Ok (s, [])
  | (o, w, b) :: runs' =>
      let* '(_, s, le) := train loss_fn dloss sqrt X Y n_epochs o s w b in
      let* '(s, les) := run_cells loss_fn dloss sqrt X Y n_epochs s runs' in
      Ok (s, le :: les)
  end.

(** ** The store *)

(** The data of tensor [j], if it exists. *)
Definition data_at (s : store) (j : nat) : option (list Q) := option_map data (nth_error s j).

Lemma update_spec (s s' : store) (i : nat) (f : param -> param) :
  update s i f = Ok s' ->
  exists p, nth_error s i = Some p /\ (i < length s)%nat /\ s' = replace_nth s i (f p).
Proof.
  unfold update. destruct (nth_error s i) as [p|] eqn:E; intros H; [|discriminate].
  injection H as <-. exists p. split; [reflexivity|]. split; [|reflexivity].
  apply nth_error_Some. congruence.
Qed.

Lemma update_nth (s s' : store) (i j : nat) (f : param -> param) :
  update s i f = Ok s' ->
  length s' = length s /\
  nth_error s' j = if Nat.eqb j i then option_map f (nth_error s i) else nth_error s j.
Proof.
  intros H. apply update_spec in H as (p & E & Hi & ->). split; [autorewrite with dev_rw; auto|].
  rewrite nth_error_replace_nth, E by exact Hi. reflexivity.
Qed.

(** An update that keeps the data of the tensor keeps the data of every
    tensor. *)
Lemma update_data (s s' : store) (i : nat) (f : param -> param) :
  (forall p, data (f p) = data p) -> update s i f = Ok s' ->
  length s' = length s /\ forall j, data_at s' j = data_at s j.
Proof.
  intros Hf H. split; [apply (update_nth s s' i 0 f H)|]. intros j.
  unfold data_at. destruct (update_nth s s' i j f H) as [_ ->].
  destruct (j =? i) eqn:E; [apply Nat.eqb_eq in E; subst|reflexivity].
  destruct (nth_error s i); simpl; [rewrite Hf|]; reflexivity.
Qed.

Lemma zero_grad_all_data (idx : list nat) (s s' : store) :
  zero_grad_all idx s = Ok s' -> length s' = length s /\ forall j, data_at s' j = data_at s j.
Proof.
  revert s. induction idx as [|i idx IH]; simpl; intros s H; inv_ok; [auto|].
  destruct (update_data _ _ _ zero_grad_p (fun p => eq_refl) Ha) as [L1 D1].
  destruct (IH _ H) as [L2 D2]. split; [congruence|]. intros j. rewrite D2, D1. reflexivity.
Qed.

(** A step changes only the tensors of the optimizer. *)
Lemma step_each_frame {S} (f : S -> list Q -> list Q -> S * list Q) (idx : list nat)
  (st st' : list S) (s s' : store) :
  step_each f idx st s = Ok (st', s') ->
  length s' = length s /\ forall j, ~ In j idx -> nth_error s' j = nth_error s j.
Proof.
  revert st st' s. induction idx as [|i idx IH]; intros [|x st] st' s H; simpl in H;
    try (injection H as <- <-; auto; fail).
  destruct (nth_error s i) as [p|]; [|discriminate].
  destruct (grad p) as [g|].
  - destruct (f x g (data p)) as [x' d]. inv_okp.
    destruct (IH _ _ _ Ha0) as [L2 F2].
    split; [rewrite L2; apply (update_nth _ _ _ 0 _ Ha)|].
    intros j Hj. rewrite F2 by (simpl in Hj; tauto).
    destruct (update_nth _ _ _ j _ Ha) as [_ ->].
    replace (j =? i) with false by (symmetry; apply Nat.eqb_neq; intros ->; apply Hj; left; reflexivity).
    reflexivity.
  - inv_okp. destruct (IH _ _ _ Ha) as [L2 F2]. split; [exact L2|].
    intros j Hj. apply F2. simpl in Hj; tauto.
Qed.

Lemma step_frame (sqrt : Q -> Q) (o o' : optimizer) (s s' : store) :
  step sqrt o s = Ok (o', s') ->
  opt_params o' = opt_params o /\ length s' = length s /\
  forall j, ~ In j (opt_params o) -> nth_error s' j = nth_error s j.
Proof.
  destruct o as [o|o|o]; simpl; intros H; inv_okp; simpl;
    (split; [reflexivity|]); eapply step_each_frame; eauto.
Qed.

Lemma update_ok (s : store) (i : nat) (f : param -> param) :
  (i < length s)%nat -> exists s', update s i f = Ok s'.
Proof.
  intros Hi. unfold update. destruct (nth_error s i) eqn:E; [eauto|].
  apply nth_error_None in E. lia.
Qed.

(** [zero_grad()] changes only the tensors it is given, and raises only
    on an index out of range. *)
Lemma zero_grad_all_frame (idx : list nat) (s s' : store) :
  zero_grad_all idx s = Ok s' ->
  length s' = length s /\ forall j, ~ In j idx -> nth_error s' j = nth_error s j.
Proof.
  revert s. induction idx as [|i idx IH]; simpl; intros s H; inv_ok; [auto|].
  destruct (IH _ H) as [L2 F2]. destruct (update_nth _ _ _ 0 _ Ha) as [L1 _].
  split; [congruence|]. intros j Hj. rewrite F2 by tauto.
  destruct (update_nth _ _ _ j _ Ha) as [_ ->].
  replace (j =? i) with false by (symmetry; apply Nat.eqb_neq; intros ->; tauto). reflexivity.
Qed.

Lemma zero_grad_all_ok (idx : list nat) (s : store) :
  Forall (fun i => i < length s)%nat idx -> exists s', zero_grad_all idx s = Ok s'.
Proof.
  revert s. induction idx as [|i idx IH]; intros s H; simpl; [eauto|]. inversion H as [|? ? Hi Hr]; subst.
  destruct (update_ok s i zero_grad_p Hi) as [s1 E1]. rewrite E1. cbn [bind].
  destruct (update_nth _ _ _ 0 _ E1) as [L1 _]. apply IH. rewrite L1. exact Hr.
Qed.

Lemma step_each_ok {S} (f : S -> list Q -> list Q -> S * list Q) (idx : list nat)
  (st : list S) (s : store) :
  Forall (fun i => i < length s)%nat idx -> exists r, step_each f idx st s = Ok r.
Proof.
  revert st s. induction idx as [|i idx IH]; intros [|x st] s H; simpl; eauto.
  inversion H as [|? ? Hi Hr]; subst.
  destruct (nth_error s i) as [p|] eqn:Ep; [|apply nth_error_None in Ep; lia].
  destruct (grad p) as [g|].
  - destruct (f x g (data p)) as [x' d].
    destruct (update_ok s i (fun p => mk_param d (grad p)) Hi) as [s1 E1]. rewrite E1. cbn [bind].
    destruct (update_nth _ _ _ 0 _ E1) as [L1 _].
    destruct (IH st s1) as [[st'' s2] ->]; [rewrite L1; exact Hr|]. cbn. eauto.
  - destruct (IH st s Hr) as [[st'' s2] ->]. cbn. eauto.
Qed.

(** [optimizer.step()] raises only on a tensor out of range. *)
Lemma step_ok (sqrt : Q -> Q) (o : optimizer) (s : store) :
  Forall (fun i => i < length s)%nat (opt_params o) -> exists r, step sqrt o s = Ok r.
Proof.
  destruct o as [o|o|o]; simpl; intros H;
    [destruct (step_each_ok (sgd_update (sgd_lr o) (sgd_momentum o)) _ (sgd_buf o) s H) as [[b s'] ->]
    |destruct (step_each_ok (rms_update sqrt (rms_lr o) (rms_alpha o) (rms_eps o)) _ (rms_square_avg o) s H)
       as [[b s'] ->]
    |destruct (step_each_ok (adam_update sqrt (adam_lr o) (adam_beta1 o) (adam_beta2 o) (adam_eps o)) _
       (adam_state o) s H) as [[b s'] ->]]; cbn; eauto.
Qed.

(** With distinct indices and the same state for every tensor (the
    first step, when no state exists yet), each tensor of the optimizer
    that has a gradient is updated once, by [f]. *)
Lemma step_each_at {S} (f : S -> list Q -> list Q -> S * list Q) (idx : list nat)
  (st st' : list S) (s s' : store) (j : nat) (x : S) (p : param) (g : list Q) :
  NoDup idx -> length st = length idx -> In j idx -> (forall y, In y st -> y = x) ->
  nth_error s j = Some p -> grad p = Some g -> step_each f idx st s = Ok (st', s') ->
  nth_error s' j = Some (mk_param (snd (f x g (data p))) (grad p)).
Proof.
  revert st st' s. induction idx as [|i idx IH]; intros st st' s Hnd Hl Hj Hx Ep Eg E; [destruct Hj|].
  destruct st as [|y st]; [discriminate|]. inversion Hnd as [|? ? Hni Hnd']; subst.
  cbn [step_each] in E. destruct (nth_error s i) as [p0|] eqn:Ei; [|discriminate].
  rewrite (Hx y (or_introl eq_refl)) in E.
  assert (Hx' : forall y, In y st -> y = x) by (intros; apply Hx; right; assumption).
  destruct (Nat.eq_dec j i) as [->|Hji].
  - rewrite Ep in Ei. injection Ei as <-. rewrite Eg in E.
    destruct (f x g (data p)) as [x' d] eqn:Ef. inv_okp.
    destruct (step_each_frame _ _ _ _ _ _ Ha0) as [_ N]. rewrite N by exact Hni.
    destruct (update_nth _ _ _ i _ Ha) as [_ ->]. rewrite Nat.eqb_refl, Ep. reflexivity.
  - destruct Hj as [->|Hj]; [contradiction|].
    destruct (grad p0) as [g0|].
    + destruct (f x g0 (data p0)) as [x' d]. inv_okp.
      refine (IH _ _ _ Hnd' _ Hj Hx' _ Eg Ha0); [cbn in Hl; lia|].
      destruct (update_nth _ _ _ j _ Ha) as [_ ->].
      replace (j =? i) with false by (symmetry; apply Nat.eqb_neq; exact Hji). exact Ep.
    + inv_okp. refine (IH _ _ _ Hnd' _ Hj Hx' Ep Eg Ha). cbn in Hl; lia.
Qed.

(** [zero_grad()] on tensors that have no gradient yet changes nothing. *)
Lemma zero_grad_all_none (idx : list nat) (s : store) :
  Forall (fun i => exists p, nth_error s i = Some p /\ grad p = None) idx -> zero_grad_all idx s = Ok s.
Proof.
  induction idx as [|i idx IH]; intros H; [reflexivity|]. inversion H as [|? ? (p & Ep & Gp) Hr]; subst.
  cbn [zero_grad_all]. unfold update. rewrite Ep. cbn [bind].
  replace (zero_grad_p p) with p by (destruct p as [d gr]; cbn in *; subst; reflexivity).
  rewrite <- (nth_error_nth s i p Ep), replace_nth_same by (apply nth_error_Some; congruence).
  exact (IH Hr).
Qed.

Lemma get_data_at (s : store) (j : nat) (p : param) :
  get s j = Ok p -> data_at s j = Some (data p).
Proof.
  unfold get, data_at. destruct (nth_error s j); intros H; [injection H as <-|]; easy.
Qed.

(** ** Training with parameters the optimizer does not own *)

Section Detached.

Variable loss_fn : Q -> Q -> Q.
Variable dloss : Q -> Q -> Q.
Variable sqrt : Q -> Q.
Variable X : list (list Q).
Variable Y : list Q.

(** The loss of sample [i] for the data [dw] of [weight] and [db] of
    [bias]. *)
Definition sample_loss (dw db : list Q) (i : nat) : result Q :=
  let* x := get X i in
  let* yi := get Y i in
  let* yp := predict x dw db in
  let* z := get yp 0 in
  Ok (loss_fn z yi).

Lemma train_step_detached (o o' : optimizer) (s s' : store) (w b i : nat) (l : Q) :
  ~ In w (opt_params o) -> ~ In b (opt_params o) ->
  train_step loss_fn dloss sqrt X Y o s w b i = Ok (o', s', l) ->
  opt_params o' = opt_params o /\ data_at s' w = data_at s w /\ data_at s' b = data_at s b /\
  exists dw db, data_at s w = Some dw /\ data_at s b = Some db /\ sample_loss dw db i = Ok l.
Proof.
  unfold train_step. intros Hw Hb E. inv_okp.
  destruct (zero_grad_all_data _ _ _ Ha) as [_ D0].
  eapply update_data in Ha6 as [_ D6]; [|intros; reflexivity].
  eapply update_data in Ha7 as [_ D7]; [|intros; reflexivity].
  destruct (step_frame _ _ _ _ _ Ha8) as (Ep & _ & F).
  assert (Hd : forall j, ~ In j (opt_params o) -> data_at s' j = data_at s j).
  { intros j Hj. unfold data_at at 1. rewrite F by exact Hj. fold (data_at a7 j).
    rewrite D7, D6, D0. reflexivity. }
  split; [exact Ep|]. split; [auto|]. split; [auto|].
  exists (data a2), (data a3). rewrite <- !D0, !(get_data_at _ _ _ Ha2), !(get_data_at _ _ _ Ha3).
  split; [reflexivity|]. split; [reflexivity|].
  unfold sample_loss. rewrite Ha0, Ha1. cbn [bind]. rewrite Ha4. cbn [bind]. rewrite Ha5.
  reflexivity.
Qed.

(** The loss of sample [j], for the data of [weight] and [bias] if they
    exist. *)
Definition loss_or_zero (dw db : option (list Q)) (j : nat) : Q :=
  match dw, db with
  | Some dw, Some db => match sample_loss dw db j with Ok l => l | Err _ => 0 end
  | _, _ => 0
  end.

(** The sum of the losses of one epoch, as [loss_epoch[epoch] += ...]
    accumulates it from the value [a]. *)
Definition epoch_sum (dw db : option (list Q)) (i k : nat) (a : Q) : Q :=
  fold_left (fun acc j => acc + loss_or_zero dw db j) (seq i k) a.

Lemma iadd_at_spec (l l' : list Q) (i : nat) (v : Q) :
  iadd_at l i v = Ok l' -> (i < length l)%nat /\ l' = replace_nth l i (nth i l 0 + v).
Proof.
  unfold iadd_at. destruct (nth_error l i) as [a|] eqn:E; intros H; [|discriminate].
  injection H as <-. assert (Hi : (i < length l)%nat) by (apply nth_error_Some; congruence).
  split; [exact Hi|]. rewrite (nth_error_nth _ _ 0 E). reflexivity.
Qed.

Lemma inner_detached (w b k i e : nat) (o o' : optimizer) (s s' : store) (le le' : list Q) :
  ~ In w (opt_params o) -> ~ In b (opt_params o) ->
  inner loss_fn dloss sqrt X Y k i e o s w b le = Ok (o', s', le') -> (e < length le)%nat ->
  opt_params o' = opt_params o /\ data_at s' w = data_at s w /\ data_at s' b = data_at s b /\
  le' = replace_nth le e (epoch_sum (data_at s w) (data_at s b) i k (nth e le 0)).
Proof.
  revert i o s le. induction k as [|k IH]; intros i o s le Hw Hb E He; simpl in E.
  - injection E as <- <- <-. repeat split. unfold epoch_sum. simpl.
    symmetry. apply replace_nth_same. exact He.
  - inv_okp. apply train_step_detached in Ha as (Ep & Dw & Db & dw & db & Ew & Eb & El); auto.
    apply iadd_at_spec in Ha0 as [_ ->].
    rewrite <- Ep in Hw, Hb.
    destruct (IH (S i) _ _ _ Hw Hb E ltac:(rewrite length_replace_nth by exact He; exact He))
      as (Ep' & Dw' & Db' & ->).
    rewrite Ep', Dw', Db', Dw, Db. split; [exact Ep|]. split; [reflexivity|]. split; [reflexivity|].
    rewrite replace_nth_twice, nth_replace_nth, Nat.eqb_refl by exact He.
    unfold epoch_sum. cbn [seq fold_left]. rewrite Ew, Eb.
    replace (loss_or_zero (Some dw) (Some db) i) with q
      by (unfold loss_or_zero; rewrite El; reflexivity).
    reflexivity.
Qed.

Lemma outer_detached (w b k e : nat) (o o' : optimizer) (s s' : store) (le le' : list Q) :
  ~ In w (opt_params o) -> ~ In b (opt_params o) ->
  outer loss_fn dloss sqrt X Y k e o s w b le = Ok (o', s', le') -> (e + k <= length le)%nat ->
  data_at s' w = data_at s w /\ data_at s' b = data_at s b /\
  forall j, nth_error le' j =
    if Nat.leb e j && Nat.ltb j (e + k)
    then Some (epoch_sum (data_at s w) (data_at s b) 0 100 (nth j le 0))
    else nth_error le j.
Proof.
  revert e o s le. induction k as [|k IH]; intros e o s le Hw Hb E Hl; cbn [outer] in E.
  - injection E as <- <- <-. split; [reflexivity|]. split; [reflexivity|]. intros j.
    destruct (Nat.leb_spec e j), (Nat.ltb_spec j (e + 0)); simpl; try reflexivity; lia.
  - inv_okp.
    destruct (inner_detached w b 100 0 e o _ s _ le _ Hw Hb Ha ltac:(lia)) as (Ep & Dw & Db & ->).
    rewrite <- Ep in Hw, Hb.
    destruct (IH (S e) _ _ _ Hw Hb E ltac:(rewrite length_replace_nth by lia; lia))
      as (Dw' & Db' & Hj).
    rewrite Dw, Db in Hj. rewrite Dw', Db', Dw, Db. split; [reflexivity|]. split; [reflexivity|].
    intros j. rewrite Hj, nth_replace_nth, nth_error_replace_nth by lia.
    destruct (Nat.eqb_spec j e);
      repeat match goal with
      | |- context [Nat.leb ?a ?b] => destruct (Nat.leb_spec a b)
      | |- context [Nat.ltb ?a ?b] => destruct (Nat.ltb_spec a b)
      end; simpl; subst; try reflexivity; lia.
Qed.

(** C30: When neither [weight] nor [bias] is a parameter of the optimizer (for
    instance a call [train(sgd, params_sgdmom[0], params_sgdmom[1])]),
    [train] never moves them: every epoch reports the same loss, the sum
    of the 100 sample losses at the initial parameters. *)
Theorem train_detached (n w b : nat) (o o' : optimizer) (s s' : store) (le : list Q) :
  ~ In w (opt_params o) -> ~ In b (opt_params o) ->
  train loss_fn dloss sqrt X Y n o s w b = Ok (o', s', le) ->
  data_at s' w = data_at s w /\ data_at s' b = data_at s b /\
  le = repeat (epoch_sum (data_at s w) (data_at s b) 0 100 0) n.
Proof.
  unfold train. intros Hw Hb E.
  destruct (outer_detached _ _ _ _ _ _ _ _ _ _ Hw Hb E ltac:(rewrite repeat_length; lia))
    as (Dw & Db & Hj).
  split; [exact Dw|]. split; [exact Db|]. apply nth_error_ext. intros j. rewrite Hj.
  destruct (Nat.ltb_spec j (0 + n)) as [Hjn|Hjn]; simpl.
  - rewrite nth_repeat_lt by lia. rewrite nth_error_repeat by lia. reflexivity.
  - transitivity (@None Q); [|symmetry]; apply nth_error_None; rewrite repeat_length; lia.
Qed.

End Detached.

(** ** One step of plain SGD *)

(** The gradient of a parameter has the shape of its data. *)
Definition wf_param (p : param) : Prop :=
  match grad p with None => True | Some g => length g = length (data p) end.

Lemma map2_plus_zeros (z g : list Q) :
  length z = length g -> Forall2 Qeq (map2 Qplus (map (fun _ => 0) z) g) g.
Proof.
  revert g. induction z as [|a z IH]; intros [|x g] H; simpl in *; try discriminate; constructor.
  - ring.
  - apply IH. lia.
Qed.

(** After [zero_grad()] the accumulated gradient is the new one. *)
Lemma zero_acc_grad (p : param) (g : list Q) :
  wf_param p -> length g = length (data p) ->
  exists G, grad (acc g (zero_grad_p p)) = Some G /\ Forall2 Qeq G g.
Proof.
  unfold wf_param, acc, zero_grad_p. simpl. destruct (grad p) as [g0|]; simpl; intros Hw Hg.
  - eexists; split; [reflexivity|]. apply map2_plus_zeros. lia.
  - eexists; split; [reflexivity|]. apply Forall2_refl_on. intros; reflexivity.
Qed.

Lemma map2_sub_Qeq (lr : Q) (d G g : list Q) :
  Forall2 Qeq G g ->
  Forall2 Qeq (map2 (fun di gi => di - lr * gi) d G) (map2 (fun di gi => di - lr * gi) d g).
Proof.
  intros H. revert d. induction H as [|x y G g Hxy _ IH]; intros [|di d]; simpl; constructor; auto.
  rewrite Hxy. reflexivity.
Qed.

(** Two updates of distinct tensors. *)
Lemma update_two (s s1 s2 : store) (w b : nat) (f g : param -> param) (pw pb : param) :
  w <> b -> nth_error s w = Some pw -> nth_error s b = Some pb ->
  update s w f = Ok s1 -> update s1 b g = Ok s2 ->
  nth_error s2 w = Some (f pw) /\ nth_error s2 b = Some (g pb).
Proof.
  intros Hwb Ew Eb H1 H2.
  destruct (update_nth _ _ _ w _ H1) as [_ N1w]. destruct (update_nth _ _ _ b _ H1) as [_ N1b].
  destruct (update_nth _ _ _ w _ H2) as [_ N2w]. destruct (update_nth _ _ _ b _ H2) as [_ N2b].
  rewrite Nat.eqb_refl, Ew in N1w. rewrite (proj2 (Nat.eqb_neq b w)), Eb in N1b by auto.
  rewrite (proj2 (Nat.eqb_neq w b)), N1w in N2w by auto. rewrite Nat.eqb_refl, N1b in N2b.
  auto.
Qed.

(** [SGD.step] without momentum on [weight] and [bias], both with a
    gradient. *)
Lemma sgd_step_two (sqrt : Q -> Q) (lr : Q) (bufs : list (option (list Q))) (w b : nat)
  (s s' : store) (o' : optimizer) (pw pb : param) (gw gb : list Q) :
  w <> b -> length bufs = 2%nat -> nth_error s w = Some pw -> nth_error s b = Some pb ->
  grad pw = Some gw -> grad pb = Some gb ->
  step sqrt (SGD (mk_sgd [w; b] lr 0 bufs)) s = Ok (o', s') ->
  nth_error s' w = Some (mk_param (map2 (fun di gi => di - lr * gi) (data pw) gw) (grad pw)) /\
  nth_error s' b = Some (mk_param (map2 (fun di gi => di - lr * gi) (data pb) gb) (grad pb)).
Proof.
  intros Hwb Hl Ew Eb Gw Gb E.
  destruct bufs as [|x1 [|x2 [|]]]; cbn in Hl; try discriminate.
  cbn [step sgd_params sgd_buf sgd_lr sgd_momentum step_each] in E.
  rewrite Ew, Gw in E. unfold sgd_update at 1 in E. change (Qeq_bool 0 0) with true in E.
  cbn [data] in E. inv_okp. rename Ha0 into U1, Ha1 into E.
  destruct (update_nth _ _ _ b _ U1) as [_ N1b].
  rewrite (proj2 (Nat.eqb_neq b w)), Eb in N1b by auto.
  rewrite N1b, Gb in E. unfold sgd_update at 1 in E. change (Qeq_bool 0 0) with true in E.
  cbn iota beta zeta in E. inv_okp.
  exact (update_two _ _ _ _ _ _ _ _ _ Hwb Ew Eb U1 Ha).
Qed.

Section PlainSGD.

Variable loss_fn : Q -> Q -> Q.
Variable dloss : Q -> Q -> Q.
Variable sqrt : Q -> Q.
Variable X : list (list Q).
Variable Y : list Q.

(** C13: One iteration of the training loop with [optim.SGD([weight, bias], lr)]
    moves [weight] by [-lr * dloss(z, y) * x] and [bias] by
    [-lr * dloss(z, y)], where [z] is the prediction for sample [i]:
    whatever gradient the parameters held before, [optimizer.zero_grad()]
    makes the step use the gradient of this sample alone; the value is
    the sample's loss. *)
Theorem train_step_sgd (lr : Q) (bufs : list (option (list Q))) (w b i : nat)
  (s s' : store) (o' : optimizer) (l : Q) (pw pb : param) :
  w <> b -> length bufs = 2%nat ->
  nth_error s w = Some pw -> nth_error s b = Some pb -> wf_param pw -> wf_param pb ->
  train_step loss_fn dloss sqrt X Y (SGD (mk_sgd [w; b] lr 0 bufs)) s w b i = Ok (o', s', l) ->
  exists x yi z zs dw db,
    get X i = Ok x /\ get Y i = Ok yi /\ predict x (data pw) (data pb) = Ok (z :: zs) /\
    l = loss_fn z yi /\
    data_at s' w = Some dw /\
    Forall2 Qeq dw (map2 (fun d gi => d - lr * gi) (data pw) (map (fun xi => dloss z yi * xi) x)) /\
    data_at s' b = Some db /\
    Forall2 Qeq db (map2 (fun d gi => d - lr * gi) (data pb) (onehot0 (length (data pb)) (dloss z yi))).
Proof.
  intros Hwb Hl Ew Eb Hpw Hpb E. unfold train_step in E. inv_okp.
  cbn [zero_grad zero_grad_all opt_params sgd_params] in Ha. inv_ok.
  destruct (update_two _ _ _ _ _ _ _ _ _ Hwb Ew Eb Ha9 Ha10) as [Nw Nb].
  unfold get in Ha2, Ha3. rewrite Nw in Ha2. rewrite Nb in Ha3.
  injection Ha2 as <-. injection Ha3 as <-.
  destruct (update_two _ _ _ _ _ _ _ _ _ Hwb Nw Nb Ha6 Ha7) as [N7w N7b].
  cbn [data zero_grad_p] in Ha4, N7b.
  unfold predict, dot in Ha4. destruct (Nat.eqb_spec (length a0) (length (data pw))) as [Lx|];
    [|discriminate]. cbn [bind] in Ha4. injection Ha4 as <-.
  destruct (data pb) as [|b0 bs] eqn:Db; [discriminate|]. cbn [map get nth_error] in Ha5.
  injection Ha5 as <-.
  set (z := fold_right Qplus 0 (map2 Qmult a0 (data pw)) + b0) in *.
  destruct (zero_acc_grad pw (map (fun xi => dloss z a1 * xi) a0) Hpw)
    as (G1 & EG1 & QG1); [rewrite length_map; exact Lx|].
  destruct (zero_acc_grad pb (onehot0 (length (b0 :: bs)) (dloss z a1)) Hpb)
    as (G2 & EG2 & QG2); [rewrite Db; destruct bs; simpl; rewrite ?repeat_length; reflexivity|].
  destruct (sgd_step_two _ _ _ _ _ _ _ _ _ _ _ _ Hwb Hl N7w N7b EG1 EG2 Ha8) as [Nsw Nsb].
  exists a0, a1, z, (map (fun bi => fold_right Qplus 0 (map2 Qmult a0 (data pw)) + bi) bs).
  eexists; eexists. split; [exact Ha0|]. split; [exact Ha1|].
  split; [unfold predict, dot; rewrite Lx, Nat.eqb_refl; reflexivity|]. split; [reflexivity|].
  unfold data_at. rewrite Nsw, Nsb. cbn [option_map data].
  split; [reflexivity|]. split; [apply map2_sub_Qeq; exact QG1|].
  split; [reflexivity|]. rewrite <- Db. apply map2_sub_Qeq; rewrite Db; exact QG2.
Qed.

End PlainSGD.

(** ** Witnesses *)

(** A data set of 100 samples, a squared loss with its derivative, and
    a store whose [weight] and [bias] carry stale gradients. *)
Definition X100 : list (list Q) := repeat [1; 2] 100.
Definition Y100 : list Q := repeat 1 100.
Definition sq_loss (z y : Q) : Q := (z - y) * (z - y).
Definition sq_dloss (z y : Q) : Q := 2 * (z - y).
Definition st_stale : store := [mk_param [1 # 2; -1] (Some [5; 5]); mk_param [0] (Some [7])].
Definition sgd01 : optimizer := SGD (mk_sgd [0%nat; 1%nat] (1 # 10) 0 [None; None]).

Lemma train_step_sgd_witness :
  match train_step sq_loss sq_dloss id X100 Y100 sgd01 st_stale 0 1 0 with
  | Ok (o', s', l) =>
      exists x yi z zs dw db,
        get X100 0 = Ok x /\ get Y100 0 = Ok yi /\ predict x [1 # 2; -1] [0] = Ok (z :: zs) /\
        l = sq_loss z yi /\ data_at s' 0 = Some dw /\
        Forall2 Qeq dw (map2 (fun d gi => d - (1 # 10) * gi) [1 # 2; -1]
                          (map (fun xi => sq_dloss z yi * xi) x)) /\
        data_at s' 1 = Some db /\
        Forall2 Qeq db (map2 (fun d gi => d - (1 # 10) * gi) [0] (onehot0 1 (sq_dloss z yi)))
  | Err _ => False
  end.
Proof.
  destruct (train_step sq_loss sq_dloss id X100 Y100 sgd01 st_stale 0 1 0) as [[[o' s'] l]|e] eqn:E.
  - exact (train_step_sgd sq_loss sq_dloss id X100 Y100 (1 # 10) [None; None] 0 1 0 st_stale s' o' l
             (mk_param [1 # 2; -1] (Some [5; 5])) (mk_param [0] (Some [7]))
             ltac:(discriminate) eq_refl eq_refl eq_refl eq_refl eq_refl E).
  - vm_compute in E. discriminate.
Defined.

(** An SGD optimizer over the tensors 2 and 3, and [train] called with the
    tensors 0 and 1. *)
Definition st_four : store :=
  [mk_param [1 # 2; -1] None; mk_param [0] None; mk_param [1; 1] None; mk_param [1] None].
Definition sgd23 : optimizer := optim_SGD [2%nat; 3%nat] (1 # 100) 0.

Lemma train_detached_witness :
  ~ In 0%nat (opt_params sgd23) /\ ~ In 1%nat (opt_params sgd23) /\
  match train sq_loss sq_dloss id X100 Y100 2 sgd23 st_four 0 1 with
  | Ok (o', s', le) =>
      data_at s' 0 = data_at st_four 0 /\ data_at s' 1 = data_at st_four 1 /\
      le = repeat (epoch_sum sq_loss X100 Y100 (data_at st_four 0) (data_at st_four 1) 0 100 0) 2
  | Err _ => False
  end.
Proof.
  assert (H0 : ~ In 0%nat (opt_params sgd23)) by (cbn; intuition discriminate).
  assert (H1 : ~ In 1%nat (opt_params sgd23)) by (cbn; intuition discriminate).
  split; [exact H0|]. split; [exact H1|].
  destruct (train sq_loss sq_dloss id X100 Y100 2 sgd23 st_four 0 1) as [[[o' s'] le]|e] eqn:E.
  - exact (train_detached sq_loss sq_dloss id X100 Y100 2 0 1 sgd23 o' st_four s' le H0 H1 E).
  - vm_compute in E. discriminate.
Defined.

End Optim.
