(* ===== verification/Transfer.v ===== *)
(** * The transfer-learning notebook ([src/unnamed/part_000])

    [train_model] (lines 261-323) alternates a training and a validation
    phase per epoch, steps the optimizer and the [StepLR] scheduler after
    every training batch, and keeps a deep copy of the weights of the
    epoch with the best validation accuracy, which it loads at the end.
    ([visualize_model], lines 353-377, is modelled in [Visualize].)

    The network, the loss ([nn.CrossEntropyLoss]), the optimizer
    ([optim.SGD] with momentum) and the data loaders are parameters of
    the section [TrainModel]: the weights and the optimizer state are
    abstract types, [track] is the update of the BatchNorm running
    statistics a forward pass in training mode makes, [opt_step] is
    [optimizer.zero_grad()],
    [loss.backward()] and [optimizer.step()] at a given learning rate
    (any of them may raise, and an exception ends [train_model]; module
    [Finetune] instantiates it with the optimizers of [Optim]), and
    [loader ph epoch] is the sequence of batches the shuffling loader
    yields in that epoch.  The scheduler is modelled exactly: PyTorch's
    [StepLR] sets the learning rate to
    [base_lr * gamma ** (last_epoch // step_size)] and every
    [scheduler.step()] increments [last_epoch].  This is the closed form
    of [StepLR]; PyTorch updates the optimizer's learning rate in place
    (multiplying by [gamma] when [last_epoch % step_size == 0]), which in
    exact arithmetic gives the same value and in float32 may differ in
    the last bits. *)

From S2P Require Import Prelude.
From Stdlib Require Import Qpower.

Module Transfer.
Local Open Scope Q_scope.

Inductive phase := Train | Val.

Definition is_train (ph : phase) : bool := match ph with Train => true | Val => false end.

(** ** [lr_scheduler.StepLR] *)

Record steplr := mk_steplr { base_lr : Q; step_size : nat; gamma : Q; last_epoch : nat }.

(** [lr_scheduler.StepLR(optimizer, step_size, gamma)] *)
Definition StepLR (lr : Q) (step_size : nat) (gamma : Q) : steplr := mk_steplr lr step_size gamma 0.

(** The learning rate the scheduler gives the optimizer. *)
Definition get_lr (sc : steplr) : Q :=
  base_lr sc * gamma sc ^ Z.of_nat (Nat.div (last_epoch sc) (step_size sc)).

(** [scheduler.step()] *)
Definition sched_step (sc : steplr) : steplr :=
  mk_steplr (base_lr sc) (step_size sc) (gamma sc) (S (last_epoch sc)).

(** [_, preds = torch.max(outputs, 1)]: the index of the first maximum of
    each row. *)
Fixpoint argmax_from (r : list Q) (i : nat) (best : Q) (bi : nat) : nat :=
  match r with
  | [] => bi
  | x :: r' => if Qle_bool x best then argmax_from r' (S i) best bi else argmax_from r' (S i) x i
  end.

Definition argmax_row (r : list Q) : nat :=
  match r with [] => 0 | x :: r' => argmax_from r' 1 x 0 end.

(** [torch.sum(preds == labels)] *)
Definition count_correct (preds labels : list nat) : nat :=
  length (filter (fun pl => Nat.eqb (fst pl) (snd pl)) (combine preds labels)).

(** A count as a float: [float(...)] and [dataset_sizes[phase]]. *)
Definition qnat (n : nat) : Q := inject_Z (Z.of_nat n).

Section TrainModel.

Variable W Opt Input : Type.
(** [model(inputs)] in training or evaluation mode. *)
Variable forward : bool -> W -> list Input -> list (list Q).
(** The state a forward pass in training mode leaves: the BatchNorm
    layers move their running statistics towards the batch's (in
    evaluation mode they only read them). *)
Variable track : W -> list Input -> W.
(** [criterion(outputs, labels)], the mean loss of the batch. *)
Variable criterion : list (list Q) -> list nat -> Q.
(** [optimizer.zero_grad()], [loss.backward()], [optimizer.step()] at
    the learning rate [lr]; any of them may raise. *)
Variable opt_step : Q -> Opt -> W -> list Input -> list nat -> result (Opt * W).
(** [dataloaders[phase]] as it iterates in a given epoch. *)
Variable loader : phase -> nat -> list (list Input * list nat).
(** [dataset_sizes[phase]] *)
Variable dataset_size : phase -> nat.

Record tstate := mk_tstate {
  wts : W; opt : Opt; sched : steplr; training : bool; best_wts : W; best_acc : Q }.

(** One batch of a phase: the statistics it adds, and in the training
    phase the forward pass's update of the running statistics, the
    optimizer step and [scheduler.step()].  [optimizer.zero_grad()]
    (line 284), which the code runs before the forward pass, is the first
    action of [opt_step]: it touches gradients only, which the forward
    pass does not read, so the two commute.  In the validation phase it
    clears gradients no later computation reads before the next training
    step clears them again; it is not modelled there. *)
Definition batch_step (ph : phase) (st : tstate) (inputs : list Input) (labels : list nat)
  : result (tstate * Q * nat) :=
  let outputs := forward (is_train ph) (wts st) inputs in
  let preds := map argmax_row outputs in
  let loss := criterion outputs labels in
  let* st := if is_train ph then
               let w := track (wts st) inputs in
               let* '(o, w) := opt_step (get_lr (sched st)) (opt st) w inputs labels in
               Ok (mk_tstate w o (sched_step (sched st)) (training st) (best_wts st) (best_acc st))
             else Ok st in
  Ok (st, loss * qnat (length inputs), count_correct preds labels).

(** [for inputs, labels in dataloaders[phase]], with [running_loss] and
    [running_corrects]; an exception of a batch ends the loop. *)
Fixpoint run_batches (ph : phase) (st : tstate) (bs : list (list Input * list nat))
  (running_loss : Q) (running_corrects : nat) : result (tstate * Q * nat) :=
  match bs with
  | [] => Ok (st, running_loss, running_corrects)
  | (inputs, labels) :: bs' =>
      let* '(st, l, c) := batch_step ph st inputs labels in
      run_batches ph st bs' (running_loss + l) (running_corrects + c)
  end.

(** The statistics of one phase: [model.train(phase == 'train')], the
    batches, and [epoch_acc], a division by [dataset_sizes[phase]]
    ([epoch_loss] is only printed). *)
Definition phase_stats (epoch : nat) (ph : phase) (st : tstate) : result (tstate * Q) :=
  let st := mk_tstate (wts st) (opt st) (sched st) (is_train ph) (best_wts st) (best_acc st) in
  let* '(st, running_loss, running_corrects) := run_batches ph st (loader ph epoch) 0 0 in
  if Nat.eqb (dataset_size ph) 0 then Err ZeroDivisionError
  else Ok (st, qnat running_corrects / qnat (dataset_size ph)).

(** [if phase == 'val' and epoch_acc > best_acc]: the deep copy of the
    weights. *)
Definition keep_best (ph : phase) (st : tstate) (epoch_acc : Q) : tstate :=
  match ph with
  | Val => if negb (Qle_bool epoch_acc (best_acc st))
           then mk_tstate (wts st) (opt st) (sched st) (training st) (wts st) epoch_acc
           else st
  | Train => st
  end.

(** One phase of an epoch. *)
Definition run_phase (epoch : nat) (ph : phase) (st : tstate) : result tstate :=
  let* '(st, epoch_acc) := phase_stats epoch ph st in
  Ok (keep_best ph st epoch_acc).

(** [for epoch in range(num_epochs)] from epoch [epoch]. *)
Fixpoint run_epochs (k epoch : nat) (st : tstate) : result tstate :=
  match k with
  | O => Ok st
  | S k' =>
      let* st := run_phase epoch Train st in
      let* st := run_phase epoch Val st in
      run_epochs k' (S epoch) st
  end.

(** [train_model(model, criterion, optimizer, scheduler, num_epochs)]:
    the model's weights, training flag, optimizer and scheduler go in,
    and the model comes back with the best weights loaded. *)
Definition train_model (w : W) (training0 : bool) (o : Opt) (sc : steplr) (num_epochs : nat)
  : result tstate :=
  let* st := run_epochs num_epochs 0 (mk_tstate w o sc training0 w 0) in
  Ok (mk_tstate (best_wts st) (opt st) (sched st) (training st) (best_wts st) (best_acc st)).

(** ** The reference run: training without the best-model bookkeeping *)

(** The state with the bookkeeping fields replaced. *)
Definition with_best (bw : W) (ba : Q) (st : tstate) : tstate :=
  mk_tstate (wts st) (opt st) (sched st) (training st) bw ba.

(** The epochs as they train, with the validation accuracy and the
    weights at the end of each epoch. *)
Fixpoint plain_epochs (k epoch : nat) (st : tstate) : result (tstate * list (Q * W)) :=
  match k with
  | O => Ok (st, [])
  | S k' =>
      let* '(st, _) := phase_stats epoch Train st in
      let* '(st, acc) := phase_stats epoch Val st in
      let* '(st', tr) := plain_epochs k' (S epoch) st in
      Ok (st', (acc, wts st) :: tr)
  end.

(** The specification of the selection: the first epoch whose accuracy
    beats every earlier one and the starting value. *)
Definition select_from (start : W * Q) (tr : list (Q * W)) : W * Q :=
  fold_left (fun bwa aw => if negb (Qle_bool (fst aw) (snd bwa)) then (snd aw, fst aw) else bwa)
    tr start.

(** ** The scheduler and the validation phase *)

(** The scheduler after [k] more calls of [scheduler.step()]. *)
Definition sched_steps (k : nat) (sc : steplr) : steplr :=
  mk_steplr (base_lr sc) (step_size sc) (gamma sc) (k + last_epoch sc)%nat.

Lemma sched_steps_0 (sc : steplr) : sched_steps 0 sc = sc.
Proof. destruct sc; reflexivity. Qed.

Lemma sched_steps_S (k : nat) (sc : steplr) : sched_step (sched_steps k sc) = sched_steps (S k) sc.
Proof. reflexivity. Qed.

Lemma sched_steps_add (k1 k2 : nat) (sc : steplr) :
  sched_steps k2 (sched_steps k1 sc) = sched_steps (k2 + k1) sc.
Proof. unfold sched_steps. simpl. f_equal. lia. Qed.

(** A batch of the validation phase changes nothing. *)
Lemma run_batches_val (st : tstate) bs rl rc : exists l c, run_batches Val st bs rl rc = Ok (st, l, c).
Proof.
  revert st rl rc. induction bs as [|[i lb] bs IH]; intros st rl rc.
  - exists rl, rc. reflexivity.
  - apply IH.
Qed.

(** A training batch is one optimizer step and one scheduler step. *)
Lemma batch_step_train (st st' : tstate) (i : list Input) (l : list nat) (lo : Q) (c : nat) :
  batch_step Train st i l = Ok (st', lo, c) ->
  exists o w, opt_step (get_lr (sched st)) (opt st) (track (wts st) i) i l = Ok (o, w) /\
    st' = mk_tstate w o (sched_step (sched st)) (training st) (best_wts st) (best_acc st).
Proof. unfold batch_step. cbn [is_train]. intros E. inv_okp. eauto. Qed.

(** The training batches step the scheduler once each and keep the
    bookkeeping fields. *)
Lemma run_batches_train (st st' : tstate) bs rl rc l c :
  run_batches Train st bs rl rc = Ok (st', l, c) ->
  sched st' = sched_steps (length bs) (sched st) /\ training st' = training st /\
  best_wts st' = best_wts st /\ best_acc st' = best_acc st.
Proof.
  revert st rl rc. induction bs as [|[i lb] bs IH]; intros st rl rc E; cbn [run_batches] in E.
  - inv_ok. rewrite sched_steps_0. auto.
  - inv_okp. destruct (batch_step_train _ _ _ _ _ _ Ha) as (o & w & _ & ->).
    destruct (IH _ _ _ E) as (H1 & H2 & H3 & H4). cbn [sched training best_wts best_acc] in *.
    rewrite H1, H2, H3, H4. split; [unfold sched_steps, sched_step; simpl; f_equal; lia|]. auto.
Qed.

Lemma phase_stats_val (e : nat) (st st' : tstate) (a : Q) :
  phase_stats e Val st = Ok (st', a) ->
  st' = mk_tstate (wts st) (opt st) (sched st) false (best_wts st) (best_acc st).
Proof.
  unfold phase_stats. cbn [is_train].
  set (st0 := mk_tstate (wts st) (opt st) (sched st) false (best_wts st) (best_acc st)).
  destruct (run_batches_val st0 (loader Val e) 0 0) as (rl & rc & ->). cbn [bind].
  destruct (Nat.eqb (dataset_size Val) 0); intros E; [discriminate|]. injection E as <- _.
  reflexivity.
Qed.

Lemma phase_stats_train (e : nat) (st st' : tstate) (a : Q) :
  phase_stats e Train st = Ok (st', a) ->
  sched st' = sched_steps (length (loader Train e)) (sched st) /\ training st' = true /\
  best_wts st' = best_wts st /\ best_acc st' = best_acc st.
Proof.
  unfold phase_stats. cbn [is_train].
  set (st0 := mk_tstate (wts st) (opt st) (sched st) true (best_wts st) (best_acc st)).
  intros E. inv_okp. apply run_batches_train in Ha.
  destruct (Nat.eqb (dataset_size Train) 0); [discriminate|]. inv_ok. exact Ha.
Qed.

Lemma keep_best_core (ph : phase) (st : tstate) (a : Q) :
  wts (keep_best ph st a) = wts st /\ opt (keep_best ph st a) = opt st /\
  sched (keep_best ph st a) = sched st /\ training (keep_best ph st a) = training st.
Proof. destruct ph; simpl; [|destruct (negb _)]; auto. Qed.

(** The validation phase runs under [torch.set_grad_enabled(False)] and
    never calls [optimizer.step()] or [scheduler.step()]: it changes
    neither the weights, nor the optimizer, nor the scheduler, and leaves
    the model in evaluation mode. *)
Lemma run_phase_val (e : nat) (st st' : tstate) :
  run_phase e Val st = Ok st' ->
  wts st' = wts st /\ opt st' = opt st /\ sched st' = sched st /\ training st' = false.
Proof.
  unfold run_phase. intros E.
  destruct (phase_stats e Val st) as [[st1 a]|] eqn:Ep; [|discriminate].
  apply phase_stats_val in Ep. subst st1. cbn [bind keep_best] in E.
  destruct (negb _); injection E as <-; simpl; auto.
Qed.

Lemma run_phase_train (e : nat) (st st' : tstate) :
  run_phase e Train st = Ok st' ->
  sched st' = sched_steps (length (loader Train e)) (sched st) /\
  best_wts st' = best_wts st /\ best_acc st' = best_acc st.
Proof.
  unfold run_phase. intros E.
  destruct (phase_stats e Train st) as [[st1 a]|] eqn:Ep; [|discriminate].
  apply phase_stats_train in Ep as (H1 & _ & H3 & H4). cbn [bind keep_best] in E.
  injection E as <-. auto.
Qed.

Lemma run_epochs_sched (nb k e : nat) (st st' : tstate) :
  (forall e, length (loader Train e) = nb) ->
  run_epochs k e st = Ok st' -> sched st' = sched_steps (k * nb) (sched st).
Proof.
  intros Hnb. revert e st. induction k as [|k IH]; intros e st E; cbn [run_epochs] in E.
  - injection E as <-. symmetry. apply sched_steps_0.
  - inv_ok. destruct (run_phase_train _ _ _ Ha) as (S1 & _). rewrite Hnb in S1.
    destruct (run_phase_val _ _ _ Ha0) as (_ & _ & S2 & _).
    rewrite (IH _ _ E), S2, S1, sched_steps_add. f_equal. lia.
Qed.

(** C15: The scheduler steps once per training batch, not once per epoch:
    after [n] epochs of [nb] batches, [last_epoch] has grown by [n * nb],
    so [StepLR(step_size=7)] decays the learning rate every 7 batches. *)
Theorem train_model_scheduler_steps (nb n : nat) (w : W) (t : bool) (o : Opt) (sc : steplr)
  (st : tstate) :
  (forall e, length (loader Train e) = nb) ->
  train_model w t o sc n = Ok st -> sched st = sched_steps (n * nb) sc.
Proof.
  unfold train_model. intros Hnb E. inv_ok. exact (run_epochs_sched nb _ _ _ _ Hnb Ha).
Qed.

(** ** The best model *)

Lemma with_best_twice (bw bw' : W) (ba ba' : Q) (st : tstate) :
  with_best bw ba (with_best bw' ba' st) = with_best bw ba st.
Proof. reflexivity. Qed.

Definition best_map (bw : W) (ba : Q) (r : tstate * Q * nat) : tstate * Q * nat :=
  (with_best bw ba (fst (fst r)), snd (fst r), snd r).

Lemma run_batches_with_best (ph : phase) (bw : W) (ba : Q) (st : tstate) bs rl rc :
  run_batches ph (with_best bw ba st) bs rl rc = rmap (best_map bw ba) (run_batches ph st bs rl rc).
Proof.
  revert st rl rc. induction bs as [|[i l] bs IH]; intros st rl rc; [reflexivity|].
  cbn [run_batches]. unfold batch_step. destruct ph; cbn [is_train wts opt sched with_best bind].
  - destruct (opt_step _ _ _ _ _) as [[o w]|err]; [|reflexivity]. cbn [bind].
    exact (IH (mk_tstate w o (sched_step (sched st)) (training st) (best_wts st) (best_acc st)) _ _).
  - exact (IH st _ _).
Qed.

Lemma phase_stats_with_best (e : nat) (ph : phase) (bw : W) (ba : Q) (st : tstate) :
  phase_stats e ph (with_best bw ba st) =
  rmap (fun p => (with_best bw ba (fst p), snd p)) (phase_stats e ph st).
Proof.
  unfold phase_stats.
  change (mk_tstate (wts (with_best bw ba st)) (opt (with_best bw ba st)) (sched (with_best bw ba st))
            (is_train ph) (best_wts (with_best bw ba st)) (best_acc (with_best bw ba st)))
    with (with_best bw ba (mk_tstate (wts st) (opt st) (sched st) (is_train ph) (best_wts st) (best_acc st))).
  rewrite run_batches_with_best.
  destruct (run_batches ph _ (loader ph e) 0 0) as [[[st1 rl] rc]|err]; [|reflexivity]. cbn [rmap bind].
  destruct (Nat.eqb (dataset_size ph) 0); reflexivity.
Qed.

Lemma plain_epochs_with_best (k e : nat) (bw : W) (ba : Q) (st : tstate) :
  plain_epochs k e (with_best bw ba st) =
  rmap (fun p => (with_best bw ba (fst p), snd p)) (plain_epochs k e st).
Proof.
  revert e st. induction k as [|k IH]; intros e st; [reflexivity|]. cbn [plain_epochs].
  rewrite phase_stats_with_best. destruct (phase_stats e Train st) as [[s1 a1]|]; [|reflexivity].
  cbn [rmap bind fst snd]. rewrite phase_stats_with_best.
  destruct (phase_stats e Val s1) as [[s2 a2]|]; [|reflexivity]. cbn [rmap bind fst snd].
  rewrite IH. destruct (plain_epochs k (S e) s2) as [[sp tr]|]; reflexivity.
Qed.

Lemma phase_stats_best (e : nat) (ph : phase) (st st' : tstate) (a : Q) :
  phase_stats e ph st = Ok (st', a) -> best_wts st' = best_wts st /\ best_acc st' = best_acc st.
Proof.
  destruct ph; intros E.
  - apply phase_stats_train in E. tauto.
  - apply phase_stats_val in E as ->. auto.
Qed.

Lemma keep_best_val (st : tstate) (a : Q) :
  keep_best Val st a =
  with_best (fst (if negb (Qle_bool a (best_acc st)) then (wts st, a) else (best_wts st, best_acc st)))
            (snd (if negb (Qle_bool a (best_acc st)) then (wts st, a) else (best_wts st, best_acc st))) st.
Proof. unfold keep_best. destruct (negb _); [reflexivity|]. destruct st; reflexivity. Qed.

(** [run_epochs] is the reference run followed by the selection. *)
Lemma run_epochs_plain (k e : nat) (st st' : tstate) :
  run_epochs k e st = Ok st' ->
  exists sp tr, plain_epochs k e st = Ok (sp, tr) /\
    st' = with_best (fst (select_from (best_wts st, best_acc st) tr))
                    (snd (select_from (best_wts st, best_acc st) tr)) sp.
Proof.
  revert e st. induction k as [|k IH]; intros e st E; cbn [run_epochs] in E.
  - injection E as <-. exists st, []. split; [reflexivity|]. destruct st; reflexivity.
  - inv_ok. unfold run_phase in Ha, Ha0.
    destruct (phase_stats e Train st) as [[s1 a1]|] eqn:E1; [|discriminate].
    cbn [bind] in Ha. apply Ok_inj in Ha. cbn [keep_best] in Ha. subst a.
    destruct (phase_stats e Val s1) as [[s2 a2]|] eqn:E2; [|discriminate].
    cbn [bind] in Ha0. apply Ok_inj in Ha0. rewrite keep_best_val in Ha0. subst a0.
    destruct (IH _ _ E) as (sp & tr & Ep & ->).
    rewrite plain_epochs_with_best in Ep.
    destruct (plain_epochs k (S e) s2) as [[sp0 tr0]|] eqn:E3; [|discriminate].
    injection Ep as <- <-.
    destruct (phase_stats_best _ _ _ _ _ E1) as [B1 B1']. destruct (phase_stats_best _ _ _ _ _ E2) as [B2 B2'].
    exists sp0, ((a2, wts s2) :: tr0). cbn [plain_epochs]. rewrite E1. cbn [bind].
    rewrite E2. cbn [bind]. rewrite E3. split; [reflexivity|].
    cbn [best_wts best_acc with_best fst snd]. rewrite B2, B2', B1, B1'.
    unfold select_from at 3 4. cbn [fold_left fst snd].
    destruct (negb (Qle_bool a2 (best_acc st))); reflexivity.
Qed.

Lemma select_from_cons (start : W * Q) (a : Q) (w : W) (tr : list (Q * W)) :
  select_from start ((a, w) :: tr) =
  select_from (if negb (Qle_bool a (snd start)) then (w, a) else start) tr.
Proof. reflexivity. Qed.

(** The selection returns the start, or the first entry of the trace
    whose accuracy exceeds the start and every earlier entry; its
    accuracy bounds every entry. *)
Lemma select_from_spec (tr : list (Q * W)) (bw : W) (ba : Q) :
  let r := select_from (bw, ba) tr in
  ba <= snd r /\ Forall (fun aw => fst aw <= snd r) tr /\
  (r = (bw, ba) \/
   exists k, nth_error tr k = Some (snd r, fst r) /\ ba < snd r /\
     forall j aw, (j < k)%nat -> nth_error tr j = Some aw -> fst aw < snd r).
Proof.
  revert bw ba. induction tr as [|[a w] tr IH]; intros bw ba; cbn zeta.
  - split; [apply Qle_refl|]. split; [constructor|]. left; reflexivity.
  - rewrite select_from_cons. cbn [snd]. destruct (Qle_bool a ba) eqn:Ea; cbn [negb].
    + apply Qle_bool_iff in Ea. destruct (IH bw ba) as (H1 & H2 & [H3|(k & Hk & Hlt & Hj)]).
      * split; [exact H1|]. split; [constructor; [simpl; lra|exact H2]|]. left; exact H3.
      * split; [exact H1|]. split; [constructor; [simpl; lra|exact H2]|]. right.
        exists (S k). split; [exact Hk|]. split; [exact Hlt|].
        intros [|j] aw Hjk Ej; [injection Ej as <-; simpl; lra|]. apply (Hj j); [lia|exact Ej].
    + assert (Hba : ba < a) by (apply Qnot_le_lt; intros H; apply Qle_bool_iff in H; congruence).
      destruct (IH w a) as (H1 & H2 & [H3|(k & Hk & Hlt & Hj)]).
      * rewrite H3 in *. simpl in *. split; [lra|]. split; [constructor; [simpl; lra|exact H2]|].
        right. exists 0%nat. split; [reflexivity|]. split; [exact Hba|]. intros j aw Hj0; lia.
      * split; [lra|]. split; [constructor; [simpl; lra|exact H2]|]. right.
        exists (S k). split; [exact Hk|]. split; [lra|].
        intros [|j] aw Hjk Ej; [injection Ej as <-; simpl; lra|]. apply (Hj j); [lia|exact Ej].
Qed.

(** ** Accuracies are fractions *)

(** The number of labels the loader yields in a phase. *)
Definition label_total (bs : list (list Input * list nat)) : nat :=
  list_sum (map (fun b => length (snd b)) bs).

Lemma count_correct_le (preds labels : list nat) : (count_correct preds labels <= length labels)%nat.
Proof.
  unfold count_correct. etransitivity; [apply filter_length_le|]. rewrite length_combine. lia.
Qed.

Lemma batch_step_corrects (ph : phase) (st st' : tstate) (i : list Input) (l : list nat) lo c :
  batch_step ph st i l = Ok (st', lo, c) -> (c <= length l)%nat.
Proof. unfold batch_step. intros E. inv_ok. apply count_correct_le. Qed.

Lemma run_batches_corrects (ph : phase) (st st' : tstate) bs rl rc lo c :
  run_batches ph st bs rl rc = Ok (st', lo, c) -> (c <= rc + label_total bs)%nat.
Proof.
  revert st rl rc. induction bs as [|[i l] bs IH]; intros st rl rc E; cbn [run_batches] in E.
  - inv_ok. lia.
  - inv_okp. apply batch_step_corrects in Ha. apply IH in E.
    change (label_total ((i, l) :: bs)) with (length l + label_total bs)%nat. lia.
Qed.

Lemma qnat_frac (c n : nat) : (c <= n)%nat -> (0 < n)%nat -> 0 <= qnat c / qnat n <= 1.
Proof.
  intros Hc Hn. unfold qnat.
  assert (Hq : 0 < inject_Z (Z.of_nat n)) by (change (inject_Z 0 < inject_Z (Z.of_nat n)); rewrite <- Zlt_Qlt; lia).
  split.
  - apply Qle_shift_div_l; [exact Hq|]. rewrite Qmult_0_l. change (inject_Z 0 <= inject_Z (Z.of_nat c)).
    rewrite <- Zle_Qle. lia.
  - apply Qle_shift_div_r; [exact Hq|]. rewrite Qmult_1_l. rewrite <- Zle_Qle. lia.
Qed.

(** When the loader yields at most [dataset_sizes[phase]] labels, the
    accuracy of the phase is a fraction. *)
Lemma phase_stats_frac (e : nat) (ph : phase) (st st' : tstate) (a : Q) :
  (label_total (loader ph e) <= dataset_size ph)%nat ->
  phase_stats e ph st = Ok (st', a) -> 0 <= a <= 1.
Proof.
  intros Hl. unfold phase_stats. intros E. inv_okp. apply run_batches_corrects in Ha.
  destruct (Nat.eqb_spec (dataset_size ph) 0) as [_|Hn]; [discriminate|].
  apply Ok_inj in E. injection E as _ <-. apply qnat_frac; lia.
Qed.

Lemma plain_epochs_frac (k e : nat) (st sp : tstate) (tr : list (Q * W)) :
  (forall e, label_total (loader Val e) <= dataset_size Val)%nat ->
  plain_epochs k e st = Ok (sp, tr) -> Forall (fun aw => 0 <= fst aw <= 1) tr.
Proof.
  intros Hl. revert e st sp tr. induction k as [|k IH]; intros e st sp tr E; cbn [plain_epochs] in E.
  - apply Ok_inj in E. injection E as _ <-. constructor.
  - destruct (phase_stats e Train st) as [[s1 a1]|]; [|discriminate]. cbn [bind] in E.
    destruct (phase_stats e Val s1) as [[s2 a2]|] eqn:E2; [|discriminate]. cbn [bind] in E.
    destruct (plain_epochs k (S e) s2) as [[sp0 tr0]|] eqn:E3; [|discriminate].
    cbn [bind] in E. apply Ok_inj in E. injection E as _ <-.
    constructor; [exact (phase_stats_frac e Val s1 s2 a2 (Hl e) E2)|exact (IH _ _ _ _ E3)].
Qed.

(** The best validation accuracy [train_model] reports is a fraction when
    every validation epoch yields at most [dataset_sizes['val']] labels. *)
Lemma train_model_frac (w : W) (t : bool) (o : Opt) (sc : steplr) (n : nat) (st : tstate) :
  (forall e, label_total (loader Val e) <= dataset_size Val)%nat ->
  train_model w t o sc n = Ok st -> 0 <= best_acc st <= 1.
Proof.
  intros Hl. unfold train_model. intros E. inv_ok.
  destruct (run_epochs_plain _ _ _ _ Ha) as (sp & tr & Ep & ->). cbn [best_acc with_best].
  pose proof (plain_epochs_frac _ _ _ _ _ Hl Ep) as Hf.
  destruct (select_from_spec tr w 0) as (H1 & _ & H3). cbn [best_wts best_acc] in *.
  split; [exact H1|]. destruct H3 as [H3|(k & Hk & _)]; [rewrite H3; cbn; lra|].
  rewrite Forall_forall in Hf. exact (proj2 (Hf _ (nth_error_In _ _ Hk))).
Qed.

(** C14: [train_model] returns the model with the weights of the first epoch
    whose validation accuracy is the best (strictly better than every
    earlier epoch), or the initial weights when no epoch has an accuracy
    above 0; the deep copies do not disturb training, which follows the
    reference run [plain_epochs]. *)
Theorem train_model_best_epoch (w : W) (t : bool) (o : Opt) (sc : steplr) (n : nat) (st : tstate) :
  train_model w t o sc n = Ok st ->
  exists sp tr, plain_epochs n 0 (mk_tstate w o sc t w 0) = Ok (sp, tr) /\
    opt st = opt sp /\ sched st = sched sp /\
    0 <= best_acc st /\ Forall (fun aw => fst aw <= best_acc st) tr /\
    ((wts st = w /\ best_acc st = 0) \/
     exists k, nth_error tr k = Some (best_acc st, wts st) /\ 0 < best_acc st /\
       forall j aw, (j < k)%nat -> nth_error tr j = Some aw -> fst aw < best_acc st).
Proof.
  unfold train_model. intros E. inv_ok. destruct (run_epochs_plain _ _ _ _ Ha) as (sp & tr & Ep & ->).
  exists sp, tr. split; [exact Ep|]. cbn [wts opt sched best_wts best_acc with_best].
  destruct (select_from_spec tr w 0) as (H1 & H2 & H3).
  destruct (select_from (w, 0) tr) as [bw ba]. cbn [fst snd] in *.
  split; [reflexivity|]. split; [reflexivity|]. split; [exact H1|]. split; [exact H2|].
  destruct H3 as [H3|H3]; [injection H3 as -> ->; left; auto|right; exact H3].
Qed.

(** ** Invariants of the weights and progress *)

(** A property [I] of the optimizer and the weights that every
    optimizer step keeps holds of the weights [train_model] returns: the
    weights of the best epoch were, when they were copied, paired with
    some optimizer state. *)
Section Invariant.

Variable I : Opt -> W -> Prop.
Hypothesis I_step : forall lr o w i l o' w', I o w -> opt_step lr o w i l = Ok (o', w') -> I o' w'.
Hypothesis I_track : forall o w i, I o w -> I o (track w i).

Definition tinv (st : tstate) : Prop := I (opt st) (wts st) /\ exists o', I o' (best_wts st).

Lemma batch_step_tinv (ph : phase) (st st' : tstate) (i : list Input) (l : list nat) lo c :
  tinv st -> batch_step ph st i l = Ok (st', lo, c) -> tinv st'.
Proof.
  unfold batch_step, tinv. destruct (is_train ph); intros [H1 H2] E; inv_okp; cbn; eauto using I_track.
Qed.

Lemma run_batches_tinv (ph : phase) (st st' : tstate) bs rl rc lo c :
  tinv st -> run_batches ph st bs rl rc = Ok (st', lo, c) -> tinv st'.
Proof.
  revert st rl rc. induction bs as [|[i lb] bs IH]; intros st rl rc H E; cbn [run_batches] in E.
  - inv_ok. exact H.
  - inv_okp. exact (IH _ _ _ (batch_step_tinv _ _ _ _ _ _ _ H Ha) E).
Qed.

Lemma phase_stats_tinv (e : nat) (ph : phase) (st st' : tstate) (a : Q) :
  tinv st -> phase_stats e ph st = Ok (st', a) -> tinv st'.
Proof.
  unfold phase_stats. intros H E. inv_okp.
  destruct (Nat.eqb (dataset_size ph) 0); [discriminate|]. inv_ok.
  eapply run_batches_tinv; [|eassumption]. exact H.
Qed.

Lemma run_phase_tinv (e : nat) (ph : phase) (st st' : tstate) :
  tinv st -> run_phase e ph st = Ok st' -> tinv st'.
Proof.
  unfold run_phase. intros H E.
  destruct (phase_stats e ph st) as [[s1 a]|] eqn:Ep; [|discriminate]. cbn [bind] in E.
  injection E as <-. destruct (phase_stats_tinv _ _ _ _ _ H Ep) as [H1 H2].
  destruct ph; cbn [keep_best]; [split; auto|]. destruct (negb _); split; cbn; eauto.
Qed.

Lemma run_epochs_tinv (k e : nat) (st st' : tstate) :
  tinv st -> run_epochs k e st = Ok st' -> tinv st'.
Proof.
  revert e st. induction k as [|k IH]; intros e st H E; cbn [run_epochs] in E; inv_ok; [exact H|].
  exact (IH _ _ (run_phase_tinv _ _ _ _ (run_phase_tinv _ _ _ _ H Ha) Ha0) E).
Qed.

Lemma train_model_inv (w : W) (t : bool) (o : Opt) (sc : steplr) (n : nat) (st : tstate) :
  I o w -> train_model w t o sc n = Ok st -> exists o', I o' (wts st).
Proof.
  unfold train_model. intros H E. inv_ok. cbn [wts].
  refine (proj2 (run_epochs_tinv _ _ _ _ _ Ha)). split; cbn; eauto.
Qed.

(** When, moreover, no step raises from a state of the invariant and
    both data sets are non-empty, [train_model] returns. *)
Hypothesis I_ok : forall lr o w i l, I o w -> exists r, opt_step lr o w i l = Ok r.

Lemma run_batches_progress (ph : phase) (st : tstate) bs rl rc :
  tinv st -> exists r, run_batches ph st bs rl rc = Ok r.
Proof.
  revert st rl rc. induction bs as [|[i lb] bs IH]; intros st rl rc H; cbn [run_batches]; [eauto|].
  assert (Hb : exists r, batch_step ph st i lb = Ok r).
  { unfold batch_step. destruct (is_train ph); [|eexists; reflexivity].
    destruct (I_ok (get_lr (sched st)) (opt st) _ i lb (I_track _ _ i (proj1 H))) as [[o w] ->].
    eexists; reflexivity. }
  destruct Hb as [[[st1 l1] c1] Eb]. rewrite Eb. cbn [bind].
  exact (IH _ _ _ (batch_step_tinv _ _ _ _ _ _ _ H Eb)).
Qed.

Lemma run_epochs_progress (k e : nat) (st : tstate) :
  (forall ph, dataset_size ph <> 0%nat) -> tinv st -> exists st', run_epochs k e st = Ok st'.
Proof.
  intros Hd. revert e st. induction k as [|k IH]; intros e st H; cbn [run_epochs]; [eauto|].
  assert (Hp : forall ph s, tinv s -> exists s', run_phase e ph s = Ok s').
  { intros ph s Hs. unfold run_phase, phase_stats.
    match goal with |- context [run_batches ph ?s0 ?bs 0 0] =>
      destruct (run_batches_progress ph s0 bs 0 0 Hs) as [[[s1 l1] c1] ->] end.
    cbn [bind]. destruct (Nat.eqb_spec (dataset_size ph) 0) as [Z|_]; [exfalso; exact (Hd ph Z)|].
    eexists; reflexivity. }
  destruct (Hp Train st H) as [s1 E1]. rewrite E1. cbn [bind].
  pose proof (run_phase_tinv _ _ _ _ H E1) as H1.
  destruct (Hp Val s1 H1) as [s2 E2]. rewrite E2. cbn [bind].
  exact (IH _ _ (run_phase_tinv _ _ _ _ H1 E2)).
Qed.

Lemma train_model_progress (w : W) (t : bool) (o : Opt) (sc : steplr) (n : nat) :
  (forall ph, dataset_size ph <> 0%nat) -> I o w -> exists st, train_model w t o sc n = Ok st.
Proof.
  intros Hd H. unfold train_model.
  destruct (run_epochs_progress n 0 (mk_tstate w o sc t w 0) Hd) as [st ->]; [split; cbn; eauto|].
  eexists; reflexivity.
Qed.

End Invariant.

End TrainModel.

Arguments mk_tstate {W Opt} _ _ _ _ _ _.
Arguments wts {W Opt} _.
Arguments opt {W Opt} _.
Arguments sched {W Opt} _.
Arguments training {W Opt} _.
Arguments best_wts {W Opt} _.
Arguments best_acc {W Opt} _.

(** ** Witnesses *)

Local Open Scope Q_scope.

(** A one-weight model, a loader with the 61 training batches of the
    hymenoptera data set (244 images, batches of 4) and one validation
    batch. *)
Definition fwd (tr : bool) (w : Q) (xs : list Q) : list (list Q) := map (fun x => [x * w; 1]) xs.
(** A model without BatchNorm layers: the forward pass leaves the weights. *)
Definition trk (w : Q) (xs : list Q) : Q := w.
Definition crit (outs : list (list Q)) (labels : list nat) : Q := 0.
Definition ostep (lr : Q) (o : unit) (w : Q) (xs : list Q) (ls : list nat) : result (unit * Q) := Ok (o, w + lr).
Definition ldr (ph : phase) (e : nat) : list (list Q * list nat) :=
  match ph with
  | Train => repeat ([1], [0%nat]) 61
  | Val => [([1; 2], [0%nat; 0%nat])]
  end.
Definition dsz (ph : phase) : nat := match ph with Train => 244%nat | Val => 153%nat end.

Lemma ldr_train (e : nat) : length (ldr Train e) = 61%nat.
Proof. reflexivity. Qed.

Lemma train_model_scheduler_steps_witness :
  match train_model Q unit Q fwd trk crit ostep ldr dsz (1 # 2) true tt (StepLR (1 # 1000) 7 (1 # 10)) 1 with
  | Ok st => sched st = sched_steps 61 (StepLR (1 # 1000) 7 (1 # 10))
  | Err _ => False
  end.
Proof.
  destruct (train_model Q unit Q fwd trk crit ostep ldr dsz (1 # 2) true tt (StepLR (1 # 1000) 7 (1 # 10)) 1)
    as [st|e] eqn:E; [|vm_compute in E; discriminate].
  exact (train_model_scheduler_steps Q unit Q fwd trk crit ostep ldr dsz 61 1 _ _ _ _ st ldr_train E).
Defined.

Lemma train_model_best_epoch_witness :
  match train_model Q unit Q fwd trk crit ostep ldr dsz (1 # 2) true tt (StepLR (1 # 1000) 7 (1 # 10)) 2 with
  | Ok st =>
      exists sp tr,
        plain_epochs Q unit Q fwd trk crit ostep ldr dsz 2 0
          (mk_tstate (1 # 2) tt (StepLR (1 # 1000) 7 (1 # 10)) true (1 # 2) 0) = Ok (sp, tr) /\
        opt st = opt sp /\ sched st = sched sp /\
        0 <= best_acc st /\ Forall (fun aw => fst aw <= best_acc st) tr /\
        ((wts st = 1 # 2 /\ best_acc st = 0) \/
         exists k, nth_error tr k = Some (best_acc st, wts st) /\ 0 < best_acc st /\
           forall j aw, (j < k)%nat -> nth_error tr j = Some aw -> fst aw < best_acc st)
  | Err _ => False
  end.
Proof.
  destruct (train_model Q unit Q fwd trk crit ostep ldr dsz (1 # 2) true tt (StepLR (1 # 1000) 7 (1 # 10)) 2)
    as [st|e] eqn:E; [|vm_compute in E; discriminate].
  exact (train_model_best_epoch Q unit Q fwd trk crit ostep ldr dsz _ _ _ _ _ st E).
Defined.

End Transfer.
