(* ===== verification/Data.v ===== *)
(** * Loading the images: [DataLoader] and its batches

    The transfer-learning notebook builds its data pipeline in lines
    131-160 of [src/unnamed/part_000]: an [ImageFolder] per phase,
    wrapped in [torch.utils.data.DataLoader(image_datasets[x],
    batch_size=4, shuffle=True, num_workers=4)], and [dataset_sizes] as
    the lengths of the data sets.  [train_model] and [visualize_model]
    iterate over these loaders.

    This file models one epoch of such a loader: the sampler draws a
    permutation of the indices ([shuffle=True]; the permutation is the
    contract of the typeclass [Sampler], so the theorems hold for every
    random draw), [BatchSampler] cuts it into batches, each index is
    fetched through the data set's transform, and [default_collate]
    stacks the tensors of a batch, which requires equal shapes.
    [BatchSampler]'s loop is proved equal to a reference chunking defined
    by well-founded recursion with Equations.  The batches of the loader
    are then fed to [train_model] of [Transfer] and to [visualize_model] of
    [Visualize].
    The transforms of [data_transforms] are modelled by the shape of the
    tensor they produce, which is what stacking a batch depends on. *)

From S2P Require Import Prelude.
From S2P Require Import Transfer.
From Stdlib Require Import Permutation.
From Equations Require Import Equations.

Module Data.

(** ** [BatchSampler] *)

(** [BatchSampler.__iter__] with [drop_last=False]:
    [for idx in sampler: batch.append(idx); if len(batch) == batch_size:
    yield batch; batch = []], then the last, incomplete batch if it is
    not empty. *)
Fixpoint batch_loop (batch_size : nat) (idx : list nat) (batch : list nat) : list (list nat) :=
  match idx with
  | [] => if Nat.eqb (length batch) 0 then [] else [batch]
  | i :: idx' =>
      let batch := batch ++ [i] in
      if Nat.eqb (length batch) batch_size then batch :: batch_loop batch_size idx' []
      else batch_loop batch_size idx' batch
  end.

Definition batch_sampler (batch_size : nat) (idx : list nat) : list (list nat) :=
  batch_loop batch_size idx [].

(** The reference: consecutive chunks of [S k] elements, the last one
    shorter.  The recursion is on the length of the list. *)
Equations? chunks {A} (k : nat) (l : list A) : list (list A) by wf (length l) lt :=
  chunks k [] := [];
  chunks k (x :: l) := firstn (S k) (x :: l) :: chunks k (skipn (S k) (x :: l)).
Proof. rewrite length_skipn. cbn. lia. Qed.

Lemma chunks_nil {A} (k : nat) : @chunks A k [] = [].
Proof. simp chunks. reflexivity. Qed.

Lemma chunks_cons {A} (k : nat) (x : A) (l : list A) :
  chunks k (x :: l) = firstn (S k) (x :: l) :: chunks k (skipn (S k) (x :: l)).
Proof. simp chunks. reflexivity. Qed.

Lemma chunks_short {A} (k : nat) (l : list A) : l <> [] -> length l <= S k -> chunks k l = [l].
Proof.
  destruct l as [|x l]; [congruence|]. intros _ H. rewrite chunks_cons.
  rewrite firstn_all2, skipn_all2 by exact H. rewrite chunks_nil. reflexivity.
Qed.

Lemma batch_loop_chunks (k : nat) (idx batch : list nat) :
  length batch <= k -> batch_loop (S k) idx batch = chunks k (batch ++ idx).
Proof.
  revert batch. induction idx as [|i idx IH]; intros batch Hb; cbn [batch_loop].
  - rewrite app_nil_r. destruct batch as [|x b]; [rewrite chunks_nil; reflexivity|].
    rewrite chunks_short by (cbn in *; congruence || lia). reflexivity.
  - rewrite length_app. cbn [length]. destruct (Nat.eqb_spec (length batch + 1) (S k)) as [E|E].
    + rewrite IH by (cbn; lia). cbn [app].
      destruct (batch ++ i :: idx) as [|x l] eqn:Ebl; [destruct batch; discriminate|].
      rewrite chunks_cons, <- Ebl. replace (batch ++ i :: idx) with ((batch ++ [i]) ++ idx)
        by (rewrite <- app_assoc; reflexivity).
      rewrite firstn_app, skipn_app, length_app. cbn [length].
      rewrite firstn_all2, skipn_all2 by (rewrite length_app; cbn; lia).
      replace (S k - (length batch + 1)) with 0 by lia. rewrite app_nil_r. reflexivity.
    + rewrite IH by (rewrite length_app; cbn; lia). rewrite <- app_assoc. reflexivity.
Qed.

(** The loop of [BatchSampler] cuts the sampled indices into the chunks
    of the reference. *)
Lemma batch_sampler_chunks (k : nat) (idx : list nat) : batch_sampler (S k) idx = chunks k idx.
Proof. apply batch_loop_chunks. cbn. lia. Qed.

Lemma concat_chunks {A} (k : nat) (l : list A) : concat (chunks k l) = l.
Proof.
  funelim (chunks k l); [reflexivity|]. cbn [concat].
  rewrite H. apply firstn_skipn.
Qed.

Lemma chunks_sizes {A} (k : nat) (l : list A) :
  Forall (fun c => 1 <= length c <= S k) (chunks k l).
Proof.
  funelim (chunks k l); [constructor|].
  constructor; [|exact H]. rewrite length_firstn. cbn. lia.
Qed.

Lemma length_chunks {A} (k : nat) (l : list A) : length (chunks k l) = (length l + k) / S k.
Proof.
  funelim (chunks k l); [symmetry; apply Nat.div_small; cbn; lia|].
  cbn [length]. rewrite H, length_skipn. cbn [length].
  destruct (Nat.le_gt_cases (S (length l)) (S k)) as [Hle|Hgt].
  - replace (S (length l) - S k) with 0 by lia. rewrite (Nat.div_small k) by lia.
    apply (Nat.div_unique _ _ 1 (length l)); lia.
  - replace (S (length l) + k) with ((S (length l) - S k + k) + 1 * S k) by lia.
    rewrite Nat.div_add by lia. lia.
Qed.

(** ** The loader *)

(** The sampler of a [DataLoader]: with [shuffle=True] a
    [RandomSampler], which draws a fresh permutation of the indices every
    epoch.  The permutation is what the rest of the pipeline relies on. *)
Class Sampler := {
  sample : nat -> nat -> list nat;
  sample_perm : forall e n, Permutation (sample e n) (seq 0 n) }.

(** [dataset[i]], raising [IndexError] out of range. *)
Definition getitem {A} (ds : list A) (i : nat) : result A :=
  match nth_error ds i with Some a => Ok a | None => Err IndexError end.

Definition shape_eqb (s1 s2 : list nat) : bool :=
  if list_eq_dec Nat.eq_dec s1 s2 then true else false.

Section Loader.

Context {Smp : Sampler} {X T : Type}.
(** The data set's [transform], and the shape of its result. *)
Variable transform : X -> result T.
Variable shape : T -> list nat.

(** [ImageFolder.__getitem__(i)]: the sample at [i] through the
    transform, with its class index. *)
Definition fetch_one (ds : list (X * nat)) (i : nat) : result (T * nat) :=
  let* '(x, y) := getitem ds i in
  let* t := transform x in
  Ok (t, y).

(** [torch.stack] in [default_collate]: all tensors of a batch must have
    the shape of the first. *)
Definition stack (ts : list T) : result (list T) :=
  match ts with
  | [] => Ok []
  | t :: ts' => if forallb (fun u => shape_eqb (shape u) (shape t)) ts' then Ok ts else Err ShapeMismatch
  end.

(** One batch: the samples of its indices, collated into [inputs] and
    [labels]. *)
Definition fetch (ds : list (X * nat)) (b : list nat) : result (list T * list nat) :=
  let* items := mapM (fetch_one ds) b in
  let* inputs := stack (map fst items) in
  Ok (inputs, map snd items).

(** [for inputs, labels in DataLoader(ds, batch_size, shuffle=True)] in
    epoch [e]; [batch_size = 0] is rejected with [ValueError]. *)
Definition loader_epoch (batch_size : nat) (ds : list (X * nat)) (e : nat)
  : result (list (list T * list nat)) :=
  if Nat.eqb batch_size 0 then Err ValueError
  else mapM (fetch ds) (batch_sampler batch_size (sample e (length ds))).

(** The label of index [i] is [y]. *)
Definition label_at (ds : list (X * nat)) (i y : nat) : Prop := exists x, nth_error ds i = Some (x, y).

Lemma stack_ok (ts ts' : list T) : stack ts = Ok ts' -> ts' = ts.
Proof.
  destruct ts as [|t ts]; cbn [stack]; [intros H; apply Ok_inj in H; auto|].
  destruct (forallb _ _); intros H; [apply Ok_inj in H; auto|discriminate].
Qed.

Lemma fetch_spec (ds : list (X * nat)) (b : list nat) (xs : list T) (ys : list nat) :
  fetch ds b = Ok (xs, ys) -> Forall2 (label_at ds) b ys /\ length xs = length b.
Proof.
  unfold fetch. intros E. inv_ok. apply stack_ok in Ha0. subst.
  apply mapM_Forall2 in Ha. rewrite length_map.
  split; [|symmetry; apply (Forall2_length Ha)].
  induction Ha as [|i it b its Hi _ IH]; constructor; [|exact IH].
  unfold fetch_one, getitem in Hi. destruct (nth_error ds i) as [[x y]|] eqn:E; [|discriminate].
  cbn [bind] in Hi. destruct (transform x); [|discriminate]. apply Ok_inj in Hi. subst it.
  exists x. exact E.
Qed.

Lemma Forall2_concat {A B} (R : A -> B -> Prop) (ls : list (list A)) (ms : list (list B)) :
  Forall2 (Forall2 R) ls ms -> Forall2 R (concat ls) (concat ms).
Proof. induction 1; [constructor|]. cbn [concat]. apply Forall2_app; assumption. Qed.

(** Labels read along the indices [0 .. n-1] are the labels of the data
    set, in order. *)
Lemma label_at_seq (ds : list (X * nat)) (ys : list nat) :
  Forall2 (label_at ds) (seq 0 (length ds)) ys -> ys = map snd ds.
Proof.
  enough (H : forall s ds', (forall j, nth_error ds (s + j) = nth_error ds' j) ->
            Forall2 (label_at ds) (seq s (length ds')) ys -> ys = map snd ds')
    by (apply (H 0 ds); reflexivity).
  intros s ds'. revert s ys. induction ds' as [|p ds' IH]; intros s ys Hs H;
    inversion H as [|i y l ys' [x Hx] Hr]; subst; [reflexivity|].
  rewrite <- (Nat.add_0_r s), Hs in Hx. cbn in Hx. injection Hx as ->. cbn [map snd]. f_equal.
  apply (IH (S s)); [intros j; replace (S s + j) with (s + S j) by lia; apply Hs|exact Hr].
Qed.

Lemma loader_epoch_spec (k : nat) (ds : list (X * nat)) (e : nat) bts :
  loader_epoch (S k) ds e = Ok bts ->
  Forall2 (fun b bt => fetch ds b = Ok bt) (chunks k (sample e (length ds))) bts.
Proof. unfold loader_epoch. cbn [Nat.eqb]. rewrite batch_sampler_chunks. apply mapM_Forall2. Qed.

Lemma stack_same (ts : list T) (sh : list nat) : Forall (fun t => shape t = sh) ts -> stack ts = Ok ts.
Proof.
  destruct ts as [|t ts]; [reflexivity|]. intros H. apply Forall_cons_iff in H as [Ht Hts]. cbn [stack].
  replace (forallb _ ts) with true; [reflexivity|]. symmetry. apply forallb_forall.
  intros u Hu. rewrite Forall_forall in Hts. rewrite (Hts u Hu), Ht. unfold shape_eqb.
  destruct (list_eq_dec _ _ _); congruence.
Qed.

Lemma loader_batches (k : nat) (ds : list (X * nat)) (e : nat) bts :
  loader_epoch (S k) ds e = Ok bts ->
  Forall2 (fun b bt => Forall2 (label_at ds) b (snd bt) /\ length (fst bt) = length b)
    (chunks k (sample e (length ds))) bts.
Proof.
  intros E. refine (Forall2_impl _ _ (loader_epoch_spec k ds e bts E)).
  intros b [xs ys] H. exact (fetch_spec ds b xs ys H).
Qed.

Lemma loader_labels (k : nat) (ds : list (X * nat)) (e : nat) bts :
  loader_epoch (S k) ds e = Ok bts -> Permutation (concat (map snd bts)) (map snd ds).
Proof.
  intros E. pose proof (loader_batches k ds e bts E) as H.
  assert (Hl : Forall2 (label_at ds) (sample e (length ds)) (concat (map snd bts))).
  { rewrite <- (concat_chunks k (sample e (length ds))). apply Forall2_concat.
    clear E. induction H as [|b bt bs bts' [Hb _] _ IH]; constructor; assumption. }
  destruct (Permutation_Forall2 (sample_perm e (length ds)) Hl) as (L & Hp & HL).
  rewrite (label_at_seq ds L HL) in Hp. exact Hp.
Qed.

(** The loader never raises when every image of the data set goes
    through the transform to a tensor of one common shape (the crops to
    224 x 224 of the notebook): no [IndexError] from the sampled indices
    and no shape error from [torch.stack]. *)
Theorem loader_epoch_ok (bs : nat) (ds : list (X * nat)) (e : nat) (sh : list nat) :
  0 < bs -> (forall x y, In (x, y) ds -> exists t, transform x = Ok t /\ shape t = sh) ->
  exists bts, loader_epoch bs ds e = Ok bts.
Proof.
  intros Hbs Ht. destruct bs as [|k]; [lia|]. unfold loader_epoch. cbn [Nat.eqb].
  rewrite batch_sampler_chunks. apply mapM_ok. intros b Hb.
  assert (Hi : forall i, In i b -> exists it, fetch_one ds i = Ok it /\ shape (fst it) = sh).
  { intros i Hi. assert (Hin : In i (seq 0 (length ds))).
    { apply (Permutation_in _ (sample_perm e (length ds))).
      rewrite <- (concat_chunks k (sample e (length ds))). apply in_concat. eauto. }
    apply in_seq in Hin. destruct (nth_error ds i) as [[x y]|] eqn:Ex;
      [|apply nth_error_None in Ex; lia].
    destruct (Ht x y (nth_error_In _ _ Ex)) as (t & Et & Hs). exists (t, y).
    unfold fetch_one, getitem. rewrite Ex. cbn [bind]. rewrite Et. auto. }
  destruct (mapM_ok (fetch_one ds) b) as [items Ei]; [intros i H; destruct (Hi i H) as (it & ? & _); eauto|].
  unfold fetch. rewrite Ei. cbn [bind]. rewrite (stack_same _ sh); [eexists; reflexivity|].
  apply Forall_map. apply mapM_Forall2 in Ei. rewrite Forall_forall. intros it Hit.
  destruct (Forall2_In_r _ _ _ _ Ei Hit) as (i & Hib & Ef).
  destruct (Hi i Hib) as (it' & Ef' & Hs). congruence.
Qed.

Lemma loader_total (bs : nat) (ds : list (X * nat)) (e : nat) bts :
  loader_epoch bs ds e = Ok bts ->
  list_sum (map (fun bt => length (fst bt)) bts) = length ds /\
  list_sum (map (fun bt => length (snd bt)) bts) = length ds.
Proof.
  intros E. destruct bs as [|k]; [discriminate|].
  pose proof (Permutation_length (loader_labels k ds e bts E)) as Hp.
  rewrite length_concat, map_map, length_map in Hp.
  pose proof (loader_batches k ds e bts E) as H. split; [|exact Hp]. rewrite <- Hp. f_equal.
  apply map_ext_in. intros bt Hbt. destruct (Forall2_In_r _ _ _ _ H Hbt) as (b & _ & Hy & Hx).
  rewrite Hx. exact (Forall2_length Hy).
Qed.

(** Every image of a batch is the transform of a sample of the data set. *)
Lemma loader_inputs (bs : nat) (ds : list (X * nat)) (e : nat) bts :
  loader_epoch bs ds e = Ok bts ->
  Forall (fun bt => Forall (fun t => exists x y, In (x, y) ds /\ transform x = Ok t) (fst bt)) bts.
Proof.
  intros E. destruct bs as [|k]; [discriminate|].
  apply Forall_forall. intros [xs ys] Hbt. apply Forall_forall. intros t Ht.
  destruct (Forall2_In_r _ _ _ _ (loader_epoch_spec k ds e bts E) Hbt) as (b & _ & Hf).
  unfold fetch in Hf. inv_ok. apply stack_ok in Ha0. subst. cbn [fst] in Ht.
  apply in_map_iff in Ht as ([t' y] & <- & Hit). apply mapM_Forall2 in Ha.
  destruct (Forall2_In_r _ _ _ _ Ha Hit) as (i & _ & Hi). unfold fetch_one, getitem in Hi.
  destruct (nth_error ds i) as [[x y']|] eqn:Ex; [|discriminate]. cbn [bind] in Hi.
  destruct (transform x) as [t''|] eqn:Et; [|discriminate]. apply Ok_inj in Hi. injection Hi as E1 E2. subst.
  eexists x, _. split; [exact (nth_error_In _ _ Ex)|exact Et].
Qed.

(** C25: Fed by the validation loader, with [dataset_sizes['val']] the
    length of the validation set as in line 155, [train_model] reports a
    best validation accuracy between 0 and 1. *)
Theorem train_model_loader_acc {W Opt : Type} (forward : bool -> W -> list T -> list (list Q))
  (track : W -> list T -> W) (criterion : list (list Q) -> list nat -> Q) (opt_step : Q -> Opt -> W -> list T -> list nat -> result (Opt * W))
  (ldr : Transfer.phase -> nat -> list (list T * list nat)) (dsz : Transfer.phase -> nat)
  (val_ds : list (X * nat)) (w : W) (t : bool) (o : Opt) (sc : Transfer.steplr) (n : nat) st :
  (forall e, loader_epoch 4 val_ds e = Ok (ldr Transfer.Val e)) -> dsz Transfer.Val = length val_ds ->
  Transfer.train_model W Opt T forward track criterion opt_step ldr dsz w t o sc n = Ok st ->
  (0 <= Transfer.best_acc st <= 1)%Q.
Proof.
  intros Hl Hd. apply Transfer.train_model_frac. intros e. unfold Transfer.label_total.
  rewrite (proj2 (loader_total 4 val_ds e _ (Hl e))), Hd. lia.
Qed.

End Loader.

(** ** The transforms of [data_transforms] (lines 133-146), by shape *)

(** A PIL image as [pil_loader] returns it after [convert('RGB')]: three
    channels, [width] x [height]. *)
Record pil := mk_pil { width : nat; height : nat }.

(** [transforms.Resize(size)] with an [int] size: the shorter side
    becomes [size] and the longer one [int(size * long / short)]. *)
Definition resize (size : nat) (im : pil) : result pil :=
  if Nat.leb (width im) (height im) then
    if Nat.eqb (width im) 0 then Err ZeroDivisionError
    else Ok (mk_pil size (Nat.div (size * height im) (width im)))
  else if Nat.eqb (height im) 0 then Err ZeroDivisionError
  else Ok (mk_pil (Nat.div (size * width im) (height im)) size).

(** Python's [round(k / 2)], halves to the even neighbour. *)
Definition round_half (k : nat) : nat :=
  if Nat.even k then Nat.div k 2
  else if Nat.even (Nat.div k 2) then Nat.div k 2 else Nat.div k 2 + 1.

(** The box of [transforms.CenterCrop(size)]:
    [crop_top = int(round((image_height - size) / 2.0))] and likewise
    [crop_left], when the image is at least [size] in both directions
    ([None] when it has to be padded first). *)
Definition center_crop_box (size : nat) (im : pil) : option (nat * nat) :=
  if Nat.leb size (height im) && Nat.leb size (width im)
  then Some (round_half (height im - size), round_half (width im - size))
  else None.

(** [CenterCrop(size)] (after padding if needed) is [size] x [size]. *)
Definition center_crop (size : nat) (im : pil) : pil := mk_pil size size.

(** [data_transforms['val']]: [Resize(256)], [CenterCrop(224)],
    [ToTensor()] (3 x H x W) and [Normalize] (three channels): the shape
    of the tensor. *)
Definition val_transform (im : pil) : result (list nat) :=
  let* im := resize 256 im in
  let im := center_crop 224 im in
  Ok [3; height im; width im].

(** [data_transforms['train']]: [RandomResizedCrop(224)] resizes its
    random crop to 224 x 224, [RandomHorizontalFlip()] keeps the shape. *)
Definition train_transform (im : pil) : result (list nat) :=
  let im := mk_pil 224 224 in
  Ok [3; height im; width im].

Lemma round_half_le (k : nat) : round_half k <= k.
Proof.
  unfold round_half. pose proof (Nat.div_mod k 2 ltac:(lia)) as Hk.
  pose proof (Nat.mod_upper_bound k 2 ltac:(lia)) as Hr.
  destruct (Nat.even k) eqn:E; [lia|].
  assert (Ho : Nat.odd k = true) by (rewrite <- Nat.negb_even, E; reflexivity).
  apply Nat.odd_spec in Ho as [q ->].
  replace (Nat.div (2 * q + 1) 2) with q by (apply (Nat.div_unique _ _ _ 1); lia).
  destruct (Nat.even q); lia.
Qed.

(** C24: The validation crop never pads: for every image of positive
    size, [Resize(256)] makes the shorter side 256 and the longer one at
    least 256, and the box [CenterCrop(224)] computes with Python's
    [round] lies inside the resized image. *)
Theorem center_crop_inside (im : pil) :
  1 <= width im -> 1 <= height im ->
  exists r top left, resize 256 im = Ok r /\ center_crop_box 224 r = Some (top, left) /\
    Nat.min (width r) (height r) = 256 /\ top + 224 <= height r /\ left + 224 <= width r.
Proof.
  intros Hw Hh. unfold resize.
  destruct (Nat.leb_spec (width im) (height im)) as [Hle|Hgt].
  - rewrite (proj2 (Nat.eqb_neq _ _)) by lia. set (l := Nat.div (256 * height im) (width im)).
    assert (Hd : 256 <= l) by (apply Nat.div_le_lower_bound; nia).
    exists (mk_pil 256 l), (round_half (l - 224)), (round_half (256 - 224)).
    split; [reflexivity|]. unfold center_crop_box. cbn [width height].
    rewrite (proj2 (Nat.leb_le 224 l)), (proj2 (Nat.leb_le 224 256)) by lia.
    split; [reflexivity|]. pose proof (round_half_le (l - 224)). pose proof (round_half_le (256 - 224)).
    split; [lia|]. split; lia.
  - rewrite (proj2 (Nat.eqb_neq _ _)) by lia. set (l := Nat.div (256 * width im) (height im)).
    assert (Hd : 256 <= l) by (apply Nat.div_le_lower_bound; nia).
    exists (mk_pil l 256), (round_half (256 - 224)), (round_half (l - 224)).
    split; [reflexivity|]. unfold center_crop_box. cbn [width height].
    rewrite (proj2 (Nat.leb_le 224 l)), (proj2 (Nat.leb_le 224 256)) by lia.
    split; [reflexivity|]. pose proof (round_half_le (l - 224)). pose proof (round_half_le (256 - 224)).
    split; [lia|]. split; lia.
Qed.

Lemma val_transform_ok (im : pil) :
  1 <= width im -> 1 <= height im -> val_transform im = Ok [3; 224; 224].
Proof.
  intros Hw Hh. unfold val_transform, resize.
  destruct (Nat.leb (width im) (height im));
    [rewrite (proj2 (Nat.eqb_neq (width im) 0)) by lia|rewrite (proj2 (Nat.eqb_neq (height im) 0)) by lia];
    reflexivity.
Qed.

(** C23: With the notebook's validation transform, an epoch of
    [dataloaders['val']] never raises, whatever the sizes of the images
    (all positive) and the shuffle: every image becomes a 3 x 224 x 224
    tensor, so every batch stacks. *)
Theorem val_loader_ok {Smp : Sampler} (ds : list (pil * nat)) (e : nat) :
  Forall (fun p => 1 <= width (fst p) /\ 1 <= height (fst p)) ds ->
  exists bts, loader_epoch val_transform (fun sh => sh) 4 ds e = Ok bts.
Proof.
  intros H. apply (loader_epoch_ok _ _ 4 ds e [3; 224; 224]); [lia|].
  intros x y Hin. rewrite Forall_forall in H. destruct (H (x, y) Hin) as [Hw Hh].
  exists [3; 224; 224]. split; [exact (val_transform_ok x Hw Hh)|reflexivity].
Qed.

(** ** Witnesses *)

(** [shuffle=False]: the identity permutation. *)
#[local] Instance seq_sampler : Sampler := {| sample _ n := seq 0 n; sample_perm _ n := Permutation_refl _ |}.

Definition ds6 : list (Q * nat) := [(1#1, 0); (2#1, 1); (3#1, 0); (4#1, 1); (5#1, 0); (6#1, 1)].
Definition ident (x : Q) : result Q := Ok x.
Definition shape_img (x : Q) : list nat := [3; 224; 224].

Lemma loader_epoch_ok_witness :
  0 < 4 /\ (forall x y, In (x, y) ds6 -> exists t, ident x = Ok t /\ shape_img t = [3; 224; 224]) /\
  exists bts, loader_epoch ident shape_img 4 ds6 0 = Ok bts.
Proof.
  assert (H : forall x y, In (x, y) ds6 -> exists t, ident x = Ok t /\ shape_img t = [3; 224; 224])
    by (intros x y _; exists x; split; reflexivity).
  split; [lia|]. split; [exact H|]. exact (loader_epoch_ok ident shape_img 4 ds6 0 _ ltac:(lia) H).
Defined.


(** The validation loader of the witness, and a training loader. *)
Definition ldr6 (ph : Transfer.phase) (e : nat) : list (list Q * list nat) :=
  match ph with
  | Transfer.Train => Transfer.ldr Transfer.Train e
  | Transfer.Val => match loader_epoch ident shape_img 4 ds6 e with Ok b => b | Err _ => [] end
  end.
Definition dsz6 (ph : Transfer.phase) : nat := match ph with Transfer.Train => 244 | Transfer.Val => 6 end.

Lemma train_model_loader_acc_witness :
  (forall e, loader_epoch ident shape_img 4 ds6 e = Ok (ldr6 Transfer.Val e)) /\
  dsz6 Transfer.Val = length ds6 /\
  match Transfer.train_model Q unit Q Transfer.fwd Transfer.trk Transfer.crit Transfer.ostep ldr6 dsz6
          (1 # 2) true tt (Transfer.StepLR (1 # 1000) 7 (1 # 10)) 2 with
  | Ok st => (0 <= Transfer.best_acc st <= 1)%Q
  | Err _ => False
  end.
Proof.
  assert (Hl : forall e, loader_epoch ident shape_img 4 ds6 e = Ok (ldr6 Transfer.Val e))
    by (intros e; reflexivity).
  split; [exact Hl|]. split; [reflexivity|].
  destruct (Transfer.train_model _ _ _ _ _ _ _ _ _ _ _ _ _ _) eqn:E; [|vm_compute in E; discriminate].
  exact (train_model_loader_acc ident shape_img _ _ _ _ ldr6 dsz6 ds6 _ _ _ _ _ _ Hl eq_refl E).
Defined.

Lemma center_crop_inside_witness :
  1 <= width (mk_pil 500 375) /\ 1 <= height (mk_pil 500 375) /\
  exists r top left, resize 256 (mk_pil 500 375) = Ok r /\ center_crop_box 224 r = Some (top, left) /\
    Nat.min (width r) (height r) = 256 /\ top + 224 <= height r /\ left + 224 <= width r.
Proof.
  split; [cbn; lia|]. split; [cbn; lia|]. apply center_crop_inside; cbn; lia.
Defined.

Definition pil_ds : list (pil * nat) := [(mk_pil 500 375, 0); (mk_pil 1 1, 1); (mk_pil 333 500, 1)].

Lemma val_loader_ok_witness :
  Forall (fun p => 1 <= width (fst p) /\ 1 <= height (fst p)) pil_ds /\
  exists bts, loader_epoch (Smp := seq_sampler) val_transform (fun sh => sh) 4 pil_ds 0 = Ok bts.
Proof.
  assert (H : Forall (fun p => 1 <= width (fst p) /\ 1 <= height (fst p)) pil_ds)
    by (repeat constructor; cbn; lia).
  split; [exact H|]. exact (val_loader_ok (Smp := seq_sampler) pil_ds 0 H).
Defined.

End Data.
