(* ===== verification/Visualize.v ===== *)
(** * [visualize_model] of the transfer notebook

    [visualize_model(model, num_images=6)] (lines 353-377 of
    [src/unnamed/part_000]) records [model.training], puts the model in
    evaluation mode, and walks the validation loader: for every batch it
    computes [outputs = model(inputs)] and [_, preds = torch.max(outputs,
    1)], then for every image [j] of the batch it bumps [images_so_far],
    opens [plt.subplot(num_images // 2, 2, images_so_far)], titles it with
    [class_names[preds[j]]] and draws [imshow(inputs[j])] (the array of
    [Display.imshow_array]).  When [images_so_far == num_images] it
    restores the training mode and returns; after the last batch it
    restores the mode too.  An exception skips both restores.

    The model is a parameter ([model training inputs] is the output rows
    of the forward pass in that mode) and [class_names] is the list of
    class names.  The figure is modelled as the list of its panels.

    [visualize_model_refines] proves the loop, with its per-batch forward,
    its running counter and its early return, equal to a reference that
    draws the first [num_images] images of the flattened validation set,
    for an even [num_images]; [visualize_model_odd] shows the odd case
    raises [ValueError] and leaves the model in evaluation mode;
    [visualize_model_loader] composes the function with [Data]'s loader.

    The cell of lines 204-224 is here too: [imshow] as the array and the
    title it shows, and the display of the first training batch with the
    class names of its labels as title ([show_cell]), which raises
    [StopIteration] on an empty data set. *)

From S2P Require Import Prelude Fl Tensor Display Activations Transfer Data.
Import Fl Tensor Display Activations.

Module Visualize.

Local Open Scope nat_scope.

(** [plt.subplot(nrows, ncols, index)]: matplotlib raises [ValueError]
    unless the grid is non-empty and [1 <= index <= nrows * ncols]. *)
Definition subplot (nrows ncols index : nat) : result nat :=
  if Nat.eqb nrows 0 || Nat.eqb ncols 0 then Err ValueError
  else if Nat.leb 1 index && Nat.leb index (nrows * ncols) then Ok index
  else Err ValueError.

(** One axis of the figure: its subplot index, the class name of its
    title (['predicted: {}'.format(...)]) and the array [imshow] draws. *)
Record panel {C : Type} := mk_panel { index : nat; title : C; image : tensor3 }.
Arguments panel : clear implicits.
Arguments mk_panel {C} _ _ _.

(** [_, preds = torch.max(outputs, 1)]: the index of the first maximum
    of each row; a row without entries is a reduction over a dimension of
    size zero, which raises [IndexError]. *)
Definition max_preds (outputs : list (list Q)) : result (list nat) :=
  mapM (fun r => match r with [] => Err IndexError | _ => Ok (Transfer.argmax_row r) end) outputs.

(** [imshow(inp, title=None)] (lines 204-215): [plt.imshow] of the
    array of [Display.imshow_array] and, when [title is not None],
    [plt.title(title)]; the figure is that array and that title. *)
Record figure {T : Type} := mk_figure { fig_array : tensor3; fig_title : option T }.
Arguments figure : clear implicits.
Arguments mk_figure {T} _ _.

Definition imshow {T} (inp : tensor3) (title : option T) : result (figure T) :=
  let* a := imshow_array inp in
  Ok (mk_figure a title).

(** The cell of lines 217-224: [inputs, classes =
    next(iter(dataloaders['train']))] (the first batch of an epoch of
    the loader, [StopIteration] when there is none), [out =
    torchvision.utils.make_grid(inputs)] (library code, a parameter) and
    [imshow(out, title=[class_names[x] for x in classes])]. *)
Definition show_cell {Smp : Data.Sampler} {X C : Type} (transform : X -> result tensor3)
  (shape : tensor3 -> list nat) (make_grid : list tensor3 -> tensor3) (class_names : list C)
  (ds : list (X * nat)) (e : nat) : result (figure (list C)) :=
  let* bts := Data.loader_epoch transform shape 4 ds e in
  let* '(inputs, classes) := match bts with [] => Err StopIteration | bt :: _ => Ok bt end in
  let out := make_grid inputs in
  let* title := mapM (py_index class_names) classes in
  imshow out (Some title).

Section Visualize.

Context {C : Type}.
(** The forward pass [model(inputs)] in the given training mode. *)
Variable model : bool -> list tensor3 -> list (list Q).
Variable class_names : list C.

(** [for j in range(inputs.size(0))] from image [j], [m] images left. *)
Fixpoint show_images (num_images : nat) (inputs : list tensor3) (preds : list nat) (j m images_so_far : nat)
  : result (list (panel C) * nat * bool) :=
  match m with
  | O => Ok ([], images_so_far, false)
  | S m' =>
      let images_so_far := S images_so_far in
      let* ix := subplot (Nat.div num_images 2) 2 images_so_far in
      let* p := py_index preds j in
      let* name := py_index class_names p in
      let* x := py_index inputs j in
      let* a := imshow_array x in
      if Nat.eqb images_so_far num_images then Ok ([mk_panel ix name a], images_so_far, true)
      else
        let* '(ps, k, ret) := show_images num_images inputs preds (S j) m' images_so_far in
        Ok (mk_panel ix name a :: ps, k, ret)
  end.

(** The body of [for i, (inputs, labels) in enumerate(dataloaders['val'])]:
    the model runs in evaluation mode ([model.eval()] before the loop). *)
Definition show_batch (num_images : nat) (inputs : list tensor3) (images_so_far : nat)
  : result (list (panel C) * nat * bool) :=
  let outputs := model false inputs in
  let* preds := max_preds outputs in
  show_images num_images inputs preds 0 (length inputs) images_so_far.

Fixpoint show_batches (num_images : nat) (bts : list (list tensor3 * list nat)) (images_so_far : nat)
  : result (list (panel C) * nat * bool) :=
  match bts with
  | [] => Ok ([], images_so_far, false)
  | (inputs, _) :: bts' =>
      let* '(ps, k, ret) := show_batch num_images inputs images_so_far in
      if ret then Ok (ps, k, true)
      else
        let* '(ps', k', ret') := show_batches num_images bts' k in
        Ok (ps ++ ps', k', ret')
  end.

(** [visualize_model(model, num_images)] on a model in training mode
    [was_training]: the mode the model is left in and the panels drawn,
    or the exception.  Both normal exits run
    [model.train(mode=was_training)]; an exception leaves the model in
    the evaluation mode of [model.eval()]. *)
Definition visualize_model (num_images : nat) (was_training : bool) (bts : list (list tensor3 * list nat))
  : bool * result (list (panel C)) :=
  match show_batches num_images bts 0 with
  | Ok (ps, _, _) => (was_training, Ok ps)
  | Err e => (false, Err e)
  end.

(** ** The reference *)

(** The validation images in loader order, each with the prediction of
    its batch's forward pass. *)
Definition views (bts : list (list tensor3 * list nat)) : list (tensor3 * nat) :=
  concat (map (fun bt => combine (fst bt) (map Transfer.argmax_row (model false (fst bt)))) bts).

(** The panel of one image at subplot index [i]. *)
Definition panel_of (i : nat) (v : tensor3 * nat) : result (panel C) :=
  let* name := py_index class_names (snd v) in
  let* a := imshow_array (fst v) in
  Ok (mk_panel i name a).

(** The panels of images numbered from [S s]. *)
Fixpoint panels_from (s : nat) (vs : list (tensor3 * nat)) : result (list (panel C)) :=
  match vs with
  | [] => Ok []
  | v :: vs' => let* p := panel_of (S s) v in let* ps := panels_from (S s) vs' in Ok (p :: ps)
  end.

(** The loop of [visualize_model] over the flattened images. *)
Fixpoint show_list (num_images : nat) (vs : list (tensor3 * nat)) (images_so_far : nat)
  : result (list (panel C) * nat * bool) :=
  match vs with
  | [] => Ok ([], images_so_far, false)
  | v :: vs' =>
      let images_so_far := S images_so_far in
      let* ix := subplot (Nat.div num_images 2) 2 images_so_far in
      let* p := panel_of ix v in
      if Nat.eqb images_so_far num_images then Ok ([p], images_so_far, true)
      else
        let* '(ps, k, ret) := show_list num_images vs' images_so_far in
        Ok (p :: ps, k, ret)
  end.

(** The model gives one non-empty row of scores per image. *)
Definition model_ok (inputs : list tensor3) : Prop :=
  length (model false inputs) = length inputs /\ Forall (fun r => r <> []) (model false inputs).

(** ** Lemmas *)

Lemma subplot_ok (h index : nat) : 1 <= h -> 1 <= index <= 2 * h -> subplot h 2 index = Ok index.
Proof.
  intros Hh Hi. unfold subplot.
  replace (Nat.eqb h 0) with false by (symmetry; apply Nat.eqb_neq; lia).
  replace (Nat.leb 1 index && Nat.leb index (h * 2)) with true; [reflexivity|].
  symmetry. apply andb_true_iff. split; apply Nat.leb_le; lia.
Qed.

Lemma subplot_past (h index : nat) : 2 * h < index -> subplot h 2 index = Err ValueError.
Proof.
  intros Hi. unfold subplot. destruct (Nat.eqb h 0); [reflexivity|]. simpl.
  replace (Nat.leb index (h * 2)) with false by (symmetry; apply Nat.leb_gt; lia).
  rewrite andb_false_r. reflexivity.
Qed.

Lemma half_even (h : nat) : Nat.div (2 * h) 2 = h.
Proof. rewrite Nat.mul_comm. apply Nat.div_mul. lia. Qed.

Lemma half_odd (h : nat) : Nat.div (2 * h + 1) 2 = h.
Proof. symmetry. apply (Nat.div_unique _ 2 h 1); lia. Qed.

Lemma argmax_from_lt (r : list Q) (i : nat) (best : Q) (bi : nat) :
  bi < i -> Transfer.argmax_from r i best bi < i + length r.
Proof.
  revert i best bi. induction r as [|x r IH]; intros i best bi Hb; cbn [Transfer.argmax_from length]; [lia|].
  destruct (Qle_bool x best); [specialize (IH (S i) best bi)|specialize (IH (S i) x i)]; lia.
Qed.

(** [torch.max] picks a class the row has a score for. *)
Lemma argmax_row_lt (r : list Q) : r <> [] -> Transfer.argmax_row r < length r.
Proof.
  destruct r as [|x r]; [congruence|]. intros _. cbn [Transfer.argmax_row length].
  pose proof (argmax_from_lt r 1 x 0). lia.
Qed.

Lemma max_preds_ok (rows : list (list Q)) :
  Forall (fun r => r <> []) rows -> max_preds rows = Ok (map Transfer.argmax_row rows).
Proof.
  unfold max_preds. induction 1 as [|r rows Hr _ IH]; [reflexivity|].
  destruct r as [|q r]; [congruence|]. cbn [mapM map]. rewrite IH. reflexivity.
Qed.

Lemma py_index_some {A} (l : list A) (j : nat) (a : A) : nth_error l j = Some a -> py_index l j = Ok a.
Proof. unfold py_index. intros ->. reflexivity. Qed.

Lemma py_index_lt {A} (l : list A) (j : nat) : j < length l -> exists a, py_index l j = Ok a /\ In a l.
Proof.
  intros Hj. destruct (nth_error l j) as [a|] eqn:E; [|apply nth_error_None in E; lia].
  exists a. split; [exact (py_index_some l j a E)|exact (nth_error_In _ _ E)].
Qed.

(** [imshow] draws every three-channel image. *)
Lemma imshow_array_ok (x : tensor3) : length x = 3 -> exists a, imshow_array x = Ok a.
Proof. intros Hx. unfold imshow_array. rewrite Hx. eexists. reflexivity. Qed.

Lemma views_cons (bt : list tensor3 * list nat) bts :
  views (bt :: bts) = combine (fst bt) (map Transfer.argmax_row (model false (fst bt))) ++ views bts.
Proof. reflexivity. Qed.

(** The loop over [range(inputs.size(0))], indexing [inputs] and
    [preds], is the loop over their pairs. *)
Lemma show_images_list (n : nat) (inputs : list tensor3) (preds : list nat) (j m s : nat) :
  length preds = length inputs -> j + m <= length inputs ->
  show_images n inputs preds j m s = show_list n (firstn m (skipn j (combine inputs preds))) s.
Proof.
  intros Hl. revert j s. induction m as [|m IH]; intros j s Hm; [reflexivity|].
  destruct (nth_error inputs j) as [x|] eqn:Ex; [|apply nth_error_None in Ex; lia].
  destruct (nth_error preds j) as [p|] eqn:Ep; [|apply nth_error_None in Ep; lia].
  rewrite combine_skipn, (skipn_nth_error _ _ _ Ex), (skipn_nth_error _ _ _ Ep).
  cbn [show_images show_list combine firstn]. rewrite <- combine_skipn. unfold panel_of. cbn [fst snd].
  destruct (subplot _ 2 (S s)) as [ix|e]; cbn [bind]; [|reflexivity].
  rewrite (py_index_some _ _ _ Ep). cbn [bind].
  destruct (py_index class_names p) as [name|e]; cbn [bind]; [|reflexivity].
  rewrite (py_index_some _ _ _ Ex). cbn [bind].
  destruct (imshow_array x) as [a|e]; cbn [bind]; [|reflexivity].
  destruct (Nat.eqb (S s) n); [reflexivity|]. rewrite IH by lia. reflexivity.
Qed.

(** Running the loop over two lists in a row. *)
Lemma show_list_app (n : nat) (a b : list (tensor3 * nat)) (s : nat) :
  show_list n (a ++ b) s =
  let* '(ps, k, ret) := show_list n a s in
  if ret then Ok (ps, k, true)
  else let* '(ps', k', ret') := show_list n b k in Ok (ps ++ ps', k', ret').
Proof.
  revert s. induction a as [|v a IH]; intros s; cbn [app show_list].
  - cbn [bind]. destruct (show_list n b s) as [[[ps k] r]|e]; reflexivity.
  - destruct (subplot _ 2 (S s)) as [ix|e]; cbn [bind]; [|reflexivity].
    destruct (panel_of ix v) as [p|e]; cbn [bind]; [|reflexivity].
    destruct (Nat.eqb (S s) n); [reflexivity|]. rewrite IH.
    destruct (show_list n a (S s)) as [[[ps k] [|]]|e]; cbn [bind]; [reflexivity| |reflexivity].
    destruct (show_list n b k) as [[[ps' k'] r']|e]; reflexivity.
Qed.

(** The loop over the batches, each with its forward pass, is the loop
    over the flattened images. *)
Lemma show_batches_list (n : nat) (bts : list (list tensor3 * list nat)) (s : nat) :
  Forall (fun bt => model_ok (fst bt)) bts -> show_batches n bts s = show_list n (views bts) s.
Proof.
  intros H. revert s. induction H as [|[inputs labels] bts [Hl Hr] _ IH]; intros s; [reflexivity|].
  cbn [fst] in Hl, Hr. rewrite views_cons. cbn [show_batches fst]. unfold show_batch. rewrite (max_preds_ok _ Hr). cbn [bind].
  rewrite show_images_list by (rewrite ?length_map; lia). cbn [skipn].
  rewrite firstn_all2 by (rewrite length_combine, length_map; lia). rewrite show_list_app.
  destruct (show_list n _ s) as [[[ps k] [|]]|e]; cbn [bind]; [reflexivity| |reflexivity].
  rewrite IH. reflexivity.
Qed.

(** With [num_images = 2 h], every image up to [num_images] gets a cell
    of the grid: the loop draws the panels of the first [num_images - s]
    images and returns early when there are that many. *)
Lemma show_list_even (h : nat) (vs : list (tensor3 * nat)) (s : nat) :
  1 <= h -> s < 2 * h ->
  show_list (2 * h) vs s =
  let* ps := panels_from s (firstn (2 * h - s) vs) in
  Ok (ps, Nat.min (2 * h) (s + length vs), Nat.leb (2 * h) (s + length vs)).
Proof.
  intros Hh. revert s. induction vs as [|v vs IH]; intros s Hs; cbn [show_list length].
  - rewrite firstn_nil. cbn [panels_from bind]. rewrite Nat.add_0_r, Nat.min_r, (proj2 (Nat.leb_gt _ _)) by lia. reflexivity.
  - rewrite half_even, subplot_ok by lia. cbn [bind].
    replace (2 * h - s) with (S (2 * h - S s)) by lia. cbn [firstn panels_from].
    destruct (panel_of (S s) v) as [p|e]; cbn [bind]; [|reflexivity].
    destruct (Nat.eqb_spec (S s) (2 * h)) as [E|E].
    + replace (2 * h - S s) with 0 by lia. cbn.
      rewrite Nat.min_l, (proj2 (Nat.leb_le _ _)) by lia. rewrite E. reflexivity.
    + rewrite IH by lia. destruct (panels_from (S s) _) as [ps|e]; cbn [bind]; [|reflexivity].
      replace (S s + length vs) with (s + S (length vs)) by lia. reflexivity.
Qed.

(** With [num_images = 2 h + 1] the loop reaches image number
    [num_images], which has no cell in the [h] x 2 grid, unless an image
    before it raised. *)
Lemma show_list_odd (h : nat) (vs : list (tensor3 * nat)) (s : nat) (ps : list (panel C)) :
  s < 2 * h + 1 -> 2 * h + 1 <= s + length vs -> panels_from s (firstn (2 * h - s) vs) = Ok ps ->
  show_list (2 * h + 1) vs s = Err ValueError.
Proof.
  revert s ps. induction vs as [|v vs IH]; intros s ps Hs Hn Hp; cbn [length] in Hn; [lia|].
  cbn [show_list]. rewrite half_odd.
  destruct (Nat.eq_dec (S s) (2 * h + 1)) as [E|E]; [rewrite E, subplot_past by lia; reflexivity|].
  rewrite subplot_ok by lia. cbn [bind].
  replace (2 * h - s) with (S (2 * h - S s)) in Hp by lia. cbn [firstn panels_from] in Hp. inv_ok.
  rewrite Ha. cbn [bind]. rewrite (proj2 (Nat.eqb_neq _ _) E).
  rewrite (IH (S s) a0) by (assumption || lia). reflexivity.
Qed.

Lemma views_length (bts : list (list tensor3 * list nat)) :
  Forall (fun bt => model_ok (fst bt)) bts -> length (views bts) = list_sum (map (fun bt => length (fst bt)) bts).
Proof.
  induction 1 as [|bt bts [Hl _] _ IH]; [reflexivity|].
  rewrite views_cons, length_app, length_combine, length_map, Hl, IH, Nat.min_id. reflexivity.
Qed.

(** Every image of the reference has the property [P] of its batch's
    images and a prediction below [length class_names] when the model
    scores every image on at most that many classes. *)
Lemma views_facts (P : tensor3 -> Prop) (bts : list (list tensor3 * list nat)) :
  Forall (fun bt => Forall P (fst bt)) bts ->
  (forall inputs, Forall (fun r => 1 <= length r <= length class_names) (model false inputs)) ->
  Forall (fun v => P (fst v) /\ snd v < length class_names) (views bts).
Proof.
  intros H1 H2. apply Forall_forall. intros [x p] Hin. unfold views in Hin.
  apply in_concat in Hin as (l & Hl & Hin). apply in_map_iff in Hl as (bt & <- & Hbt).
  pose proof (in_combine_l _ _ _ _ Hin) as Hx. pose proof (in_combine_r _ _ _ _ Hin) as Hp.
  apply in_map_iff in Hp as (r & <- & Hr). rewrite Forall_forall in H1.
  specialize (H1 bt Hbt). specialize (H2 (fst bt)). rewrite Forall_forall in H1, H2.
  specialize (H2 r Hr). split; [exact (H1 x Hx)|].
  assert (Hne : r <> []) by (intros ->; cbn in H2; lia). pose proof (argmax_row_lt r Hne). cbn [snd]. lia.
Qed.

(** The reference draws every three-channel image whose prediction names
    a class: one panel per image, numbered from [S s], titled with a
    class name. *)
Lemma panels_from_ok (s : nat) (vs : list (tensor3 * nat)) :
  Forall (fun v => length (fst v) = 3 /\ snd v < length class_names) vs ->
  exists ps, panels_from s vs = Ok ps /\ map index ps = seq (S s) (length vs) /\
    Forall (fun p => In (title p) class_names) ps.
Proof.
  intros H. revert s. induction H as [|[x p] vs [Hx Hp] _ IH]; intros s; [exists []; auto|].
  cbn [fst snd] in Hx, Hp. destruct (py_index_lt class_names p Hp) as (name & En & Hin).
  destruct (imshow_array_ok x Hx) as [a Ea]. destruct (IH (S s)) as (ps & Eps & Hix & Hti).
  exists (mk_panel (S s) name a :: ps). cbn [panels_from]. unfold panel_of. cbn [fst snd].
  rewrite En. cbn [bind]. rewrite Ea. cbn [bind]. rewrite Eps. cbn [bind].
  split; [reflexivity|]. split; [cbn; rewrite Hix; reflexivity|]. constructor; [exact Hin|exact Hti].
Qed.

(** ** Theorems *)

(** C21: For an even [num_images >= 2] and a model that scores every
    image, [visualize_model], with its forward pass per batch, its running
    [images_so_far] and its early return, draws the panels the reference
    draws for the first [num_images] validation images in loader order,
    numbered from 1, and gives the model back in the training mode it
    had; when one of those images raises ([class_names[preds[j]]] out of
    range, or an image [imshow] cannot un-normalise), it raises the same
    exception and leaves the model in evaluation mode. *)
Theorem visualize_model_refines (h : nat) (was_training : bool) (bts : list (list tensor3 * list nat)) :
  1 <= h -> Forall (fun bt => model_ok (fst bt)) bts ->
  visualize_model (2 * h) was_training bts =
  match panels_from 0 (firstn (2 * h) (views bts)) with
  | Ok ps => (was_training, Ok ps)
  | Err e => (false, Err e)
  end.
Proof.
  intros Hh Hm. unfold visualize_model. rewrite show_batches_list, show_list_even by (assumption || lia).
  rewrite Nat.sub_0_r. destruct (panels_from 0 _); reflexivity.
Qed.

(** C22: With an odd [num_images] (the grid is [num_images // 2] x 2), at
    least [num_images] validation images and no exception before image
    number [num_images], [plt.subplot] raises [ValueError] at that image
    and the model is left in evaluation mode, whatever mode it had. *)
Theorem visualize_model_odd (n : nat) (was_training : bool) (bts : list (list tensor3 * list nat))
  (ps : list (panel C)) :
  Nat.odd n = true -> Forall (fun bt => model_ok (fst bt)) bts -> n <= length (views bts) ->
  panels_from 0 (firstn (n - 1) (views bts)) = Ok ps ->
  visualize_model n was_training bts = (false, Err ValueError).
Proof.
  intros Ho Hm Hn Hp. apply Nat.odd_spec in Ho as [h ->]. unfold visualize_model.
  rewrite show_batches_list by exact Hm. replace (2 * h + 1 - 1) with (2 * h - 0) in Hp by lia.
  rewrite (show_list_odd h _ 0 ps) by (assumption || lia). reflexivity.
Qed.

(** C26: [visualize_model(model)] with its default [num_images=6] on an
    epoch of the validation loader ([batch_size=4]), whatever the
    sampler's shuffle, when every image is a three-channel tensor and the
    model scores every image on between one and [len(class_names)]
    classes: it draws [min(6, len(dataset))] panels, numbered 1, 2, ...
    in order, each titled with a class name, and gives the model back in
    the training mode it had. *)
Theorem visualize_model_loader {Smp : Data.Sampler} {X : Type} (transform : X -> result tensor3)
  (shape : tensor3 -> list nat) (ds : list (X * nat)) (e : nat) bts (was_training : bool) :
  Data.loader_epoch transform shape 4 ds e = Ok bts ->
  (forall x y t, In (x, y) ds -> transform x = Ok t -> length t = 3) ->
  (forall inputs, length (model false inputs) = length inputs /\
     Forall (fun r => 1 <= length r <= length class_names) (model false inputs)) ->
  exists ps, visualize_model 6 was_training bts = (was_training, Ok ps) /\
    map index ps = seq 1 (Nat.min 6 (length ds)) /\ Forall (fun p => In (title p) class_names) ps.
Proof.
  intros E Ht Hmod.
  assert (Hm : Forall (fun bt => model_ok (fst bt)) bts).
  { apply Forall_forall. intros bt _. destruct (Hmod (fst bt)) as [Hl Hr]. split; [exact Hl|].
    refine (Forall_impl _ _ Hr). intros r Hr' ->. cbn in Hr'. lia. }
  assert (Hv : Forall (fun v => length (fst v) = 3 /\ snd v < length class_names) (views bts)).
  { refine (views_facts (fun t => length t = 3) bts _ (fun i => proj2 (Hmod i))).
    refine (Forall_impl _ _ (Data.loader_inputs transform shape 4 ds e bts E)).
    intros bt H. refine (Forall_impl _ _ H). intros t (x & y & Hin & Hx). exact (Ht x y t Hin Hx). }
  destruct (panels_from_ok 0 (firstn 6 (views bts)) (Forall_firstn _ _ _ Hv)) as (ps & Eps & Hix & Hti).
  exists ps. unfold visualize_model. rewrite show_batches_list by exact Hm.
  change 6 with (2 * 3). rewrite show_list_even by lia. rewrite Nat.sub_0_r. cbn [Nat.mul Nat.add] in *.
  rewrite Eps. cbn [bind]. split; [reflexivity|]. split; [|exact Hti].
  rewrite Hix, length_firstn, views_length, (proj1 (Data.loader_total transform shape 4 ds e bts E)) by exact Hm.
  reflexivity.
Qed.

End Visualize.

(** ** The batch display cell *)

Section ShowCell.

Context {Smp : Data.Sampler} {X C : Type}.
Variable transform : X -> result tensor3.
Variable shape : tensor3 -> list nat.
Variable make_grid : list tensor3 -> tensor3.
Variable class_names : list C.

(** On an empty training set the loader yields no batch and [next]
    raises [StopIteration]. *)
Lemma show_cell_empty (e : nat) : show_cell transform shape make_grid class_names [] e = Err StopIteration.
Proof.
  unfold show_cell, Data.loader_epoch. cbn [Nat.eqb length].
  rewrite (Permutation.Permutation_nil (Permutation.Permutation_sym (Data.sample_perm e 0))). reflexivity.
Qed.

(** On a non-empty training set whose images transform to tensors of one
    shape and whose labels are class indices, the cell shows the grid of
    the first batch titled with one class name per image of the batch. *)
Theorem show_cell_ok (ds : list (X * nat)) (e : nat) (sh : list nat) :
  ds <> [] -> (forall x y, In (x, y) ds -> exists t, transform x = Ok t /\ shape t = sh) ->
  Forall (fun p => snd p < length class_names) ds -> (forall ts, length (make_grid ts) = 3) ->
  exists fig titles, show_cell transform shape make_grid class_names ds e = Ok fig /\
    fig_title fig = Some titles /\ titles <> [] /\ Forall (fun c => In c class_names) titles.
Proof.
  intros Hne Ht Hy Hg.
  destruct (Data.loader_epoch_ok transform shape 4 ds e sh ltac:(lia) Ht) as [bts E].
  pose proof (Data.loader_batches transform shape 3 ds e bts E) as Hb.
  pose proof (Data.chunks_sizes 3 (Data.sample e (length ds))) as Hc.
  destruct bts as [|[inputs classes] bts].
  - apply Forall2_length in Hb. rewrite Data.length_chunks, (Permutation.Permutation_length (Data.sample_perm e _)),
      length_seq in Hb. destruct ds as [|p ds]; [congruence|]. cbn [length] in Hb.
    pose proof (Nat.div_le_lower_bound (S (length ds) + 3) 4 1 ltac:(lia) ltac:(lia)). lia.
  - inversion Hb as [|b bt cs bts' [Hl _] _ Eb]; subst. inversion Hc as [|? ? Hsz _]; subst.
    cbn [snd] in Hl. pose proof (Forall2_length Hl) as Hlen.
    assert (Hcls : Forall (fun y => y < length class_names) classes).
    { apply Forall_forall. intros y Hin. destruct (Forall2_In_r _ _ _ _ Hl Hin) as (i & _ & x & Hx).
      rewrite Forall_forall in Hy. exact (Hy (x, y) (nth_error_In _ _ Hx)). }
    destruct (mapM_ok (py_index class_names) classes) as [titles Et].
    { intros y Hin. rewrite Forall_forall in Hcls. destruct (py_index_lt class_names y (Hcls y Hin)) as (c & Ec & _).
      eauto. }
    destruct (imshow_array_ok (make_grid inputs) (Hg inputs)) as [a Ea].
    exists (mk_figure a (Some titles)), titles. unfold show_cell. rewrite E. cbn [bind].
    rewrite Et. cbn [bind]. unfold imshow. rewrite Ea. split; [reflexivity|]. split; [reflexivity|].
    apply mapM_Forall2 in Et. split.
    + intros ->. apply Forall2_length in Et. destruct classes; [cbn in *; lia|discriminate].
    + apply Forall_forall. intros c Hc'. destruct (Forall2_In_r _ _ _ _ Et Hc') as (y & _ & Ey).
      unfold py_index in Ey. destruct (nth_error class_names y) eqn:Ey'; [|discriminate].
      injection Ey as <-. exact (nth_error_In _ _ Ey').
Qed.

End ShowCell.

(** ** Witnesses *)

(** A grey three-channel pixel, a model that scores two classes and
    prefers the second, the class names [0; 1], two batches of seven
    images. *)
Definition px : tensor3 := [[[Fin (1 # 2)]]; [[Fin (1 # 2)]]; [[Fin (1 # 2)]]].
Definition vmodel (training : bool) (inputs : list tensor3) : list (list Q) := map (fun _ => [0; 1]%Q) inputs.
Definition vclasses : list nat := [0; 1].
Definition vbts : list (list tensor3 * list nat) := [([px; px; px; px], [0; 1; 0; 1]); ([px; px; px], [1; 1; 0])].

Lemma vbts_ok : Forall (fun bt => model_ok vmodel (fst bt)) vbts.
Proof. unfold model_ok. repeat (constructor || split || discriminate). Qed.

Lemma visualize_model_refines_witness :
  1 <= 3 /\ Forall (fun bt => model_ok vmodel (fst bt)) vbts /\
  visualize_model vmodel vclasses (2 * 3) true vbts =
  match panels_from vclasses 0 (firstn (2 * 3) (views vmodel vbts)) with
  | Ok ps => (true, Ok ps)
  | Err e => (false, Err e)
  end.
Proof.
  split; [lia|]. split; [exact vbts_ok|].
  exact (visualize_model_refines vmodel vclasses 3 true vbts ltac:(lia) vbts_ok).
Defined.

Lemma visualize_model_odd_witness :
  match panels_from vclasses 0 (firstn (5 - 1) (views vmodel vbts)) with
  | Ok ps => Nat.odd 5 = true /\ 5 <= length (views vmodel vbts) /\
      visualize_model vmodel vclasses 5 false vbts = (false, Err ValueError)
  | Err _ => False
  end.
Proof.
  destruct (panels_from vclasses 0 (firstn (5 - 1) (views vmodel vbts))) as [ps|e] eqn:E;
    [|vm_compute in E; discriminate].
  split; [reflexivity|]. split; [vm_compute; lia|].
  exact (visualize_model_odd vmodel vclasses 5 false vbts ps eq_refl vbts_ok ltac:(vm_compute; lia) E).
Defined.

(** [shuffle=False]: the identity permutation. *)
#[local] Instance id_sampler : Data.Sampler :=
  {| Data.sample _ n := seq 0 n; Data.sample_perm _ n := Permutation.Permutation_refl _ |}.

Definition vds : list (tensor3 * nat) := map (fun y => (px, y)) [0; 1; 1; 0; 1; 0; 0].
Definition vtransform (t : tensor3) : result tensor3 := Ok t.
Definition vshape (t : tensor3) : list nat := [length t].

Lemma visualize_model_loader_witness :
  match Data.loader_epoch vtransform vshape 4 vds 0 with
  | Ok bts =>
      (forall x y t, In (x, y) vds -> vtransform x = Ok t -> length t = 3) /\
      (forall inputs, length (vmodel false inputs) = length inputs /\
         Forall (fun r => 1 <= length r <= length vclasses) (vmodel false inputs)) /\
      exists ps, visualize_model vmodel vclasses 6 true bts = (true, Ok ps) /\
        map index ps = seq 1 (Nat.min 6 (length vds)) /\ Forall (fun p => In (title p) vclasses) ps
  | Err _ => False
  end.
Proof.
  destruct (Data.loader_epoch vtransform vshape 4 vds 0) as [bts|e] eqn:E; [|vm_compute in E; discriminate].
  assert (Ht : forall x y t, In (x, y) vds -> vtransform x = Ok t -> length t = 3).
  { intros x y t Hin Hx. injection Hx as <-. apply in_map_iff in Hin as (y' & Hxy & _).
    injection Hxy as <- _. reflexivity. }
  assert (Hm : forall inputs, length (vmodel false inputs) = length inputs /\
            Forall (fun r => 1 <= length r <= length vclasses) (vmodel false inputs)).
  { intros inputs. unfold vmodel. rewrite length_map. split; [reflexivity|].
    apply Forall_map. apply Forall_forall. intros _ _. cbn. lia. }
  split; [exact Ht|]. split; [exact Hm|].
  exact (visualize_model_loader vmodel vclasses vtransform vshape vds 0 bts true E Ht Hm).
Defined.

End Visualize.
