(* ===== verification/Finetune.v ===== *)
(** * Fine-tuning and the fixed feature extractor

    Lines 407-419 and 502-520 of the transfer-learning notebook
    ([src/unnamed/part_000]) build two models from a pretrained
    [resnet18].  [model_ft] gets a new classifier and is trained whole:
    [optim.SGD(model_ft.parameters(), ...)].  [model_conv] has every
    pretrained parameter frozen ([param.requires_grad = False]) before
    [fc] is replaced, and its optimizer only sees
    [model_conv.fc.parameters()].  Lines 284-296 are the training step
    that [train_model] (module [Transfer]) runs on either model.

    Tensors live in the store of [Optim], with their [requires_grad]
    flags beside them ([world]).  A model holds the indices of its
    parameters, so [model.fc = nn.Linear(...)] rebinds an attribute and
    leaves the old tensors in the store, as Python does.  The pretrained
    values, the random initialisation of [nn.Linear], the network's
    outputs and the gradient of the loss are variables of the sections:
    the theorems hold for all of them.

    The body's BatchNorm layers carry buffers ([running_mean],
    [running_var]) beside their parameters: tensors of the store that
    are not in [parameters()] and never require a gradient.  A forward
    pass in training mode ([model.train()], line 273) moves each of them
    by the momentum rule ([bn_track], the [track] of [Transfer]); the
    deep copies of [state_dict] (264, 312) and [load_state_dict] (322)
    take them with the weights, since the weights here are the whole
    store.  [conv_backbone_fixed] is therefore a statement about the
    body's parameters, and [conv_bn_moves] shows the buffers do move. *)

From S2P Require Import Prelude Optim Transfer.
Import Optim Transfer.

Module Finetune.

(** The tensors of the notebook and their [requires_grad] flags, index
    by index. *)
Record world := mk_world { tensors : store; flags : list bool }.

(** A torchvision [resnet18]: the parameters of the convolutional body,
    the buffers of its BatchNorm layers ([running_mean], [running_var]),
    [fc.in_features], and the tensors [fc.weight] and [fc.bias]. *)
Record resnet := mk_resnet {
  body : list nat; bn : list nat; in_features : nat; fc_weight : nat; fc_bias : nat }.

(** [model.parameters()]: [fc] is registered last. *)
Definition parameters (m : resnet) : list nat := body m ++ [fc_weight m; fc_bias m].

(** [model.fc.parameters()] *)
Definition fc_parameters (m : resnet) : list nat := [fc_weight m; fc_bias m].

(** [requires_grad] of tensor [i]. *)
Definition flag_of (w : world) (i : nat) : bool :=
  match nth_error (flags w) i with Some b => b | None => false end.

(** A new tensor without gradient: a parameter ([requires_grad=True])
    when [rg] is set, a registered buffer ([requires_grad=False], not in
    [parameters()]) otherwise. *)
Definition new_tensor (rg : bool) (w : world) (d : list Q) : world * nat :=
  (mk_world (tensors w ++ [mk_param d None]) (flags w ++ [rg]), length (tensors w)).

Fixpoint new_tensors (rg : bool) (w : world) (ds : list (list Q)) : world * list nat :=
  match ds with
  | [] => (w, [])
  | d :: ds' =>
      let '(w, i) := new_tensor rg w d in
      let '(w, ix) := new_tensors rg w ds' in (w, i :: ix)
  end.

(** [param.requires_grad = False] *)
Definition set_requires_grad (w : world) (i : nat) (b : bool) : result world :=
  match nth_error (flags w) i with
  | None => Err IndexError
  | Some _ => Ok (mk_world (tensors w) (replace_nth (flags w) i b))
  end.

(** [for param in model.parameters(): param.requires_grad = False] *)
Fixpoint freeze (idx : list nat) (w : world) : result world :=
  match idx with
  | [] => Ok w
  | i :: idx' => let* w := set_requires_grad w i false in freeze idx' w
  end.

(** [model.fc = nn.Linear(num_ftrs, 2)] *)
Definition set_fc (m : resnet) (l : nat * nat) : resnet :=
  mk_resnet (body m) (bn m) (in_features m) (fst l) (snd l).

Section Cells.

(** The weights [resnet18(pretrained=True)] downloads: the body's
    parameters, its BatchNorm running statistics, then [fc.weight] and
    [fc.bias]; and [fc.in_features] (512). *)
Variable pretrained_body : list (list Q).
Variable pretrained_bn : list (list Q).
Variable pretrained_fc : list Q * list Q.
Variable fc_in : nat.
(** The random initial weight and bias of [nn.Linear(in, out)]. *)
Variable linear_init : nat -> nat -> list Q * list Q.

(** [models.resnet18(pretrained=True)] *)
Definition resnet18 (w : world) : world * resnet :=
  let '(w, bs) := new_tensors false w pretrained_bn in
  let '(w, b) := new_tensors true w pretrained_body in
  let '(w, iw) := new_tensor true w (fst pretrained_fc) in
  let '(w, ib) := new_tensor true w (snd pretrained_fc) in
  (w, mk_resnet b bs fc_in iw ib).

(** [nn.Linear(in_f, out_f)]: two new tensors. *)
Definition Linear (w : world) (in_f out_f : nat) : world * (nat * nat) :=
  let '(wt, bs) := linear_init in_f out_f in
  let '(w, iw) := new_tensor true w wt in
  let '(w, ib) := new_tensor true w bs in
  (w, (iw, ib)).

(** Lines 407-419: [model_ft], [optimizer_ft] over all its parameters,
    and the scheduler ([.to(device)] and [criterion] change no tensor). *)
Definition finetune_cell (w : world) : world * resnet * optimizer * steplr :=
  let '(w, m) := resnet18 w in
  let num_ftrs := in_features m in
  let '(w, l) := Linear w num_ftrs 2 in
  let m := set_fc m l in
  (w, m, optim_SGD (parameters m) (1 # 1000)%Q (9 # 10)%Q, StepLR (1 # 1000)%Q 7 (1 # 10)%Q).

(** Lines 502-520: [model_conv] with its pretrained parameters frozen,
    a new [fc], and [optimizer_conv] over [fc] alone. *)
Definition conv_cell (w : world) : result (world * resnet * optimizer * steplr) :=
  let '(w, m) := resnet18 w in
  let* w := freeze (parameters m) w in
  let num_ftrs := in_features m in
  let '(w, l) := Linear w num_ftrs 2 in
  let m := set_fc m l in
  Ok (w, m, optim_SGD (fc_parameters m) (1 # 1000)%Q (9 # 10)%Q, StepLR (1 # 1000)%Q 7 (1 # 10)%Q).

End Cells.

(** [model(inputs)] in training or evaluation mode, for a network whose
    outputs depend on the values of the store. *)
Definition net_forward {Input : Type} (net : bool -> store -> list Input -> list (list Q))
  (training : bool) (w : world) (inputs : list Input) : list (list Q) :=
  net training (tensors w) inputs.

(** [momentum = 0.1] of [nn.BatchNorm2d]: a running statistic [r] after a
    batch whose own statistic is [b]. *)
Definition bn_momentum (r b : list Q) : list Q := map2 (fun ri bi => (9 # 10) * ri + (1 # 10) * bi)%Q r b.

(** The BatchNorm buffer [j] moved towards the statistic of the batch,
    computed on the store [s0] the forward pass reads. *)
Definition bn_update {Input : Type} (batch_stat : store -> list Input -> nat -> list Q) (s0 : store)
  (inputs : list Input) (s : store) (j : nat) : store :=
  match nth_error s j with
  | Some p => replace_nth s j (mk_param (bn_momentum (data p) (batch_stat s0 inputs j)) (grad p))
  | None => s
  end.

(** What [model(inputs)] in training mode ([model.train()], line 273)
    leaves: every BatchNorm layer of the body updates its running
    statistics in place, [requires_grad] or not. *)
Definition bn_track {Input : Type} (batch_stat : store -> list Input -> nat -> list Q) (m : resnet)
  (w : world) (inputs : list Input) : world :=
  mk_world (fold_left (bn_update batch_stat (tensors w) inputs) (bn m) (tensors w)) (flags w).

(** The invariant of training [model_conv], relative to the world [w1]
    the cell built: the flags and the pretrained tensors stay, and the
    optimizer holds [fc] alone. *)
Definition conv_inv (w1 : world) (m : resnet) (o : optimizer) (w : world) : Prop :=
  flags w = flags w1 /\ length (tensors w) = length (tensors w1) /\ opt_params o = fc_parameters m /\
  forall j, In j (body m) -> nth_error (tensors w) j = nth_error (tensors w1) j.

(** ** Building the models *)

(** Every tensor has its flag. *)
Definition wf_world (w : world) : Prop := length (flags w) = length (tensors w).

(** A fresh tensor for each of the values, at the end of the store. *)
Lemma new_tensors_spec (rg : bool) (w : world) (ds : list (list Q)) :
  wf_world w ->
  tensors (fst (new_tensors rg w ds)) = tensors w ++ map (fun d => mk_param d None) ds /\
  flags (fst (new_tensors rg w ds)) = flags w ++ repeat rg (length ds) /\
  snd (new_tensors rg w ds) = seq (length (tensors w)) (length ds).
Proof.
  revert w. induction ds as [|d ds IH]; intros w Hw; cbn [new_tensors new_tensor].
  - rewrite !app_nil_r. auto.
  - destruct (IH (mk_world (tensors w ++ [mk_param d None]) (flags w ++ [rg]))) as (H1 & H2 & H3).
    { unfold wf_world in *. cbn. rewrite !length_app. cbn. lia. }
    destruct (new_tensors rg _ ds) as [w' ix]. cbn [fst snd tensors flags] in *.
    rewrite H1, H2, H3, <- !app_assoc, length_app, Nat.add_1_r. auto.
Qed.

Lemma freeze_spec (idx : list nat) (w w' : world) :
  freeze idx w = Ok w' ->
  tensors w' = tensors w /\ length (flags w') = length (flags w) /\
  (forall j, In j idx -> nth_error (flags w') j = Some false) /\
  (forall j, ~ In j idx -> nth_error (flags w') j = nth_error (flags w) j).
Proof.
  revert w. induction idx as [|i idx IH]; intros w E; cbn [freeze] in E; inv_ok; [easy|].
  unfold set_requires_grad in Ha. destruct (nth_error (flags w) i) eqn:Ei; [|discriminate].
  assert (Hi : (i < length (flags w))%nat) by (apply nth_error_Some; congruence).
  inv_ok. destruct (IH _ E) as (H1 & H2 & H3 & H4). cbn [tensors flags] in *.
  rewrite length_replace_nth in H2 by exact Hi. split; [exact H1|]. split; [exact H2|]. split.
  - intros j [->|Hj]; [|auto]. destruct (in_dec Nat.eq_dec j idx) as [Hj|Hj]; [auto|].
    rewrite H4, nth_error_replace_nth, Nat.eqb_refl by assumption. reflexivity.
  - intros j Hj. cbn [In] in Hj. rewrite H4 by tauto. rewrite nth_error_replace_nth by exact Hi.
    replace (j =? i) with false by (symmetry; apply Nat.eqb_neq; intros ->; tauto). reflexivity.
Qed.

Lemma freeze_ok (idx : list nat) (w : world) :
  Forall (fun i => i < length (flags w))%nat idx -> exists w', freeze idx w = Ok w'.
Proof.
  revert w. induction idx as [|i idx IH]; intros w H; cbn [freeze]; [eauto|].
  inversion H as [|? ? Hi Hr]; subst. unfold set_requires_grad.
  destruct (nth_error (flags w) i) eqn:Ei; [|apply nth_error_None in Ei; lia]. cbn [bind].
  apply IH. cbn [flags]. rewrite length_replace_nth by exact Hi. exact Hr.
Qed.

Section CellSpecs.

Variable pb : list (list Q).
Variable pbn : list (list Q).
Variable pfc : list Q * list Q.
Variable fc_in : nat.
Variable li : nat -> nat -> list Q * list Q.

(** The store after the BatchNorm buffers [resnet18] registers first. *)
Definition with_bn (w : world) : world := fst (new_tensors false w pbn).

Lemma with_bn_spec (w : world) :
  wf_world w ->
  tensors (with_bn w) = tensors w ++ map (fun d => mk_param d None) pbn /\
  flags (with_bn w) = flags w ++ repeat false (length pbn).
Proof. intros Hw. unfold with_bn. destruct (new_tensors_spec false w pbn Hw) as (H1 & H2 & _). auto. Qed.

Lemma with_bn_wf (w : world) : wf_world w -> wf_world (with_bn w).
Proof.
  intros Hw. unfold wf_world, with_bn. destruct (new_tensors_spec false w pbn Hw) as (H1 & H2 & _).
  rewrite H1, H2, !length_app, repeat_length, length_map, Hw. reflexivity.
Qed.

Lemma resnet18_spec (w : world) :
  wf_world w ->
  let n := length (tensors (with_bn w)) in let k := length pb in
  resnet18 pb pbn pfc fc_in w =
  (mk_world (tensors (with_bn w) ++ map (fun d => mk_param d None) pb ++
             [mk_param (fst pfc) None; mk_param (snd pfc) None])
            (flags (with_bn w) ++ repeat true (k + 2)),
   mk_resnet (seq n k) (seq (length (tensors w)) (length pbn)) fc_in (n + k) (S (n + k))).
Proof.
  intros Hw n k. pose proof (with_bn_wf w Hw) as Hw'. unfold resnet18.
  destruct (new_tensors_spec false w pbn Hw) as (_ & _ & Hb). unfold n, with_bn in *.
  destruct (new_tensors false w pbn) as [w' bs]. cbn [fst snd] in *. subst bs.
  destruct (new_tensors_spec true w' pb Hw') as (H1 & H2 & H3).
  destruct (new_tensors true w' pb) as [[t f] b]. cbn [fst snd tensors flags] in *. subst.
  cbn. rewrite !length_app, length_map, <- !app_assoc, repeat_app. cbn.
  repeat f_equal; lia.
Qed.

Lemma Linear_spec (w : world) (a b : nat) :
  Linear li w a b =
  (mk_world (tensors w ++ [mk_param (fst (li a b)) None; mk_param (snd (li a b)) None])
            (flags w ++ [true; true]),
   (length (tensors w), S (length (tensors w)))).
Proof.
  unfold Linear. destruct (li a b) as [wt bs]. cbn.
  rewrite <- !app_assoc, length_app, Nat.add_1_r. reflexivity.
Qed.

(** The [k]-th of the tensors appended after a store. *)
Lemma nth_error_appended (T0 rest : store) (ds : list (list Q)) (k : nat) (d : list Q) :
  nth_error ds k = Some d ->
  nth_error (T0 ++ map (fun d => mk_param d None) ds ++ rest) (length T0 + k) = Some (mk_param d None).
Proof.
  intros Hd. rewrite nth_error_app2 by lia. replace (length T0 + k - length T0)%nat with k by lia.
  rewrite nth_error_app1 by (rewrite length_map; apply nth_error_Some; congruence).
  rewrite nth_error_map, Hd. reflexivity.
Qed.

(** The tensors appended with [requires_grad] set have their flag. *)
Lemma flag_of_appended (T : store) (fl : list bool) (m j : nat) :
  (length fl <= j < length fl + m + 2)%nat -> flag_of (mk_world T (fl ++ repeat true m ++ [true; true])) j = true.
Proof.
  intros Hj. unfold flag_of. cbn [flags]. rewrite nth_error_app2 by lia.
  destruct (nth_error (repeat true m ++ [true; true]) (j - length fl)) as [b|] eqn:Eb.
  - apply nth_error_In in Eb. apply in_app_iff in Eb as [Eb|[<-|[<-|[]]]]; [|reflexivity..].
    apply repeat_spec in Eb. exact Eb.
  - apply nth_error_None in Eb. rewrite length_app, repeat_length in Eb. cbn in Eb. lia.
Qed.

Lemma parameters_range (n k : nat) :
  forall j, In j (seq n k ++ [n + k; S (n + k)]) <-> (n <= j < n + k + 2)%nat.
Proof. intros j. rewrite in_app_iff, in_seq. cbn [In]. lia. Qed.

(** The cell of lines 502-520 never raises: the pretrained tensors and
    the old [fc] are frozen, the new [fc] is appended with
    [requires_grad] set, and the optimizer holds the new [fc] alone. *)
Lemma conv_cell_spec (w : world) :
  wf_world w ->
  let n := length (tensors (with_bn w)) in let k := length pb in
  exists F, conv_cell pb pbn pfc fc_in li w =
    Ok (mk_world (tensors (with_bn w) ++ map (fun d => mk_param d None) pb ++
                  [mk_param (fst pfc) None; mk_param (snd pfc) None;
                   mk_param (fst (li fc_in 2)) None; mk_param (snd (li fc_in 2)) None])
                 (F ++ [true; true]),
        mk_resnet (seq n k) (seq (length (tensors w)) (length pbn)) fc_in (n + k + 2) (n + k + 3),
        optim_SGD [n + k + 2; n + k + 3] (1 # 1000)%Q (9 # 10)%Q, StepLR (1 # 1000)%Q 7 (1 # 10)%Q) /\
    length F = (n + k + 2)%nat /\ (forall j, j < n -> nth_error F j = nth_error (flags (with_bn w)) j)%nat /\
    (forall j, n <= j < n + k + 2 -> nth_error F j = Some false)%nat.
Proof.
  intros Hw. cbv zeta. unfold conv_cell. rewrite (resnet18_spec w Hw). cbv beta iota zeta.
  pose proof (with_bn_wf w Hw) as Hw'. set (B := seq (length (tensors w)) (length pbn)). set (w' := with_bn w) in *.
  set (n := length (tensors w')). set (k := length pb). set (w1 := mk_world _ _).
  assert (L1 : length (flags w1) = (n + k + 2)%nat).
  { cbn. rewrite length_app, repeat_length, Hw'. lia. }
  assert (R : forall j, In j (parameters (mk_resnet (seq n k) B fc_in (n + k) (S (n + k)))) <->
                        (n <= j < n + k + 2)%nat) by (intros j; apply parameters_range).
  destruct (freeze_ok (parameters (mk_resnet (seq n k) B fc_in (n + k) (S (n + k)))) w1) as [w2 E2].
  { apply Forall_forall. intros j Hj. apply R in Hj. lia. }
  rewrite E2. cbn [bind]. destruct (freeze_spec _ _ _ E2) as (T2 & L2 & F2 & G2).
  cbn [in_features]. rewrite Linear_spec, T2. exists (flags w2). split; [|split; [|split]].
  - cbn [tensors w1]. rewrite !length_app, length_map. cbn [length]. rewrite <- !app_assoc.
    cbn [app]. unfold set_fc, fc_parameters, n, k. cbn [fst snd fc_weight fc_bias body in_features].
    replace (length (tensors w') + (length pb + 2))%nat with (length (tensors w') + length pb + 2)%nat by lia.
    replace (S (length (tensors w') + length pb + 2)) with (length (tensors w') + length pb + 3)%nat by lia.
    reflexivity.
  - lia.
  - intros j Hj. rewrite G2 by (rewrite R; lia). cbn. rewrite nth_error_app1 by (rewrite Hw'; exact Hj). reflexivity.
  - intros j Hj. apply F2, R. exact Hj.
Qed.

(** The cell of lines 407-419: the pretrained tensors, the old [fc] and
    the new one all require a gradient, and the optimizer holds the
    pretrained tensors and the new [fc]. *)
Lemma finetune_cell_spec (w : world) :
  wf_world w ->
  let n := length (tensors (with_bn w)) in let k := length pb in
  finetune_cell pb pbn pfc fc_in li w =
    (mk_world (tensors (with_bn w) ++ map (fun d => mk_param d None) pb ++
               [mk_param (fst pfc) None; mk_param (snd pfc) None;
                mk_param (fst (li fc_in 2)) None; mk_param (snd (li fc_in 2)) None])
              (flags (with_bn w) ++ repeat true (k + 2) ++ [true; true]),
     mk_resnet (seq n k) (seq (length (tensors w)) (length pbn)) fc_in (n + k + 2) (n + k + 3),
     optim_SGD (seq n k ++ [n + k + 2; n + k + 3]) (1 # 1000)%Q (9 # 10)%Q, StepLR (1 # 1000)%Q 7 (1 # 10)%Q).
Proof.
  intros Hw. cbv zeta. unfold finetune_cell. rewrite (resnet18_spec w Hw). cbv beta iota zeta.
  pose proof (with_bn_wf w Hw) as Hw'. set (B := seq (length (tensors w)) (length pbn)). set (w' := with_bn w) in *.
  cbn [in_features]. rewrite Linear_spec. cbn [tensors flags].
  rewrite !length_app, length_map, <- !app_assoc. cbn [length app].
  unfold set_fc, parameters. cbn [fst snd fc_weight fc_bias body in_features].
  replace (length (tensors w') + (length pb + 2))%nat with (length (tensors w') + length pb + 2)%nat by lia.
  replace (S (length (tensors w') + length pb + 2)) with (length (tensors w') + length pb + 3)%nat by lia.
  reflexivity.
Qed.

End CellSpecs.

(** ** The training step (lines 284-296) *)

(** The scheduler's learning rate, written into the optimizer's
    parameter group. *)
Definition set_lr (lr : Q) (o : optimizer) : optimizer :=
  match o with
  | SGD o => SGD (mk_sgd (sgd_params o) lr (sgd_momentum o) (sgd_buf o))
  | RMSprop o => RMSprop (mk_rmsprop (rms_params o) lr (rms_alpha o) (rms_eps o) (rms_square_avg o))
  | Adam o => Adam (mk_adam (adam_params o) lr (adam_beta1 o) (adam_beta2 o) (adam_eps o) (adam_state o))
  end.

(** [loss.backward()] into the model's parameters: AccumulateGrad for
    each one whose [requires_grad] is set; a frozen parameter is not in
    the graph and keeps its gradient. *)
Fixpoint backward_params (g : nat -> list Q) (idx : list nat) (w : world) : result world :=
  match idx with
  | [] => Ok w
  | i :: idx' =>
      match nth_error (flags w) i with
      | None => Err IndexError
      | Some false => backward_params g idx' w
      | Some true =>
          let* s := update (tensors w) i (acc (g i)) in
          backward_params g idx' (mk_world s (flags w))
      end
  end.

Section Step.

Variable sqrt : Q -> Q.
Variable Input : Type.
(** The gradient of [criterion(model(inputs), labels)] with respect to
    tensor [i], at the values of the store. *)
Variable loss_grad : store -> list Input -> list nat -> nat -> list Q.

(** One batch of the training phase: [optimizer.zero_grad()], the
    forward pass and the loss, [loss.backward()] (which raises when no
    tensor of the graph requires a gradient), [optimizer.step()]. *)
Definition train_step (m : resnet) (lr : Q) (o : optimizer) (w : world)
  (inputs : list Input) (labels : list nat) : result (optimizer * world) :=
  let o := set_lr lr o in
  let* s := zero_grad o (tensors w) in
  let w := mk_world s (flags w) in
  let g := loss_grad s inputs labels in
  let* w := if existsb (flag_of w) (parameters m) then backward_params g (parameters m) w
            else Err NoGrad in
  let* '(o, s) := step sqrt o (tensors w) in
  Ok (o, mk_world s (flags w)).

End Step.

(** ** What a training step changes *)

Lemma set_lr_params (lr : Q) (o : optimizer) : opt_params (set_lr lr o) = opt_params o.
Proof. destruct o; reflexivity. Qed.

(** [loss.backward()] leaves the flags, and every tensor that does not
    require a gradient, as they were. *)
Lemma backward_params_frame (g : nat -> list Q) (idx : list nat) (w w' : world) :
  backward_params g idx w = Ok w' ->
  flags w' = flags w /\ length (tensors w') = length (tensors w) /\
  forall j, flag_of w j = false -> nth_error (tensors w') j = nth_error (tensors w) j.
Proof.
  revert w. induction idx as [|i idx IH]; intros w E; cbn [backward_params] in E; [inv_ok; auto|].
  destruct (nth_error (flags w) i) as [[|]|] eqn:Ei; [|exact (IH _ E)|discriminate].
  inv_ok. destruct (IH _ E) as (F1 & L1 & N1). cbn [flags tensors] in *.
  destruct (update_nth _ _ _ 0 _ Ha) as [L0 _]. split; [exact F1|]. split; [congruence|].
  intros j Hj. rewrite N1 by exact Hj. destruct (update_nth _ _ _ j _ Ha) as [_ ->].
  destruct (Nat.eqb_spec j i) as [->|]; [|reflexivity]. unfold flag_of in Hj. rewrite Ei in Hj. discriminate.
Qed.

Lemma backward_params_ok (g : nat -> list Q) (idx : list nat) (w : world) :
  wf_world w -> Forall (fun i => i < length (tensors w))%nat idx ->
  exists w', backward_params g idx w = Ok w'.
Proof.
  revert w. induction idx as [|i idx IH]; intros w Hw H; cbn [backward_params]; [eauto|].
  inversion H as [|? ? Hi Hr]; subst.
  destruct (nth_error (flags w) i) as [[|]|] eqn:Ei;
    [|exact (IH _ Hw Hr)|apply nth_error_None in Ei; unfold wf_world in Hw; lia].
  destruct (update_ok (tensors w) i (acc (g i)) Hi) as [s1 E1]. rewrite E1. cbn [bind].
  destruct (update_nth _ _ _ 0 _ E1) as [L1 _].
  apply IH; [unfold wf_world in *; cbn; congruence|cbn; rewrite L1; exact Hr].
Qed.

(** [loss.backward()] touches only the model's parameters. *)
Lemma backward_params_off (g : nat -> list Q) (idx : list nat) (w w' : world) :
  backward_params g idx w = Ok w' ->
  forall j, ~ In j idx -> nth_error (tensors w') j = nth_error (tensors w) j.
Proof.
  revert w. induction idx as [|i idx IH]; intros w E j Hj; cbn [backward_params] in E; [inv_ok; auto|].
  cbn [In] in Hj. destruct (nth_error (flags w) i) as [[|]|]; [|exact (IH _ E j ltac:(tauto))|discriminate].
  inv_ok. rewrite (IH _ E j) by tauto. cbn [tensors]. destruct (update_nth _ _ _ j _ Ha) as [_ ->].
  replace (j =? i) with false by (symmetry; apply Nat.eqb_neq; intros ->; tauto). reflexivity.
Qed.

(** Each parameter that requires a gradient receives its own once. *)
Lemma backward_params_at (g : nat -> list Q) (idx : list nat) (w w' : world) (j : nat) (p : param) :
  NoDup idx -> In j idx -> flag_of w j = true -> nth_error (tensors w) j = Some p ->
  backward_params g idx w = Ok w' -> nth_error (tensors w') j = Some (acc (g j) p).
Proof.
  revert w. induction idx as [|i idx IH]; intros w Hnd Hj Hf Ep E; [destruct Hj|].
  inversion Hnd as [|? ? Hni Hnd']; subst. cbn [backward_params] in E.
  destruct (Nat.eq_dec j i) as [->|Hji].
  - unfold flag_of in Hf. destruct (nth_error (flags w) i) as [[|]|]; try discriminate.
    inv_ok. rewrite (backward_params_off _ _ _ _ E i Hni). cbn [tensors].
    destruct (update_nth _ _ _ i _ Ha) as [_ ->]. rewrite Nat.eqb_refl, Ep. reflexivity.
  - destruct Hj as [->|Hj]; [contradiction|].
    destruct (nth_error (flags w) i) as [[|]|]; [|exact (IH _ Hnd' Hj Hf Ep E)|discriminate].
    inv_ok. refine (IH (mk_world a (flags w)) Hnd' Hj Hf _ E). cbn [tensors].
    destruct (update_nth _ _ _ j _ Ha) as [_ ->].
    replace (j =? i) with false by (symmetry; apply Nat.eqb_neq; exact Hji). exact Ep.
Qed.

Section StepLemmas.

Variable sqrt : Q -> Q.
Variable Input : Type.
Variable loss_grad : store -> list Input -> list nat -> nat -> list Q.

(** A training step changes no flag, keeps the optimizer's parameters,
    and leaves each tensor that is neither the optimizer's nor requires
    a gradient as it was. *)
Lemma train_step_frame (m : resnet) (lr : Q) (o o' : optimizer) (w w' : world) i l :
  train_step sqrt Input loss_grad m lr o w i l = Ok (o', w') ->
  flags w' = flags w /\ opt_params o' = opt_params o /\ length (tensors w') = length (tensors w) /\
  forall j, ~ In j (opt_params o) -> flag_of w j = false -> nth_error (tensors w') j = nth_error (tensors w) j.
Proof.
  unfold train_step, zero_grad. intros E. inv_okp.
  destruct (zero_grad_all_frame _ _ _ Ha) as [L1 N1]. rewrite set_lr_params in N1.
  destruct (existsb _ _); [|discriminate].
  destruct (backward_params_frame _ _ _ _ Ha0) as (F2 & L2 & N2). cbn [flags tensors] in *.
  destruct (step_frame _ _ _ _ _ Ha1) as (P3 & L3 & N3). rewrite set_lr_params in P3, N3.
  split; [exact F2|]. split; [exact P3|]. split; [congruence|].
  intros j Hj Hf. rewrite N3, N2, N1 by (unfold flag_of in *; cbn; rewrite ?F2; auto). reflexivity.
Qed.

(** A training step raises only on a tensor out of range, or when no
    parameter of the model requires a gradient. *)
Lemma train_step_ok (m : resnet) (lr : Q) (o : optimizer) (w : world) i l :
  wf_world w -> Forall (fun j => j < length (tensors w))%nat (parameters m) ->
  Forall (fun j => j < length (tensors w))%nat (opt_params o) ->
  existsb (flag_of w) (parameters m) = true ->
  exists r, train_step sqrt Input loss_grad m lr o w i l = Ok r.
Proof.
  intros Hw Hp Ho Hx. unfold train_step, zero_grad.
  rewrite <- (set_lr_params lr o) in Ho.
  destruct (zero_grad_all_ok _ _ Ho) as [s1 E1]. rewrite E1. cbn [bind].
  destruct (zero_grad_all_frame _ _ _ E1) as [L1 _].
  assert (Hx1 : existsb (flag_of (mk_world s1 (flags w))) (parameters m) = true) by exact Hx.
  rewrite Hx1.
  destruct (backward_params_ok (loss_grad s1 i l) (parameters m) (mk_world s1 (flags w))) as [w2 E2].
  { unfold wf_world in *. cbn. congruence. }
  { cbn. rewrite L1. exact Hp. }
  rewrite E2. cbn [bind]. destruct (backward_params_frame _ _ _ _ E2) as (_ & L2 & _).
  destruct (step_ok sqrt (set_lr lr o) (tensors w2)) as [[o3 s3] E3].
  { rewrite L2. cbn. rewrite L1. exact Ho. }
  rewrite E3. eexists; reflexivity.
Qed.

End StepLemmas.


(** ** The BatchNorm buffers in training mode *)

Section Track.

Variable Input : Type.
Variable batch_stat : store -> list Input -> nat -> list Q.
Variable s0 : store.
Variable inputs : list Input.

Lemma bn_update_length (s : store) (j : nat) : length (bn_update batch_stat s0 inputs s j) = length s.
Proof.
  unfold bn_update. destruct (nth_error s j) eqn:E; [|reflexivity].
  apply length_replace_nth, nth_error_Some. congruence.
Qed.

Lemma bn_update_other (s : store) (j k : nat) :
  k <> j -> nth_error (bn_update batch_stat s0 inputs s j) k = nth_error s k.
Proof.
  intros Hk. unfold bn_update. destruct (nth_error s j) eqn:E; [|reflexivity].
  rewrite nth_error_replace_nth by (apply nth_error_Some; congruence).
  replace (k =? j) with false by (symmetry; apply Nat.eqb_neq; exact Hk). reflexivity.
Qed.

(** The update of the buffers [idx] leaves every other tensor. *)
Lemma bn_fold_frame (idx : list nat) (s : store) :
  length (fold_left (bn_update batch_stat s0 inputs) idx s) = length s /\
  forall k, ~ In k idx -> nth_error (fold_left (bn_update batch_stat s0 inputs) idx s) k = nth_error s k.
Proof.
  revert s. induction idx as [|j idx IH]; intros s; cbn [fold_left]; [split; reflexivity|].
  destruct (IH (bn_update batch_stat s0 inputs s j)) as [L N]. split; [rewrite L; apply bn_update_length|].
  intros k Hk. cbn [In] in Hk. rewrite N by tauto. apply bn_update_other. intros ->. tauto.
Qed.

(** Each buffer of [idx] moves once, by the momentum rule. *)
Lemma bn_fold_at (idx : list nat) (s : store) (j : nat) (p : param) :
  NoDup idx -> In j idx -> nth_error s j = Some p ->
  nth_error (fold_left (bn_update batch_stat s0 inputs) idx s) j =
  Some (mk_param (bn_momentum (data p) (batch_stat s0 inputs j)) (grad p)).
Proof.
  revert s. induction idx as [|i idx IH]; intros s Hnd Hj Ep; [destruct Hj|].
  inversion Hnd as [|? ? Hni Hnd']; subst. cbn [fold_left].
  destruct (Nat.eq_dec j i) as [->|Hji].
  - rewrite (proj2 (bn_fold_frame idx _) i Hni). unfold bn_update. rewrite Ep.
    rewrite nth_error_replace_nth, Nat.eqb_refl by (apply nth_error_Some; congruence). reflexivity.
  - destruct Hj as [->|Hj]; [contradiction|]. apply IH; [exact Hnd'|exact Hj|].
    rewrite bn_update_other by exact Hji. exact Ep.
Qed.

End Track.

(** ** Fine-tuning the whole network *)

Lemma NoDup_params (n k : nat) : NoDup (seq n k ++ [n + k + 2; n + k + 3])%nat.
Proof.
  apply NoDup_app; [apply seq_NoDup| |].
  - constructor; [cbn; lia|]. constructor; [intros []|constructor].
  - intros a Ha. apply in_seq in Ha. cbn. lia.
Qed.

(** The tensors a cell appends are fresh: none has a gradient. *)
Lemma fresh_tail (T : store) (ds : list (list Q)) (j : nat) :
  (length T <= j < length (T ++ map (fun d => mk_param d None) ds))%nat ->
  exists p, nth_error (T ++ map (fun d => mk_param d None) ds) j = Some p /\ grad p = None.
Proof.
  intros Hj. rewrite length_app, length_map in Hj. rewrite nth_error_app2 by lia.
  destruct (nth_error (map (fun d => mk_param d None) ds) (j - length T)) as [p|] eqn:E.
  - apply nth_error_map_some in E as (d & _ & ->). eauto.
  - apply nth_error_None in E. rewrite length_map in E. lia.
Qed.

Section FineTuning.

Variable pb : list (list Q).
Variable pbn : list (list Q).
Variable pfc : list Q * list Q.
Variable fc_in : nat.
Variable li : nat -> nat -> list Q * list Q.
Variable sqrt : Q -> Q.
Variable Input : Type.
Variable loss_grad : store -> list Input -> list nat -> nat -> list Q.

(** C19: Fine-tuning (lines 407-419) trains the pretrained layers too: the
    first training step of [model_ft] never raises and moves every
    tensor of the convolutional body by [-lr] times its gradient (the
    first [SGD] step with momentum uses the gradient as its buffer). *)
Theorem finetune_first_step (w0 w1 : world) (m : resnet) (o : optimizer) (sc : steplr)
  (lr : Q) (inputs : list Input) (labels : list nat) :
  wf_world w0 -> finetune_cell pb pbn pfc fc_in li w0 = (w1, m, o, sc) ->
  exists o' w', train_step sqrt Input loss_grad m lr o w1 inputs labels = Ok (o', w') /\
    forall k j d, nth_error (body m) k = Some j -> nth_error pb k = Some d ->
      data_at (tensors w') j =
      Some (map2 (fun di gi => (di - lr * gi)%Q) d (loss_grad (tensors w1) inputs labels j)).
Proof.
  intros Hw E. rewrite (finetune_cell_spec pb pbn pfc fc_in li w0 Hw) in E. injection E as <- <- <- _.
  pose proof (with_bn_wf pbn w0 Hw) as Hw'. set (B := seq (length (tensors w0)) (length pbn)).
  set (w0' := with_bn pbn w0) in *.
  set (n := length (tensors w0')). set (k := length pb).
  set (T := tensors w0' ++ _). set (P := (seq n k ++ [n + k + 2; n + k + 3])%nat).
  assert (LT : length T = (n + k + 4)%nat) by (unfold T; rewrite !length_app, length_map; cbn; lia).
  assert (HT : T = tensors w0' ++ map (fun d => mk_param d None)
                     (pb ++ [fst pfc; snd pfc; fst (li fc_in 2); snd (li fc_in 2)]))
    by (unfold T; rewrite map_app; reflexivity).
  assert (Hfresh : forall j, (n <= j < n + k + 4)%nat -> exists p, nth_error T j = Some p /\ grad p = None)
    by (intros j Hj; rewrite HT; apply fresh_tail; rewrite <- HT; lia).
  assert (HP : forall j, In j P -> (n <= j < n + k + 4)%nat)
    by (intros j Hj; unfold P in Hj; rewrite in_app_iff, in_seq in Hj; cbn [In] in Hj; lia).
  unfold train_step, zero_grad. cbn [tensors flags body set_lr optim_SGD opt_params sgd_params].
  fold P. rewrite zero_grad_all_none by (apply Forall_forall; intros j Hj; apply Hfresh, HP; exact Hj).
  cbn [bind sgd_momentum sgd_buf]. set (W1 := mk_world T _).
  assert (LF : length (flags W1) = (n + k + 4)%nat) by (cbn; rewrite !length_app, repeat_length, Hw'; cbn; lia).
  assert (Hflag : forall j, (n <= j < n + k + 4)%nat -> flag_of W1 j = true)
    by (intros j Hj; apply flag_of_appended; rewrite Hw'; lia).
  change (parameters (mk_resnet (seq n k) B fc_in (n + k + 2) (n + k + 3))) with P.
  replace (existsb (flag_of W1) P) with true
    by (symmetry; apply existsb_exists; exists (n + k + 2)%nat;
        split; [unfold P; apply in_app_iff; right; left; reflexivity|apply Hflag; lia]).
  destruct (backward_params_ok (loss_grad T inputs labels) P W1) as [w2 E2].
  { unfold wf_world. rewrite LF. cbn [tensors W1]. rewrite LT. reflexivity. }
  { apply Forall_forall. intros j Hj. cbn [tensors W1]. rewrite LT. apply HP, Hj. }
  rewrite E2. cbn [bind]. destruct (backward_params_frame _ _ _ _ E2) as (_ & L2 & _). cbn [tensors W1] in L2.
  destruct (step_ok sqrt (SGD (mk_sgd P lr (9 # 10) (repeat None (length P)))) (tensors w2)) as [[o3 s3] E3].
  { apply Forall_forall. intros j Hj. rewrite L2, LT. apply HP, Hj. }
  rewrite E3. exists o3, (mk_world s3 (flags w2)). split; [reflexivity|].
  intros k' j d Hj Hd. rewrite nth_error_seq in Hj. destruct (Nat.ltb_spec k' k) as [Hk|]; [|discriminate].
  injection Hj as <-.
  assert (ET : nth_error T (n + k')%nat = Some (mk_param d None)) by (apply nth_error_appended; assumption).
  assert (Hin : In (n + k')%nat P) by (unfold P; apply in_app_iff; left; apply in_seq; lia).
  pose proof (backward_params_at _ _ _ _ _ _ (NoDup_params n k) Hin (Hflag (n + k')%nat ltac:(lia)) ET E2) as E2j.
  cbn [step sgd_params sgd_lr sgd_momentum sgd_buf] in E3. inv_okp.
  pose proof (step_each_at _ P (repeat None (length P)) _ _ _ _ None _ _ (NoDup_params n k) (repeat_length _ _)
               Hin (fun y Hy => repeat_spec _ _ _ Hy) E2j eq_refl Ha) as E3j.
  unfold data_at. cbn [tensors]. rewrite E3j. reflexivity.
Qed.

End FineTuning.

(** ** The fixed feature extractor *)

Lemma data_at_fresh (T : store) (ds : list (list Q)) (X : store) :
  map (data_at (T ++ map (fun d => mk_param d None) ds ++ X)) (seq (length T) (length ds)) = map Some ds.
Proof.
  revert T. induction ds as [|d ds IH]; intros T; [reflexivity|].
  cbn [length seq map app]. f_equal.
  - unfold data_at. rewrite nth_error_app2, Nat.sub_diag by lia. reflexivity.
  - specialize (IH (T ++ [mk_param d None])). rewrite <- app_assoc, length_app, Nat.add_1_r in IH.
    exact IH.
Qed.

Section ConvCell.

Variable pb : list (list Q).
Variable pbn : list (list Q).
Variable pfc : list Q * list Q.
Variable fc_in : nat.
Variable li : nat -> nat -> list Q * list Q.

(** What the cell of lines 502-520 leaves for training: the body's
    parameters and buffers as downloaded, the body frozen, the buffers
    apart from every parameter. *)
Lemma conv_cell_facts (w0 w1 : world) (m : resnet) (o : optimizer) (sc : steplr) :
  wf_world w0 -> conv_cell pb pbn pfc fc_in li w0 = Ok (w1, m, o, sc) ->
  map (data_at (tensors w1)) (body m) = map Some pb /\ opt_params o = fc_parameters m /\
  (forall j, In j (body m) -> ~ In j (fc_parameters m) /\ nth_error (flags w1) j = Some false) /\
  wf_world w1 /\ Forall (fun j => j < length (tensors w1))%nat (parameters m) /\
  existsb (flag_of w1) (parameters m) = true /\
  map (data_at (tensors w1)) (bn m) = map Some pbn /\ NoDup (bn m) /\
  (forall j, In j (bn m) -> ~ In j (body m) /\ ~ In j (fc_parameters m) /\ nth_error (flags w1) j = Some false).
Proof.
  intros Hw E. destruct (conv_cell_spec pb pbn pfc fc_in li w0 Hw) as (F & E' & LF & EF & FF).
  rewrite E' in E. injection E as <- <- <- _. cbn [tensors flags body bn fc_parameters].
  destruct (with_bn_spec pbn w0 Hw) as [HT HF]. set (w0' := with_bn pbn w0) in *.
  assert (Ln : length (tensors w0') = (length (tensors w0) + length pbn)%nat)
    by (rewrite HT, length_app, length_map; reflexivity).
  set (n := length (tensors w0')) in *. set (k := length pb) in *.
  split; [apply data_at_fresh|]. split; [reflexivity|]. split; [|split; [|split; [|split; [|split; [|split]]]]].
  - intros j Hj. apply in_seq in Hj. split; [cbn; lia|].
    rewrite nth_error_app1 by lia. apply FF. lia.
  - unfold wf_world. cbn. rewrite !length_app, length_map, LF. cbn. lia.
  - unfold parameters. apply Forall_forall. intros j Hj. cbn [body fc_weight fc_bias] in Hj.
    rewrite in_app_iff, in_seq in Hj. cbn [In] in Hj. rewrite !length_app, length_map. cbn. lia.
  - unfold parameters. cbn [body fc_weight fc_bias]. apply existsb_exists. exists (n + k + 2)%nat.
    split; [apply in_app_iff; right; left; reflexivity|]. unfold flag_of. cbn [flags].
    rewrite nth_error_app2 by lia. replace (n + k + 2 - length F)%nat with 0%nat by lia. reflexivity.
  - rewrite HT, <- app_assoc. apply data_at_fresh.
  - apply seq_NoDup.
  - intros j Hj. apply in_seq in Hj. split; [rewrite in_seq; lia|]. split; [cbn; lia|].
    rewrite nth_error_app1 by lia. rewrite EF by lia. rewrite HF, nth_error_app2 by (rewrite Hw; lia).
    apply nth_error_repeat. rewrite Hw. lia.
Qed.

Section Training.

Variable sqrt : Q -> Q.
Variable Input : Type.
Variable loss_grad : store -> list Input -> list nat -> nat -> list Q.
Variable net : bool -> store -> list Input -> list (list Q).
(** The statistic of buffer [j] over a batch, on the values of the store. *)
Variable batch_stat : store -> list Input -> nat -> list Q.
Variable criterion : list (list Q) -> list nat -> Q.
Variable loader : phase -> nat -> list (list Input * list nat).
Variable dataset_size : phase -> nat.

(** A training-mode forward pass changes the buffers and nothing else. *)
Lemma bn_track_frame (m : resnet) (w : world) (i : list Input) :
  flags (bn_track batch_stat m w i) = flags w /\ length (tensors (bn_track batch_stat m w i)) = length (tensors w) /\
  forall j, ~ In j (bn m) -> nth_error (tensors (bn_track batch_stat m w i)) j = nth_error (tensors w) j.
Proof.
  unfold bn_track. cbn [tensors flags].
  destruct (bn_fold_frame Input batch_stat (tensors w) i (bn m) (tensors w)) as [L N]. auto.
Qed.

Lemma conv_inv_step (w0 w1 : world) (m : resnet) (o0 : optimizer) (sc : steplr) :
  wf_world w0 -> conv_cell pb pbn pfc fc_in li w0 = Ok (w1, m, o0, sc) ->
  forall lr o w i l o' w', conv_inv w1 m o w ->
    train_step sqrt Input loss_grad m lr o w i l = Ok (o', w') -> conv_inv w1 m o' w'.
Proof.
  intros Hw E lr o w i l o' w' (F & L & P & B) Es.
  destruct (conv_cell_facts _ _ _ _ _ Hw E) as (_ & _ & Hb & _).
  destruct (train_step_frame _ _ _ _ _ _ _ _ _ _ _ Es) as (F' & P' & L' & N').
  split; [congruence|]. split; [congruence|]. split; [congruence|].
  intros j Hj. destruct (Hb j Hj) as [Hnf Hfl]. rewrite N', B by (rewrite ?P; auto;
    unfold flag_of; rewrite F, Hfl; reflexivity). reflexivity.
Qed.

(** The forward passes of the training phase keep the invariant: they
    move buffers, which are not parameters. *)
Lemma conv_inv_track (w0 w1 : world) (m : resnet) (o0 : optimizer) (sc : steplr) :
  wf_world w0 -> conv_cell pb pbn pfc fc_in li w0 = Ok (w1, m, o0, sc) ->
  forall o w i, conv_inv w1 m o w -> conv_inv w1 m o (bn_track batch_stat m w i).
Proof.
  intros Hw E o w i (F & L & P & B). destruct (conv_cell_facts _ _ _ _ _ Hw E) as (_ & _ & _ & _ & _ & _ & _ & _ & Hd).
  destruct (bn_track_frame m w i) as (F' & L' & N'). split; [congruence|]. split; [congruence|].
  split; [exact P|]. intros j Hj. rewrite N' by (intros Hn; exact (proj1 (Hd j Hn) Hj)). exact (B j Hj).
Qed.

Lemma conv_inv_ok (w0 w1 : world) (m : resnet) (o0 : optimizer) (sc : steplr) :
  wf_world w0 -> conv_cell pb pbn pfc fc_in li w0 = Ok (w1, m, o0, sc) ->
  forall lr o w i l, conv_inv w1 m o w -> exists r, train_step sqrt Input loss_grad m lr o w i l = Ok r.
Proof.
  intros Hw E lr o w i l (F & L & P & _).
  destruct (conv_cell_facts _ _ _ _ _ Hw E) as (_ & _ & _ & W1 & R1 & X1 & _).
  apply train_step_ok.
  - unfold wf_world in *. congruence.
  - rewrite L. exact R1.
  - rewrite P, L. unfold parameters in R1. apply Forall_app in R1. exact (proj2 R1).
  - unfold flag_of. rewrite F. exact X1.
Qed.

(** C16: Training [model_conv] (lines 502-520, then 552) leaves the
    parameters of its pretrained layers exactly as downloaded: whatever
    the data, the losses and the number of epochs, the model
    [train_model] returns has every parameter of the convolutional body
    equal to the pretrained one and still frozen; only the new [fc] is
    trained.  (The body's BatchNorm running statistics are buffers, not
    parameters, and do move: [conv_bn_moves].) *)
Theorem conv_backbone_fixed (w0 w1 : world) (m : resnet) (o : optimizer) (sc : steplr)
  (t : bool) (n : nat) (st : tstate world optimizer) :
  wf_world w0 -> conv_cell pb pbn pfc fc_in li w0 = Ok (w1, m, o, sc) ->
  train_model world optimizer Input (net_forward net) (bn_track batch_stat m) criterion
    (train_step sqrt Input loss_grad m) loader dataset_size w1 t o sc n = Ok st ->
  map (data_at (tensors (wts st))) (body m) = map Some pb /\
  Forall (fun j => flag_of (wts st) j = false) (body m).
Proof.
  intros Hw E Et. destruct (conv_cell_facts _ _ _ _ _ Hw E) as (D & P & Hb & _).
  destruct (train_model_inv _ _ _ _ _ _ _ _ _ (conv_inv w1 m) (conv_inv_step _ _ _ _ _ Hw E)
              (conv_inv_track _ _ _ _ _ Hw E)
              _ _ _ _ _ _ (conj eq_refl (conj eq_refl (conj P (fun _ _ => eq_refl)))) Et)
    as (o' & F & _ & _ & B).
  split.
  - rewrite <- D. apply map_ext_in. intros j Hj. unfold data_at. rewrite B by exact Hj. reflexivity.
  - apply Forall_forall. intros j Hj. unfold flag_of. rewrite F. rewrite (proj2 (Hb j Hj)). reflexivity.
Qed.

(** C17: The fixed feature extractor is not frozen as a whole: in every
    training batch of [model_conv] (from any state of its training, with
    [model.train()] of line 273 in force) the forward pass moves each
    BatchNorm running statistic of the pretrained body to
    [0.9 * running + 0.1 * batch] although no gradient reaches the body,
    and the optimizer step leaves it there, while every parameter of the
    body stays as downloaded. *)
Theorem conv_bn_moves (w0 w1 : world) (m : resnet) (o0 : optimizer) (sc : steplr)
  (st st' : tstate world optimizer) (inputs : list Input) (labels : list nat) (lo : Q) (c : nat) :
  wf_world w0 -> conv_cell pb pbn pfc fc_in li w0 = Ok (w1, m, o0, sc) -> conv_inv w1 m (opt st) (wts st) ->
  batch_step world optimizer Input (net_forward net) (bn_track batch_stat m) criterion
    (train_step sqrt Input loss_grad m) Train st inputs labels = Ok (st', lo, c) ->
  (forall j p, In j (bn m) -> nth_error (tensors (wts st)) j = Some p ->
     data_at (tensors (wts st')) j = Some (bn_momentum (data p) (batch_stat (tensors (wts st)) inputs j))) /\
  map (data_at (tensors (wts st'))) (body m) = map Some pb.
Proof.
  intros Hw E (F & L & P & B) Eb.
  destruct (conv_cell_facts _ _ _ _ _ Hw E) as (D & _ & Hb & _ & _ & _ & _ & Hnd & Hd).
  destruct (batch_step_train _ _ _ _ _ _ _ _ _ _ _ _ _ Eb) as (o & w & Es & ->). cbn [wts].
  destruct (train_step_frame _ _ _ _ _ _ _ _ _ _ _ Es) as (_ & _ & _ & N).
  destruct (bn_track_frame m (wts st) inputs) as (Ft & _ & Nt).
  assert (Hoff : forall j, In j (bn m) \/ In j (body m) -> nth_error (tensors w) j =
                   nth_error (tensors (bn_track batch_stat m (wts st) inputs)) j).
  { intros j Hj. apply N.
    - rewrite P. intros Hf. destruct Hj as [Hj|Hj]; [exact (proj1 (proj2 (Hd j Hj)) Hf)|exact (proj1 (Hb j Hj) Hf)].
    - unfold flag_of. rewrite Ft, F. destruct Hj as [Hj|Hj]; [rewrite (proj2 (proj2 (Hd j Hj)))|rewrite (proj2 (Hb j Hj))];
        reflexivity. }
  split.
  - intros j p Hj Ep. unfold data_at. rewrite Hoff by auto. unfold bn_track. cbn [tensors].
    rewrite (bn_fold_at Input batch_stat _ inputs (bn m) _ j p Hnd Hj Ep). reflexivity.
  - rewrite <- D. apply map_ext_in. intros j Hj. unfold data_at. rewrite Hoff by auto.
    rewrite Nt by (intros Hn; exact (proj1 (Hd j Hn) Hj)). rewrite B by exact Hj. reflexivity.
Qed.

(** C18: The fixed-feature-extractor cells run to completion: from any
    well-formed store, the cell of lines 502-520 and [train_model] on
    non-empty data sets never raise (no index out of range, and
    [loss.backward()] finds the new [fc] requiring a gradient). *)
Theorem conv_train_completes (w0 : world) (t : bool) (n : nat) :
  wf_world w0 -> (forall ph, dataset_size ph <> 0%nat) ->
  exists w1 m o sc st, conv_cell pb pbn pfc fc_in li w0 = Ok (w1, m, o, sc) /\
    train_model world optimizer Input (net_forward net) (bn_track batch_stat m) criterion
      (train_step sqrt Input loss_grad m) loader dataset_size w1 t o sc n = Ok st.
Proof.
  intros Hw Hd. destruct (conv_cell_spec pb pbn pfc fc_in li w0 Hw) as (F & E & _).
  set (w1 := mk_world _ _) in E. set (m := mk_resnet _ _ _ _ _) in E.
  destruct (conv_cell_facts _ _ _ _ _ Hw E) as (_ & P & _).
  destruct (train_model_progress world optimizer Input (net_forward net) (bn_track batch_stat m) criterion
              (train_step sqrt Input loss_grad m) loader dataset_size (conv_inv w1 m) (conv_inv_step _ _ _ _ _ Hw E)
              (conv_inv_track _ _ _ _ _ Hw E) (conv_inv_ok _ _ _ _ _ Hw E) w1 t _ (StepLR (1 # 1000) 7 (1 # 10)) n Hd
              (conj eq_refl (conj eq_refl (conj P (fun _ _ => eq_refl))))) as [st Et].
  exists w1, m. do 3 eexists. split; [exact E|exact Et].
Qed.

End Training.

End ConvCell.

(** ** Witnesses *)

(** Two pretrained body tensors, two BatchNorm buffers (a running mean
    and a running variance), a pretrained [fc], a zero initialisation,
    one example per batch, a constant gradient and constant batch
    statistics. *)
Definition ex_pb : list (list Q) := [[1]; [2; 3]]%Q.
Definition ex_pbn : list (list Q) := [[0; 0]; [1; 1]]%Q.
Definition ex_bs (s : store) (xs : list unit) (j : nat) : list Q := [1; 2]%Q.
Definition ex_pfc : list Q * list Q := ([4], [5])%Q.
Definition ex_li (a b : nat) : list Q * list Q := (repeat 0%Q (a * b), repeat 0%Q b).
Definition ex_grad (s : store) (xs : list unit) (ls : list nat) (j : nat) : list Q := [1; 1]%Q.
Definition ex_net (t : bool) (s : store) (xs : list unit) : list (list Q) := map (fun _ => [1; 0]%Q) xs.
Definition ex_crit (outs : list (list Q)) (ls : list nat) : Q := 0%Q.
Definition ex_loader (ph : phase) (e : nat) : list (list unit * list nat) := [([tt], [0%nat]); ([tt], [1%nat])].
Definition ex_size (ph : phase) : nat := 2.
Definition ex_w0 : world := mk_world [] [].

Lemma ex_size_pos : forall ph, ex_size ph <> 0%nat.
Proof. intros ph. discriminate. Qed.

Lemma conv_backbone_fixed_witness :
  wf_world ex_w0 /\
  exists w1 m o sc st,
    conv_cell ex_pb ex_pbn ex_pfc 1 ex_li ex_w0 = Ok (w1, m, o, sc) /\
    train_model world optimizer unit (net_forward ex_net) (bn_track ex_bs m) ex_crit
      (train_step (fun x => x) unit ex_grad m) ex_loader ex_size w1 true o sc 2 = Ok st /\
    map (data_at (tensors (wts st))) (body m) = map Some ex_pb /\
    Forall (fun j => flag_of (wts st) j = false) (body m).
Proof.
  split; [reflexivity|].
  destruct (conv_cell ex_pb ex_pbn ex_pfc 1 ex_li ex_w0) as [[[[w1 m] o] sc]|e] eqn:E;
    [|vm_compute in E; discriminate].
  pose proof E as E0. vm_compute in E0. injection E0 as <- <- <- <-.
  match type of E with _ = Ok (?w1, ?m, ?o, ?sc) => exists w1, m, o, sc end.
  match goal with |- context [train_model ?W ?O ?I ?f ?tr ?c ?s ?l ?d ?w ?t ?o ?sc ?n] =>
    destruct (train_model W O I f tr c s l d w t o sc n) as [st|e] eqn:Et; [|vm_compute in Et; discriminate]
  end.
  exists st. split; [exact E|]. split; [reflexivity|].
  exact (conv_backbone_fixed ex_pb ex_pbn ex_pfc 1 ex_li (fun x => x) unit ex_grad ex_net ex_bs ex_crit ex_loader ex_size
           ex_w0 _ _ _ _ true 2 st eq_refl E Et).
Defined.

Lemma conv_bn_moves_witness :
  wf_world ex_w0 /\
  match conv_cell ex_pb ex_pbn ex_pfc 1 ex_li ex_w0 with
  | Ok (w1, m, o0, sc) =>
      conv_inv w1 m o0 w1 /\
      match batch_step world optimizer unit (net_forward ex_net) (bn_track ex_bs m) ex_crit
              (train_step (fun x => x) unit ex_grad m) Train (mk_tstate w1 o0 sc true w1 0%Q) [tt] [0%nat] with
      | Ok (st', lo, c) =>
          (forall j p, In j (bn m) -> nth_error (tensors w1) j = Some p ->
             data_at (tensors (wts st')) j = Some (bn_momentum (data p) (ex_bs (tensors w1) [tt] j))) /\
          map (data_at (tensors (wts st'))) (body m) = map Some ex_pb
      | Err _ => False
      end
  | Err _ => False
  end.
Proof.
  split; [reflexivity|].
  destruct (conv_cell ex_pb ex_pbn ex_pfc 1 ex_li ex_w0) as [[[[w1 m] o0] sc]|e] eqn:E;
    [|vm_compute in E; discriminate].
  pose proof E as E0. vm_compute in E0. injection E0 as <- <- <- <-.
  assert (Hi : forall w1 m o0, opt_params o0 = fc_parameters m -> conv_inv w1 m o0 w1)
    by (intros w1 m o0 P; split; [reflexivity|]; split; [reflexivity|]; split; [exact P|]; intros; reflexivity).
  split; [apply Hi; reflexivity|].
  match goal with |- match ?b with Ok _ => _ | Err _ => _ end =>
    destruct b as [[[st' lo] c]|e] eqn:Eb; [|vm_compute in Eb; discriminate] end.
  refine (conv_bn_moves ex_pb ex_pbn ex_pfc 1 ex_li (fun x => x) unit ex_grad ex_net ex_bs ex_crit
           ex_w0 _ _ _ _ _ st' [tt] [0%nat] lo c eq_refl E _ Eb).
  apply Hi. reflexivity.
Defined.

Lemma conv_train_completes_witness :
  wf_world ex_w0 /\ (forall ph, ex_size ph <> 0%nat) /\
  exists w1 m o sc st, conv_cell ex_pb ex_pbn ex_pfc 1 ex_li ex_w0 = Ok (w1, m, o, sc) /\
    train_model world optimizer unit (net_forward ex_net) (bn_track ex_bs m) ex_crit
      (train_step (fun x => x) unit ex_grad m) ex_loader ex_size w1 true o sc 25 = Ok st.
Proof.
  split; [reflexivity|]. split; [exact ex_size_pos|].
  exact (conv_train_completes ex_pb ex_pbn ex_pfc 1 ex_li (fun x => x) unit ex_grad ex_net ex_bs ex_crit ex_loader
           ex_size ex_w0 true 25 eq_refl ex_size_pos).
Defined.

Lemma finetune_first_step_witness :
  wf_world ex_w0 /\
  let '(w1, m, o, sc) := finetune_cell ex_pb ex_pbn ex_pfc 1 ex_li ex_w0 in
  exists o' w', train_step (fun x => x) unit ex_grad m (1 # 1000)%Q o w1 [tt] [0%nat] = Ok (o', w') /\
    forall k j d, nth_error (body m) k = Some j -> nth_error ex_pb k = Some d ->
      data_at (tensors w') j =
      Some (map2 (fun di gi => (di - (1 # 1000) * gi)%Q) d (ex_grad (tensors w1) [tt] [0%nat] j)).
Proof.
  split; [reflexivity|].
  destruct (finetune_cell ex_pb ex_pbn ex_pfc 1 ex_li ex_w0) as [[[w1 m] o] sc] eqn:E.
  exact (finetune_first_step ex_pb ex_pbn ex_pfc 1 ex_li (fun x => x) unit ex_grad ex_w0 w1 m o sc
           (1 # 1000)%Q [tt] [0%nat] eq_refl E).
Defined.

End Finetune.
