(* ===== verification/Notebook.v ===== *)
(** * Running the notebooks: cells, global names and [NameError]

    A notebook is run top to bottom in one Python kernel.  This file
    models what decides whether a run raises [NameError]: the global
    names each statement reads and binds, in the order of the cells.
    A [def] binds the function and records the global names its body
    reads; they are looked up when the function is called (Python's late
    binding), not when it is defined.  Values are not modelled here; the
    computations of the cells are the subject of the other files.

    The three notebooks are [optim_nb] (the [torch.optim] tutorial,
    lines 1-692 of [src/optimization_tutorial.ipynb]), [visual_nb] (the
    visual-understanding notebook, lines 694-1558 of the same file) and
    [transfer_nb] ([src/unnamed/part_000]). *)

From S2P Require Import Prelude.
From Stdlib Require Import String.

Module Notebook.
Local Open Scope string_scope.
Local Open Scope list_scope.

Abbreviation name := String.string (only parsing).

(** The global namespace: each name with the globals its body reads when
    it is a function defined by the notebook ([[]] otherwise).  The most
    recent binding comes first. *)
Definition env := list (name * list name).

Inductive stmt :=
(** A statement that reads [uses] (in evaluation order), calls the
    notebook's functions [calls], then binds [binds]. *)
| Exec (uses calls binds : list name)
(** [def f(...)] (or [class f(...)]): [uses] are read when the
    definition runs (decorators, default values, base classes), [free]
    when [f] is called. *)
| Def (f : name) (uses free : list name).

Definition cell := list stmt.

Definition bound (e : env) (n : name) : bool := existsb (fun p => String.eqb (fst p) n) e.

Definition free_of (e : env) (f : name) : list name :=
  match find (fun p => String.eqb (fst p) f) e with Some (_, fr) => fr | None => [] end.

(** Reading the names [ns] in order: the first unbound one raises. *)
Fixpoint need (e : env) (ns : list name) : result unit :=
  match ns with
  | [] => Ok tt
  | n :: ns' => if bound e n then need e ns' else Err (NameError n)
  end.

(** Calling the functions [fs]: each must exist, and the globals its body
    reads must exist when it runs. *)
Fixpoint need_calls (e : env) (fs : list name) : result unit :=
  match fs with
  | [] => Ok tt
  | f :: fs' =>
      if bound e f then let* _ := need e (free_of e f) in need_calls e fs'
      else Err (NameError f)
  end.

Definition run_stmt (e : env) (s : stmt) : result env :=
  match s with
  | Exec us cs bs =>
      let* _ := need e us in
      let* _ := need_calls e cs in
      Ok (map (fun b => (b, [])) (rev bs) ++ e)
  | Def f us fr =>
      let* _ := need e us in
      Ok ((f, fr) :: e)
  end.

Fixpoint run_cell (e : env) (c : cell) : result env :=
  match c with
  | [] => Ok e
  | s :: c' => let* e := run_stmt e s in run_cell e c'
  end.

(** Running the cells in order; the first exception stops the run. *)
Fixpoint run_notebook (e : env) (cs : list cell) : result env :=
  match cs with
  | [] => Ok e
  | c :: cs' => let* e := run_cell e c in run_notebook e cs'
  end.

(** The builtins the notebooks use. *)
Definition builtins : env :=
  map (fun n => (n, []))
    ["print"; "range"; "len"; "float"; "next"; "iter"; "enumerate"; "isinstance"].

(** ** The [torch.optim] tutorial *)

(** Lines 55-67: the imports.  [torch.optim] is not imported. *)
Definition optim_imports : cell :=
  [Exec [] [] ["torch"]; Exec [] [] ["nn"]; Exec [] [] ["F"]; Exec [] [] ["sklearn"];
   Exec [] [] ["plt"]; Exec [] [] ["make_moons"]; Exec ["torch"; "print"] [] []].

(** Line 156: [X, y = make_moons(100, shuffle=True, noise=0.1)]. *)
Definition moons_cell : cell := [Exec ["make_moons"] [] ["X"; "y"]].

(** Line 177: [plt.scatter(X[:, 0], X[:, 1], c=y)]. *)
Definition scatter_cell : cell := [Exec ["plt"; "X"; "X"; "y"] [] []].

(** Lines 207-211: [weight], [bias] and the tensors [X], [y]. *)
Definition params_cell : cell :=
  [Exec ["torch"] [] ["weight"]; Exec ["torch"] [] ["bias"];
   Exec ["torch"; "X"; "torch"] [] ["X"]; Exec ["torch"; "y"; "torch"] [] ["y"]].

(** Line 239: [optimizer = optim.SGD([weight, bias], lr=0.001)]. *)
Definition optimizer_cell : cell := [Exec ["optim"; "weight"; "bias"] [] ["optimizer"]].

(** Line 267: [loss_fn = F.binary_cross_entropy_with_logits]. *)
Definition loss_cell : cell := [Exec ["F"] [] ["loss_fn"]].

(** Lines 309-324: [n_epochs = 100] and the training loop. *)
Definition loop_cell : cell :=
  [Exec [] [] ["n_epochs"]; Exec ["n_epochs"] [] ["loss_epoch"];
   Exec ["range"; "n_epochs"] [] ["epoch"]; Exec ["range"] [] ["i"];
   Exec ["optimizer"] [] []; Exec ["torch"; "X"; "i"; "weight"; "bias"] [] ["y_predicted"];
   Exec ["loss_fn"; "y_predicted"; "y"; "i"] [] ["loss"]; Exec ["loss"] [] [];
   Exec ["optimizer"] [] []; Exec ["loss_epoch"; "epoch"; "loss"] [] [];
   Exec ["plt"] [] []; Exec ["plt"] [] []; Exec ["plt"; "loss_epoch"] [] []].

(** Lines 371-384: the cloned parameters and the four optimizers. *)
Definition clones_cell : cell :=
  [Exec ["torch"] [] ["weight"]; Exec ["torch"] [] ["bias"];
   Exec ["weight"; "bias"] [] ["params_sgd"]; Exec ["optim"; "params_sgd"] [] ["sgd"];
   Exec ["weight"; "bias"] [] ["params_sgdmom"]; Exec ["optim"; "params_sgdmom"] [] ["sgdmom"];
   Exec ["weight"; "bias"] [] ["params_rms"]; Exec ["optim"; "params_rms"] [] ["rms"];
   Exec ["weight"; "bias"] [] ["params_adam"]; Exec ["optim"; "params_adam"] [] ["adam"]].

(** Lines 412-424: [def train(optimizer, weight, bias)]; its body reads
    the globals [n_epochs], [X], [y] and [loss_fn]. *)
Definition train_def_cell : cell :=
  [Def "train" [] ["n_epochs"; "range"; "range"; "torch"; "X"; "loss_fn"; "y"]].

(** Lines 442, 460, 478 and 496: the four calls of [train]. *)
Definition train_calls : list cell :=
  [[Exec ["train"; "sgd"; "params_sgd"; "params_sgd"] ["train"] ["loss_sgd"]];
   [Exec ["train"; "sgdmom"; "params_sgdmom"; "params_sgdmom"] ["train"] ["loss_sgdmom"]];
   [Exec ["train"; "rms"; "params_rms"; "params_rms"] ["train"] ["loss_rms"]];
   [Exec ["train"; "adam"; "params_adam"; "params_adam"] ["train"] ["loss_adam"]]].

(** Lines 517-523: the plot of the four loss curves. *)
Definition plot_cell : cell :=
  [Exec ["plt"] [] []; Exec ["plt"] [] [];
   Exec ["plt"; "loss_sgd"] [] ["legend_sgd"]; Exec ["plt"; "loss_sgdmom"] [] ["legend_sgdmom"];
   Exec ["plt"; "loss_rms"] [] ["legend_rms"]; Exec ["plt"; "loss_adam"] [] ["legend_adam"];
   Exec ["plt"; "legend_sgd"; "legend_sgdmom"; "legend_rms"; "legend_adam"] [] []].

(** Lines 581-642: the MNIST exercise. *)
Definition mnist_cells : list cell :=
  [[Exec [] [] ["datasets"; "transforms"]; Exec ["datasets"; "transforms"; "transforms"; "transforms"] [] ["mnist_train"]];
   [Exec ["print"; "len"; "mnist_train"] [] []];
   [Exec ["mnist_train"] [] ["data"; "label"]];
   [Exec ["print"; "data"] [] []; Exec ["print"; "label"] [] []]].

(** The notebook in its order: lines 55-177, 207-267, 309-324, 371-496
    and 517-642. *)
Definition optim_data : list cell := [optim_imports; moons_cell; scatter_cell].
Definition optim_model : list cell := [params_cell; optimizer_cell; loss_cell].
Definition optim_compare : list cell := clones_cell :: train_def_cell :: train_calls.
Definition optim_rest : list cell := plot_cell :: mnist_cells.

Definition optim_nb : list cell :=
  optim_data ++ optim_model ++ [loop_cell] ++ optim_compare ++ optim_rest.

(** ** The visual-understanding notebook *)

(** Lines 738-755: the imports. *)
Definition visual_imports : cell :=
  [Exec [] [] ["torch"]; Exec [] [] ["nn"]; Exec [] [] ["torchvision"]; Exec [] [] ["Image"];
   Exec [] [] ["plt"]; Exec [] [] ["pylab"]; Exec [] [] ["cm"]; Exec [] [] ["np"];
   Exec [] [] ["requests"]; Exec [] [] ["BytesIO"]; Exec ["torch"; "print"] [] []].

(** Lines 785-837: [load], [imshow], [upsample] and [blend]. *)
Definition helpers_cell : cell :=
  [Def "load" [] ["requests"; "Image"; "BytesIO"];
   Def "imshow" [] ["isinstance"; "Image"; "np"; "isinstance"; "torch"; "plt"; "plt"; "plt"];
   Def "upsample" [] ["isinstance"; "torch"; "isinstance"; "np"; "Image"; "Image"; "np"];
   Def "blend" [] ["upsample"; "isinstance"; "torch"; "np"; "Image"; "cm"; "Image"; "Image"; "np"]].

(** Lines 875-940: [CustomResNet], [resnet50], [device], [mean], [std],
    [normalize], [unnormalize] and [img_transform]. *)
Definition model_cell : cell :=
  [Exec [] [] ["models"]; Exec [] [] ["transforms"]; Exec [] [] ["model_zoo"];
   Def "CustomResNet" ["models"] ["nn"];
   Def "resnet50" [] ["CustomResNet"; "models"; "model_zoo"; "models"];
   Exec ["torch"; "torch"] [] ["device"];
   Exec ["torch"; "torch"; "device"] [] ["mean"]; Exec ["torch"; "torch"; "device"] [] ["std"];
   Exec ["transforms"; "mean"; "std"] [] ["normalize"];
   Exec ["transforms"; "mean"; "std"; "std"] [] ["unnormalize"];
   Exec ["transforms"; "transforms"; "transforms"; "normalize"] [] ["img_transform"]].

(** Lines 959-960 and 985-993: the plain ResNet, and the pretrained model
    in evaluation mode with frozen parameters. *)
Definition regular_cell : cell :=
  [Exec ["models"; "models"] [] ["regular_resnet"]; Exec ["print"; "regular_resnet"] [] []].

Definition eval_cell : cell :=
  [Exec ["resnet50"] ["resnet50"] ["model"]; Exec ["model"] [] [];
   Exec ["model"] [] ["parameter"]; Exec ["parameter"] [] [];
   Exec ["model"; "device"] [] ["model"]].

(** Lines 1023-1153: an image, its features and their norms. *)
Definition features_cells : list cell :=
  [[Exec ["load"] ["load"] ["image"]; Exec ["imshow"; "image"] ["imshow"] []];
   [Exec ["img_transform"; "image"] [] ["processed_image"]];
   [Exec ["torch"; "model"; "processed_image"; "device"] [] ["outputs"];
    Exec ["print"; "outputs"] [] []];
   [Exec ["outputs"] [] ["activations"]; Exec ["activations"] [] ["activation"];
    Exec ["imshow"; "activation"] ["imshow"] []; Exec ["plt"] [] []];
   [Exec ["imshow"; "blend"; "image"; "activations"] ["imshow"; "blend"] []]].

(** Lines 1231-1232: the cloud image. *)
Definition cloud_cell : cell :=
  [Exec ["load"] ["load"] ["img"]; Exec ["imshow"; "img"] ["imshow"] []].

(** Lines 1264-1333: [random_shift], [default_grad_fn] and [dream]; the
    default value [grad_fn=default_grad_fn] is read when [dream] is
    defined, and the body of [dream] reads the other globals (those of
    [random_shift] included) when it runs. *)
Definition dream_cell : cell :=
  [Exec [] [] ["random"]; Exec [] [] ["shift"]; Exec [] [] ["do_random_shifts"];
   Def "random_shift" [] ["random"; "shift"; "random"; "shift"; "random"; "shift"; "random"; "shift"];
   Exec [] [] ["layer"];
   Def "default_grad_fn" [] ["layer"; "layer"];
   Def "dream" ["default_grad_fn"]
     ["mean"; "std"; "mean"; "std"; "device"; "img_transform"; "device"; "range";
      "do_random_shifts"; "random_shift"; "random"; "shift"; "model"; "torch"; "unnormalize"]].

(** Lines 1351-1352: [result = dream(img)]. *)
Definition dream_call_cell : cell :=
  [Exec ["dream"; "img"] ["dream"; "default_grad_fn"] ["result"]; Exec ["imshow"; "result"] ["imshow"] []].

(** Lines 1421-1446: the guide features and [my_grad_fn]. *)
Definition guide_cell : cell :=
  [Exec ["load"] ["load"] ["image"]; Exec ["img_transform"; "image"] [] ["processed_image"];
   Exec ["processed_image"; "device"] [] ["data"]; Exec ["model"; "data"] [] ["guide"];
   Def "my_grad_fn" [] ["guide"; "torch"]].

(** Lines 1464-1465 and 1500-1511: the two other runs of [dream]. *)
Definition guided_call_cell : cell :=
  [Exec ["dream"; "img"; "my_grad_fn"] ["dream"; "my_grad_fn"] ["result"];
   Exec ["imshow"; "result"] ["imshow"] []].

Definition class_cell : cell :=
  [Def "my_grad_fn2" [] ["torch"; "device"];
   Exec ["dream"; "img"; "my_grad_fn2"] ["dream"; "my_grad_fn2"] ["result"];
   Exec ["imshow"; "result"] ["imshow"] []].

(** The notebook in its order: lines 738-837, 875-993, 1023-1153,
    1231-1352 and 1421-1511. *)
Definition visual_setup : list cell := [visual_imports; helpers_cell].
Definition visual_model : list cell := [model_cell; regular_cell; eval_cell].
Definition visual_dream : list cell := [cloud_cell; dream_cell; dream_call_cell].
Definition visual_guided : list cell := [guide_cell; guided_call_cell; class_cell].

Definition visual_nb : list cell :=
  visual_setup ++ visual_model ++ features_cells ++ visual_dream ++ visual_guided.

(** ** The transfer-learning notebook *)

(** Lines 54-71: the imports. *)
Definition transfer_imports : cell :=
  [Exec [] [] ["print_function"; "division"]; Exec [] [] ["torch"]; Exec [] [] ["nn"];
   Exec [] [] ["optim"]; Exec [] [] ["lr_scheduler"]; Exec [] [] ["np"];
   Exec [] [] ["torchvision"]; Exec [] [] ["datasets"; "models"; "transforms"];
   Exec [] [] ["plt"]; Exec [] [] ["time"]; Exec [] [] ["os"]; Exec [] [] ["copy"];
   Exec ["torch"; "print"] [] []].

(** Lines 111-113: shell commands, no Python names. *)
Definition download_cell : cell := [].

(** Lines 131-160: transforms, data sets, loaders, sizes, classes, device. *)
Definition data_cell : cell :=
  [Exec ["transforms"] [] ["data_transforms"]; Exec [] [] ["data_dir"];
   Exec ["datasets"; "os"; "data_dir"; "data_transforms"] [] ["image_datasets"];
   Exec ["torch"; "image_datasets"] [] ["dataloaders"];
   Exec ["len"; "image_datasets"] [] ["dataset_sizes"];
   Exec ["image_datasets"] [] ["class_names"];
   Exec ["torch"; "torch"] [] ["device"]; Exec ["print"; "device"] [] []].

(** Lines 204-224: [imshow] and a grid of training images. *)
Definition show_cell : cell :=
  [Def "imshow" [] ["np"; "np"; "np"; "plt"; "plt"; "plt"; "plt"];
   Exec ["next"; "iter"; "dataloaders"] [] ["inputs"; "classes"];
   Exec ["torchvision"; "inputs"] [] ["out"];
   Exec ["imshow"; "out"; "class_names"; "classes"] ["imshow"] []].

(** Lines 261-323 and 353-377: [train_model] and [visualize_model]. *)
Definition train_model_cell : cell :=
  [Def "train_model" []
     ["time"; "copy"; "range"; "print"; "print"; "dataloaders"; "device"; "device";
      "torch"; "torch"; "torch"; "float"; "torch"; "dataset_sizes"; "dataset_sizes";
      "print"; "copy"; "time"; "print"; "print"]].

Definition visualize_cell : cell :=
  [Def "visualize_model" ["torch"]
     ["plt"; "enumerate"; "dataloaders"; "device"; "device"; "torch"; "range"; "plt";
      "class_names"; "imshow"; "np"; "plt"]].

(** Lines 407-468: fine-tuning the whole network. *)
Definition finetune_cell : cell :=
  [Exec ["models"] [] ["model_ft"]; Exec ["model_ft"] [] ["num_ftrs"];
   Exec ["nn"; "num_ftrs"; "model_ft"] [] []; Exec ["model_ft"; "device"] [] ["model_ft"];
   Exec ["nn"] [] ["criterion"]; Exec ["optim"; "model_ft"] [] ["optimizer_ft"];
   Exec ["lr_scheduler"; "optimizer_ft"] [] ["exp_lr_scheduler"]].

Definition finetune_runs : list cell :=
  [[Exec ["train_model"; "model_ft"; "criterion"; "optimizer_ft"; "exp_lr_scheduler"]
      ["train_model"] ["model_ft"]];
   [Exec ["visualize_model"; "model_ft"] ["visualize_model"] []]].

(** Lines 502-581: the network as a fixed feature extractor. *)
Definition conv_cell : cell :=
  [Exec ["torchvision"] [] ["model_conv"]; Exec ["model_conv"] [] ["param"];
   Exec ["param"] [] []; Exec ["model_conv"] [] ["num_ftrs"];
   Exec ["nn"; "num_ftrs"; "model_conv"] [] []; Exec ["model_conv"; "device"] [] ["model_conv"];
   Exec ["nn"] [] ["criterion"]; Exec ["optim"; "model_conv"] [] ["optimizer_conv"];
   Exec ["lr_scheduler"; "optimizer_conv"] [] ["exp_lr_scheduler"]].

Definition conv_runs : list cell :=
  [[Exec ["train_model"; "model_conv"; "criterion"; "optimizer_conv"; "exp_lr_scheduler"]
      ["train_model"] ["model_conv"]];
   [Exec ["visualize_model"; "model_conv"] ["visualize_model"] []]].

(** The notebook in its order: lines 54-160, 204-377, 407-468 and
    502-581. *)
Definition transfer_setup : list cell := [transfer_imports; download_cell; data_cell].
Definition transfer_defs : list cell := [show_cell; train_model_cell; visualize_cell].
Definition transfer_finetune : list cell := finetune_cell :: finetune_runs.
Definition transfer_conv : list cell := conv_cell :: conv_runs.

Definition transfer_nb : list cell :=
  transfer_setup ++ transfer_defs ++ transfer_finetune ++ transfer_conv.

(** ** Runs of the notebooks *)

(** C20: The [torch.optim] tutorial stops at line 239 with
    [NameError: name 'optim' is not defined]: its imports (lines 55-62)
    never import [torch.optim]. *)
Theorem optim_nb_name_error : run_notebook builtins optim_nb = Err (NameError "optim").
Proof. vm_compute. reflexivity. Qed.

(** The two other notebooks, as written, run to the end without a
    [NameError]: every global a cell reads, or a function it calls reads
    through late binding, is bound by an earlier cell. *)
Theorem notebooks_run :
  (exists e, run_notebook builtins visual_nb = Ok e) /\
  (exists e, run_notebook builtins transfer_nb = Ok e).
Proof.
  split.
  - destruct (run_notebook builtins visual_nb) eqn:E; [eauto|vm_compute in E; discriminate].
  - destruct (run_notebook builtins transfer_nb) eqn:E; [eauto|vm_compute in E; discriminate].
Qed.

End Notebook.
